(* ===== verification/_CoqProject ===== *)
-Q . S2P
Prelude.v
PyStr.v
PyRegex.v
SreParse.v
PriceWords.v
Effects.v
PdfToText.v
PageFormat.v
PyJson.v
JsonDecode.v
JsonEncode.v
JsonGrammar.v
Jsonify.v
PyPath.v
QueryLlm.v
MenuSchema.v
MenuApi.v
Server.v
Routing.v
Process.v
Threads.v
QueryString.v
