(* ===== verification/Prelude.v ===== *)
(** * A verification development for pdf-to-json-parser

    The repository converts a drinks-menu PDF into a JSON description in
    two stages, wired together by a small Flask service:

    - [src/pdf_to_text.py] (the text extractor): [extract_text_hybrid]
      reads the text layer of every page with pdfplumber, keeps the pages
      whose stripped text is non-empty, and only when no page at all has
      text falls back to [extract_text_from_image_pdf], which rasterises
      the document at 300 DPI with pdf2image, runs tesseract on every page
      and cleans the OCR output with [clean_ocr_text] / [fix_price_words]
      (a regular expression that rewrites an [S] misread for a dollar sign
      in front of a number or a price word).  The kept pages are printed
      as ["Page n: text"] lines joined by newlines.
    - [src/query_llm.py] (the structurer): [format_prompt] pastes the text
      under a constant instruction block, [query_model_to_json] sends the
      prompt to the generative model once and decodes the reply with
      [json.loads].
    - [src/menu_api.py] (the HTTP layer): two handlers, [upload_pdf] and
      [process_pdf], validate the request, run the two stages in sequence
      and write the decoded JSON under [output_jsons].

    Data flows one way: path -> page-labelled text -> prompt -> reply ->
    JSON value -> HTTP response.  No component keeps state between calls;
    the only state is the outside world (files, PDF libraries, the model),
    which the development represents by interfaces (typeclasses) and a
    trace of the calls made, in order.

    ** Files, in dependency order

    - [Prelude] (this file): the scope [pdfmenu_scope], the tactics
      [bool_hyps] and [case_goal], the hint databases [pdfmenu] (resolve)
      and [pdfmenu_rw] (rewrite), generic lemmas on lists.
    - [PyStr]: Python [str] on code points U+0000-U+00FF (an [ascii] byte
      read as Latin-1): the classes [\w], [\d], [isspace] and [lower] as
      CPython tabulates them on that range, [str.strip], [sep.join],
      [str(int)], [startswith]/[endswith]; character facts are proved by
      evaluating a boolean over all 256 code points ([all_chars]).
    - [PyRegex]: the subset of CPython's [_sre] the code uses: syntax
      ([RAtom], [RPlus] = [REPEAT_ONE], [RAlt], [RGroup], [RBound] = [\b]),
      the backtracking matcher [m] in continuation-passing style, [search]
      and [sub] ([pattern_subx] with the must-advance rule of 3.7+).  The
      loop of [sub] runs on fuel [2 * len + 2]; [sub_terminates] shows the
      fuel is never what stops it (a measure decreases at every round).
    - [SreParse]: the text of the pattern as the code builds it:
      [str.format] with automatic fields and [sre_parse.parse] on the
      fragment of the regex syntax the pattern uses, with [re.error]'s
      messages and positions.
    - [PriceWords]: [PRICE_WORDS], the pattern and template built from it,
      [fix_price_words], [clean_ocr_text]; the specification [fix_spec]
      (a character changes iff a match starts there) and the refinement
      theorem that the engine run equals it, with its consequences.
    - [Effects]: Python exceptions ([exn]), external calls ([event]), the
      monad [M A = list event * (exn + A)] with [call], [finally] (the
      [with] statement), [catch] ([try/except]), its laws, and invariants
      of traces ([trace_all]).
    - [PdfToText]: the libraries as the class [PdfLibraries]
      ([pdfplumber.open] and [pdf.pages] as two calls, the second inside
      the [with] block; [document_pages] is both); both loops as
      [scan_pages]; [read_text_layer] (the [with pdfplumber.open] block),
      [extract_text_from_image_pdf], [serialize_pages],
      [extract_text_hybrid], and the script's driver [pdf_to_text_main];
      stub libraries for the witnesses.
    - [PageFormat]: a reader [read_pages] for the serialised page text
      (split at newlines, parse each ["Page n: text"] line); it is the
      specification side of the round trip, not code of the repository.
    - [PyJson]: JSON values ([json]: [None], bools, [int] as [Z], [float]
      as its binary64 bit pattern, [str], lists, dicts as association
      lists), [dict_set] (a key keeps its first place and takes the last
      value), the runtime class [JsonRuntime] ([float()], [float.__repr__],
      [chr] above U+00FF) and the decoder interface [JsonDecoder].
    - [JsonDecode]: [json.loads] as CPython's C scanner ([Modules/_json.c],
      strict mode) runs it: [scan_string], [scan_number] with the
      4300-digit limit of [int()], the constants [NaN]/[Infinity]/[null]...,
      and the mutual [scan_once]/[object_members]/[array_items] on the rest
      of the document; [JSONDecodeError] carries CPython's message with
      line, column and char position.  [cpython_json_decoder] is its
      [JsonDecoder] instance.
    - [JsonEncode]: [json.dump(v, f, indent=2)] as the pure-Python
      [_make_iterencode] with [ensure_ascii] and [allow_nan]; the
      well-formedness [json_wf] of decoded values; the predicate
      [reads_back] and the round trip of dump and load.
    - [JsonGrammar]: the grammar of RFC 8259 with CPython's extensions as
      inductive predicates ([jvalue], [jelems], [jmembers], [json_text]);
      the scanners of [JsonDecode] are sound and complete for it.
    - [Jsonify]: the body of [jsonify(v)] under [app.run(debug=True)]:
      Python's [str] order ([str_ltb]), [sorted(dct.items())] as the
      insertion sort [sort_items], the value with sorted dicts
      ([sort_json]) and its text with [indent=2] and a final newline
      ([jsonify_text]); what the client sees of it: every dict's keys in
      order ([keys_sorted]) and the value up to the order of dict items
      ([reorders]).
    - [PyPath]: [posixpath.join], [split], [dirname], [normpath] and
      [PurePosixPath.with_suffix] (3.11).
    - [QueryLlm]: the model settings, the prompt (its lines checked byte for
      byte against the f-string), [query_model_to_json] against the class
      [GenerativeModel].
    - [MenuSchema]: the recognised brands and the example output, read off
      the prompt's lines, and the MenuDocument of the specification
      (section 3) as the predicate [menu_document_wf] on decoded values.
    - [MenuApi]: requests, responses, the [FileSystem] interface, the shared
      [try] body [process_and_save] (extract, query, [with_suffix],
      [open(json_path, 'w')], the text of [json.dump] and its write),
      [upload_pdf] and [process_pdf].
    - [Server]: the service over a sequence of requests: a world of files
      and directories; the import of [menu_api] ([import_menu_api]: the
      two [os.makedirs(..., exist_ok=True)] of lines 16-17, with [mkdir]
      and its [OSError]s); the disk changes of each request's calls
      ([apply_event]: [file.save] and [open(p, 'w')] act only when [open]
      finds the parent directory, [open_error] otherwise); one request as
      [serve], [app.run] as [serve_all], the script as [app_main] (and
      as [app_main_reloader] under [debug=True], whose reloader runs the
      module a second time before serving), and the disks a run can leave
      as [reachable].
    - [Threads]: [app.run]'s threaded server: a thread per request with
      its trace, program counter and open descriptor ([thread_event],
      [overwrite]: [O_TRUNC] at open, writes at the descriptor's offset);
      interleavings as schedules ([run_schedule]) and as the step
      relation [cstep]; the footprint of a request on the disk
      ([read_paths], [changed_paths]) and the batches whose requests do
      not look at what another changes ([requests_isolated]), those on
      which a trace computed at arrival is the one the thread makes.
    - [Routing]: [app = Flask(__name__)] and the two [@app.route]
      decorators as the url map [url_map] (Flask's automatic [OPTIONS],
      Werkzeug's [HEAD] for a [GET] rule), Werkzeug's matching
      ([url_match]: a view, [404] or [405]), Flask's dispatch of one HTTP
      request on the disk of [Server] ([serve_http]) and [app.run] over a
      sequence of them ([serve_http_all]).
    - [Process]: the process started by a script: [os.environ] as a
      stdpp [gmap] ([environ_setitem] with [os.putenv]'s checks,
      [environ_getitem] with its [KeyError]), the module body of
      [query_llm] (lines 8-9, [query_llm_setup]), the genai library as
      the class [GenaiService] and the [GenerativeModel] it gives once
      configured ([configured_model]); the driver of [query_llm.py]
      ([query_llm_main]) and [python menu_api.py] as a whole: the imports
      of lines 6-7, the body of [menu_api], and [app.run] over HTTP
      requests with the configured model ([menu_api_main]).
    - [QueryString]: [request.args] as Werkzeug builds it from the raw
      query string: CPython's [parse_qsl] ([qsl_fields], [qsl_field],
      [split_once], [replace_plus]), [unquote] ([unquote_runs] over the
      ASCII runs, [unquote_to_bytes]) and the UTF-8 decoding with
      Werkzeug's [werkzeug.url_quote] error handler ([utf8_decode_fuel]);
      the raw request ([wsgi_request]), the request the views read
      ([flask_request]) and [app.run] over raw requests
      ([serve_wsgi_all]).  The client's [quote_plus]/[urlencode] state
      what a client can send.

    ** What the theorems show (claims C1-C30 of the manifest)

    - Cleanup: the regex run refines the specification (C1); the
      pattern text the code builds parses to that regex (C11).
    - Extraction: text-layer reads (C4), the document-level fallback
      (C2), the OCR path (C3), a well-formed page list
      (C27) whose page numbers lie between 1 and the page count pdfplumber
      reports, or the number of images pdf2image rendered on the OCR
      path (C28).  The document is closed on every path once
      opened, also when [pdf.pages] raises, and the serialisation is read
      back when no page text holds a newline (lemmas
      [read_text_layer_pages_raise], [read_text_layer_closes],
      [serialize_pages_roundtrip]).
    - JSON: [json.loads] accepts exactly the texts of the
      JSON grammar with CPython's extensions, [NaN] and [Infinity] among
      them (C10), reads integers
      up to the 4300-digit limit within their digit bounds, the limit of
      the grammar's numbers (C9); dump then load is
      the identity on every value [json.loads] returns (C7).  The body [jsonify]
      sends is read back as the value with only the order of its dicts'
      items changed, every dict's keys sorted (C25).
    - API: end-to-end success of the handlers (C5); on [200] the
      output file reloads to the response body (C6); failures become
      500 (C29), a
      reply is answered unchanged whether or not it is a MenuDocument
      (C5); [upload_pdf] saves before
      anything and only [file.save] can escape (C30), and
      the client can name files outside both folders (C8).
    - Runs: on every disk a run of requests leaves, every [.json] file
      is the dump of a well-formed value, so it loads
      (C12); any answer but [200]
      leaves the [.json] files as they were (C13), and an uploaded
      file is found by the next [GET /process-pdf] once the service has
      started (C14).  Starting the service makes both folders
      unless a file stands in the way, which stops it with [FileExistsError]
      (C15), and the second start under the reloader of [debug=True]
      changes nothing (C16); once started, every request of a run is answered
      (C17).  A name with a folder in it is extracted and sent to the
      model, then fails to open its output file and is answered [500]
      (C18).
    - Threads: two requests sharing an output file interleave into a
      file [json.loads] rejects (C19); requests that are isolated
      (none looks at a path another saves or writes) and share no output
      leave the [.json] files loadable in every interleaving (C20).
    - Routing: a request reaches a view exactly when it is [POST /upload-pdf]
      or [GET]/[HEAD /process-pdf] (C21); a [HEAD] runs the
      whole pipeline and writes the output as the [GET] does, with no body
      sent (C22); every JSON body the server sends is well formed,
      and the client reads it back (C26).
    - Wire: Werkzeug's [request.args] reads back whatever a client
      [urlencode]s, so [app.run] over the raw requests of a run gives
      the disk and the answers of [serve_http_all], every [pdf] argument
      reaching [process_pdf] as the client wrote it (C23).
    - Process: whatever [os.environ] held, [python menu_api.py] serves every
      request with the model configured with the key literal of line 8,
      which replaces an exported [GEMINI_API_KEY] (C24).

    ** Bounds and fuel

    [sub] runs on [2 * len s + 2] rounds; each round either moves the
    search start forward or, after an empty match, sets the must-advance
    flag, so [2 * (len - start) + (1 if not must-advance)] decreases
    ([sub_measure_decreases]).  [json.loads] runs on [2 * len doc + 1]:
    every call of the scanners consumes a character before recursing, and
    every container costs one more call than its characters, so the fuel
    needed is at most twice the length read plus one
    ([scanners_consume], [scanners_fuel]); [loads_with_enough] shows any
    larger fuel gives the same answer.  The UTF-8 decoding of a query
    string runs on as many rounds as it has bytes, each round consuming
    one byte at least ([utf8_decode_fuel_enough]).  The page loops and
    [iterencode] are structural.  Integers keep their Python value ([Z]); the
    4300-digit limit of [int()] and [int.__repr__] is written out.

    ** Evaluation against CPython

    The models of library code were run beside CPython 3.11 on random
    inputs, by evaluating the definitions: [posix_normpath], [posix_split],
    [os_path_join], [with_suffix] (for [Path], i.e. [PosixPath]),
    [py_repr_str] on Latin-1, [json_dump_text 2] on values without
    floats and [fix_price_words] on Latin-1 texts agree with [posixpath],
    [pathlib], [repr], [json.dumps(v, indent=2)] and [re.sub]; [open_error], [os_makedirs] and [is_dir]
    agree with [open(p, 'w')], [os.makedirs(p, exist_ok=True)] and
    [os.path.isdir] on a real tree for paths without [..].  The error
    messages of [loads] and [sre_parse] were compared the same way, and
    [parse_qsl] with [unquote] against [urllib.parse.parse_qsl] with
    Werkzeug's error handler on 800 random query strings.

    ** Hypotheses on the float runtime

    The round trip of [JsonEncode] (C8) and its consequence for the API
    (C7) assume of [JsonRuntime] only what CPython guarantees: the repr of
    a finite float is a JSON number literal, and [float()] of it gives back
    the same bits; [float()] yields a 64-bit pattern, and a NaN only as
    the canonical one.  [decimal_runtime] satisfies them and serves the witnesses.

    ** Not modelled

    Flask's parsing of the multipart body of an upload ([request.files]
    is given as pairs of field and file name) and its WSGI server (its
    routing is [Routing], its query strings [QueryString]; a path with two slashes in a row, which Werkzeug
    redirects, is outside it); the contents of PDF files, rasterisation and OCR, and the
    model (interfaces: [PdfLibraries], [GenaiService]); the binary64 arithmetic of [float()] and
    [float.__repr__] (the class [JsonRuntime]); Python's recursion limit
    in [json.loads]/[json.dump] on deeply nested values; partial writes
    of a [json.dump] that fails halfway (the text is computed first and
    written once); code points above U+00FF (the decoding of a query
    string that holds one gives [None]), and raw query strings that are
    not ASCII; the imports of the
    libraries themselves (an [ImportError] of a missing package); the
    value of the key literal of [query_llm.py] line 8, which is the
    section variable [key_literal] of [Process] (the development does
    not reproduce it; the witnesses use a test key).
    In [Server], directories are identified by their [normpath] and files
    by their spelling ([a/../b] and [b] are different files), symlinks,
    permissions and a full disk are not modelled, and the bytes of an
    upload are a parameter.  In [Threads], a request's trace is computed
    on the disk it arrives at, so a request that reads what a concurrent
    one writes (a [GET /process-pdf] of a file being uploaded) is not
    covered: the safety theorem of [Threads] assumes the batch is
    isolated ([requests_isolated]).  [request.args] is parsed when the request arrives, where
    Werkzeug parses it when a view first reads it: the two differ only
    on a query string the model leaves out.  [os.makedirs] runs on the
    fuel [1 + len name]: each recursive call is on the head of
    [posixpath.split], which is shorter.

    ** Plan for the next sittings

    - [sre_parse]'s own rewrites of the tree (common prefixes, sets) and
      the syntax beyond the fragment, so that any word list is covered.
    - The round trip of [loads] and [dump] in the other direction (the
      texts [json.dump] produces are exactly the canonical ones).
    - Werkzeug's [merge_slashes] redirect, so that [Routing] covers every
      path.
    - The threaded server with traces computed as the threads run, so
      that requests that read what another one writes are covered, and
      over HTTP requests ([Threads] over [serve_http]).
*)

From Stdlib Require Import String Ascii List Lia Bool PeanoNat.
Import ListNotations.

Declare Scope pdfmenu_scope.
Delimit Scope pdfmenu_scope with pdfmenu.

Create HintDb pdfmenu.
Create Rewrite HintDb pdfmenu_rw.

(** Split boolean conjunctions and disjunctions in hypotheses. *)
Ltac bool_hyps :=
  repeat match goal with
         | H : (_ && _)%bool = true |- _ => apply andb_prop in H; destruct H
         | H : (_ || _)%bool = false |- _ => apply orb_false_elim in H; destruct H
         | H : negb _ = true |- _ => apply negb_true_iff in H
         | H : negb _ = false |- _ => apply negb_false_iff in H
         end.

(** Case on the head [if] or [match] of the goal, naming the equation. *)
Ltac case_goal :=
  match goal with
  | |- context [if ?b then _ else _] =>
      let E := fresh "E" in destruct b eqn:E
  | |- context [match ?x with _ => _ end] =>
      let E := fresh "E" in destruct x eqn:E
  end.

(** The same on a hypothesis. *)
Ltac case_hyp H :=
  match type of H with
  | context [if ?b then _ else _] =>
      let E := fresh "E" in destruct b eqn:E
  | context [match ?x with _ => _ end] =>
      let E := fresh "E" in destruct x eqn:E
  end.

(** Case on every [if] and [match] of [H] and of the equations this
    produces, simplifying as it goes. *)
Ltac case_all H :=
  repeat (first [ case_hyp H
                | match goal with E : context [match _ with _ => _ end] |- _ => case_hyp E end ];
          simpl in *;
          repeat match goal with E : (_, _) = (_, _) |- _ => injection E; clear E; intros; subst end).

(** ** Generic list lemmas *)

(** Apply a fallible function to every element, stopping at the first
    error (a loop whose body may raise). *)
Fixpoint sum_map {E A B} (f : A -> E + B) (xs : list A) : E + list B :=
  match xs with
  | [] => inr []
  | x :: r =>
      match f x with
      | inl e => inl e
      | inr y => match sum_map f r with inl e => inl e | inr ys => inr (y :: ys) end
      end
  end.

(** [l[i] = x] on a list of threads: nothing happens out of range. *)
Fixpoint set_nth {A} (i : nat) (x : A) (l : list A) : list A :=
  match l, i with
  | [], _ => []
  | _ :: r, 0 => x :: r
  | y :: r, S j => y :: set_nth j x r
  end.

(** Induction on the length of a list, for scanners that consume
    several elements at a time. *)
Lemma list_length_ind {A} (P : list A -> Prop) :
  (forall l, (forall l', length l' < length l -> P l') -> P l) -> forall l, P l.
Proof.
  intros H l. induction l as [l IH] using (well_founded_induction (Wf_nat.well_founded_ltof _ (@length A))).
  apply H. exact IH.
Qed.

Lemma nth_error_app_r_at {A} (l l' : list A) (n : nat) :
  nth_error (l ++ l') (length l + n) = nth_error l' n.
Proof. rewrite nth_error_app2 by lia. f_equal. lia. Qed.

Lemma firstn_skipn_nth {A} (l : list A) (i : nat) (x : A) :
  nth_error l i = Some x -> firstn i l ++ x :: skipn (S i) l = l.
Proof.
  revert i. induction l as [|y l IH]; intros [|i] H; simpl in *; try discriminate.
  - injection H as ->. reflexivity.
  - f_equal. apply IH. exact H.
Qed.

Lemma skipn_nth_cons {A} (l : list A) (i : nat) (x : A) :
  nth_error l i = Some x -> skipn i l = x :: skipn (S i) l.
Proof.
  revert i. induction l as [|y l IH]; intros [|i] H; simpl in *; try discriminate.
  - injection H as ->. reflexivity.
  - apply IH. exact H.
Qed.

Lemma nth_error_some_lt {A} (l : list A) (n : nat) (x : A) :
  nth_error l n = Some x -> n < length l.
Proof. intros H. apply nth_error_Some. congruence. Qed.

Lemma nth_error_none_skipn {A} (l : list A) (n : nat) :
  nth_error l n = None -> skipn n l = [].
Proof. intros H. apply skipn_all2. apply nth_error_None. exact H. Qed.

(** A slice [l[a:a+n]] read character by character. *)
Lemma firstn_skipn_map_nth {A} (l : list A) (d : A) : forall n a,
  a + n <= length l ->
  firstn n (skipn a l) = map (fun q => nth q l d) (seq a n).
Proof.
  induction n as [|n IH]; intros a H; [reflexivity|].
  destruct (nth_error l a) as [x|] eqn:E.
  - rewrite (skipn_nth_cons _ _ _ E). cbn [firstn map seq]. rewrite (nth_error_nth _ _ _ E).
    f_equal. apply IH. lia.
  - apply nth_error_None in E. lia.
Qed.

Lemma skipn_map_nth {A} (l : list A) (d : A) (a : nat) :
  skipn a l = map (fun q => nth q l d) (seq a (length l - a)).
Proof.
  destruct (Nat.le_gt_cases a (length l)) as [H|H].
  - rewrite <- firstn_skipn_map_nth by lia. symmetry. apply firstn_all2.
    rewrite length_skipn. lia.
  - rewrite skipn_all2 by lia. replace (length l - a) with 0 by lia. reflexivity.
Qed.

(** Two lists of the same length on which [f] agrees position by position. *)
Lemma forallb_nth_eq {A} (f : A -> bool) : forall l1 l2,
  length l1 = length l2 ->
  (forall q x y, nth_error l1 q = Some x -> nth_error l2 q = Some y -> f x = f y) ->
  forallb f l1 = forallb f l2.
Proof.
  induction l1 as [|x l1 IH]; intros [|y l2] Hlen H; simpl in *; try discriminate; [reflexivity|].
  rewrite (H 0 x y eq_refl eq_refl). f_equal. apply IH; [lia|].
  intros q a b Ha Hb. exact (H (S q) a b Ha Hb).
Qed.

#[export] Hint Resolve nth_error_some_lt : pdfmenu.

#[export] Hint Rewrite length_app length_map length_rev length_seq : pdfmenu_rw.
#[export] Hint Rewrite app_nil_r : pdfmenu_rw.

Lemma sum_map_Forall2 {E A B} (f : A -> E + B) (P : A -> B -> Prop) xs :
  Forall (fun x => exists y, f x = inr y /\ P x y) xs ->
  exists ys, sum_map f xs = inr ys /\ Forall2 P xs ys.
Proof.
  induction 1 as [|x xs (y & Hy & Hp) _ (ys & Hys & Hps)]; [exists []; auto|].
  exists (y :: ys). simpl. rewrite Hy, Hys. auto.
Qed.

Lemma length_set_nth {A} (x : A) : forall l i, length (set_nth i x l) = length l.
Proof. induction l as [|y l IH]; intros [|i]; simpl; auto. Qed.

Lemma nth_error_set_nth {A} (x : A) : forall l i j,
  nth_error (set_nth i x l) j = if Nat.eqb i j then (if i <? length l then Some x else None) else nth_error l j.
Proof.
  induction l as [|y l IH]; intros i j.
  - destruct i, j; simpl; try reflexivity. destruct (_ =? _); reflexivity.
  - destruct i as [|i], j as [|j]; simpl; try reflexivity. rewrite IH. reflexivity.
Qed.

Lemma set_nth_twice {A} (x y : A) : forall l i, set_nth i x (set_nth i y l) = set_nth i x l.
Proof. induction l as [|z l IH]; intros [|i]; simpl; f_equal; auto. Qed.

Lemma app_two_inj {A} (l1 l2 : list A) a b c d : l1 ++ [a; b] = l2 ++ [c; d] -> l1 = l2 /\ a = c /\ b = d.
Proof.
  change [a; b] with ([a] ++ [b]). change [c; d] with ([c] ++ [d]). rewrite !List.app_assoc.
  intros H. apply app_inj_tail in H as [H ->]. apply app_inj_tail in H as [-> ->]. auto.
Qed.

Lemma map_set_nth {A B} (f : A -> B) (a b : A) : forall l i,
  nth_error l i = Some a -> f b = f a -> map f (set_nth i b l) = map f l.
Proof.
  induction l as [|x l IH]; intros [|i] Hi Hf; cbn in *; try discriminate.
  - injection Hi as ->. rewrite Hf. reflexivity.
  - rewrite (IH i Hi Hf). reflexivity.
Qed.
