(* ===== verification/PyStr.v ===== *)
(** * Python [str] on the Latin-1 range

    A Python string is modelled as a [list ascii], each byte read as the
    code point U+0000-U+00FF.  The character predicates below are those
    CPython's [_sre] and [str] methods use ([Py_UNICODE_ISALNUM],
    [Py_UNICODE_ISDECIMAL], [Py_UNICODE_ISSPACE], [Py_UNICODE_TOLOWER]),
    tabulated on that range.  [strip], [join], [str_of_nat] and
    [str_of_Z] model [str.strip()], [sep.join(xs)] and [str(n)];
    [Z_of_digits] is [int(s)] on a digit string. *)

From Stdlib Require Import String Ascii List Lia Bool PeanoNat ZArith
  DecimalString DecimalNat DecimalN DecimalFacts.
From S2P Require Import Prelude.
Import ListNotations.

Abbreviation pystr := (list ascii).

(** A string literal of the source, as a list of code points. *)
Definition lit (s : string) : pystr := list_ascii_of_string s.

Definition code (c : ascii) : nat := nat_of_ascii c.

Definition in_range (lo hi : nat) (c : ascii) : bool :=
  (lo <=? code c) && (code c <=? hi).

(** [\d] in a str pattern: [Py_UNICODE_ISDECIMAL], on U+0000-U+00FF the
    ten ASCII digits. *)
Definition is_decimal (c : ascii) : bool := in_range 48 57 c.

(** [Py_UNICODE_ISALNUM] on U+0000-U+00FF: ASCII letters and digits, the
    Latin-1 letters (ª µ º, À-Ö, Ø-ö, ø-ÿ) and the Latin-1 digits and
    numerics (² ³ ¹ ¼ ½ ¾). *)
Definition is_alnum (c : ascii) : bool :=
  is_decimal c || in_range 65 90 c || in_range 97 122 c
  || existsb (Nat.eqb (code c)) [170; 178; 179; 181; 185; 186; 188; 189; 190]
  || in_range 192 214 c || in_range 216 246 c || in_range 248 255 c.

(** [\w] in a str pattern ([SRE_UNI_IS_WORD]): alphanumeric or '_'. *)
Definition is_word (c : ascii) : bool := is_alnum c || (code c =? 95).

(** [Py_UNICODE_ISSPACE] on U+0000-U+00FF: \t \n \v \f \r, the four
    separators U+001C-U+001F, space, NEL (U+0085) and NBSP (U+00A0). *)
Definition is_space (c : ascii) : bool :=
  in_range 9 13 c || in_range 28 32 c || (code c =? 133) || (code c =? 160).

(** [Py_UNICODE_TOLOWER] on U+0000-U+00FF. *)
Definition lower (c : ascii) : ascii :=
  if in_range 65 90 c || in_range 192 214 c || in_range 216 222 c
  then ascii_of_nat (code c + 32) else c.

(** The literal ["\n"]. *)
Definition newline : pystr := ["010"%char].

(** [str.strip()] with no argument: drop leading, then trailing,
    whitespace. *)
Fixpoint lstrip (s : pystr) : pystr :=
  match s with
  | [] => []
  | c :: r => if is_space c then lstrip r else s
  end.

Definition rstrip (s : pystr) : pystr := rev (lstrip (rev s)).

Definition strip (s : pystr) : pystr := rstrip (lstrip s).

(** Truthiness of a string: [if text.strip():]. *)
Definition truthy (s : pystr) : bool :=
  match s with [] => false | _ => true end.

(** [sep.join(xs)]. *)
Fixpoint join (sep : pystr) (xs : list pystr) : pystr :=
  match xs with
  | [] => []
  | [x] => x
  | x :: r => x ++ sep ++ join sep r
  end.

(** [str(n)] for a non-negative [int], through the decimal printer of the
    Standard Library. *)
Definition str_of_nat (n : nat) : pystr :=
  lit (NilEmpty.string_of_uint (Nat.to_uint n)).

(** The digits of a decimal numeral, read back, as [int(s)]. *)
Definition int_of_digits (s : pystr) : option nat :=
  option_map Nat.of_uint (NilEmpty.uint_of_string (string_of_list_ascii s)).

(** [str(n)] of a Python [int]: the decimal digits, with [-] when
    negative. *)
Definition str_of_N (n : N) : pystr := lit (NilEmpty.string_of_uint (N.to_uint n)).

Definition str_of_Z (z : Z) : pystr :=
  if (z <? 0)%Z then "-"%char :: str_of_N (Z.to_N (Z.opp z)) else str_of_N (Z.to_N z).

(** The value of a decimal digit string (Horner's rule, as [int(s)]). *)
Definition digit_step (acc : Z) (c : ascii) : Z := (acc * 10 + Z.of_nat (code c - 48))%Z.

Definition Z_of_digits (ds : pystr) : Z := fold_left digit_step ds 0%Z.

(** Split off the leading decimal digits. *)
Fixpoint span_decimal (s : pystr) : pystr * pystr :=
  match s with
  | c :: r => if is_decimal c then let (a, b) := span_decimal r in (c :: a, b) else ([], s)
  | [] => ([], [])
  end.

(** [s.split(sep)]. *)
Fixpoint split_on (sep : ascii) (s : pystr) : list pystr :=
  match s with
  | [] => [[]]
  | c :: r =>
      let parts := split_on sep r in
      if Ascii.eqb c sep then [] :: parts
      else match parts with p :: ps => (c :: p) :: ps | [] => [[c]] end
  end.

(** [s.removeprefix(prefix)] when [s] starts with it. *)
Fixpoint strip_prefix (pre l : pystr) : option pystr :=
  match pre, l with
  | [], _ => Some l
  | c :: pre', d :: l' => if Ascii.eqb c d then strip_prefix pre' l' else None
  | _ :: _, [] => None
  end.

(** [s.endswith(suffix)] and [s.startswith(prefix)]. *)
Fixpoint startswith (s p : pystr) {struct p} : bool :=
  match p, s with
  | [], _ => true
  | c :: p', d :: s' => Ascii.eqb c d && startswith s' p'
  | _ :: _, [] => false
  end.

Definition endswith (s p : pystr) : bool := startswith (rev s) (rev p).

(** String equality, as [==] on [str]. *)
Definition pystr_eqb (a b : pystr) : bool := if list_eq_dec ascii_dec a b then true else false.

(** ** [repr] of a [str] (Objects/unicodeobject.c, [unicode_repr]) *)

Definition hex_digit (n : nat) : ascii := ascii_of_nat (if n <? 10 then 48 + n else 87 + n).

(** [\xhh] with lowercase digits. *)
Definition hex_escape (c : ascii) : pystr :=
  ["092"%char; "x"%char; hex_digit (code c / 16); hex_digit (code c mod 16)].

(** [Py_UNICODE_ISPRINTABLE] above U+007E in the Latin-1 range: U+00A1-U+00FF
    except the soft hyphen U+00AD. *)
Definition latin1_printable (c : ascii) : bool := (160 <? code c) && negb (code c =? 173).

Definition repr_char (q c : ascii) : pystr :=
  if Ascii.eqb c q || Ascii.eqb c "092"%char then ["092"%char; c]
  else if code c =? 9 then ["092"%char; "t"%char]
  else if code c =? 10 then ["092"%char; "n"%char]
  else if code c =? 13 then ["092"%char; "r"%char]
  else if (code c <? 32) || (code c =? 127) then hex_escape c
  else if code c <? 127 then [c]
  else if latin1_printable c then [c]
  else hex_escape c.

(** [repr(s)]: single quotes unless [s] holds a single quote and no
    double quote. *)
Definition py_repr_str (s : pystr) : pystr :=
  let q := if existsb (Ascii.eqb "'"%char) s && negb (existsb (Ascii.eqb "034"%char) s)
           then "034"%char else "'"%char in
  q :: flat_map (repr_char q) s ++ [q].

(** ** Character facts, checked over the whole range *)

(** A property of every code point, decided by enumerating the 256 of
    them; the lemmas below are proved by evaluating it. *)
Definition all_chars (f : ascii -> bool) : bool :=
  forallb f (map ascii_of_nat (seq 0 256)).

Lemma all_chars_spec f : all_chars f = true -> forall c, f c = true.
Proof.
  unfold all_chars. rewrite forallb_forall. intros H c. apply H.
  rewrite <- (ascii_nat_embedding c). apply in_map, in_seq.
  pose proof (nat_ascii_bounded c). lia.
Qed.

Lemma all_chars_impl (f g : ascii -> bool) :
  all_chars (fun c => implb (f c) (g c)) = true -> forall c, f c = true -> g c = true.
Proof.
  intros H c Hf. pose proof (all_chars_spec _ H c) as Hc. simpl in Hc. rewrite Hf in Hc. exact Hc.
Qed.

Lemma is_decimal_word c : is_decimal c = true -> is_word c = true.
Proof. revert c. apply all_chars_impl. vm_compute. reflexivity. Qed.

Lemma is_word_lower c : is_word (lower c) = is_word c.
Proof.
  apply Bool.eqb_prop. revert c.
  apply (all_chars_spec (fun c => Bool.eqb (is_word (lower c)) (is_word c))).
  vm_compute. reflexivity.
Qed.

Lemma is_space_not_word c : is_space c = true -> is_word c = false.
Proof.
  intros H. apply negb_true_iff. revert c H.
  apply (all_chars_impl is_space (fun c => negb (is_word c))). vm_compute. reflexivity.
Qed.

#[export] Hint Resolve is_decimal_word is_space_not_word : pdfmenu.

(** ** [str.strip] *)

Lemma forallb_lstrip l : forallb is_space (lstrip l) = forallb is_space l.
Proof.
  induction l as [|c l IH]; simpl; [reflexivity|].
  destruct (is_space c) eqn:E; simpl; [exact IH|]. rewrite E. reflexivity.
Qed.

Lemma lstrip_nil_iff l : lstrip l = [] <-> forallb is_space l = true.
Proof.
  induction l as [|c l IH]; simpl; [tauto|].
  destruct (is_space c); simpl; [exact IH|]. split; discriminate.
Qed.

Lemma forallb_rev_eq {A} (f : A -> bool) l : forallb f (rev l) = forallb f l.
Proof.
  apply Bool.eq_iff_eq_true. rewrite !forallb_forall.
  split; intros H x Hx; apply H; [apply in_rev in Hx | apply in_rev]; exact Hx.
Qed.

(** A stripped string is empty exactly when the string is all whitespace. *)
Lemma strip_nil_iff l : strip l = [] <-> forallb is_space l = true.
Proof.
  unfold strip, rstrip. rewrite <- forallb_lstrip, <- forallb_rev_eq, <- lstrip_nil_iff.
  split; intros H; [|rewrite H; reflexivity].
  destruct (lstrip (rev (lstrip l))); [reflexivity|].
  simpl in H. destruct (rev l0); discriminate.
Qed.

(** [if text.strip():] holds exactly when [text] has a non-space character. *)
Lemma truthy_strip l : truthy (strip l) = negb (forallb is_space l).
Proof.
  destruct (forallb is_space l) eqn:E.
  - apply strip_nil_iff in E. rewrite E. reflexivity.
  - destruct (strip l) eqn:S; [|reflexivity]. apply strip_nil_iff in S. congruence.
Qed.

(** ** Prefixes and separators *)

Lemma lit_char_app c X : lit (String c EmptyString) ++ X = c :: X.
Proof. reflexivity. Qed.

Lemma join_cons_cons sep a b r : join sep (a :: b :: r) = a ++ sep ++ join sep (b :: r).
Proof. reflexivity. Qed.

Lemma join_cons_app sep t ts : exists r, join sep (t :: ts) = t ++ r.
Proof. destruct ts; [exists []; rewrite List.app_nil_r | eexists]; reflexivity. Qed.

Lemma strip_prefix_app pre l : strip_prefix pre (pre ++ l) = Some l.
Proof. induction pre as [|c pre IH]; simpl; [reflexivity|]. rewrite Ascii.eqb_refl. exact IH. Qed.

Lemma startswith_app l p r : startswith l p = true -> startswith (l ++ r) p = true.
Proof.
  revert l. induction p as [|c p IH]; intros [|d l] H; simpl in *; try discriminate; [reflexivity..|].
  apply andb_prop in H as [H1 H2]. rewrite H1. simpl. apply IH, H2.
Qed.

Lemma startswith_refl p : startswith p p = true.
Proof. induction p as [|c p IH]; simpl; [reflexivity|]. rewrite Ascii.eqb_refl. exact IH. Qed.

(** A text ending with [p] still does after something is put before it. *)
Lemma endswith_app_l x s p : endswith s p = true -> endswith (x ++ s) p = true.
Proof. unfold endswith. rewrite rev_app_distr. apply startswith_app. Qed.

Lemma endswith_app s p : endswith (s ++ p) p = true.
Proof. apply endswith_app_l. unfold endswith. apply startswith_refl. Qed.

(** The last element of a join ends it. *)
Lemma join_snoc sep xs y : exists r, join sep (xs ++ [y]) = r ++ y.
Proof.
  induction xs as [|x xs IH]; [exists []; reflexivity|].
  destruct IH as [r Hr]. destruct xs as [|x' xs].
  - exists (x ++ sep). simpl. rewrite <- List.app_assoc. reflexivity.
  - exists (x ++ sep ++ r). cbn [List.app]. rewrite join_cons_cons. cbn [List.app] in Hr.
    rewrite Hr, <- !List.app_assoc. reflexivity.
Qed.

(** Splitting at a separator a text that does not contain it. *)
Lemma split_on_no_sep sep x : ~ In sep x -> split_on sep x = [x].
Proof.
  induction x as [|c x IH]; intros H; [reflexivity|]. simpl.
  destruct (Ascii.eqb c sep) eqn:E.
  - apply Ascii.eqb_eq in E. subst. exfalso. apply H. left. reflexivity.
  - rewrite IH by (intros Hin; apply H; right; exact Hin). reflexivity.
Qed.

Lemma split_on_app_sep sep x y : ~ In sep x -> split_on sep (x ++ sep :: y) = x :: split_on sep y.
Proof.
  induction x as [|c x IH]; intros H; simpl.
  - rewrite Ascii.eqb_refl. reflexivity.
  - destruct (Ascii.eqb c sep) eqn:E.
    + apply Ascii.eqb_eq in E. subst. exfalso. apply H. left. reflexivity.
    + rewrite IH by (intros Hin; apply H; right; exact Hin). reflexivity.
Qed.

(** [sep.join(xs).split(sep)] gives [xs] back when no element holds [sep]. *)
Lemma split_on_join sep xs :
  xs <> [] -> Forall (fun x => ~ In sep x) xs -> split_on sep (join [sep] xs) = xs.
Proof.
  intros Hne H. induction H as [|x xs Hx Hxs IH]; [contradiction|].
  destruct xs as [|y ys]; simpl.
  - apply split_on_no_sep, Hx.
  - change ([sep] ++ join [sep] (y :: ys)) with (sep :: join [sep] (y :: ys)).
    rewrite split_on_app_sep by exact Hx. f_equal. apply IH. discriminate.
Qed.

(** ** [str(n)] *)

Lemma uint_digits_decimal d :
  Forall (fun c => is_decimal c = true) (lit (NilEmpty.string_of_uint d)).
Proof. induction d; simpl; constructor; auto. Qed.

Lemma str_of_nat_decimal n : Forall (fun c => is_decimal c = true) (str_of_nat n).
Proof. apply uint_digits_decimal. Qed.

Lemma str_of_nat_nonempty n : str_of_nat n <> [].
Proof.
  unfold str_of_nat. destruct (Nat.to_uint n) eqn:E; try discriminate.
  pose proof (DecimalNat.Unsigned.of_to n) as H. rewrite E in H. simpl in H. subst n. discriminate E.
Qed.

(** *** [str(int)] and [int(str)] *)

Lemma fold_uint_acc u :
  forall acc z, z = Zpos acc ->
  fold_left digit_step (lit (NilEmpty.string_of_uint u)) z = Zpos (Pos.of_uint_acc u acc).
Proof.
  induction u; intros acc z Hz; cbn [NilEmpty.string_of_uint lit list_ascii_of_string fold_left Pos.of_uint_acc];
    [exact Hz | ..]; apply IHu; unfold digit_step; subst; simpl (Z.of_nat _); lia.
Qed.

Lemma Z_of_digits_uint u : Z_of_digits (lit (NilEmpty.string_of_uint u)) = Z.of_N (N.of_uint u).
Proof.
  unfold Z_of_digits. generalize (eq_refl 0%Z). generalize 0%Z at 1 3 as z.
  induction u; intros z Hz; cbn [NilEmpty.string_of_uint lit list_ascii_of_string fold_left N.of_uint Pos.of_uint];
    [exact Hz | ..];
    first [ apply IHu | apply fold_uint_acc ]; unfold digit_step; subst; simpl (Z.of_nat _); lia.
Qed.

Lemma Z_of_digits_str_of_N n : Z_of_digits (str_of_N n) = Z.of_N n.
Proof. unfold str_of_N. rewrite Z_of_digits_uint, DecimalN.Unsigned.of_to. reflexivity. Qed.

Lemma str_of_N_decimal n : Forall (fun c => is_decimal c = true) (str_of_N n).
Proof. apply uint_digits_decimal. Qed.

Lemma str_of_N_nonempty n : str_of_N n <> [].
Proof.
  unfold str_of_N. destruct n as [|p]; [discriminate|]. simpl.
  pose proof (DecimalPos.Unsigned.to_uint_nonnil p) as H.
  destruct (Pos.to_uint p); simpl; congruence.
Qed.

(** [str(n)] has no leading zero. *)
Lemma str_of_N_lead n c r : str_of_N n <> "0"%char :: c :: r.
Proof.
  unfold str_of_N. intros H.
  pose proof (DecimalN.Unsigned.to_of (N.to_uint n)) as Hn.
  rewrite DecimalN.Unsigned.of_to in Hn.
  destruct (N.to_uint n) as [|u|u|u|u|u|u|u|u|u|u]; simpl in H; try discriminate.
  injection H as H. destruct (Decimal.nzhead (Decimal.D0 u)) eqn:Ez;
    [apply unorm_0 in Ez; rewrite Ez in Hn; injection Hn as ->; discriminate | ..].
  all: rewrite unorm_nzhead in Hn by congruence; exact (nzhead_nonzero _ _ (eq_sym Hn)).
Qed.

Lemma fold_digit_shift ds z :
  fold_left digit_step ds z = (z * 10 ^ Z.of_nat (length ds) + fold_left digit_step ds 0)%Z.
Proof.
  revert z. induction ds as [|c ds IH]; intros z; cbn [fold_left length]; [simpl; lia|].
  rewrite (IH (digit_step z c)), (IH (digit_step 0 c)). unfold digit_step.
  rewrite Nat2Z.inj_succ, Z.pow_succ_r by lia. lia.
Qed.

Lemma is_decimal_value c : is_decimal c = true -> (0 <= Z.of_nat (code c - 48) <= 9)%Z.
Proof. unfold is_decimal, in_range. intros H. bool_hyps. apply Nat.leb_le in H, H0. lia. Qed.

Lemma Z_of_digits_cons c ds :
  Z_of_digits (c :: ds) = (Z.of_nat (code c - 48) * 10 ^ Z.of_nat (length ds) + Z_of_digits ds)%Z.
Proof. unfold Z_of_digits. cbn [fold_left]. rewrite fold_digit_shift. unfold digit_step. lia. Qed.

Lemma Z_of_digits_bound ds :
  Forall (fun c => is_decimal c = true) ds -> (0 <= Z_of_digits ds < 10 ^ Z.of_nat (length ds))%Z.
Proof.
  induction 1 as [|c ds Hc Hds IH]; [unfold Z_of_digits; simpl; lia|].
  rewrite Z_of_digits_cons. apply is_decimal_value in Hc. cbn [length].
  rewrite Nat2Z.inj_succ, Z.pow_succ_r by lia. nia.
Qed.

Lemma is_decimal_nonzero c : is_decimal c = true -> c <> "0"%char -> in_range 49 57 c = true.
Proof.
  unfold is_decimal, in_range. intros H Hc. apply andb_prop in H as [H1 H2]. rewrite H2, andb_true_r.
  apply Nat.leb_le in H1. apply Nat.leb_le. destruct (Nat.eq_dec (code c) 48) as [E|E]; [|lia].
  exfalso. apply Hc. rewrite <- (ascii_nat_embedding c). unfold code in E. rewrite E. reflexivity.
Qed.

(** A numeral with a nonzero first digit is at least [10 ^ (len - 1)]. *)
Lemma Z_of_digits_lead c ds :
  Forall (fun c => is_decimal c = true) (c :: ds) -> c <> "0"%char ->
  (10 ^ Z.of_nat (length ds) <= Z_of_digits (c :: ds))%Z.
Proof.
  intros H Hc. inversion H as [|? ? Hd Hds]; subst. rewrite Z_of_digits_cons.
  apply Z_of_digits_bound in Hds. pose proof (is_decimal_nonzero c Hd Hc) as Hr.
  unfold in_range in Hr. apply andb_prop in Hr as [Hr _]. apply Nat.leb_le in Hr. nia.
Qed.

(** [str(n)] has at most [k] digits when [n < 10 ^ k]. *)
Lemma str_of_N_length n k : (0 < k)%nat -> (Z.of_N n < 10 ^ Z.of_nat k)%Z -> (length (str_of_N n) <= k)%nat.
Proof.
  intros Hk Hn. pose proof (str_of_N_decimal n) as Hd. pose proof (Z_of_digits_str_of_N n) as Hv.
  destruct (str_of_N n) as [|c ds] eqn:E; [simpl; lia|].
  destruct ds as [|c' ds]; [simpl; lia|].
  destruct (ascii_dec c "0") as [->|Hc]; [exfalso; exact (str_of_N_lead n c' ds E)|].
  pose proof (Z_of_digits_lead c (c' :: ds) Hd Hc) as Hl. rewrite Hv in Hl.
  assert (Z.of_nat (length (c' :: ds)) < Z.of_nat k)%Z; [|simpl in *; lia].
  apply (Z.pow_lt_mono_r_iff 10); lia.
Qed.

Lemma span_decimal_app ds r :
  Forall (fun c => is_decimal c = true) ds ->
  (match r with c :: _ => is_decimal c = false | [] => True end) ->
  span_decimal (ds ++ r) = (ds, r).
Proof.
  intros H Hr. induction H as [|c ds Hc Hds IH]; simpl.
  - destruct r as [|c r]; [reflexivity|]. simpl in Hr |- *. rewrite Hr. reflexivity.
  - rewrite Hc, IH. reflexivity.
Qed.

Lemma int_of_digits_str n : int_of_digits (str_of_nat n) = Some n.
Proof.
  unfold int_of_digits, str_of_nat, lit. rewrite string_of_list_ascii_of_string, NilEmpty.usu.
  simpl. rewrite DecimalNat.Unsigned.of_to. reflexivity.
Qed.

Lemma pystr_eqb_eq a b : pystr_eqb a b = true <-> a = b.
Proof. unfold pystr_eqb. destruct (list_eq_dec ascii_dec a b); split; congruence. Qed.


Lemma pystr_eqb_len a b : length a <> length b -> pystr_eqb a b = false.
Proof. unfold pystr_eqb. destruct (list_eq_dec ascii_dec a b) as [->|]; [contradiction|reflexivity]. Qed.

Lemma startswith_split l p : startswith l p = true -> exists r, l = p ++ r.
Proof.
  revert l. induction p as [|c p IH]; intros [|d l] H; simpl in *; try discriminate; [eauto..|].
  apply andb_prop in H as [H1 H2]. apply Ascii.eqb_eq in H1. subst.
  destruct (IH l H2) as [r ->]. eauto.
Qed.

(** A text ending with [p] is some text followed by [p]. *)
Lemma endswith_split s p : endswith s p = true -> exists q, s = q ++ p.
Proof.
  unfold endswith. intros H. destruct (startswith_split _ _ H) as [r Hr].
  exists (rev r). rewrite <- (rev_involutive s), Hr, rev_app_distr, rev_involutive. reflexivity.
Qed.

(** Splitting a text whose end holds no separator: the end stays in the
    last piece. *)
Lemma split_on_app_free sep x y : ~ In sep y -> exists xs z, split_on sep (x ++ y) = xs ++ [z ++ y].
Proof.
  intros Hy. induction x as [|c x IH].
  - exists [], []. rewrite split_on_no_sep by exact Hy. reflexivity.
  - destruct IH as (xs & z & E). cbn [List.app split_on]. rewrite E. destruct (Ascii.eqb c sep).
    + exists ([] :: xs), z. reflexivity.
    + destruct xs as [|x0 xs]; [exists [], (c :: z) | exists ((c :: x0) :: xs), z]; reflexivity.
Qed.
