(* ===== verification/PyRegex.v ===== *)
(** * The part of Python's [re] module the extractor uses

    A compiled pattern is a [regex] together with the [IGNORECASE] flag.
    The constructors are the [_sre] opcodes the pattern of
    [fix_price_words] compiles to: [LITERAL] and [IN] for one character
    ([RAtom]), [REPEAT_ONE] for a greedy repeat of one character class with
    at least one iteration ([RPlus]), [BRANCH] ([RAlt]), [MARK] pairs
    ([RGroup]) and [AT_BOUNDARY] ([RBound]).

    [m] is the backtracking matcher in continuation-passing style: the
    continuation is the rest of the pattern, and a [None] from it makes the
    matcher try the next alternative, exactly the order in which [_sre]
    backtracks.  [search] tries the start positions from left to right and
    [sub] is [pattern_subx] of CPython 3.7+: after an empty match the next
    match must advance ([must_advance]). *)

From Stdlib Require Import String Ascii List Lia Bool PeanoNat Setoid Morphisms.
From S2P Require Import Prelude PyStr.
Import ListNotations.

(** ** Syntax *)

Inductive cls : Type :=
| CLit (c : ascii)   (** a literal character *)
| CDigit.            (** [\d] *)

Inductive regex : Type :=
| REmpty                       (** the empty pattern *)
| RAtom (k : cls)              (** one character of the class *)
| RPlus (k : cls)              (** [k+], greedy *)
| RCat (r1 r2 : regex)         (** [r1 r2] *)
| RAlt (r1 r2 : regex)         (** [r1|r2], left first *)
| RGroup (n : nat) (r : regex) (** capturing group number [n] *)
| RBound.                      (** [\b] *)

Record compiled : Type := Compiled { re_ast : regex; re_ignorecase : bool }.

(** Capture spans, most recent first. *)
Definition caps : Type := list (nat * (nat * nat)).

(** ** Character tests *)

Definition cls_match (icase : bool) (k : cls) (c : ascii) : bool :=
  match k with
  | CLit l => if icase then Ascii.eqb (lower c) (lower l) else Ascii.eqb c l
  | CDigit => is_decimal c
  end.

(** Length of the longest prefix of [l] in the class: the count
    [REPEAT_ONE] starts from. *)
Fixpoint run_len (icase : bool) (k : cls) (l : pystr) : nat :=
  match l with
  | [] => 0
  | c :: r => if cls_match icase k c then S (run_len icase k r) else 0
  end.

Definition word_at (s : pystr) (i : nat) : bool :=
  match nth_error s i with Some c => is_word c | None => false end.

(** [SRE_AT_UNI_BOUNDARY]: false on the empty string, otherwise the word
    status of the characters before and at [i] differ. *)
Definition at_boundary (s : pystr) (i : nat) : bool :=
  match s with
  | [] => false
  | _ => let that := match i with 0 => false | S j => word_at s j end in
         negb (Bool.eqb that (word_at s i))
  end.

(** ** The matcher *)

Definition kont : Type := nat -> caps -> option (nat * caps).

(** Greedy backtracking over the iteration counts [n], [n-1], ..., [1]. *)
Fixpoint back (k : kont) (i : nat) (g : caps) (n : nat) : option (nat * caps) :=
  match n with
  | 0 => None
  | S n' => match k (i + n) g with
            | Some r => Some r
            | None => back k i g n'
            end
  end.

Fixpoint m (icase : bool) (r : regex) (s : pystr) (i : nat) (g : caps) (k : kont)
  {struct r} : option (nat * caps) :=
  match r with
  | REmpty => k i g
  | RAtom c =>
      match nth_error s i with
      | Some x => if cls_match icase c x then k (S i) g else None
      | None => None
      end
  | RPlus c => back k i g (run_len icase c (skipn i s))
  | RCat r1 r2 => m icase r1 s i g (fun j g' => m icase r2 s j g' k)
  | RAlt r1 r2 =>
      match m icase r1 s i g k with
      | Some res => Some res
      | None => m icase r2 s i g k
      end
  | RGroup n r1 => m icase r1 s i g (fun j g' => k j ((n, (i, j)) :: g'))
  | RBound => if at_boundary s i then k i g else None
  end.

(** A match attempt at [i]; under [must_advance] an empty match at [i]
    fails at the [SUCCESS] opcode and the matcher backtracks. *)
Definition match_at (p : compiled) (s : pystr) (i : nat) (ma : bool)
  : option (nat * caps) :=
  m (re_ignorecase p) (re_ast p) s i []
    (fun j g => if ma && (j =? i) then None else Some (j, g)).

(** [sre_search]: the leftmost start position in [i .. i+n] with a match;
    [must_advance] only concerns the first position. *)
Fixpoint search_n (p : compiled) (s : pystr) (n i : nat) (ma : bool)
  : option (nat * nat * caps) :=
  match match_at p s i ma with
  | Some (e, g) => Some (i, e, g)
  | None => match n with
            | 0 => None
            | S n' => search_n p s n' (S i) false
            end
  end.

Definition search (p : compiled) (s : pystr) (i : nat) (ma : bool)
  : option (nat * nat * caps) :=
  search_n p s (length s - i) i ma.

(** ** Replacement templates and [re.sub] *)

Inductive tpiece : Type :=
| TLit (t : pystr)   (** literal text of the template *)
| TGroup (n : nat).  (** a back-reference [\n] *)

Fixpoint cap_lookup (n : nat) (g : caps) : option (nat * nat) :=
  match g with
  | [] => None
  | (n', span) :: g' => if n =? n' then Some span else cap_lookup n g'
  end.

(** [m.group(n)], the empty string for a group that did not take part. *)
Definition group_text (s : pystr) (g : caps) (n : nat) : pystr :=
  match cap_lookup n g with
  | Some (a, b) => firstn (b - a) (skipn a s)
  | None => []
  end.

Definition expand (s : pystr) (g : caps) (tpl : list tpiece) : pystr :=
  flat_map (fun t => match t with TLit x => x | TGroup n => group_text s g n end) tpl.

(** The loop of [pattern_subx]: [i] is the end of the last match (the
    text before it is already emitted), [start] where the next search
    begins, [ma] the [must_advance] flag. *)
Fixpoint sub_loop (p : compiled) (tpl : list tpiece) (s : pystr)
  (fuel i start : nat) (ma : bool) : pystr :=
  match fuel with
  | 0 => skipn i s
  | S f =>
      match search p s start ma with
      | None => skipn i s
      | Some (b, e, g) =>
          firstn (b - i) (skipn i s) ++ expand s g tpl
            ++ sub_loop p tpl s f e e (e =? b)
      end
  end.

(** [p.sub(tpl, s)]: the loop needs at most [2 * len s + 2] rounds (see
    [sub_loop_fuel]). *)
Definition sub (p : compiled) (tpl : list tpiece) (s : pystr) : pystr :=
  sub_loop p tpl s (2 * length s + 2) 0 0 false.

(** ** Patterns that match alike

    Two trees are equivalent when the matcher gives the same answer on
    them for every flag, text, position, captures and continuation.  The
    tree the parser of [SreParse] builds and the one [_sre] runs can
    differ by such rewrites (an empty pattern after a sequence). *)
Definition req (r1 r2 : regex) : Prop :=
  forall icase s i g k, m icase r1 s i g k = m icase r2 s i g k.

(** The measure the loop decreases: twice the distance to the end, plus
    one while an empty match at [start] is still allowed. *)
Definition sub_measure (s : pystr) (start : nat) (ma : bool) : nat :=
  2 * (length s - start) + (if ma then 0 else 1).

(** ** Lemmas on the matcher *)

Section Matcher.
Context (icase : bool) (s : pystr).

Lemma back_ext (k1 k2 : kont) i g n :
  (forall j g', k1 j g' = k2 j g') -> back k1 i g n = back k2 i g n.
Proof. intros H. induction n as [|n IH]; simpl; [reflexivity|]. now rewrite H, IH. Qed.

(** The matcher only depends on the values of its continuation. *)
Lemma m_ext r : forall i g (k1 k2 : kont),
  (forall j g', k1 j g' = k2 j g') -> m icase r s i g k1 = m icase r s i g k2.
Proof.
  induction r as [| |k|r1 IH1 r2 IH2|r1 IH1 r2 IH2|n r IH|]; intros i g k1 k2 H; simpl.
  - apply H.
  - destruct (nth_error s i); [destruct cls_match|]; auto.
  - apply back_ext, H.
  - apply IH1. intros j g'. apply IH2, H.
  - rewrite (IH1 i g k1 k2 H), (IH2 i g k1 k2 H). reflexivity.
  - apply IH. intros j g'. apply H.
  - destruct at_boundary; auto.
Qed.

Lemma run_len_le k l : run_len icase k l <= length l.
Proof. induction l as [|c l IH]; simpl; [lia|]. destruct cls_match; simpl; lia. Qed.

(** When only the longest repeat can succeed, [back] is that attempt. *)
Lemma back_top (k : kont) i g n :
  (forall c, 0 < c < n -> k (i + c) g = None) ->
  back k i g n = match n with 0 => None | _ => k (i + n) g end.
Proof.
  induction n as [|n IH]; intros H; [reflexivity|]. simpl.
  rewrite IH by (intros c Hc; apply H; lia).
  destruct (k (i + S n) g); [reflexivity|].
  destruct n as [|n]; [reflexivity|]. apply H. lia.
Qed.

Lemma run_len_nth k l c :
  c < run_len icase k l -> exists x, nth_error l c = Some x /\ cls_match icase k x = true.
Proof.
  revert c. induction l as [|y l IH]; intros c; simpl; [lia|].
  destruct (cls_match icase k y) eqn:E; simpl; [|lia].
  destruct c as [|c]; intros Hc; [exists y; auto|]. apply IH. lia.
Qed.

Lemma back_result (k : kont) i g n res :
  back k i g n = Some res -> exists c, 0 < c <= n /\ k (i + c) g = Some res.
Proof.
  induction n as [|n IH]; simpl; [discriminate|].
  destruct (k (i + S n) g) eqn:E.
  - intros [= <-]. exists (S n). split; [lia|exact E].
  - intros H. destruct (IH H) as (c & Hc & Hk). exists c. split; [lia|exact Hk].
Qed.

(** Every answer of the matcher is an answer of its continuation at a
    position between [i] and the end of the string. *)
Lemma m_result r : forall i g (k : kont) res,
  i <= length s -> m icase r s i g k = Some res ->
  exists j g', i <= j <= length s /\ k j g' = Some res.
Proof.
  induction r as [| |k0|r1 IH1 r2 IH2|r1 IH1 r2 IH2|n r IH|]; intros i g kk res Hi; simpl.
  - intros H. exists i, g. split; [lia|exact H].
  - destruct (nth_error s i) eqn:E; [|discriminate]. destruct cls_match; [|discriminate].
    intros H. exists (S i), g. split; [|exact H].
    apply nth_error_some_lt in E. lia.
  - intros H. destruct (back_result _ _ _ _ _ H) as (c & Hc & Hk).
    exists (i + c), g. split; [|exact Hk].
    pose proof (run_len_le k0 (skipn i s)). rewrite length_skipn in *. lia.
  - intros H. destruct (IH1 _ _ _ _ Hi H) as (j & g' & Hj & Hk).
    destruct (IH2 j g' kk res ltac:(lia) Hk) as (j2 & g2 & Hj2 & Hk2).
    exists j2, g2. split; [lia|exact Hk2].
  - destruct (m icase r1 s i g kk) eqn:E.
    + intros [= <-]. apply (IH1 i g kk); assumption.
    + apply IH2. exact Hi.
  - intros H. destruct (IH _ _ _ _ Hi H) as (j & g' & Hj & Hk).
    exists j, ((n, (i, j)) :: g'). split; assumption.
  - destruct at_boundary; [|discriminate]. intros H. exists i, g. split; [lia|exact H].
Qed.
End Matcher.

(** No boundary between two word characters. *)
Lemma at_boundary_inner s j :
  word_at s j = true -> word_at s (S j) = true -> at_boundary s (S j) = false.
Proof. intros H1 H2. unfold at_boundary. destruct s; [reflexivity|]. now rewrite H1, H2. Qed.

Lemma match_at_result p s i ma e g :
  i <= length s -> match_at p s i ma = Some (e, g) ->
  i <= e <= length s /\ (ma = true -> i < e).
Proof.
  unfold match_at. intros Hi H.
  destruct (m_result _ _ _ _ _ _ _ Hi H) as (j & g' & Hj & Hk).
  destruct (ma && (j =? i)) eqn:E; [discriminate|]. injection Hk as <- <-.
  split; [exact Hj|]. intros ->. simpl in E. apply Nat.eqb_neq in E. lia.
Qed.

(** [search] returns the leftmost start position with a match. *)
Lemma search_n_some p s n i ma b e g :
  search_n p s n i ma = Some (b, e, g) ->
  i <= b <= i + n /\ match_at p s b (ma && (b =? i)) = Some (e, g) /\
  (forall q, i <= q < b -> match_at p s q (ma && (q =? i)) = None).
Proof.
  revert i ma. induction n as [|n IH]; intros i ma; simpl;
    destruct (match_at p s i ma) as [[e' g']|] eqn:E.
  1,3: intros [= <- <- <-]; rewrite Nat.eqb_refl, andb_true_r;
       repeat split; [lia|lia|exact E|lia].
  - discriminate.
  - intros H. destruct (IH _ _ H) as (Hb & Hm & Hbefore).
    assert (Hbi : (b =? i) = false) by (apply Nat.eqb_neq; lia).
    rewrite Hbi, andb_false_r. rewrite andb_false_l in Hm.
    repeat split; [lia|lia|exact Hm|]. intros q Hq.
    destruct (Nat.eq_dec q i) as [->|Hne].
    + rewrite Nat.eqb_refl, andb_true_r. exact E.
    + rewrite (proj2 (Nat.eqb_neq q i) Hne), andb_false_r.
      specialize (Hbefore q ltac:(lia)). rewrite andb_false_l in Hbefore. exact Hbefore.
Qed.

Lemma search_n_none p s n i ma :
  search_n p s n i ma = None ->
  forall q, i <= q <= i + n -> match_at p s q (ma && (q =? i)) = None.
Proof.
  revert i ma. induction n as [|n IH]; intros i ma; simpl;
    destruct (match_at p s i ma) as [[e' g']|] eqn:E; try discriminate.
  - intros _ q Hq. replace q with i by lia. rewrite Nat.eqb_refl, andb_true_r. exact E.
  - intros H q Hq. destruct (Nat.eq_dec q i) as [->|Hne].
    + rewrite Nat.eqb_refl, andb_true_r. exact E.
    + rewrite (proj2 (Nat.eqb_neq q i) Hne), andb_false_r.
      specialize (IH _ _ H q ltac:(lia)). rewrite andb_false_l in IH. exact IH.
Qed.

Lemma search_some p s i ma b e g :
  i <= length s -> search p s i ma = Some (b, e, g) ->
  i <= b /\ b <= e <= length s /\ (ma = true -> b = i -> b < e).
Proof.
  unfold search. intros Hi H. destruct (search_n_some _ _ _ _ _ _ _ _ H) as (Hb & Hm & _).
  assert (Hbl : b <= length s) by lia.
  destruct (match_at_result _ _ _ _ _ _ Hbl Hm) as [He Hadv].
  repeat split; try lia. intros -> ->. apply Hadv. rewrite Nat.eqb_refl. reflexivity.
Qed.

(** ** Termination of [re.sub]'s loop *)


Lemma sub_measure_decreases p s start ma b e g :
  start <= length s -> search p s start ma = Some (b, e, g) ->
  e <= length s /\ sub_measure s e (e =? b) < sub_measure s start ma.
Proof.
  intros Hs H. destruct (search_some _ _ _ _ _ _ _ Hs H) as (Hb & He & Hadv).
  split; [lia|]. unfold sub_measure.
  destruct (Nat.eq_dec e start) as [->|Hne].
  - assert (b = start) as -> by lia. rewrite Nat.eqb_refl.
    destruct ma; [specialize (Hadv eq_refl eq_refl); lia | lia].
  - destruct (e =? b), ma; lia.
Qed.

Lemma sub_loop_fuel_irrelevant p tpl s : forall f1 f2 i start ma,
  start <= length s -> sub_measure s start ma < f1 -> sub_measure s start ma < f2 ->
  sub_loop p tpl s f1 i start ma = sub_loop p tpl s f2 i start ma.
Proof.
  induction f1 as [|f1 IH]; intros [|f2] i start ma Hs H1 H2; try lia. simpl.
  destruct (search p s start ma) as [[[b e] g]|] eqn:E; [|reflexivity].
  destruct (sub_measure_decreases _ _ _ _ _ _ _ Hs E) as [He Hlt].
  do 2 f_equal. apply IH; lia.
Qed.

(** [re.sub] terminates: [2 * len s + 2] rounds of the loop of
    [pattern_subx] are always enough, and any larger budget gives the
    same result, so the fuel bound of [sub] is never what stops it. *)
Theorem sub_terminates p tpl s f :
  2 * length s + 2 <= f -> sub_loop p tpl s f 0 0 false = sub p tpl s.
Proof.
  intros Hf. unfold sub. apply sub_loop_fuel_irrelevant; unfold sub_measure; lia.
Qed.

(** ** Equivalent trees *)

#[export] Instance req_equiv : Equivalence req.
Proof.
  split; [intros r ? ? ? ? ?; reflexivity
         |intros r1 r2 H ? ? ? ? ?; symmetry; apply H
         |intros r1 r2 r3 H1 H2 ? ? ? ? ?; rewrite H1; apply H2].
Qed.

#[export] Instance RCat_req : Proper (req ==> req ==> req) RCat.
Proof. intros a a' Ha b b' Hb icase s i g k. simpl. rewrite Ha. apply m_ext. intros. apply Hb. Qed.

#[export] Instance RAlt_req : Proper (req ==> req ==> req) RAlt.
Proof. intros a a' Ha b b' Hb icase s i g k. simpl. rewrite Ha, Hb. reflexivity. Qed.

#[export] Instance RGroup_req n : Proper (req ==> req) (RGroup n).
Proof. intros a a' Ha icase s i g k. simpl. apply Ha. Qed.

Lemma RCat_REmpty_r r : req (RCat r REmpty) r.
Proof. intros icase s i g k. simpl. apply m_ext. reflexivity. Qed.

Section Congruence.
Variables (r1 r2 : regex) (icase : bool).
Hypothesis Hr : req r1 r2.

Lemma search_n_req s n i ma :
  search_n (Compiled r1 icase) s n i ma = search_n (Compiled r2 icase) s n i ma.
Proof.
  revert i ma. induction n as [|n IH]; intros i ma; simpl; unfold match_at; simpl; rewrite Hr;
    [reflexivity|]. destruct m as [[e g]|]; [reflexivity | apply IH].
Qed.

Lemma sub_loop_req tpl s f : forall i start ma,
  sub_loop (Compiled r1 icase) tpl s f i start ma = sub_loop (Compiled r2 icase) tpl s f i start ma.
Proof.
  induction f as [|f IH]; intros i start ma; simpl; [reflexivity|].
  unfold search. rewrite search_n_req. destruct search_n as [[[b e] g]|]; [|reflexivity].
  rewrite IH. reflexivity.
Qed.

(** [re.sub] with equivalent patterns gives the same text. *)
Lemma sub_req tpl s : sub (Compiled r1 icase) tpl s = sub (Compiled r2 icase) tpl s.
Proof. apply sub_loop_req. Qed.

End Congruence.
