(* ===== verification/SreParse.v ===== *)
(** * The pattern text: [str.format] and [sre_parse]

    [fix_price_words] does not hold a compiled pattern: it builds the text
    ["|".join(PRICE_WORDS)], puts it into [r"\bS(\d+|(?:{}))\b"] with
    [str.format], and [re.compile] parses that text with
    [sre_parse.parse] (CPython 3.11).  This file models both steps on the
    part of their syntax the pattern uses.

    [str_format_auto] is [str.format] with automatically numbered fields:
    literal text, [{{], [}}] and [{}].  It returns [None] for any other
    field, a lone brace or a missing argument: there Python raises or
    uses syntax that is not modelled.

    [sre_parse] is [sre_parse.parse]: the recursive descent of
    [_parse_sub] (branches separated by [|]) and [_parse] (the items of
    one branch), written as one loop over the characters with an explicit
    stack of the groups still open ([frame]).  Its answer is
    - [SreOk tree groups]: the tree the matcher of [PyRegex] runs and the
      number of capturing groups ([Pattern.groups]);
    - [SreError msg pos]: [re.error] with CPython's message and position,
      for the errors of the modelled syntax: a bad escape, a repeat of
      nothing, an unbalanced or unterminated group;
    - [SreBeyond pos]: the text uses syntax outside the fragment (the dot,
      classes, [*], [?], [{m,n}], lazy and possessive repeats, anchors,
      [(?...)] other than [(?:], back-references and the escapes of
      classes other than [\d]).

    The tree is the one [_parse_sub] builds before its own rewrites (the
    common prefix of the branches moved out, branches of single characters
    merged into a set).  Those rewrites do not change what matches, and
    the theorems compare trees with [req] of [PyRegex], never with
    equality. *)

From Stdlib Require Import String Ascii List Lia Bool PeanoNat.
From S2P Require Import Prelude PyStr PyRegex.
Import ListNotations.

Definition BACKSLASH : ascii := "092"%char.

(** ** [str.format] with automatic field numbering *)

Fixpoint str_format_auto (f : pystr) (args : list pystr) : option pystr :=
  match f with
  | [] => Some []
  | c :: r =>
      if Ascii.eqb c "{" then
        match r with
        | c2 :: r2 =>
            if Ascii.eqb c2 "{" then option_map (cons "{"%char) (str_format_auto r2 args)
            else if Ascii.eqb c2 "}" then
              match args with
              | a :: args' => option_map (app a) (str_format_auto r2 args')
              | [] => None
              end
            else None
        | [] => None
        end
      else if Ascii.eqb c "}" then
        match r with
        | c2 :: r2 => if Ascii.eqb c2 "}" then option_map (cons "}"%char) (str_format_auto r2 args) else None
        | [] => None
        end
      else option_map (cons c) (str_format_auto r args)
  end.

(** ** Escapes: [_escape] *)

Inductive escape_kind : Type :=
| EscItem (r : regex)  (** a category or a literal *)
| EscBad               (** an ASCII letter with no meaning: [bad escape] *)
| EscBeyond.           (** a category, reference or code escape not modelled *)

Definition is_ascii_letter (c : ascii) : bool := in_range 65 90 c || in_range 97 122 c.

(** The [ESCAPES] of [sre_parse] that stand for one control character. *)
Definition control_escapes : list (ascii * nat) :=
  [("a"%char, 7); ("f"%char, 12); ("n"%char, 10); ("r"%char, 13); ("t"%char, 9); ("v"%char, 11)].

Fixpoint assoc_char (e : ascii) (l : list (ascii * nat)) : option nat :=
  match l with
  | [] => None
  | (c, n) :: r => if Ascii.eqb e c then Some n else assoc_char e r
  end.

(** [CATEGORIES] first ([\b] is [AT_BOUNDARY] outside a set), then
    [ESCAPES], then the hexadecimal, named, octal and group escapes, then
    [bad escape] for another ASCII letter and a literal for the rest. *)
Definition sre_escape (e : ascii) : escape_kind :=
  if Ascii.eqb e "b" then EscItem RBound
  else if Ascii.eqb e "d" then EscItem (RAtom CDigit)
  else if existsb (Ascii.eqb e) (lit "ABDsSwWZ") then EscBeyond
  else match assoc_char e control_escapes with
       | Some n => EscItem (RAtom (CLit (ascii_of_nat n)))
       | None =>
           if existsb (Ascii.eqb e) (lit "xuUN") || is_decimal e then EscBeyond
           else if is_ascii_letter e then EscBad
           else EscItem (RAtom (CLit e))
       end.

(** ** The parse loop *)

(** A group still open: its number ([None] for [(?:]), the position of
    its [(], the branches already closed, and the items of the current
    branch, last first. *)
Record frame : Type := Frame {
  fgroup : option nat;
  fstart : nat;
  fbranches : list regex;
  fitems : list regex }.

Inductive sre_result : Type :=
| SreOk (r : regex) (groups : nat)
| SreError (msg : pystr) (pos : nat)
| SreBeyond (pos : nat).

(** The items of a branch in sequence. *)
Fixpoint seq_of (items : list regex) : regex :=
  match items with
  | [] => REmpty
  | x :: r => RCat x (seq_of r)
  end.

(** The branches of a group, left first. *)
Fixpoint alt_of (bs : list regex) : regex :=
  match bs with
  | [] => REmpty
  | [b] => b
  | b :: r => RAlt b (alt_of r)
  end.

Definition close_frame (fr : frame) : regex := alt_of (fbranches fr ++ [seq_of (rev (fitems fr))]).

Definition add_item (x : regex) (fr : frame) : frame :=
  Frame (fgroup fr) (fstart fr) (fbranches fr) (x :: fitems fr).

(** At [|]: the branch is complete. *)
Definition end_branch (fr : frame) : frame :=
  Frame (fgroup fr) (fstart fr) (fbranches fr ++ [seq_of (rev (fitems fr))]) [].

(** At [)]: the item the group becomes in the enclosing branch. *)
Definition group_item (fr : frame) : regex :=
  match fgroup fr with Some n => RGroup n (close_frame fr) | None => close_frame fr end.

Definition first_char_is (c : ascii) (s : pystr) : bool :=
  match s with d :: _ => Ascii.eqb d c | [] => false end.

(** [L] is the length of the whole pattern, so that [L - length s] is
    the position of the next character; [ng] counts the groups opened. *)
Fixpoint parse_loop (L : nat) (s : pystr) (top : frame) (outer : list frame) (ng : nat) : sre_result :=
  match s with
  | [] =>
      match outer with
      | [] => SreOk (close_frame top) ng
      | _ => SreError (lit "missing ), unterminated subpattern") (fstart top)
      end
  | c :: r =>
      let pos := L - length s in
      if Ascii.eqb c BACKSLASH then
        match r with
        | [] => SreError (lit "bad escape (end of pattern)") pos
        | e :: r' =>
            match sre_escape e with
            | EscItem x => parse_loop L r' (add_item x top) outer ng
            | EscBad => SreError (lit "bad escape " ++ [BACKSLASH; e]) pos
            | EscBeyond => SreBeyond pos
            end
        end
      else if Ascii.eqb c "|" then parse_loop L r (end_branch top) outer ng
      else if Ascii.eqb c "(" then
        match r with
        | q :: r1 =>
            if Ascii.eqb q "?" then
              match r1 with
              | [] => SreError (lit "unexpected end of pattern") L
              | c2 :: r2 =>
                  if Ascii.eqb c2 ":" then parse_loop L r2 (Frame None pos [] []) (top :: outer) ng
                  else SreBeyond pos
              end
            else parse_loop L r (Frame (Some (S ng)) pos [] []) (top :: outer) (S ng)
        | [] => parse_loop L r (Frame (Some (S ng)) pos [] []) (top :: outer) (S ng)
        end
      else if Ascii.eqb c ")" then
        match outer with
        | [] => SreError (lit "unbalanced parenthesis") pos
        | o :: outer' => parse_loop L r (add_item (group_item top) o) outer' ng
        end
      else if Ascii.eqb c "+" then
        match fitems top with
        | [] | RBound :: _ => SreError (lit "nothing to repeat") pos
        | RPlus _ :: _ => SreError (lit "multiple repeat") pos
        | RAtom k :: its =>
            if first_char_is "?" r || first_char_is "+" r then SreBeyond (S pos)
            else parse_loop L r (Frame (fgroup top) (fstart top) (fbranches top) (RPlus k :: its)) outer ng
        | _ :: _ => SreBeyond pos
        end
      else if existsb (Ascii.eqb c) (lit ".[{*?^$") then SreBeyond pos
      else parse_loop L r (add_item (RAtom (CLit c)) top) outer ng
  end.

(** [sre_parse.parse(p)]: the whole pattern is the branches of an
    implicit outer group. *)
Definition sre_parse (p : pystr) : sre_result := parse_loop (length p) p (Frame None 0 [] []) [] 0.

(** A character that stands for itself: none of [SPECIAL_CHARS]. *)
Definition plain_char (c : ascii) : bool := negb (existsb (Ascii.eqb c) (lit ".\[{()*+?^$|")).

(** The items a text of plain characters parses to. *)
Definition literal_items (w : pystr) : list regex := map (fun c => RAtom (CLit c)) w.

(** ** Parsing text made of plain characters *)

Lemma plain_char_facts c :
  plain_char c = true ->
  Ascii.eqb c BACKSLASH = false /\ Ascii.eqb c "|" = false /\ Ascii.eqb c "(" = false /\
  Ascii.eqb c ")" = false /\ Ascii.eqb c "+" = false /\ existsb (Ascii.eqb c) (lit ".[{*?^$") = false.
Proof.
  unfold plain_char, BACKSLASH. cbn [lit list_ascii_of_string existsb]. intros H.
  apply negb_true_iff in H. repeat rewrite orb_false_iff in H. repeat rewrite orb_false_iff. tauto.
Qed.

Lemma parse_plain_char L c r top outer ng :
  plain_char c = true ->
  parse_loop L (c :: r) top outer ng = parse_loop L r (add_item (RAtom (CLit c)) top) outer ng.
Proof.
  intros H. destruct (plain_char_facts c H) as (H1 & H2 & H3 & H4 & H5 & H6).
  cbn [parse_loop]. rewrite H1, H2, H3, H4, H5, H6. reflexivity.
Qed.

Lemma parse_plain_word L w : forall Y g st br its outer ng,
  forallb plain_char w = true ->
  parse_loop L (w ++ Y) (Frame g st br its) outer ng
  = parse_loop L Y (Frame g st br (rev (literal_items w) ++ its)) outer ng.
Proof.
  induction w as [|c w IH]; intros Y g st br its outer ng Hw; [reflexivity|].
  simpl in Hw. apply andb_prop in Hw as [Hc Hw]. cbn [app].
  rewrite parse_plain_char by exact Hc. unfold add_item. cbn [fgroup fstart fbranches fitems].
  rewrite IH by exact Hw. cbn [literal_items map rev]. rewrite <- app_assoc. reflexivity.
Qed.

Lemma parse_bar L r top outer ng :
  parse_loop L (lit "|" ++ r) top outer ng = parse_loop L r (end_branch top) outer ng.
Proof. reflexivity. Qed.

Lemma parse_close L r top o outer ng :
  parse_loop L (")"%char :: r) top (o :: outer) ng = parse_loop L r (add_item (group_item top) o) outer ng.
Proof. reflexivity. Qed.

Lemma seq_of_rev_items w : seq_of (rev (rev (literal_items w) ++ [])) = seq_of (literal_items w).
Proof. rewrite app_nil_r, rev_involutive. reflexivity. Qed.

(** The branches of a group made of plain words separated by [|]: the
    group closes on the alternation of the words, left first. *)
Lemma parse_alternatives L ws : forall Y g st br o outer ng,
  ws <> [] -> Forall (fun w => forallb plain_char w = true) ws ->
  exists fr, parse_loop L (join (lit "|") ws ++ ")"%char :: Y) (Frame g st br []) (o :: outer) ng
             = parse_loop L Y (add_item (group_item fr) o) outer ng /\
           fgroup fr = g /\ close_frame fr = alt_of (br ++ map (fun w => seq_of (literal_items w)) ws).
Proof.
  induction ws as [|w ws IH]; intros Y g st br o outer ng Hne Hws; [contradiction|].
  inversion Hws as [|? ? Hw Hws']; subst.
  destruct ws as [|w2 ws].
  - exists (Frame g st br (rev (literal_items w) ++ [])). cbn [join].
    rewrite parse_plain_word, parse_close by exact Hw. split; [reflexivity|]. split; [reflexivity|].
    unfold close_frame. cbn [fbranches fitems map]. rewrite seq_of_rev_items. reflexivity.
  - change (join (lit "|") (w :: w2 :: ws)) with (w ++ lit "|" ++ join (lit "|") (w2 :: ws)).
    rewrite <- !app_assoc, parse_plain_word, parse_bar by exact Hw.
    unfold end_branch. cbn [fgroup fstart fbranches fitems]. rewrite seq_of_rev_items.
    destruct (IH Y g st (br ++ [seq_of (literal_items w)]) o outer ng ltac:(discriminate) Hws')
      as (fr & Hrun & Hg & Hc).
    exists fr. rewrite Hrun. split; [reflexivity|]. split; [exact Hg|].
    rewrite Hc, <- app_assoc. reflexivity.
Qed.
