(* ===== verification/PriceWords.v ===== *)
(** * [fix_price_words] and [clean_ocr_text] ([src/pdf_to_text.py])

    The pattern [\bS(\d+|(?:ten|twelve|fifteen|twenty))\b] is built from
    the list [PRICE_WORDS] and compiled with [re.IGNORECASE];
    [fix_price_words] replaces every match by [$] followed by group 1.

    [price_end] says, in terms of the text alone, where a match starting
    at a position ends; [fix_spec] rewrites exactly the characters at
    which a match starts.  The refinement theorem [fix_price_words_spec]
    shows that the run of the regex engine of [PyRegex] equals
    [fix_spec]; the properties of the cleanup pass are then proved on the
    specification, among them that a second pass changes nothing when no
    price word contains an [s] ([fix_spec_idempotent]).

    [price_pattern] is the tree [_sre] runs; [price_pattern_source] is the
    text the code builds, and [price_pattern_compiles] shows that
    [sre_parse] of [SreParse] reads that text as an equivalent tree when no
    word holds a character special to [re].  [price_words_unescaped]
    shows what happens when one does. *)

From Stdlib Require Import String Ascii List Lia Bool PeanoNat.
From S2P Require Import Prelude PyStr PyRegex SreParse.
Import ListNotations.

(** ** The code *)

Definition PRICE_WORDS : list pystr :=
  [lit "ten"; lit "twelve"; lit "fifteen"; lit "twenty"].

(** A word of the pattern: one [LITERAL] per character. *)
Fixpoint lits (w : pystr) : regex :=
  match w with
  | [] => REmpty
  | c :: w' => RCat (RAtom (CLit c)) (lits w')
  end.

(** ["|".join(words)] inside [(?: )]: the alternation of the words, left
    to right; the join of no word is the empty pattern. *)
Fixpoint alts (ws : list pystr) : regex :=
  match ws with
  | [] => REmpty
  | [w] => lits w
  | w :: r => RAlt (lits w) (alts r)
  end.

(** [re.compile(r"\bS(\d+|(?:{}))\b".format(...), re.IGNORECASE)]: the
    tree the compiled pattern runs, for words of plain characters. *)
Definition price_pattern (ws : list pystr) : compiled :=
  Compiled
    (RCat RBound
       (RCat (RAtom (CLit "S"))
          (RCat (RGroup 1 (RAlt (RPlus CDigit) (alts ws))) RBound)))
    true.

(** [price_words_pattern = "|".join(PRICE_WORDS)] put into the pattern
    text with [str.format] (lines 10-12): the text [re.compile] parses. *)
Definition price_pattern_source (ws : list pystr) : option pystr :=
  str_format_auto (lit "\bS(\d+|(?:{}))\b") [join (lit "|") ws].

(** The replacement [r"$\1"]. *)
Definition price_template : list tpiece := [TLit (lit "$"); TGroup 1].

Definition fix_price_words_with (ws : list pystr) (text : pystr) : pystr :=
  sub (price_pattern ws) price_template text.

Definition fix_price_words (text : pystr) : pystr :=
  fix_price_words_with PRICE_WORDS text.

Definition clean_ocr_text (text : pystr) : pystr := fix_price_words text.

(** ** The specification *)

(** [w] is a prefix of [l] up to case. *)
Fixpoint ci_prefix (w l : pystr) : bool :=
  match w, l with
  | [], _ => true
  | c :: w', d :: l' => Ascii.eqb (lower d) (lower c) && ci_prefix w' l'
  | _ :: _, [] => false
  end.

(** The alternatives [(?:...)] offers: the words, or the empty word when
    the list is empty. *)
Definition alternatives (ws : list pystr) : list pystr :=
  match ws with [] => [[]] | _ => ws end.

(** End of the first word (in list order) that follows [q] up to case and
    is followed by a word boundary. *)
Fixpoint word_end (ws : list pystr) (s : pystr) (q : nat) : option nat :=
  match ws with
  | [] => None
  | w :: r =>
      if ci_prefix w (skipn q s) && at_boundary s (q + length w)
      then Some (q + length w) else word_end r s q
  end.

(** Length of the run of decimal digits at [q]. *)
Definition digits_at (s : pystr) (q : nat) : nat := run_len true CDigit (skipn q s).

Definition is_S (c : ascii) : bool := Ascii.eqb (lower c) (lower "S").

(** Where a match of the pattern at [p] ends, if there is one. *)
Definition price_end (ws : list pystr) (s : pystr) (p : nat) : option nat :=
  match nth_error s p with
  | Some c =>
      if at_boundary s p && is_S c then
        let n := digits_at s (S p) in
        if (0 <? n) && at_boundary s (S p + n) then Some (S p + n)
        else word_end (alternatives ws) s (S p)
      else None
  | None => None
  end.

Definition price_start (ws : list pystr) (s : pystr) (p : nat) : bool :=
  match price_end ws s p with Some _ => true | None => false end.

(** Every character at which a match starts becomes [$]; the others stay. *)
Definition fix_char (ws : list pystr) (s : pystr) (q : nat) : ascii :=
  if price_start ws s q then "$"%char else nth q s " "%char.

Definition fix_spec (ws : list pystr) (s : pystr) : pystr :=
  map (fix_char ws s) (seq 0 (length s)).

(** ** The engine on the price pattern *)

Section Engine.
Variable s : pystr.

Lemma m_lits w : forall i g k,
  m true (lits w) s i g k = if ci_prefix w (skipn i s) then k (i + length w) g else None.
Proof.
  induction w as [|c w IH]; intros i g k; simpl.
  - rewrite Nat.add_0_r. reflexivity.
  - destruct (nth_error s i) as [x|] eqn:E.
    + rewrite (skipn_nth_cons _ _ _ E), IH. simpl.
      destruct (Ascii.eqb (lower x) (lower c)); simpl; [|reflexivity].
      rewrite Nat.add_succ_r. reflexivity.
    + rewrite (nth_error_none_skipn _ _ E). reflexivity.
Qed.

(** The alternation of the words, followed by a boundary test, finds the
    first word of [alternatives ws] that [word_end] finds. *)
Lemma m_alts ws i g (F : nat -> caps -> caps) :
  m true (alts ws) s i g (fun j g' => if at_boundary s j then Some (j, F j g') else None)
  = option_map (fun j => (j, F j g)) (word_end (alternatives ws) s i).
Proof.
  destruct ws as [|w ws]; simpl.
  - rewrite Nat.add_0_r. destruct (at_boundary s i); reflexivity.
  - revert w. induction ws as [|w' ws IH]; intros w; simpl alts; simpl word_end.
    + rewrite m_lits. destruct (ci_prefix w (skipn i s)); simpl; [|reflexivity].
      destruct (at_boundary s (i + length w)); reflexivity.
    + simpl m. rewrite m_lits, IH. destruct (ci_prefix w (skipn i s)); simpl; [|reflexivity].
      destruct (at_boundary s (i + length w)); reflexivity.
Qed.
Lemma back_digits q g (F : nat -> caps -> caps) :
  back (fun j g' => if at_boundary s j then Some (j, F j g') else None) q g (digits_at s q)
  = if (0 <? digits_at s q) && at_boundary s (q + digits_at s q)
    then Some (q + digits_at s q, F (q + digits_at s q) g) else None.
Proof.
  rewrite back_top.
  - destruct (digits_at s q) as [|n]; [reflexivity|]. simpl.
    destruct (at_boundary s (q + S n)); reflexivity.
  - intros c Hc. destruct c as [|c]; [lia|].
    unfold digits_at in Hc.
    destruct (run_len_nth true CDigit (skipn q s) c ltac:(lia)) as (x & Hx & Dx).
    destruct (run_len_nth true CDigit (skipn q s) (S c) ltac:(lia)) as (y & Hy & Dy).
    rewrite nth_error_skipn in Hx, Hy.
    rewrite Nat.add_succ_r, at_boundary_inner; [reflexivity| |];
      unfold word_at; [rewrite Hx | rewrite <- Nat.add_succ_r, Hy]; auto with pdfmenu.
Qed.
End Engine.

Lemma match_at_price ws s p :
  match_at (price_pattern ws) s p false = option_map (fun e => (e, [(1, (S p, e))])) (price_end ws s p).
Proof.
  unfold match_at, price_end, price_pattern. cbn [re_ast re_ignorecase m andb].
  change (run_len true CDigit (skipn (S p) s)) with (digits_at s (S p)).
  rewrite back_digits, m_alts. unfold is_S.
  destruct (at_boundary s p); destruct (nth_error s p) as [c|]; [|reflexivity..].
  simpl. destruct (lower c =? lower "S")%char; [|reflexivity]. simpl.
  destruct (_ && _); reflexivity.
Qed.

(** ** Shape of a match *)

Lemma is_S_word c : is_S c = true -> is_word c = true.
Proof. revert c. apply all_chars_impl. vm_compute. reflexivity. Qed.

(** A prefix matched up to case by a word of word characters consists of
    word characters. *)
Lemma ci_prefix_words w : forall l c,
  ci_prefix w l = true -> Forall (fun x => is_word x = true) w -> c < length w ->
  exists x, nth_error l c = Some x /\ is_word x = true.
Proof.
  induction w as [|y w IH]; intros l c Hp Hw Hc; simpl in Hc; [lia|].
  destruct l as [|x l]; [discriminate|]. simpl in Hp. bool_hyps. inversion Hw; subst.
  destruct c as [|c].
  - exists x. split; [reflexivity|]. apply Ascii.eqb_eq in H.
    rewrite <- is_word_lower, H, is_word_lower. assumption.
  - apply (IH l c); auto. lia.
Qed.

Lemma ci_prefix_length w : forall l, ci_prefix w l = true -> length w <= length l.
Proof.
  induction w as [|y w IH]; intros [|x l] H; simpl in *; try lia; try discriminate.
  bool_hyps. specialize (IH l H0). lia.
Qed.

Lemma word_end_some ws s q e :
  word_end ws s q = Some e ->
  exists w, In w ws /\ ci_prefix w (skipn q s) = true /\ e = q + length w.
Proof.
  induction ws as [|w ws IH]; simpl; [discriminate|].
  destruct (ci_prefix w (skipn q s) && at_boundary s (q + length w)) eqn:E.
  - intros [= <-]. bool_hyps. exists w. auto.
  - intros H. destruct (IH H) as (w' & Hin & Hp & He). exists w'. auto.
Qed.

Section Shape.
(** The words of the pattern are made of word characters, as
    [PRICE_WORDS] are. *)
Variable ws : list pystr.
Hypothesis ws_words : Forall (Forall (fun x => is_word x = true)) ws.

Lemma alternatives_words : Forall (Forall (fun x => is_word x = true)) (alternatives ws).
Proof. destruct ws; simpl; auto. Qed.

(** A match at [p] ends after [p], inside the string, and spans word
    characters only. *)
Lemma price_end_shape s p e :
  price_end ws s p = Some e ->
  p < e <= length s /\ forall q, p <= q < e -> word_at s q = true.
Proof.
  unfold price_end. destruct (nth_error s p) as [c|] eqn:Hc; [|discriminate].
  destruct (at_boundary s p && is_S c) eqn:HS; [|discriminate]. bool_hyps.
  assert (Hp : p < length s) by eauto with pdfmenu.
  assert (Wp : word_at s p = true) by (unfold word_at; rewrite Hc; auto using is_S_word).
  destruct ((0 <? digits_at s (S p)) && at_boundary s (S p + digits_at s (S p))) eqn:HD.
  - intros [= <-]. unfold digits_at in *.
    pose proof (run_len_le true CDigit (skipn (S p) s)) as Hle. rewrite length_skipn in Hle.
    split; [bool_hyps; apply Nat.ltb_lt in H1; lia|]. intros q Hq.
    destruct (Nat.eq_dec q p) as [->|Hne]; [exact Wp|].
    destruct (run_len_nth true CDigit (skipn (S p) s) (q - S p) ltac:(lia)) as (x & Hx & Dx).
    rewrite nth_error_skipn in Hx. replace (S p + (q - S p)) with q in Hx by lia.
    unfold word_at. rewrite Hx. auto with pdfmenu.
  - intros Hw. destruct (word_end_some _ _ _ _ Hw) as (w & Hin & Hpre & ->).
    pose proof (ci_prefix_length _ _ Hpre) as Hlen. rewrite length_skipn in Hlen.
    split; [lia|]. intros q Hq.
    destruct (Nat.eq_dec q p) as [->|Hne]; [exact Wp|].
    pose proof (proj1 (Forall_forall _ _) alternatives_words w Hin) as Hww.
    destruct (ci_prefix_words _ _ (q - S p) Hpre Hww ltac:(lia)) as (x & Hx & Wx).
    rewrite nth_error_skipn in Hx. replace (S p + (q - S p)) with q in Hx by lia.
    unfold word_at. rewrite Hx. exact Wx.
Qed.

(** Matches do not overlap: no match starts strictly inside another. *)
Lemma price_end_inside s p e q :
  price_end ws s p = Some e -> p < q < e -> price_end ws s q = None.
Proof.
  intros H Hq. destruct (price_end_shape _ _ _ H) as [He Hw].
  unfold price_end. destruct q as [|q]; [lia|].
  rewrite at_boundary_inner by (apply Hw; lia).
  destruct (nth_error s (S q)); reflexivity.
Qed.
End Shape.

(** ** The regex run equals the specification *)

Section Refinement.
Variable ws : list pystr.
Hypothesis ws_words : Forall (Forall (fun x => is_word x = true)) ws.

Lemma price_start_none s q : price_end ws s q = None -> price_start ws s q = false.
Proof. unfold price_start. intros ->. reflexivity. Qed.

Lemma match_at_price_none s q :
  match_at (price_pattern ws) s q false = None -> price_start ws s q = false.
Proof.
  rewrite match_at_price. intros H. apply price_start_none.
  destruct (price_end ws s q); [discriminate|reflexivity].
Qed.

(** Where no match starts, the specification copies the text. *)
Lemma map_fix_char_plain s a n :
  (forall q, a <= q < a + n -> price_start ws s q = false) -> a + n <= length s ->
  map (fix_char ws s) (seq a n) = firstn n (skipn a s).
Proof.
  intros H Hn. rewrite (firstn_skipn_map_nth s " "%char) by lia.
  apply map_ext_in. intros q Hq. apply in_seq in Hq.
  unfold fix_char. rewrite H by lia. reflexivity.
Qed.

Lemma sub_loop_price s : forall f i,
  i <= length s -> length s - i < f ->
  sub_loop (price_pattern ws) price_template s f i i false
  = map (fix_char ws s) (seq i (length s - i)).
Proof.
  induction f as [|f IH]; intros i Hi Hf; [lia|]. cbn [sub_loop]. unfold search.
  destruct (search_n (price_pattern ws) s (length s - i) i false) as [[[b e] g]|] eqn:E.
  - destruct (search_n_some _ _ _ _ _ _ _ _ E) as (Hb & Hm & Hbefore).
    cbn [andb] in Hm, Hbefore. rewrite match_at_price in Hm.
    destruct (price_end ws s b) as [e'|] eqn:Hpe; [|discriminate].
    injection Hm as Heq Hg. subst e' g.
    destruct (price_end_shape ws ws_words s b e Hpe) as [He Hw].
    rewrite (proj2 (Nat.eqb_neq e b)) by lia. rewrite IH by lia.
    replace (length s - i) with ((b - i) + (S (e - S b) + (length s - e))) by lia.
    rewrite !seq_app, !map_app. replace (i + (b - i)) with b by lia.
    replace (b + S (e - S b)) with e by lia. cbn [seq map].
    rewrite (map_fix_char_plain s i (b - i))
      by first [lia | intros q Hq; apply match_at_price_none, Hbefore; lia].
    rewrite (map_fix_char_plain s (S b))
      by first [lia | intros q Hq; apply price_start_none,
                  (price_end_inside ws ws_words s b e); [exact Hpe|lia]].
    replace (fix_char ws s b) with "$"%char
      by (unfold fix_char, price_start; rewrite Hpe; reflexivity).
    cbn [expand flat_map price_template group_text cap_lookup lit
         list_ascii_of_string Nat.eqb app].
    rewrite app_nil_r. reflexivity.
  - pose proof (search_n_none _ _ _ _ _ E) as Hnone. cbn [andb] in Hnone.
    rewrite map_fix_char_plain
      by first [lia | intros q Hq; apply match_at_price_none, Hnone; lia].
    symmetry. apply firstn_all2. rewrite length_skipn. lia.
Qed.

Lemma fix_price_words_with_spec s : fix_price_words_with ws s = fix_spec ws s.
Proof.
  unfold fix_price_words_with, sub, fix_spec.
  rewrite sub_loop_price by lia. rewrite Nat.sub_0_r. reflexivity.
Qed.
End Refinement.

Lemma PRICE_WORDS_words : Forall (Forall (fun x => is_word x = true)) PRICE_WORDS.
Proof. repeat constructor. Qed.

(** C1: [fix_price_words] implements its specification: running the
    compiled pattern [\bS(\d+|(?:ten|twelve|fifteen|twenty))\b] with
    [re.IGNORECASE] through [re.sub] with the template [$\1] rewrites to
    [$] exactly the characters at which [price_end] finds a match (a word
    boundary, an [S] or [s], then a maximal run of digits or one of the
    price words up to case, then a word boundary) and copies every other
    character. *)
Theorem fix_price_words_refines s : fix_price_words s = fix_spec PRICE_WORDS s.
Proof. apply fix_price_words_with_spec, PRICE_WORDS_words. Qed.



(** ** Properties of the cleanup pass *)

Lemma fix_spec_nth ws s q :
  nth_error (fix_spec ws s) q
  = option_map (fun c => if price_start ws s q then "$"%char else c) (nth_error s q).
Proof.
  unfold fix_spec. rewrite nth_error_map, nth_error_seq.
  destruct (q <? length s) eqn:Hq; simpl.
  - apply Nat.ltb_lt in Hq. destruct (nth_error s q) as [c|] eqn:E.
    + simpl. unfold fix_char. rewrite (nth_error_nth _ _ _ E). reflexivity.
    + apply nth_error_None in E. lia.
  - apply Nat.ltb_ge in Hq. rewrite (proj2 (nth_error_None s q) Hq). reflexivity.
Qed.

Lemma length_fix_spec ws s : length (fix_spec ws s) = length s.
Proof. unfold fix_spec. autorewrite with pdfmenu_rw. reflexivity. Qed.

(** [fix_price_words] on its word list is the specification. *)
Lemma fix_price_words_eq s : fix_price_words s = fix_spec PRICE_WORDS s.
Proof. apply fix_price_words_with_spec, PRICE_WORDS_words. Qed.

Lemma price_start_at ws s q c :
  price_start ws s q = true -> nth_error s q = Some c ->
  is_S c = true /\ at_boundary s q = true.
Proof.
  unfold price_start, price_end. intros H Hc. rewrite Hc in H.
  destruct (at_boundary s q && is_S c) eqn:E; [|discriminate]. bool_hyps. auto.
Qed.

(** The cleanup pass keeps the length of the text: every match is
    replaced by a text of the same length ([$] for the [S], then group 1). *)
Theorem fix_price_words_length s : length (fix_price_words s) = length s.
Proof. rewrite fix_price_words_eq. apply length_fix_spec. Qed.

(** Character by character, [fix_price_words] changes exactly the
    positions at which a match starts, and changes them into [$]. *)
Theorem fix_price_words_nth s q :
  nth_error (fix_price_words s) q
  = option_map (fun c => if price_start PRICE_WORDS s q then "$"%char else c) (nth_error s q).
Proof. rewrite fix_price_words_eq. apply fix_spec_nth. Qed.

(** The only characters the pass changes are an [S] or [s] at a word
    boundary (never one inside a larger token), and each becomes [$]. *)
Theorem fix_price_words_changes_only_S s q c c' :
  nth_error s q = Some c -> nth_error (fix_price_words s) q = Some c' -> c' <> c ->
  is_S c = true /\ at_boundary s q = true /\ c' = "$"%char.
Proof.
  intros Hc Hc' Hne. rewrite fix_price_words_eq, fix_spec_nth, Hc in Hc'. simpl in Hc'.
  destruct (price_start PRICE_WORDS s q) eqn:E; injection Hc' as <-; [|congruence].
  destruct (price_start_at _ _ _ _ E Hc). auto.
Qed.

Lemma fix_price_words_changes_only_S_witness :
  nth_error (lit "a S5") 2 = Some "S"%char /\
  nth_error (fix_price_words (lit "a S5")) 2 = Some "$"%char /\
  ("$"%char <> "S"%char) /\
  (is_S "S" = true /\ at_boundary (lit "a S5") 2 = true /\ "$"%char = "$"%char).
Proof.
  split; [reflexivity|]. split; [vm_compute; reflexivity|]. split; [discriminate|].
  apply (fix_price_words_changes_only_S (lit "a S5") 2 "S" "$");
    [reflexivity | vm_compute; reflexivity | discriminate].
Defined.

(** The examples of the specification: [S10] after a space becomes
    [$10], [USame] is left alone (no boundary before the [S]), [Stwelve]
    becomes [$twelve], and matching ignores case ([s10], [STEN]). *)
Example fix_price_words_examples :
  fix_price_words (lit "Total: S10") = lit "Total: $10" /\
  fix_price_words (lit "USame") = lit "USame" /\
  fix_price_words (lit "Price: Stwelve") = lit "Price: $twelve" /\
  fix_price_words (lit "s10 STEN") = lit "$10 $TEN" /\
  fix_price_words (lit "S10a S10_") = lit "S10a S10_".
Proof. vm_compute. repeat split. Qed.

(** With an empty word list the alternation [(?:)] matches the empty
    string, so a lone [S] before a boundary is rewritten to [$]. *)
Example fix_price_words_empty_list :
  fix_price_words_with [] (lit "S S1 Sx") = lit "$ $1 Sx".
Proof. vm_compute. reflexivity. Qed.

(** The cleanup pass changes no whitespace: a text is blank after it
    exactly when it was blank before. *)
Lemma forallb_is_space_fix_spec ws s :
  forallb is_space (fix_spec ws s) = forallb is_space s.
Proof.
  apply forallb_nth_eq; [apply length_fix_spec|]. intros q x y Hx Hy.
  rewrite fix_spec_nth, Hy in Hx. simpl in Hx.
  destruct (price_start ws s q) eqn:E; injection Hx as <-; [|reflexivity].
  destruct (price_start_at _ _ _ _ E Hy) as [HS _].
  apply is_S_word in HS. destruct (is_space y) eqn:Sp; [|reflexivity].
  apply is_space_not_word in Sp. congruence.
Qed.

Lemma truthy_strip_clean text :
  truthy (strip (clean_ocr_text text)) = truthy (strip text).
Proof.
  unfold clean_ocr_text. rewrite fix_price_words_eq, !truthy_strip, forallb_is_space_fix_spec.
  reflexivity.
Qed.

(** ** A second pass changes nothing

    The pass only turns an [S] or [s] into [$], a word character into a
    non-word one.  When no price word contains an [s] (up to case), a
    match in the cleaned text would already have been one in the
    original, at the same place: the characters a match reads are either
    kept, or an [S] at a place where a boundary or a word would have been
    needed, which the original cannot have had. *)

Lemma S_not_digit c : is_S c = true -> is_decimal c = false.
Proof.
  intros H. apply negb_true_iff. revert c H.
  apply (all_chars_impl is_S (fun c => negb (is_decimal c))). vm_compute. reflexivity.
Qed.

Lemma word_char_not_S_dollar c :
  is_word c = true -> is_S c = false ->
  Ascii.eqb (lower "S") (lower c) = false /\ Ascii.eqb (lower "$") (lower c) = false.
Proof.
  intros Hw HS. pose proof (all_chars_impl (fun c => is_word c && negb (is_S c))
    (fun c => negb (Ascii.eqb (lower "S") (lower c)) && negb (Ascii.eqb (lower "$") (lower c)))
    ltac:(vm_compute; reflexivity) c) as H. cbv beta in H.
  rewrite Hw, HS in H. specialize (H eq_refl). bool_hyps. split; first [assumption | apply negb_true_iff; assumption].
Qed.

Lemma run_len_map icase k : forall l1 l2,
  map (cls_match icase k) l1 = map (cls_match icase k) l2 -> run_len icase k l1 = run_len icase k l2.
Proof.
  induction l1 as [|x l1 IH]; intros [|y l2] H; try discriminate; [reflexivity|].
  injection H as Hxy H. simpl. rewrite Hxy. destruct (cls_match icase k y); auto.
Qed.

Lemma ci_prefix_map w : forall l1 l2,
  (forall c, In c w -> map (fun d => Ascii.eqb (lower d) (lower c)) l1
                       = map (fun d => Ascii.eqb (lower d) (lower c)) l2) ->
  ci_prefix w l1 = ci_prefix w l2.
Proof.
  induction w as [|c w IH]; intros l1 l2 H; [reflexivity|].
  pose proof (H c (or_introl eq_refl)) as Hc.
  destruct l1 as [|x l1], l2 as [|y l2]; try discriminate; [reflexivity|].
  injection Hc as Hxy _. simpl. rewrite Hxy. f_equal. apply IH.
  intros c' Hin. specialize (H c' (or_intror Hin)). injection H as _ H. exact H.
Qed.

Lemma word_end_boundary ws s q e : word_end ws s q = Some e -> at_boundary s e = true.
Proof.
  induction ws as [|w ws IH]; simpl; [discriminate|].
  destruct (ci_prefix w (skipn q s) && at_boundary s (q + length w)) eqn:E; [|exact IH].
  intros [= <-]. bool_hyps. assumption.
Qed.

Lemma price_start_char ws s q : price_start ws s q = true -> exists c, nth_error s q = Some c.
Proof. unfold price_start, price_end. destruct (nth_error s q); eauto. discriminate. Qed.

Lemma word_at_nonempty l k : word_at l k = true -> l <> [].
Proof. intros H ->. unfold word_at in H. rewrite nth_error_nil in H. discriminate. Qed.

Lemma at_boundary_cons l k :
  l <> [] -> at_boundary l k = negb (Bool.eqb (match k with 0 => false | S j => word_at l j end) (word_at l k)).
Proof. destruct l; [contradiction | reflexivity]. Qed.

Section Idempotence.
Variable ws : list pystr.
Hypothesis ws_words : Forall (Forall (fun x => is_word x = true)) ws.
Hypothesis ws_no_S : Forall (Forall (fun x => is_S x = false)) ws.

Lemma alternatives_no_S : Forall (Forall (fun x => is_S x = false)) (alternatives ws).
Proof. destruct ws; simpl; auto. Qed.

(** No match of the pattern starts right before an [S]. *)
Lemma price_end_next_S s j e c :
  price_end ws s j = Some e -> nth_error s (S j) = Some c -> is_S c = true -> False.
Proof.
  intros H Hc HS. pose proof (price_end_shape ws ws_words s j e H) as [_ Hw].
  unfold price_end in H. destruct (nth_error s j) as [d|] eqn:Hd; [|discriminate].
  destruct (at_boundary s j && is_S d) eqn:Hb; [|discriminate].
  replace (digits_at s (S j)) with 0 in H
    by (unfold digits_at; rewrite (skipn_nth_cons _ _ _ Hc); simpl; rewrite (S_not_digit _ HS); reflexivity).
  simpl in H. pose proof (word_end_boundary _ _ _ _ H) as Hbe.
  destruct (word_end_some _ _ _ _ H) as ([|c0 w] & Hin & Hpre & ->).
  - rewrite Nat.add_0_r, at_boundary_inner in Hbe; [discriminate| apply Hw; lia |].
    unfold word_at. rewrite Hc. auto using is_S_word.
  - rewrite (skipn_nth_cons _ _ _ Hc) in Hpre. simpl in Hpre. bool_hyps.
    apply Ascii.eqb_eq in H0. unfold is_S in HS. apply Ascii.eqb_eq in HS.
    pose proof (proj1 (Forall_forall _ _) alternatives_no_S _ Hin) as Hw0. inversion Hw0 as [|? ? H0S]; subst.
    unfold is_S in H0S. rewrite <- H0, HS, Ascii.eqb_refl in H0S. discriminate.
Qed.

Section Pass.
Variable s : pystr.

Lemma fix_spec_map (f : ascii -> bool) :
  (forall c, is_S c = true -> f c = f "$"%char) -> map f (fix_spec ws s) = map f s.
Proof.
  intros Hf. apply nth_error_ext. intros q. rewrite !nth_error_map, fix_spec_nth.
  destruct (nth_error s q) as [c|] eqn:E; [|reflexivity]. simpl.
  destruct (price_start ws s q) eqn:P; [|reflexivity].
  destruct (price_start_at _ _ _ _ P E). rewrite (Hf c); auto.
Qed.

Lemma fix_spec_kept q : price_start ws s q = false -> nth_error (fix_spec ws s) q = nth_error s q.
Proof. intros P. rewrite fix_spec_nth, P. destruct (nth_error s q); reflexivity. Qed.

Lemma fix_spec_word_kept q : word_at (fix_spec ws s) q = true -> price_start ws s q = false.
Proof.
  unfold word_at. rewrite fix_spec_nth. destruct (price_start ws s q); [|reflexivity].
  destruct (nth_error s q); simpl; discriminate.
Qed.

Lemma fix_spec_word_at q : word_at (fix_spec ws s) q = true -> word_at s q = true.
Proof. intros H. unfold word_at. rewrite <- (fix_spec_kept q (fix_spec_word_kept q H)). exact H. Qed.


(** After a word character the cleaned text has a boundary where the
    original has one: an [S] there was not rewritten, since no boundary
    precedes it in the original. *)
Lemma fix_spec_boundary_after k :
  word_at (fix_spec ws s) k = true -> at_boundary (fix_spec ws s) (S k) = at_boundary s (S k).
Proof.
  intros Hk. pose proof (fix_spec_word_at k Hk) as Hks.
  destruct (price_start ws s (S k)) eqn:P.
  - destruct (price_start_char _ _ _ P) as [c Hc]. destruct (price_start_at _ _ _ _ P Hc) as [HS Hb].
    rewrite at_boundary_inner in Hb; [discriminate | exact Hks |].
    unfold word_at. rewrite Hc. auto using is_S_word.
  - rewrite !at_boundary_cons by eauto using word_at_nonempty.
    unfold word_at at 2 4. rewrite fix_spec_kept by exact P. rewrite Hk, Hks. reflexivity.
Qed.

(** The boundary before an [S] the cleaned text still has was there in
    the original. *)
Lemma fix_spec_boundary_before q c :
  nth_error (fix_spec ws s) q = Some c -> is_S c = true ->
  at_boundary (fix_spec ws s) q = true -> at_boundary s q = true.
Proof.
  intros Hc HS Hb.
  assert (Wq : word_at (fix_spec ws s) q = true) by (unfold word_at; rewrite Hc; auto using is_S_word).
  pose proof (fix_spec_word_at q Wq) as Wqs.
  assert (Hcs : nth_error s q = Some c) by (rewrite <- (fix_spec_kept q (fix_spec_word_kept q Wq)); exact Hc).
  rewrite at_boundary_cons in * by eauto using word_at_nonempty. rewrite Wq in Hb. rewrite Wqs.
  destruct q as [|j]; [exact Hb|].
  destruct (word_at s j) eqn:Wj; [|reflexivity]. exfalso.
  destruct (price_start ws s j) eqn:P.
  - unfold price_start in P. destruct (price_end ws s j) as [e|] eqn:Pe; [|discriminate].
    exact (price_end_next_S _ _ _ _ Pe Hcs HS).
  - unfold word_at in Wj, Hb. rewrite fix_spec_kept in Hb by exact P. rewrite Wj in Hb. discriminate.
Qed.

Lemma fix_spec_digits i : digits_at (fix_spec ws s) i = digits_at s i.
Proof.
  unfold digits_at. apply run_len_map. rewrite <- !skipn_map. f_equal.
  apply fix_spec_map. intros c HS. simpl. rewrite (S_not_digit c HS). reflexivity.
Qed.

(** The words read after an [S] of the cleaned text are read the same
    way in the original, and end at the same boundaries. *)
Lemma fix_spec_word_end L j :
  Forall (Forall (fun x => is_word x = true)) L -> Forall (Forall (fun x => is_S x = false)) L ->
  word_at (fix_spec ws s) j = true ->
  word_end L (fix_spec ws s) (S j) = word_end L s (S j).
Proof.
  induction L as [|w L IH]; intros Hw Hn Wj; [reflexivity|].
  inversion Hw as [|? ? Hw1 Hw2]; inversion Hn as [|? ? Hn1 Hn2]; subst. cbn [word_end].
  assert (Hpre : ci_prefix w (skipn (S j) (fix_spec ws s)) = ci_prefix w (skipn (S j) s)).
  { apply ci_prefix_map. intros c Hin. rewrite <- !skipn_map. f_equal. apply fix_spec_map.
    intros c' HS'. unfold is_S in HS'. apply Ascii.eqb_eq in HS'. rewrite HS'.
    destruct (word_char_not_S_dollar c) as [A B];
      [exact (proj1 (Forall_forall _ _) Hw1 c Hin) | exact (proj1 (Forall_forall _ _) Hn1 c Hin) |].
    rewrite A, B. reflexivity. }
  rewrite Hpre. destruct (ci_prefix w (skipn (S j) s)); cbn [andb]; [|apply IH; auto].
  assert (Ww : word_at (fix_spec ws s) (j + length w) = true).
  { destruct w as [|c0 w0]; [rewrite Nat.add_0_r; exact Wj|].
    destruct (ci_prefix_words _ _ (length w0) Hpre Hw1 ltac:(simpl; lia)) as (x & Hx & Wx).
    rewrite nth_error_skipn in Hx. unfold word_at. simpl length. rewrite <- Nat.add_succ_comm, Hx. exact Wx. }
  replace (S j + length w) with (S (j + length w)) by lia.
  rewrite fix_spec_boundary_after by exact Ww. destruct (at_boundary s _); [reflexivity | apply IH; auto].
Qed.

(** No match of the pattern starts in the cleaned text. *)
Lemma fix_spec_no_match q : price_start ws (fix_spec ws s) q = false.
Proof.
  destruct (price_start ws (fix_spec ws s) q) eqn:P; [exfalso|reflexivity].
  destruct (price_start_char _ _ _ P) as [c Hc]. destruct (price_start_at _ _ _ _ P Hc) as [HS Hb].
  assert (Wq : word_at (fix_spec ws s) q = true) by (unfold word_at; rewrite Hc; auto using is_S_word).
  pose proof (fix_spec_word_kept q Wq) as Kq.
  assert (Hcs : nth_error s q = Some c) by (rewrite <- (fix_spec_kept q Kq); exact Hc).
  pose proof (fix_spec_boundary_before q c Hc HS Hb) as Hbs.
  unfold price_start in P, Kq. destruct (price_end ws (fix_spec ws s) q) as [e|] eqn:Pe; [|discriminate].
  destruct (price_end_shape ws ws_words _ _ _ Pe) as [Hlt Hw].
  unfold price_end in Pe, Kq. rewrite Hc, Hb, HS in Pe. rewrite Hcs, Hbs, HS in Kq. cbv zeta in Pe, Kq. cbn [andb] in Pe, Kq.
  rewrite fix_spec_digits in Pe.
  destruct ((0 <? digits_at s (S q)) && at_boundary (fix_spec ws s) (S q + digits_at s (S q))) eqn:D.
  - injection Pe as <-. replace (S q + digits_at s (S q)) with (S (q + digits_at s (S q))) in D, Kq by lia.
    rewrite fix_spec_boundary_after in D by (apply Hw; lia). rewrite D in Kq. discriminate.
  - rewrite (fix_spec_word_end _ q (alternatives_words ws ws_words) alternatives_no_S Wq) in Pe.
    rewrite Pe in Kq. revert Kq.
    destruct ((0 <? digits_at s (S q)) && at_boundary s (S q + digits_at s (S q))); intros H; discriminate H.
Qed.
End Pass.

Lemma fix_spec_idempotent s : fix_spec ws (fix_spec ws s) = fix_spec ws s.
Proof.
  apply nth_error_ext. intros q. rewrite fix_spec_nth, fix_spec_no_match.
  destruct (nth_error _ q); reflexivity.
Qed.
End Idempotence.

Lemma PRICE_WORDS_no_S : Forall (Forall (fun x => is_S x = false)) PRICE_WORDS.
Proof. repeat constructor. Qed.

(** Cleaning is idempotent: running [clean_ocr_text] on its own
    output changes nothing, since no price word contains an [s], so a
    rewritten [$] never exposes a new match. *)
Theorem clean_ocr_text_idempotent text : clean_ocr_text (clean_ocr_text text) = clean_ocr_text text.
Proof.
  unfold clean_ocr_text. rewrite !fix_price_words_eq.
  apply fix_spec_idempotent; [apply PRICE_WORDS_words | apply PRICE_WORDS_no_S].
Qed.

(** ** The pattern is the one the source text describes *)

Lemma price_pattern_source_eq ws :
  price_pattern_source ws = Some (lit "\bS(\d+|(?:" ++ join (lit "|") ws ++ lit "))\b").
Proof. reflexivity. Qed.

Lemma seq_of_literal_items w : seq_of (literal_items w) = lits w.
Proof. induction w as [|c w IH]; simpl; [reflexivity|]. rewrite IH. reflexivity. Qed.

Lemma alt_of_lits ws : alt_of (map (fun w => seq_of (literal_items w)) ws) = alts ws.
Proof.
  induction ws as [|w ws IH]; [reflexivity|]. cbn [map].
  rewrite seq_of_literal_items. destruct ws as [|w' ws]; [reflexivity|]. exact (f_equal (RAlt (lits w)) IH).
Qed.

(** C11: the pattern the code compiles is the one the model runs: for a
    list of price words none of whose characters is special to [re], the
    text built on lines 10-12 ([str.format] of ["|".join(ws)]) is parsed
    by [sre_parse] without error into a pattern with one group, and
    [re.sub] with it and [r"$\1"] is [fix_price_words_with ws] on every
    text. *)
Theorem price_pattern_compiles ws :
  Forall (fun w => forallb plain_char w = true) ws ->
  exists src r, price_pattern_source ws = Some src /\ sre_parse src = SreOk r 1 /\
    forall text, sub (Compiled r true) price_template text = fix_price_words_with ws text.
Proof.
  intros Hws. rewrite price_pattern_source_eq.
  assert (Hr : exists r, sre_parse (lit "\bS(\d+|(?:" ++ join (lit "|") ws ++ lit "))\b") = SreOk r 1 /\
                         req r (re_ast (price_pattern ws))).
  { destruct ws as [|w ws].
    - eexists. split; [reflexivity|]. cbn. rewrite !RCat_REmpty_r. reflexivity.
    - unfold sre_parse. set (L := length _). set (X := join (lit "|") (w :: ws)).
      assert (Hpre : exists st1 st2,
        parse_loop L (lit "\bS(\d+|(?:" ++ X ++ lit "))\b") (Frame None 0 [] []) [] 0
        = parse_loop L (X ++ ")"%char :: lit ")\b") (Frame None st2 [] [])
            [Frame (Some 1) st1 [seq_of [RPlus CDigit]] []; Frame None 0 [] [RAtom (CLit "S"); RBound]] 1)
        by (do 2 eexists; reflexivity).
      destruct Hpre as (st1 & st2 & ->). subst X.
      destruct (parse_alternatives L (w :: ws) (lit ")\b") None st2 [] (Frame (Some 1) st1 [seq_of [RPlus CDigit]] [])
                  [Frame None 0 [] [RAtom (CLit "S"); RBound]] 1 ltac:(discriminate) Hws) as (fr & -> & Hg & Hc).
      eexists. split; [reflexivity|].
      cbn [close_frame add_item group_item fbranches fitems fgroup rev app seq_of alt_of].
      unfold group_item. rewrite Hg, Hc, app_nil_l, alt_of_lits. cbn. rewrite !RCat_REmpty_r. reflexivity. }
  destruct Hr as (r & Hr & Heq). eexists _, r. split; [reflexivity|]. split; [exact Hr|].
  intros text. unfold fix_price_words_with, price_pattern. apply sub_req. exact Heq.
Qed.

Lemma price_pattern_compiles_witness :
  Forall (fun w => forallb plain_char w = true) PRICE_WORDS /\
  exists src r, price_pattern_source PRICE_WORDS = Some src /\ sre_parse src = SreOk r 1 /\
    forall text, sub (Compiled r true) price_template text = fix_price_words_with PRICE_WORDS text.
Proof.
  assert (H : Forall (fun w => forallb plain_char w = true) PRICE_WORDS) by (repeat constructor).
  split; [exact H | apply (price_pattern_compiles PRICE_WORDS H)].
Defined.

(** ** Cleaning and [str.strip] commute

    Lines 35-36 clean the OCR text, then strip it.  Whitespace is never
    a word character, a digit or a letter of a price word, so a space at
    either end of the text is neither part of a match nor a reason for
    one: cleaning first or stripping first gives the same page text. *)

Lemma word_at_cons_S c s q : word_at (c :: s) (S q) = word_at s q.
Proof. reflexivity. Qed.

Lemma at_boundary_cons_space c s q :
  is_space c = true -> s <> [] -> at_boundary (c :: s) (S q) = at_boundary s q.
Proof.
  intros Hc Hs. rewrite (at_boundary_cons s) by exact Hs. cbn [at_boundary].
  rewrite word_at_cons_S. destruct q as [|q]; [|reflexivity].
  unfold word_at at 1. cbn. rewrite (is_space_not_word c Hc). reflexivity.
Qed.

Lemma space_not_S c : is_space c = true -> is_S c = false.
Proof.
  intros Hc. destruct (is_S c) eqn:E; [|reflexivity].
  apply is_S_word in E. rewrite (is_space_not_word c Hc) in E. discriminate.
Qed.

Lemma word_end_cons_space ws c s q :
  is_space c = true -> s <> [] -> word_end ws (c :: s) (S q) = option_map S (word_end ws s q).
Proof.
  intros Hc Hs. induction ws as [|w ws IH]; [reflexivity|]. cbn [word_end].
  change (skipn (S q) (c :: s)) with (skipn q s). change (S q + length w) with (S (q + length w)).
  rewrite (at_boundary_cons_space c s (q + length w) Hc Hs).
  destruct (_ && _); [reflexivity|exact IH].
Qed.

Lemma price_end_cons_space ws c s q :
  is_space c = true -> price_end ws (c :: s) (S q) = option_map S (price_end ws s q).
Proof.
  intros Hc. unfold price_end. change (nth_error (c :: s) (S q)) with (nth_error s q).
  destruct (nth_error s q) as [d|] eqn:Hd; [|reflexivity].
  assert (Hs : s <> []) by (intros ->; rewrite nth_error_nil in Hd; discriminate).
  rewrite !(at_boundary_cons_space c s _ Hc Hs).
  change (digits_at (c :: s) (S (S q))) with (digits_at s (S q)).
  destruct (at_boundary s q && is_S d); [|reflexivity].
  change (S (S q) + digits_at s (S q)) with (S (S q + digits_at s (S q))).
  rewrite (at_boundary_cons_space c s (S q + digits_at s (S q)) Hc Hs).
  destruct (_ && _); [reflexivity|]. apply (word_end_cons_space _ c s (S q) Hc Hs).
Qed.

Lemma word_at_snoc_space c s i : is_space c = true -> word_at (s ++ [c]) i = word_at s i.
Proof.
  intros Hc. unfold word_at. destruct (Nat.lt_ge_cases i (length s)) as [Hi|Hi].
  - rewrite nth_error_app1 by exact Hi. reflexivity.
  - rewrite nth_error_app2 by exact Hi. rewrite (proj2 (nth_error_None s i) Hi).
    destruct (i - length s) as [|k]; cbn; [apply is_space_not_word, Hc|destruct k; reflexivity].
Qed.

Lemma at_boundary_snoc_space c s i : is_space c = true -> at_boundary (s ++ [c]) i = at_boundary s i.
Proof.
  intros Hc. destruct s as [|d s].
  - cbn [app]. rewrite at_boundary_cons by discriminate. unfold word_at.
    destruct i as [|[|i]]; cbn; rewrite ?nth_error_nil, ?(is_space_not_word c Hc); reflexivity.
  - remember (d :: s) as s0 eqn:Es.
    rewrite !at_boundary_cons by (subst; discriminate).
    destruct i; rewrite !word_at_snoc_space by exact Hc; reflexivity.
Qed.

Lemma run_len_snoc_space c l : is_space c = true -> run_len true CDigit (l ++ [c]) = run_len true CDigit l.
Proof.
  intros Hc. induction l as [|d l IH]; cbn.
  - destruct (is_decimal c) eqn:E; [|reflexivity].
    apply is_decimal_word in E. rewrite (is_space_not_word c Hc) in E. discriminate.
  - rewrite IH. reflexivity.
Qed.

(** A prefix made of word characters never reaches a trailing space. *)
Lemma ci_prefix_snoc_space c w : forall l,
  Forall (fun x => is_word x = true) w -> is_space c = true -> ci_prefix w (l ++ [c]) = ci_prefix w l.
Proof.
  induction w as [|y w IH]; intros l Hw Hc; [destruct l; reflexivity|]. inversion Hw; subst.
  destruct l as [|x l]; cbn.
  - destruct (Ascii.eqb (lower c) (lower y)) eqn:E; [|reflexivity]. apply Ascii.eqb_eq in E.
    assert (is_word c = true) by (rewrite <- is_word_lower, E, is_word_lower; assumption).
    rewrite (is_space_not_word c Hc) in H. discriminate.
  - rewrite IH by assumption. reflexivity.
Qed.

Section TrailingSpace.
Variable ws : list pystr.
Hypothesis ws_words : Forall (Forall (fun x => is_word x = true)) ws.
Variable c : ascii.
Hypothesis c_space : is_space c = true.

Lemma skipn_snoc s q : q <= length s -> skipn q (s ++ [c]) = skipn q s ++ [c].
Proof. intros Hq. rewrite skipn_app. replace (q - length s) with 0 by lia. reflexivity. Qed.

Lemma word_end_snoc_space s q ws' :
  Forall (Forall (fun x => is_word x = true)) ws' -> q <= length s ->
  word_end ws' (s ++ [c]) q = word_end ws' s q.
Proof.
  intros Hw Hq. induction Hw as [|w ws' Hw1 _ IH]; [reflexivity|]. cbn [word_end].
  rewrite skipn_snoc, ci_prefix_snoc_space, at_boundary_snoc_space by assumption.
  destruct (_ && _); [reflexivity|exact IH].
Qed.

Lemma price_end_snoc_space s q : q < length s -> price_end ws (s ++ [c]) q = price_end ws s q.
Proof.
  intros Hq. unfold price_end. rewrite nth_error_app1 by exact Hq.
  destruct (nth_error s q) as [d|]; [|reflexivity].
  rewrite !at_boundary_snoc_space by exact c_space. unfold digits_at.
  rewrite skipn_snoc, run_len_snoc_space by (exact c_space || lia).
  destruct (_ && _); [|reflexivity]. destruct (_ && _); [reflexivity|].
  apply word_end_snoc_space; [apply alternatives_words, ws_words|lia].
Qed.

End TrailingSpace.

Lemma dollar_not_space : is_space "$"%char = false.
Proof. reflexivity. Qed.

(** The character cleaning leaves at [q] is whitespace only when the
    original one was. *)
Lemma fix_spec_nth_space ws s q d :
  nth_error (fix_spec ws s) q = Some d -> exists c, nth_error s q = Some c /\ is_space d = is_space c.
Proof.
  rewrite fix_spec_nth. destruct (nth_error s q) as [c|] eqn:Hq; [|discriminate]. intros [= <-].
  exists c. split; [reflexivity|]. destruct (price_start ws s q) eqn:E; [|reflexivity].
  destruct (price_start_at _ _ _ _ E Hq) as [HS _]. rewrite dollar_not_space.
  destruct (is_space c) eqn:Sc; [|reflexivity]. rewrite (space_not_S c Sc) in HS. discriminate.
Qed.

Lemma rstrip_snoc s c : rstrip (s ++ [c]) = if is_space c then rstrip s else s ++ [c].
Proof.
  unfold rstrip. rewrite rev_app_distr. cbn [rev app lstrip].
  destruct (is_space c); [reflexivity|]. cbn [rev]. rewrite rev_involutive. reflexivity.
Qed.

