(* ===== verification/Effects.v ===== *)
(** * Exceptions, calls to the outside world, and the monad that records them

    The program talks to the outside through library calls: pdfplumber,
    pdf2image, pytesseract, the generative model and the file system.
    Each call is an [event]; a computation of type [M A] is the list of
    calls it made, in order, together with its outcome, a value or the
    Python exception that escaped.  [with_resource] is Python's [with]
    statement: the exit action runs on every path, and an exception of
    the body is re-raised after it. *)

From Stdlib Require Import String Ascii List Lia Bool PeanoNat.
From S2P Require Import Prelude PyStr.
Import ListNotations.

(** The exceptions that reach the code, by the library that raises them;
    the payload is the text [str(e)] gives. *)
Inductive exn : Type :=
| PdfError (msg : pystr)         (** pdfplumber: missing or malformed file *)
| PopplerError (msg : pystr)     (** pdf2image: poppler missing, page count *)
| TesseractError (msg : pystr)   (** pytesseract: engine missing or failed *)
| ModelError (msg : pystr)       (** google.generativeai: call or response text *)
| JSONDecodeError (msg : pystr)  (** json.loads: the reply is not JSON *)
| OSError (msg : pystr)          (** saving the upload or writing the output *)
| ValueError (msg : pystr)       (** [Path.with_suffix] on a path with no name, [os.putenv] *)
| KeyError (msg : pystr).        (** [os.environ[k]] of a missing [k]: [str(e)] is [repr(k)] *)

(** [str(e)]. *)
Definition exn_message (e : exn) : pystr :=
  match e with
  | PdfError m | PopplerError m | TesseractError m | ModelError m
  | JSONDecodeError m | OSError m | ValueError m | KeyError m => m
  end.

(** The calls to the outside world. *)
Inductive event : Type :=
| EvOpen (path : pystr)             (** [pdfplumber.open(path)] *)
| EvExtract (page : nat)            (** [page.extract_text()] of page [page] *)
| EvClose                           (** [pdf.close()] *)
| EvConvert (path : pystr) (dpi : nat)  (** [convert_from_path(path, dpi=dpi)] *)
| EvOcr (page : nat)                (** [pytesseract.image_to_string] on page [page] *)
| EvGenerate (prompt : pystr)       (** [model.generate_content(prompt)] *)
| EvExists (path : pystr)           (** [os.path.exists(path)] *)
| EvSave (path : pystr)             (** [file.save(path)] *)
| EvWrite (path : pystr)            (** [open(path, 'w')] *)
| EvDump (text : pystr)             (** [json.dump]'s writes to that file *)
| EvPrint (text : pystr).           (** [print(text)]: [text] and a newline on stdout *)

(** ** The monad *)

Definition M (A : Type) : Type := (list event * (exn + A))%type.

Definition ret {A} (x : A) : M A := ([], inr x).

Definition raise {A} (e : exn) : M A := ([], inl e).

Definition bind {A B} (c : M A) (f : A -> M B) : M B :=
  match c with
  | (t, inl e) => (t, inl e)
  | (t, inr x) => let (t', r) := f x in (t ++ t', r)
  end.

(** One library call: the event, then the library's answer. *)
Definition call {A} (ev : event) (answer : exn + A) : M A := ([ev], answer).

Notation "x <- c ;; k" := (bind c (fun x => k))
  (at level 100, c at next level, right associativity) : pdfmenu_scope.
Notation "c ;;; k" := (bind c (fun _ => k))
  (at level 100, right associativity) : pdfmenu_scope.
Open Scope pdfmenu_scope.

(** [try: body finally: exit] -- the [with] statement's [__exit__]: the
    exit action runs after the body whatever its outcome; its own
    exception, if any, replaces the body's. *)
Definition finally {A} (body : M A) (exit : M unit) : M A :=
  let (t, r) := body in
  let (t', r') := exit in
  (t ++ t', match r' with inl e => inl e | inr _ => r end).

(** [try: body except Exception as e: handler(e)]. *)
Definition catch {A} (body : M A) (handler : exn -> M A) : M A :=
  match body with
  | (t, inl e) => let (t', r) := handler e in (t ++ t', r)
  | (t, inr x) => (t, inr x)
  end.

(** A pure step that may raise, such as [json.loads]: no call is made. *)
Definition lift {A} (r : exn + A) : M A := ([], r).

(** Writes to the file system. *)
Definition is_write (ev : event) : bool :=
  match ev with EvSave _ | EvWrite _ | EvDump _ => true | _ => false end.

(** ** Laws *)

Lemma bind_ret_l {A B} (x : A) (f : A -> M B) : bind (ret x) f = f x.
Proof. unfold bind, ret. destruct (f x). reflexivity. Qed.

Lemma bind_ret_r {A} (c : M A) : bind c ret = c.
Proof. destruct c as [t [e|x]]; simpl; [reflexivity|]. rewrite app_nil_r. reflexivity. Qed.

Lemma bind_assoc {A B C} (c : M A) (f : A -> M B) (g : B -> M C) :
  bind (bind c f) g = bind c (fun x => bind (f x) g).
Proof.
  destruct c as [t [e|x]]; simpl; [reflexivity|].
  destruct (f x) as [t1 [e1|y]]; simpl; [reflexivity|].
  destruct (g y) as [t2 r2]. rewrite app_assoc. reflexivity.
Qed.

Lemma bind_call {A B} ev (answer : exn + A) (f : A -> M B) :
  bind (call ev answer) f
  = match answer with inl e => ([ev], inl e) | inr x => let (t, r) := f x in (ev :: t, r) end.
Proof. destruct answer; reflexivity. Qed.

Lemma bind_raise {A B} (e : exn) (f : A -> M B) : bind (raise e) f = raise e.
Proof. reflexivity. Qed.

(** The trace of a computation followed by more work starts with the
    trace of the computation. *)
Lemma bind_trace_prefix {A B} (c : M A) (f : A -> M B) :
  exists t', fst (bind c f) = fst c ++ t'.
Proof.
  destruct c as [t [e|x]]; simpl; [exists []; rewrite app_nil_r; reflexivity|].
  destruct (f x) as [t' r]. exists t'. reflexivity.
Qed.

#[export] Hint Rewrite @bind_ret_l @bind_ret_r @bind_assoc @bind_raise : pdfmenu_rw.

(** A [with] block whose exit call cannot fail: the exit event is
    appended and the body's outcome is kept. *)
Lemma finally_call_ok {A} (body : M A) ev :
  finally body (call ev (inr tt)) = (fst body ++ [ev], snd body).
Proof. destruct body as [t r]. reflexivity. Qed.

(** ** Invariants of traces *)

Section TraceInv.
Variable P : event -> Prop.

Definition trace_all {A} (c : M A) : Prop := Forall P (fst c).

Lemma trace_all_ret {A} (x : A) : trace_all (ret x).
Proof. constructor. Qed.

Lemma trace_all_raise {A} (e : exn) : trace_all (@raise A e).
Proof. constructor. Qed.

Lemma trace_all_lift {A} (r : exn + A) : trace_all (lift r).
Proof. constructor. Qed.

Lemma trace_all_call {A} ev (r : exn + A) : P ev -> trace_all (call ev r).
Proof. intros H. repeat constructor. exact H. Qed.

Lemma trace_all_bind {A B} (c : M A) (f : A -> M B) :
  trace_all c -> (forall x, trace_all (f x)) -> trace_all (bind c f).
Proof.
  unfold trace_all. intros Hc Hf. destruct c as [t [e|x]]; simpl in *; [exact Hc|].
  specialize (Hf x). destruct (f x) as [t' r]. simpl in *. apply Forall_app. auto.
Qed.

(** The continuation only runs on the value the computation returned. *)
Lemma trace_all_bind_ok {A B} (c : M A) (f : A -> M B) :
  trace_all c -> (forall x, snd c = inr x -> trace_all (f x)) -> trace_all (bind c f).
Proof.
  unfold trace_all. intros Hc Hf. destruct c as [t [e|x]]; simpl in *; [exact Hc|].
  specialize (Hf x eq_refl). destruct (f x) as [t' r]. simpl in *. apply Forall_app. auto.
Qed.

Lemma trace_all_finally {A} (b : M A) (ex : M unit) :
  trace_all b -> trace_all ex -> trace_all (finally b ex).
Proof.
  unfold trace_all, finally. intros Hb He. destruct b as [t r], ex as [t' r'].
  simpl in *. apply Forall_app. auto.
Qed.

Lemma trace_all_catch {A} (b : M A) (h : exn -> M A) :
  trace_all b -> (forall e, trace_all (h e)) -> trace_all (catch b h).
Proof.
  unfold trace_all, catch. intros Hb Hh. destruct b as [t [e|x]]; simpl in *; [|exact Hb].
  specialize (Hh e). destruct (h e) as [t' r]. simpl in *. apply Forall_app. auto.
Qed.
End TraceInv.

#[export] Hint Resolve trace_all_ret trace_all_raise trace_all_lift trace_all_call
  trace_all_bind trace_all_finally trace_all_catch : pdfmenu.
