(* ===== verification/PdfToText.v ===== *)
(** * Hybrid text extraction ([src/pdf_to_text.py])

    The libraries are a typeclass [PdfLibraries]: pdfplumber's [open] (the
    list of pages, or the exception it raises) and [extract_text], and
    pdf2image's [convert_from_path] with pytesseract's [image_to_string].
    Every call is recorded as an event of [Effects].

    Both loops of the file are [for page_number, x in enumerate(xs,
    start=1)] with one library call per element, a [text.strip()] test and
    an append; [scan_pages] is that loop, and the two functions differ
    only in the call and in what they store ([text.strip()] for the text
    layer, [clean_ocr_text(text).strip()] for OCR). *)

From Stdlib Require Import String Ascii List Lia Bool PeanoNat Sorted.
From S2P Require Import Prelude PyStr PyRegex PriceWords Effects.
Import ListNotations.
Open Scope pdfmenu_scope.

(** What the code needs from pdfplumber, pdf2image and pytesseract. *)
Class PdfLibraries : Type := {
  pdf_page : Type;
  pdf_image : Type;
  pdf_doc : Type;
  plumber_open : pystr -> exn + pdf_doc;              (** [pdfplumber.open(p)] *)
  pdf_pages : pdf_doc -> exn + list pdf_page;         (** [pdf.pages], parsed on first use *)
  extract_text : pdf_page -> exn + pystr;             (** [page.extract_text()] *)
  convert_from_path : pystr -> nat -> exn + list pdf_image;  (** at a DPI *)
  image_to_string : pdf_image -> exn + pystr          (** tesseract's OCR *)
}.

(** A page of the result: its number and its text. *)
Definition page_text : Type := (nat * pystr)%type.

(** The default of [extract_text_from_image_pdf(pdf_path, dpi=300)]. *)
Definition DEFAULT_DPI : nat := 300.

Section Extraction.
Context `{L : PdfLibraries}.

(** [for page_number, x in enumerate(xs, start=n): text = read(x);
    if text.strip(): extracted_text.append((page_number, keep(text)))]. *)
Fixpoint scan_pages {X} (ev : nat -> event) (read : X -> exn + pystr)
  (keep : pystr -> pystr) (n : nat) (xs : list X) (acc : list page_text)
  : M (list page_text) :=
  match xs with
  | [] => ret acc
  | x :: rest =>
      text <- call (ev n) (read x) ;;
      scan_pages ev read keep (S n) rest
        (if truthy (strip text) then acc ++ [(n, keep text)] else acc)
  end.

Definition pdf_close : M unit := call EvClose (inr tt).

(** [with pdfplumber.open(pdf_path) as pdf:] the loop over [pdf.pages],
    then [pdf.close()]; the [with] closes the document again on exit,
    also when reading [pdf.pages] raises. *)
Definition read_text_layer (pdf_path : pystr) : M (list page_text) :=
  pdf <- call (EvOpen pdf_path) (plumber_open pdf_path) ;;
  finally
    (pages <- lift (pdf_pages pdf) ;;
     extracted <- scan_pages EvExtract extract_text strip 1 pages [] ;;
     pdf_close ;;; ret extracted)
    pdf_close.

(** The pages of the document at [pdf_path], as [pdf.pages] lists them
    once pdfplumber has opened it. *)
Definition document_pages (pdf_path : pystr) : exn + list pdf_page :=
  match plumber_open pdf_path with
  | inl e => inl e
  | inr pdf => pdf_pages pdf
  end.

(** [extract_text_from_image_pdf(pdf_path, dpi)]. *)
Definition extract_text_from_image_pdf (pdf_path : pystr) (dpi : nat) : M (list page_text) :=
  images <- call (EvConvert pdf_path dpi) (convert_from_path pdf_path dpi) ;;
  scan_pages EvOcr image_to_string (fun text => strip (clean_ocr_text text)) 1 images [].

(** [f"Page {page_num}: {chunk}"]. *)
Definition page_line (p : page_text) : pystr :=
  lit "Page " ++ str_of_nat (fst p) ++ lit ": " ++ snd p.

(** ["\n".join([...])]. *)
Definition serialize_pages (ps : list page_text) : pystr := join newline (map page_line ps).

(** [extract_text_hybrid(pdf_path)]: the text layer, and OCR of the whole
    document only when no page had text. *)
Definition extract_text_hybrid (pdf_path : pystr) : M pystr :=
  extracted <- read_text_layer pdf_path ;;
  extracted <- match extracted with
               | [] => extract_text_from_image_pdf pdf_path DEFAULT_DPI
               | _ => ret extracted
               end ;;
  ret (serialize_pages extracted).

(** The script's test driver ([if __name__ == "__main__":]): the text of
    the sample menu, printed; an exception of the extraction ends the
    script before anything is printed. *)
Definition pdf_to_text_main : M unit :=
  hybrid_text <- extract_text_hybrid (lit "./example_pdfs/bacardi_menu.pdf") ;;
  call (EvPrint hybrid_text) (inr tt).

End Extraction.

(** ** Specification of the loops *)

(** [[(n + i, keep(t)) for i, t in enumerate(texts) if t.strip()]]. *)
Fixpoint keep_pages (keep : pystr -> pystr) (n : nat) (texts : list pystr) : list page_text :=
  match texts with
  | [] => []
  | t :: r => (if truthy (strip t) then [(n, keep t)] else []) ++ keep_pages keep (S n) r
  end.

(** The invariant of an extracted page list: numbered from 1, in strictly
    increasing page order, no page with empty text. *)
Definition pages_wf (ps : list page_text) : Prop :=
  Forall (fun p => 1 <= fst p /\ snd p <> []) ps /\ StronglySorted lt (map fst ps).

(** Libraries answering from fixed lists, like the test doubles of the
    specification: the text layer's pages and the OCR images are given
    as the text, or the exception, their call returns. *)
Definition stub_libraries (opened : exn + list (exn + pystr)) (ocr : list (exn + pystr))
  : PdfLibraries := {|
  pdf_page := exn + pystr;
  pdf_image := exn + pystr;
  pdf_doc := unit;
  plumber_open := fun _ => match opened with inl e => inl e | inr _ => inr tt end;
  pdf_pages := fun _ => opened;
  extract_text := fun r => r;
  convert_from_path := fun _ _ => inr ocr;
  image_to_string := fun r => r |}.

(** A menu with a text layer on its first page and a blank second page. *)
Definition text_pdf : PdfLibraries :=
  stub_libraries (inr [inr (lit "Sierra Nevada Pale Ale S13"); inr (lit " ")]) [].

(** A document pdfplumber opens but whose page tree it cannot read:
    [pdf.pages] raises. *)
Definition broken_tree_pdf : PdfLibraries := {|
  pdf_page := pystr; pdf_image := pystr; pdf_doc := unit;
  plumber_open := fun _ => inr tt;
  pdf_pages := fun _ => inl (PdfError (lit "bad page tree"));
  extract_text := fun pg => inr pg;
  convert_from_path := fun _ _ => inr [];
  image_to_string := fun im => inr im |}.

(** A scanned menu: no text layer, three images, the second blank. *)
Definition scanned_pdf : PdfLibraries :=
  stub_libraries (inr [inr (lit " "); inr []])
    [inr (lit " Beer S10 "); inr (lit "  "); inr (lit "Wine Stwelve")].

Section Loops.
Context {X : Type} (ev : nat -> event) (read : X -> exn + pystr) (keep : pystr -> pystr).

Lemma scan_pages_ok xs texts n acc :
  Forall2 (fun x t => read x = inr t) xs texts ->
  scan_pages ev read keep n xs acc
  = (map ev (seq n (length xs)), inr (acc ++ keep_pages keep n texts)).
Proof.
  intros H. revert n acc. induction H as [|x t xs ts Hx Hr IH]; intros n acc; cbn [scan_pages].
  - simpl. rewrite app_nil_r. reflexivity.
  - rewrite bind_call, Hx, IH. simpl.
    destruct (truthy (strip t)); simpl; rewrite <- ?app_assoc; reflexivity.
Qed.

Lemma scan_pages_err pre x post texts e n acc :
  Forall2 (fun x t => read x = inr t) pre texts -> read x = inl e ->
  scan_pages ev read keep n (pre ++ x :: post) acc = (map ev (seq n (S (length pre))), inl e).
Proof.
  intros H He. revert n acc. induction H as [|y t pre ts Hy Hr IH]; intros n acc;
    cbn [app scan_pages].
  - rewrite bind_call, He. reflexivity.
  - rewrite bind_call, Hy, IH. reflexivity.
Qed.

(** A successful loop read every element. *)
Lemma scan_pages_inr xs : forall n acc t ps,
  scan_pages ev read keep n xs acc = (t, inr ps) ->
  exists texts, Forall2 (fun x t => read x = inr t) xs texts /\
                ps = acc ++ keep_pages keep n texts.
Proof.
  induction xs as [|x xs IH]; intros n acc t ps H; cbn [scan_pages] in H.
  - injection H as _ <-. exists []. rewrite app_nil_r. auto.
  - rewrite bind_call in H. destruct (read x) as [e|text] eqn:E; [discriminate|].
    destruct (scan_pages ev read keep (S n) xs _) as [t' r] eqn:E2. injection H as _ ->.
    destruct (IH _ _ _ _ E2) as (texts & Hf & ->). exists (text :: texts).
    split; [constructor; assumption|]. simpl.
    destruct (truthy (strip text)); simpl; rewrite <- ?app_assoc; reflexivity.
Qed.
End Loops.

Lemma scan_pages_trace {X} (P : event -> Prop) ev (read : X -> exn + pystr) keep xs :
  (forall n, P (ev n)) -> forall n acc, trace_all P (scan_pages ev read keep n xs acc).
Proof.
  intros Hev. induction xs as [|x xs IH]; intros n acc; cbn [scan_pages]; eauto with pdfmenu.
Qed.

#[export] Hint Resolve scan_pages_trace : pdfmenu.

Lemma keep_pages_bounds keep texts : forall n p,
  In p (keep_pages keep n texts) -> n <= fst p.
Proof.
  induction texts as [|t r IH]; intros n p H; simpl in H; [contradiction|].
  apply in_app_or in H. destruct H as [H|H].
  - destruct (truthy (strip t)); simpl in H; [|contradiction]. destruct H as [<-|[]]. simpl. lia.
  - apply IH in H. lia.
Qed.

Lemma keep_pages_upper keep texts : forall n p,
  In p (keep_pages keep n texts) -> fst p < n + length texts.
Proof.
  induction texts as [|t r IH]; intros n p H; simpl in H; [contradiction|].
  apply in_app_or in H. destruct H as [H|H].
  - destruct (truthy (strip t)); simpl in H; [|contradiction]. destruct H as [<-|[]]. simpl. lia.
  - apply IH in H. simpl. lia.
Qed.

Lemma length_keep_pages keep texts : forall n, length (keep_pages keep n texts) <= length texts.
Proof.
  induction texts as [|t r IH]; intros n; cbn [keep_pages length]; [lia|].
  specialize (IH (S n)). destruct (truthy (strip t)); cbn [app length]; lia.
Qed.

(** A loop over [m] elements started at [1] keeps at most [m] pages,
    numbered from [1] to [m]. *)
Lemma keep_pages_in_range keep texts m :
  length texts = m ->
  length (keep_pages keep 1 texts) <= m /\ Forall (fun p => 1 <= fst p <= m) (keep_pages keep 1 texts).
Proof.
  intros <-. split; [apply length_keep_pages|]. apply Forall_forall. intros p Hp.
  pose proof (keep_pages_bounds _ _ _ _ Hp). pose proof (keep_pages_upper _ _ _ _ Hp). lia.
Qed.

(** The pages kept by a loop form a well-formed page list when [keep]
    never empties a non-blank text. *)
Lemma keep_pages_wf keep texts n :
  1 <= n -> (forall t, truthy (strip t) = true -> keep t <> []) ->
  pages_wf (keep_pages keep n texts).
Proof.
  intros Hn Hk. revert n Hn. induction texts as [|t r IH]; intros n Hn; simpl.
  - split; constructor.
  - destruct (IH (S n) ltac:(lia)) as [HF HS].
    destruct (truthy (strip t)) eqn:E; simpl; [|exact (conj HF HS)]. split.
    + constructor; [simpl; split; [lia | apply Hk, E] | exact HF].
    + constructor; [exact HS|]. apply Forall_forall. intros k Hin.
      apply in_map_iff in Hin. destruct Hin as (p & <- & Hp).
      apply keep_pages_bounds in Hp. simpl. lia.
Qed.

Lemma keep_pages_blank keep texts n :
  Forall (fun t => truthy (strip t) = false) texts -> keep_pages keep n texts = [].
Proof.
  intros H. revert n. induction H as [|t r Ht Hr IH]; intros n; simpl; [reflexivity|].
  rewrite Ht, IH. reflexivity.
Qed.

(** ** Properties of the extraction *)

Section ExtractionProps.
Context `{L : PdfLibraries}.

Lemma read_text_layer_open pdf_path pages :
  document_pages pdf_path = inr pages ->
  read_text_layer pdf_path
  = let r := scan_pages EvExtract extract_text strip 1 pages [] in
    (EvOpen pdf_path :: fst r ++ (match snd r with inr _ => [EvClose] | inl _ => [] end)
       ++ [EvClose], snd r).
Proof.
  unfold document_pages. intros H. destruct (plumber_open pdf_path) as [e|pdf] eqn:Ho; [discriminate|].
  unfold read_text_layer, pdf_close. rewrite bind_call, Ho, finally_call_ok, H. unfold lift. cbn [bind app].
  destruct (scan_pages EvExtract extract_text strip 1 pages []) as [t [e|ps]]; simpl;
    rewrite ?app_nil_r, <- ?app_assoc; reflexivity.
Qed.

(** A successful read of the text layer read every page. *)
Lemma read_text_layer_inr pdf_path t ps :
  read_text_layer pdf_path = (t, inr ps) ->
  exists pages texts, document_pages pdf_path = inr pages /\
    Forall2 (fun pg x => extract_text pg = inr x) pages texts /\ ps = keep_pages strip 1 texts.
Proof.
  unfold read_text_layer, pdf_close, document_pages. rewrite bind_call.
  destruct (plumber_open pdf_path) as [e|pdf] eqn:Ho; [discriminate|].
  rewrite finally_call_ok. unfold lift.
  destruct (pdf_pages pdf) as [e|pages] eqn:Hp; cbn [bind]; [discriminate|].
  destruct (scan_pages EvExtract extract_text strip 1 pages []) as [t1 [e|ps1]] eqn:E;
    simpl; intros H; [discriminate H | injection H as _ ->].
  destruct (scan_pages_inr _ _ _ _ _ _ _ _ E) as (texts & Hf & ->). eauto.
Qed.

(** A successful OCR read every image the conversion rendered. *)
Lemma ocr_inr_images pdf_path dpi t ps :
  extract_text_from_image_pdf pdf_path dpi = (t, inr ps) ->
  exists images texts, convert_from_path pdf_path dpi = inr images /\ length texts = length images /\
    ps = keep_pages (fun x => strip (clean_ocr_text x)) 1 texts.
Proof.
  unfold extract_text_from_image_pdf. rewrite bind_call.
  destruct (convert_from_path pdf_path dpi) as [e|images]; [discriminate|].
  destruct (scan_pages _ _ _ 1 images []) as [t1 r] eqn:E. intros [= _ ->].
  destruct (scan_pages_inr _ _ _ _ _ _ _ _ E) as (texts & Hf & ->).
  exists images, texts. split; [reflexivity|]. split; [symmetry; eapply Forall2_length, Hf|reflexivity].
Qed.

(** The calls of an extraction are opens, page reads, closes,
    conversions and OCR runs: any property of those holds of its trace. *)
Lemma extract_text_hybrid_trace (P : event -> Prop) pdf_path :
  P (EvOpen pdf_path) -> P EvClose -> (forall n, P (EvExtract n)) ->
  P (EvConvert pdf_path DEFAULT_DPI) -> (forall n, P (EvOcr n)) ->
  trace_all P (extract_text_hybrid pdf_path).
Proof.
  intros Ho Hc He Hv Hr. unfold extract_text_hybrid, read_text_layer, pdf_close,
    extract_text_from_image_pdf.
  apply trace_all_bind; [eauto 12 with pdfmenu|]. intros [|p ps]; eauto 12 with pdfmenu.
Qed.

(** C4: text-layer extraction: when pdfplumber opens the document and
    every page's [extract_text] succeeds, the pages are read in order,
    the document is closed twice (the explicit [pdf.close()] and the
    [with] exit), and the result keeps, numbered from 1, exactly the
    pages whose stripped text is non-empty, stripped. *)
Theorem read_text_layer_pages pdf_path pages texts :
  document_pages pdf_path = inr pages ->
  Forall2 (fun pg x => extract_text pg = inr x) pages texts ->
  read_text_layer pdf_path
  = (EvOpen pdf_path :: map EvExtract (seq 1 (length pages)) ++ [EvClose; EvClose],
     inr (keep_pages strip 1 texts)).
Proof.
  intros Ho Hf. rewrite (read_text_layer_open _ _ Ho), (scan_pages_ok _ _ _ _ _ _ _ Hf).
  reflexivity.
Qed.

(** An exception of [extract_text] on a page escapes
    [read_text_layer] after the pages before it were read, and the [with]
    statement still closes the document (once: the explicit [close] is
    skipped). *)
Theorem read_text_layer_page_error pdf_path pre pg post texts e :
  document_pages pdf_path = inr (pre ++ pg :: post) ->
  Forall2 (fun p x => extract_text p = inr x) pre texts -> extract_text pg = inl e ->
  read_text_layer pdf_path
  = (EvOpen pdf_path :: map EvExtract (seq 1 (S (length pre))) ++ [EvClose], inl e).
Proof.
  intros Ho Hf He. rewrite (read_text_layer_open _ _ Ho), (scan_pages_err _ _ _ _ _ _ _ _ _ _ Hf He).
  reflexivity.
Qed.

(** When reading [pdf.pages] raises, the [with] statement closes the
    document before the exception escapes; no page is read. *)
Theorem read_text_layer_pages_raise pdf_path pdf e :
  plumber_open pdf_path = inr pdf -> pdf_pages pdf = inl e ->
  read_text_layer pdf_path = ([EvOpen pdf_path; EvClose], inl e).
Proof.
  intros Ho Hp. unfold read_text_layer, pdf_close. rewrite bind_call, Ho, finally_call_ok, Hp. reflexivity.
Qed.

(** Once pdfplumber has opened the document, the last call of
    [read_text_layer] is a [close], whatever [pdf.pages] and the pages
    do. *)
Theorem read_text_layer_closes pdf_path pdf :
  plumber_open pdf_path = inr pdf ->
  exists t, fst (read_text_layer pdf_path) = EvOpen pdf_path :: t ++ [EvClose].
Proof.
  intros Ho. destruct (pdf_pages pdf) as [e|pages] eqn:Hp.
  - rewrite (read_text_layer_pages_raise _ _ _ Ho Hp). exists []. reflexivity.
  - assert (Hd : document_pages pdf_path = inr pages) by (unfold document_pages; rewrite Ho; exact Hp).
    rewrite (read_text_layer_open _ _ Hd). simpl. eexists. rewrite app_assoc. reflexivity.
Qed.

(** C2: the fallback is decided for the whole document: when the text
    layer yields at least one page, OCR is never started, the result is
    the text-layer pages serialised, and the calls made are those of the
    text-layer read alone. *)
Theorem extract_text_hybrid_text_layer pdf_path t ps :
  read_text_layer pdf_path = (t, inr ps) -> ps <> [] ->
  extract_text_hybrid pdf_path = (t, inr (serialize_pages ps)).
Proof.
  intros H Hne. unfold extract_text_hybrid. rewrite H. cbn [bind].
  destruct ps as [|p ps]; [contradiction|]. simpl. rewrite app_nil_r. reflexivity.
Qed.

(** C3: when no page has text, the whole document is rasterised at 300
    DPI and every image goes through OCR in page order; the result keeps
    the pages whose OCR text is not blank, cleaned by [clean_ocr_text]
    and stripped. *)
Theorem extract_text_hybrid_ocr pdf_path t images texts :
  read_text_layer pdf_path = (t, inr []) ->
  convert_from_path pdf_path DEFAULT_DPI = inr images ->
  Forall2 (fun im x => image_to_string im = inr x) images texts ->
  extract_text_hybrid pdf_path
  = (t ++ EvConvert pdf_path DEFAULT_DPI :: map EvOcr (seq 1 (length images)),
     inr (serialize_pages (keep_pages (fun x => strip (clean_ocr_text x)) 1 texts))).
Proof.
  intros H Hc Hf. unfold extract_text_hybrid, extract_text_from_image_pdf. rewrite H.
  cbn [bind]. rewrite bind_call, Hc, (scan_pages_ok _ _ _ _ _ _ _ Hf). simpl.
  rewrite app_nil_r. reflexivity.
Qed.

(** When pdfplumber cannot open the file, its exception escapes
    [extract_text_hybrid] at once: nothing is closed and OCR is not
    tried. *)
Theorem extract_text_hybrid_open_error pdf_path e :
  plumber_open pdf_path = inl e -> extract_text_hybrid pdf_path = ([EvOpen pdf_path], inl e).
Proof. intros Ho. unfold extract_text_hybrid, read_text_layer. rewrite bind_call, Ho. reflexivity. Qed.

(** C28: the page numbers of a successful extraction stay within the
    document: the text lists at most [n] pages, numbered between [1] and
    [n], where [n] is the number of pages pdfplumber reports when the
    text layer had text, and the number of images pdf2image rendered at
    300 DPI when the OCR fallback ran. *)
Theorem extract_text_hybrid_page_bounds pdf_path t s :
  extract_text_hybrid pdf_path = (t, inr s) ->
  exists ps n, s = serialize_pages ps /\ length ps <= n /\ Forall (fun p => 1 <= fst p <= n) ps /\
    ((exists pages, document_pages pdf_path = inr pages /\ n = length pages /\ ps <> []) \/
     (exists images, convert_from_path pdf_path DEFAULT_DPI = inr images /\ n = length images)).
Proof.
  unfold extract_text_hybrid.
  destruct (read_text_layer pdf_path) as [t1 [e|ps]] eqn:R; [discriminate|].
  destruct (read_text_layer_inr _ _ _ R) as (pages & texts & Ho & Hf & Hps). cbn [bind].
  destruct ps as [|p ps'].
  - destruct (extract_text_from_image_pdf pdf_path DEFAULT_DPI) as [t2 [e|ps2]] eqn:O;
      simpl; intros H; [discriminate H|]. injection H as _ <-.
    destruct (ocr_inr_images _ _ _ _ O) as (images & texts2 & Hc & Hl & ->).
    destruct (keep_pages_in_range (fun x => strip (clean_ocr_text x)) texts2 _ Hl) as [H1 H2].
    eexists _, _. split; [reflexivity|]. split; [exact H1|]. split; [exact H2|]. right. eauto.
  - simpl. intros H. injection H as _ <-.
    destruct (keep_pages_in_range strip texts (length pages) (eq_sym (Forall2_length Hf))) as [H1 H2].
    rewrite <- Hps in H1, H2.
    eexists _, _. split; [reflexivity|]. split; [exact H1|]. split; [exact H2|].
    left. exists pages. split; [exact Ho|]. split; [reflexivity|discriminate].
Qed.

(** C27: whatever the libraries answer, a successful extraction is the
    serialisation of a well-formed page list: page numbers from 1,
    strictly increasing, and no page with empty text. *)
Theorem extract_text_hybrid_wf pdf_path t s :
  extract_text_hybrid pdf_path = (t, inr s) -> exists ps, pages_wf ps /\ s = serialize_pages ps.
Proof.
  unfold extract_text_hybrid.
  destruct (read_text_layer pdf_path) as [t1 [e|ps]] eqn:R; [discriminate|].
  destruct (read_text_layer_inr _ _ _ R) as (pages & texts & _ & _ & Hps). cbn [bind].
  destruct ps as [|p ps'].
  - destruct (extract_text_from_image_pdf pdf_path DEFAULT_DPI) as [t2 [e|ps2]] eqn:O;
      simpl; intros H; [discriminate H|]. injection H as _ <-.
    destruct (ocr_inr_images _ _ _ _ O) as (images2 & texts2 & _ & _ & ->). eexists. split; [|reflexivity].
    apply keep_pages_wf; [lia|]. intros x Hx. rewrite <- truthy_strip_clean in Hx. cbv beta.
    destruct (strip (clean_ocr_text x)); [discriminate Hx|discriminate].
  - simpl. intros H. injection H as _ <-. rewrite Hps. eexists. split; [|reflexivity].
    apply keep_pages_wf; [lia|]. intros x Hx. destruct (strip x); [discriminate Hx|discriminate].
Qed.

(** An entirely blank document is not reported as an error:
    when neither the text layer nor OCR yields a non-blank page, the
    extraction succeeds with the empty string. *)
Theorem extract_text_hybrid_blank pdf_path t images texts :
  read_text_layer pdf_path = (t, inr []) ->
  convert_from_path pdf_path DEFAULT_DPI = inr images ->
  Forall2 (fun im x => image_to_string im = inr x) images texts ->
  Forall (fun x => truthy (strip x) = false) texts ->
  snd (extract_text_hybrid pdf_path) = inr [].
Proof.
  intros H Hc Hf Hb. unfold extract_text_hybrid, extract_text_from_image_pdf. rewrite H.
  cbn [bind]. rewrite bind_call, Hc, (scan_pages_ok _ _ _ _ _ _ _ Hf), keep_pages_blank by exact Hb.
  reflexivity.
Qed.
End ExtractionProps.

Lemma read_text_layer_pages_witness :
  @read_text_layer text_pdf (lit "menu.pdf")
  = (EvOpen (lit "menu.pdf") :: map EvExtract (seq 1 2) ++ [EvClose; EvClose],
     inr (keep_pages strip 1 [lit "Sierra Nevada Pale Ale S13"; lit " "])).
Proof.
  apply (@read_text_layer_pages text_pdf (lit "menu.pdf")
           [inr (lit "Sierra Nevada Pale Ale S13"); inr (lit " ")]
           [lit "Sierra Nevada Pale Ale S13"; lit " "]);
    [reflexivity | repeat constructor].
Defined.

Lemma read_text_layer_page_error_witness :
  @read_text_layer
    (stub_libraries (inr [inr (lit "Menu"); inl (PdfError (lit "bad xref")); inr (lit "x")]) [])
    (lit "menu.pdf")
  = (EvOpen (lit "menu.pdf") :: map EvExtract (seq 1 2) ++ [EvClose], inl (PdfError (lit "bad xref"))).
Proof.
  apply (@read_text_layer_page_error
           (stub_libraries (inr [inr (lit "Menu"); inl (PdfError (lit "bad xref")); inr (lit "x")]) [])
           _ [inr (lit "Menu")] (inl (PdfError (lit "bad xref"))) [inr (lit "x")] [lit "Menu"]);
    [reflexivity | repeat constructor | reflexivity].
Defined.

Lemma read_text_layer_pages_raise_witness :
  @read_text_layer broken_tree_pdf (lit "menu.pdf")
  = ([EvOpen (lit "menu.pdf"); EvClose], inl (PdfError (lit "bad page tree"))).
Proof. apply (@read_text_layer_pages_raise broken_tree_pdf _ tt); reflexivity. Defined.

Lemma read_text_layer_closes_witness :
  exists t, fst (@read_text_layer broken_tree_pdf (lit "menu.pdf")) = EvOpen (lit "menu.pdf") :: t ++ [EvClose].
Proof. apply (@read_text_layer_closes broken_tree_pdf _ tt). reflexivity. Defined.

Lemma extract_text_hybrid_text_layer_witness :
  @extract_text_hybrid text_pdf (lit "menu.pdf")
  = ([EvOpen (lit "menu.pdf"); EvExtract 1; EvExtract 2; EvClose; EvClose],
     inr (serialize_pages [(1, lit "Sierra Nevada Pale Ale S13")])).
Proof. apply (@extract_text_hybrid_text_layer text_pdf); [reflexivity | discriminate]. Defined.

Lemma extract_text_hybrid_ocr_witness :
  @extract_text_hybrid scanned_pdf (lit "menu.pdf")
  = ([EvOpen (lit "menu.pdf"); EvExtract 1; EvExtract 2; EvClose; EvClose]
       ++ EvConvert (lit "menu.pdf") DEFAULT_DPI :: map EvOcr (seq 1 3),
     inr (serialize_pages (keep_pages (fun x => strip (clean_ocr_text x)) 1
                             [lit " Beer S10 "; lit "  "; lit "Wine Stwelve"]))).
Proof.
  apply (@extract_text_hybrid_ocr scanned_pdf _ _ [inr (lit " Beer S10 "); inr (lit "  "); inr (lit "Wine Stwelve")]);
    [reflexivity | reflexivity | repeat constructor].
Defined.

Lemma extract_text_hybrid_open_error_witness :
  @extract_text_hybrid (stub_libraries (inl (PdfError (lit "No such file"))) []) (lit "menu.pdf")
  = ([EvOpen (lit "menu.pdf")], inl (PdfError (lit "No such file"))).
Proof. apply (@extract_text_hybrid_open_error (stub_libraries (inl (PdfError (lit "No such file"))) [])). reflexivity. Defined.

Lemma extract_text_hybrid_wf_witness :
  exists ps, pages_wf ps /\ lit "Page 1: Beer $10" = serialize_pages ps.
Proof.
  apply (@extract_text_hybrid_wf
           (stub_libraries (inr [inr []]) [inr (lit " Beer S10 ")]) (lit "menu.pdf")
           [EvOpen (lit "menu.pdf"); EvExtract 1; EvClose; EvClose;
            EvConvert (lit "menu.pdf") DEFAULT_DPI; EvOcr 1]).
  vm_compute. reflexivity.
Defined.

Lemma extract_text_hybrid_page_bounds_witness :
  exists ps n, lit "Page 1: Beer $10" ++ newline ++ lit "Page 3: Wine $twelve" = serialize_pages ps /\
    length ps <= n /\ Forall (fun p => 1 <= fst p <= n) ps /\
    ((exists pages, @document_pages scanned_pdf (lit "menu.pdf") = inr pages /\ n = length pages /\ ps <> []) \/
     (exists images, @convert_from_path scanned_pdf (lit "menu.pdf") DEFAULT_DPI = inr images /\ n = length images)).
Proof.
  apply (@extract_text_hybrid_page_bounds scanned_pdf (lit "menu.pdf")
           ([EvOpen (lit "menu.pdf"); EvExtract 1; EvExtract 2; EvClose; EvClose]
              ++ EvConvert (lit "menu.pdf") DEFAULT_DPI :: map EvOcr (seq 1 3))).
  vm_compute. reflexivity.
Defined.

Lemma extract_text_hybrid_blank_witness :
  snd (@extract_text_hybrid (stub_libraries (inr [inr []]) [inr (lit "  ")]) (lit "menu.pdf")) = inr [].
Proof.
  apply (@extract_text_hybrid_blank (stub_libraries (inr [inr []]) [inr (lit "  ")]) _
           [EvOpen (lit "menu.pdf"); EvExtract 1; EvClose; EvClose] [inr (lit "  ")] [lit "  "]);
    [reflexivity | reflexivity | repeat constructor | repeat constructor].
Defined.
