(* ===== verification/PageFormat.v ===== *)
(** * Reading the extracted text back

    [extract_text_hybrid] hands the structurer one string, ["Page n:
    text"] lines joined by newlines.  [read_pages] reads such a string
    back: it splits at newlines and parses each line.  The round trip
    [read_pages (serialize_pages ps) = Some ps] holds when no page text
    contains a newline; [serialize_pages_ambiguous] shows a page text
    with a newline that makes two different page lists print the same
    string. *)

From Stdlib Require Import String Ascii List Lia Bool PeanoNat.
From S2P Require Import Prelude PyStr Effects PdfToText.
Import ListNotations.

(** One line ["Page n: text"]. *)
Definition read_page_line (l : pystr) : option page_text :=
  match strip_prefix (lit "Page ") l with
  | None => None
  | Some r =>
      let (ds, rest) := span_decimal r in
      match ds, int_of_digits ds, strip_prefix (lit ": ") rest with
      | _ :: _, Some n, Some chunk => Some (n, chunk)
      | _, _, _ => None
      end
  end.

Fixpoint read_lines (ls : list pystr) : option (list page_text) :=
  match ls with
  | [] => Some []
  | l :: r =>
      match read_page_line l, read_lines r with
      | Some p, Some ps => Some (p :: ps)
      | _, _ => None
      end
  end.

(** The empty string is the empty document. *)
Definition read_pages (s : pystr) : option (list page_text) :=
  match s with [] => Some [] | _ => read_lines (split_on "010"%char s) end.

Lemma read_page_line_page_line p : read_page_line (page_line p) = Some p.
Proof.
  destruct p as [n chunk]. unfold read_page_line, page_line. cbn [fst snd].
  rewrite strip_prefix_app, span_decimal_app by (apply str_of_nat_decimal || exact eq_refl).
  pose proof (int_of_digits_str n) as Hd. pose proof (str_of_nat_nonempty n) as Hne.
  destruct (str_of_nat n); [contradiction|]. rewrite Hd, strip_prefix_app. reflexivity.
Qed.

Lemma read_lines_map ps : read_lines (map page_line ps) = Some ps.
Proof. induction ps as [|p ps IH]; simpl; [reflexivity|]. now rewrite read_page_line_page_line, IH. Qed.

Lemma page_line_no_newline p : ~ In "010"%char (snd p) -> ~ In "010"%char (page_line p).
Proof.
  destruct p as [n chunk]. unfold page_line. cbn [fst snd]. intros H Hin.
  apply in_app_iff in Hin. destruct Hin as [Hin|Hin]; [simpl in Hin; intuition discriminate|].
  apply in_app_iff in Hin. destruct Hin as [Hin|Hin].
  - pose proof (proj1 (Forall_forall _ _) (str_of_nat_decimal n) _ Hin). discriminate.
  - apply in_app_iff in Hin. destruct Hin as [Hin|Hin]; [simpl in Hin; intuition discriminate|].
    contradiction.
Qed.

(** The text handed to the structurer can be read back: when no page
    text contains a newline, splitting the serialised pages at newlines
    and parsing every ["Page n: text"] line gives the page list back,
    numbers and texts unchanged. *)
Theorem serialize_pages_roundtrip ps :
  Forall (fun p => ~ In "010"%char (snd p)) ps -> read_pages (serialize_pages ps) = Some ps.
Proof.
  intros H. destruct ps as [|p ps]; [reflexivity|].
  assert (Hs : exists c r, serialize_pages (p :: ps) = c :: r).
  { unfold serialize_pages. cbn [map join].
    destruct (map page_line ps); unfold page_line, lit; cbn; eauto. }
  destruct Hs as (c & r & Hs). unfold read_pages. rewrite Hs, <- Hs. unfold serialize_pages.
  rewrite split_on_join; [apply read_lines_map | discriminate |].
  apply Forall_map. eapply Forall_impl; [|exact H]. intros q. apply page_line_no_newline.
Qed.

Lemma serialize_pages_roundtrip_witness :
  read_pages (serialize_pages [(1, lit "Ale S13"); (3, lit "Stout $10")])
  = Some [(1, lit "Ale S13"); (3, lit "Stout $10")].
Proof. apply serialize_pages_roundtrip. repeat constructor; simpl; intuition discriminate. Defined.

(** Page boundaries survive only as text: a first page whose text
    contains a newline followed by ["Page 2: "] prints exactly as two
    pages, so the serialised form does not determine the page list. *)
Example serialize_pages_ambiguous :
  serialize_pages [(1, lit "Ale" ++ newline ++ lit "Page 2: Stout")]
  = serialize_pages [(1, lit "Ale"); (2, lit "Stout")].
Proof. reflexivity. Qed.
