(* ===== verification/PyJson.v ===== *)
(** * JSON values and [json.loads]

    [json] is the value [json.loads] returns: [None], a [bool], an [int],
    a [float] (as its IEEE 754 binary64 bit pattern), a [str], a [list]
    or a [dict], an object keeping its members in insertion order with
    each key once ([dict_set] is [d[k] = v]).  The decoder is an
    interface, [JsonDecoder]: the structurer's theorems hold for any
    decoder; [JsonDecode] gives CPython's as an instance. *)

From Stdlib Require Import String Ascii List ZArith.
From S2P Require Import Prelude PyStr Effects.
Import ListNotations.

#[warnings="-register-all"]
Inductive json : Type :=
| JNull
| JBool (b : bool)
| JInt (z : Z)                    (** an integer literal *)
| JFloat (bits : Z)               (** a binary64 value, by its 64-bit pattern *)
| JStr (s : pystr)
| JArr (xs : list json)
| JObj (members : list (pystr * json)).

(** What [json] takes from the rest of the interpreter: floats and the
    code points a [pystr] cannot hold. *)
Class JsonRuntime : Type := {
  py_float : pystr -> Z;        (** [float(numstr)], as binary64 bits *)
  py_float_repr : Z -> pystr;   (** [float.__repr__] of finite bits *)
  py_chr_wide : Z -> pystr      (** [chr(c)] for [c > 0xFF] *)
}.

(** [json.loads]: the decoded value, or [JSONDecodeError]. *)
Class JsonDecoder : Type := { json_loads : pystr -> exn + json }.

(** [float('nan')], [float('inf')] and [float('-inf')]. *)
Definition NAN_BITS : Z := 0x7ff8000000000000%Z.
Definition INF_BITS : Z := 0x7ff0000000000000%Z.
Definition NEG_INF_BITS : Z := 0xfff0000000000000%Z.

(** [o != o] on a binary64 bit pattern. *)
Definition is_nan_bits (b : Z) : bool :=
  (Z.land b 0x7ff0000000000000 =? 0x7ff0000000000000)%Z && negb (Z.land b 0xfffffffffffff =? 0)%Z.

(** [d[k] = v] on a dict: a present key keeps its place and takes the
    new value, a new key goes last. *)
Fixpoint dict_set (d : list (pystr * json)) (k : pystr) (v : json) : list (pystr * json) :=
  match d with
  | [] => [(k, v)]
  | (k', v') :: r => if list_eq_dec ascii_dec k' k then (k', v) :: r else (k', v') :: dict_set r k v
  end.

(** Induction on JSON values with a hypothesis for every element of an
    array and every member of an object. *)
Fixpoint json_ind' (P : json -> Prop)
  (HN : P JNull) (HB : forall b, P (JBool b)) (HI : forall z, P (JInt z))
  (HF : forall b, P (JFloat b)) (HS : forall s, P (JStr s))
  (HA : forall xs, Forall P xs -> P (JArr xs))
  (HO : forall kvs, Forall (fun kv => P (snd kv)) kvs -> P (JObj kvs)) (v : json) : P v :=
  match v with
  | JNull => HN
  | JBool b => HB b
  | JInt z => HI z
  | JFloat b => HF b
  | JStr s => HS s
  | JArr xs =>
      HA xs ((fix go (xs : list json) : Forall P xs :=
                match xs with
                | [] => Forall_nil _
                | x :: r => Forall_cons _ (json_ind' P HN HB HI HF HS HA HO x) (go r)
                end) xs)
  | JObj kvs =>
      HO kvs ((fix go (kvs : list (pystr * json)) : Forall (fun kv => P (snd kv)) kvs :=
                 match kvs with
                 | [] => Forall_nil _
                 | kv :: r => Forall_cons _ (json_ind' P HN HB HI HF HS HA HO (snd kv)) (go r)
                 end) kvs)
  end.
