(* ===== verification/JsonDecode.v ===== *)
(** * [json.loads] as CPython 3.11 runs it

    [json.loads(s)] is [JSONDecoder().decode(s)] with the C scanner of
    [Modules/_json.c] ([scan_once_unicode], [scanstring_unicode],
    [_parse_object_unicode], [_parse_array_unicode],
    [_match_number_unicode]); the pure-Python [py_scanstring] differs in
    some error messages, and the C text is the one modelled.

    The C code walks an index [idx] over the document; here every
    function reads the rest of the document from [idx] on, and an error
    reports [len(doc) - len(rest)], the same index.  [float(numstr)] and
    [chr(c)] above U+00FF are not part of the model: they come from the
    class [JsonRuntime] of [PyJson].  The nesting of [scan_once] runs on fuel
    [2 * len(doc) + 1], and [scan_once_fuel] shows it never runs out;
    CPython's own limit, a [RecursionError] past the interpreter's
    recursion depth, is not modelled. *)

From Stdlib Require Import String Ascii List Lia Bool PeanoNat ZArith.
From S2P Require Import Prelude PyStr Effects PyJson.
Import ListNotations.

Definition DQ : ascii := "034"%char.
Definition BSL : ascii := "092"%char.

(** [JSONDecodeError(msg, doc, pos)]: its [str] is
    ["%s: line %d column %d (char %d)"]. *)
Fixpoint column_of (pre : pystr) (n : nat) : nat :=
  match pre with
  | [] => n
  | c :: r => column_of r (if Ascii.eqb c "010" then 0 else S n)
  end.

Definition decode_error (msg doc : pystr) (pos : nat) : exn :=
  let pre := firstn pos doc in
  JSONDecodeError (msg ++ lit ": line " ++ str_of_nat (count_occ ascii_dec pre "010"%char + 1)
                   ++ lit " column " ++ str_of_nat (column_of pre 0 + 1)
                   ++ lit " (char " ++ str_of_nat pos ++ lit ")").

(** The error at the index where [rest] starts. *)
Definition err_at (msg : string) (doc rest : pystr) : exn :=
  decode_error (lit msg) doc (length doc - length rest).

(** [IS_WHITESPACE]: space, tab, newline, carriage return. *)
Definition is_ws (c : ascii) : bool :=
  Ascii.eqb c " " || Ascii.eqb c "009" || Ascii.eqb c "010" || Ascii.eqb c "013".

Fixpoint skip_ws (s : pystr) : pystr :=
  match s with c :: r => if is_ws c then skip_ws r else s | [] => [] end.

(** [idx <= end_idx && str[idx] == c]. *)
Definition first_is (c : ascii) (s : pystr) : bool :=
  match s with d :: _ => Ascii.eqb d c | [] => false end.

(** ** Strings: [scanstring_unicode] *)

Definition hex_val (c : ascii) : option Z :=
  if in_range 48 57 c then Some (Z.of_nat (code c - 48))
  else if in_range 97 102 c then Some (Z.of_nat (code c - 87))
  else if in_range 65 70 c then Some (Z.of_nat (code c - 55))
  else None.

Definition hex4 (a b c d : ascii) : option Z :=
  match hex_val a, hex_val b, hex_val c, hex_val d with
  | Some w, Some x, Some y, Some z => Some (((w * 16 + x) * 16 + y) * 16 + z)%Z
  | _, _, _, _ => None
  end.

(** The escapes other than [\u]. *)
Definition simple_escape (e : ascii) : option ascii :=
  if Ascii.eqb e DQ then Some DQ
  else if Ascii.eqb e BSL then Some BSL
  else if Ascii.eqb e "/" then Some "/"%char
  else if Ascii.eqb e "b" then Some "008"%char
  else if Ascii.eqb e "f" then Some "012"%char
  else if Ascii.eqb e "n" then Some "010"%char
  else if Ascii.eqb e "r" then Some "013"%char
  else if Ascii.eqb e "t" then Some "009"%char
  else None.

Definition is_high_surrogate (u : Z) : bool := (0xd800 <=? u)%Z && (u <=? 0xdbff)%Z.
Definition is_low_surrogate (u : Z) : bool := (0xdc00 <=? u)%Z && (u <=? 0xdfff)%Z.

(** [Py_UNICODE_JOIN_SURROGATES]. *)
Definition join_surrogates (hi lo : Z) : Z :=
  (0x10000 + Z.lor (Z.shiftl (hi - 0xd800) 10) (lo - 0xdc00))%Z.

Definition prepend {A} (x : pystr) (res : exn + (pystr * A)) : exn + (pystr * A) :=
  match res with inl e => inl e | inr (s, r) => inr (x ++ s, r) end.

Section Runtime.
Context `{RT : JsonRuntime}.

Definition py_chr (u : Z) : pystr :=
  if (u <=? 255)%Z then [ascii_of_nat (Z.to_nat u)] else py_chr_wide u.

(** The characters after an opening quote; [start] is the document from
    the quote on, for ["Unterminated string starting at"].  A [\u]
    escape needs four hex digits and one more character after them
    ([end >= len] fails), and a high surrogate takes a following
    [\uXXXX] only when seven characters follow ([end + 6 < len]). *)
Fixpoint scan_string (doc start rest : pystr) : exn + (pystr * pystr) :=
  match rest with
  | [] => inl (err_at "Unterminated string starting at" doc start)
  | c :: r =>
      if Ascii.eqb c DQ then inr ([], r)
      else if Ascii.eqb c BSL then
        match r with
        | [] => inl (err_at "Unterminated string starting at" doc start)
        | e :: r1 =>
            if Ascii.eqb e "u" then
              match r1 with
              | h1 :: h2 :: h3 :: h4 :: ((_ :: _) as r2) =>
                  match hex4 h1 h2 h3 h4 with
                  | None => inl (err_at "Invalid \uXXXX escape" doc r)
                  | Some u =>
                      if is_high_surrogate u then
                        match r2 with
                        | b :: ((v :: g1 :: g2 :: g3 :: g4 :: ((_ :: _) as r3)) as rv) =>
                            if Ascii.eqb b BSL && Ascii.eqb v "u" then
                              match hex4 g1 g2 g3 g4 with
                              | None => inl (err_at "Invalid \uXXXX escape" doc rv)
                              | Some u2 =>
                                  if is_low_surrogate u2
                                  then prepend (py_chr (join_surrogates u u2)) (scan_string doc start r3)
                                  else prepend (py_chr u) (scan_string doc start r2)
                              end
                            else prepend (py_chr u) (scan_string doc start r2)
                        | _ => prepend (py_chr u) (scan_string doc start r2)
                        end
                      else prepend (py_chr u) (scan_string doc start r2)
                  end
              | _ => inl (err_at "Invalid \uXXXX escape" doc r)
              end
            else
              match simple_escape e with
              | Some ch => prepend [ch] (scan_string doc start r1)
              | None => inl (err_at "Invalid \escape" doc rest)
              end
        end
      else if code c <=? 31 then inl (err_at "Invalid control character at" doc rest)
      else prepend [c] (scan_string doc start r)
  end.

End Runtime.

(** ** Numbers: [_match_number_unicode]

    The C code reads what [NUMBER_RE] of [json/scanner.py] matches: an
    optional minus, then [0] or a digit 1-9 and more digits, then an
    optional fraction (a dot and at least one digit), then an optional
    exponent ([e] or [E], an optional sign, at least one digit), backing
    up to the [e] when no exponent digit follows. *)

Definition match_int (s : pystr) : option (pystr * pystr) :=
  let '(sign, r) :=
    match s with c :: r => if Ascii.eqb c "-" then ([c], r) else ([], s) | [] => ([], []) end in
  match r with
  | c :: r' =>
      if Ascii.eqb c "0" then Some (sign ++ [c], r')
      else if in_range 49 57 c then let (ds, r'') := span_decimal r' in Some (sign ++ c :: ds, r'')
      else None
  | [] => None
  end.

Definition match_frac (s : pystr) : pystr * pystr :=
  match s with
  | c :: d :: r =>
      if Ascii.eqb c "." && is_decimal d then let (ds, r') := span_decimal r in (c :: d :: ds, r')
      else ([], s)
  | _ => ([], s)
  end.

Definition match_exp (s : pystr) : pystr * pystr :=
  match s with
  | e :: r =>
      if Ascii.eqb e "e" || Ascii.eqb e "E" then
        let '(sg, r1) :=
          match r with
          | c :: r' => if Ascii.eqb c "-" || Ascii.eqb c "+" then ([c], r') else ([], r)
          | [] => ([], [])
          end in
        match span_decimal r1 with
        | ([], _) => ([], s)
        | (ds, r2) => (e :: sg ++ ds, r2)
        end
      else ([], s)
  | [] => ([], [])
  end.

(** A character that ends every number: none of the lexer's. *)
Definition number_stop (rest : pystr) : bool :=
  match rest with
  | c :: _ => negb (is_decimal c || Ascii.eqb c "." || Ascii.eqb c "e" || Ascii.eqb c "E"
                    || Ascii.eqb c "+" || Ascii.eqb c "-")
  | [] => true
  end.

(** [sys.get_int_max_str_digits()] of a default interpreter. *)
Definition INT_MAX_STR_DIGITS : nat := 4300.

(** [PyLong_FromString(numstr)] on a numeral with an optional [-]. *)
Definition int_from_string (numstr : pystr) : exn + Z :=
  let '(neg, ds) :=
    match numstr with c :: r => if Ascii.eqb c "-" then (true, r) else (false, numstr) | [] => (false, []) end in
  if INT_MAX_STR_DIGITS <? length ds then
    inl (ValueError (lit "Exceeds the limit (4300 digits) for integer string conversion: value has "
                     ++ str_of_nat (length ds)
                     ++ lit " digits; use sys.set_int_max_str_digits() to increase the limit"))
  else inr (if neg then Z.opp (Z_of_digits ds) else Z_of_digits ds).

(** The named values of [scan_once_unicode] ([_parse_constant] for the
    last three). *)
Definition CONSTANTS : list (string * json) :=
  [("null"%string, JNull); ("true"%string, JBool true); ("false"%string, JBool false);
   ("NaN"%string, JFloat NAN_BITS); ("Infinity"%string, JFloat INF_BITS);
   ("-Infinity"%string, JFloat NEG_INF_BITS)].

Fixpoint match_constant (cs : list (string * json)) (rest : pystr) : option (json * pystr) :=
  match cs with
  | [] => None
  | (w, v) :: cs' =>
      match strip_prefix (lit w) rest with Some r => Some (v, r) | None => match_constant cs' rest end
  end.

Section Scanner.
Context `{RT : JsonRuntime}.

(** A number, or [StopIteration(idx)], which [raw_decode] reports as
    ["Expecting value"]. *)
Definition scan_number (doc rest : pystr) : exn + (json * pystr) :=
  match match_int rest with
  | None => inl (err_at "Expecting value" doc rest)
  | Some (ip, r1) =>
      let '(fr, r2) := match_frac r1 in
      let '(ex, r3) := match_exp r2 in
      match fr, ex with
      | [], [] => match int_from_string ip with inl e => inl e | inr z => inr (JInt z, r3) end
      | _, _ => inr (JFloat (py_float (ip ++ fr ++ ex)), r3)
      end
  end.

Definition scan_atom (doc rest : pystr) : exn + (json * pystr) :=
  match match_constant CONSTANTS rest with
  | Some (v, r) => inr (v, r)
  | None => scan_number doc rest
  end.

(** [scan_once_unicode], [_parse_object_unicode] after the first
    member's whitespace, and [_parse_array_unicode] after the first
    element's.  [None] is fuel running out. *)
Fixpoint scan_once (fuel : nat) (doc rest : pystr) {struct fuel} : option (exn + (json * pystr)) :=
  match fuel with
  | 0 => None
  | S f =>
      match rest with
      | [] => Some (inl (err_at "Expecting value" doc rest))
      | c :: r =>
          if Ascii.eqb c DQ then
            Some (match scan_string doc rest r with inl e => inl e | inr (s, r') => inr (JStr s, r') end)
          else if Ascii.eqb c "{" then
            let w := skip_ws r in
            if first_is "}" w then Some (inr (JObj [], tl w)) else object_members f doc w []
          else if Ascii.eqb c "[" then
            let w := skip_ws r in
            if first_is "]" w then Some (inr (JArr [], tl w)) else array_items f doc w []
          else Some (scan_atom doc rest)
      end
  end
with object_members (fuel : nat) (doc rest : pystr) (acc : list (pystr * json)) {struct fuel}
  : option (exn + (json * pystr)) :=
  match fuel with
  | 0 => None
  | S f =>
      if negb (first_is DQ rest) then
        Some (inl (err_at "Expecting property name enclosed in double quotes" doc rest))
      else
        match scan_string doc rest (tl rest) with
        | inl e => Some (inl e)
        | inr (key, r1) =>
            let w1 := skip_ws r1 in
            if negb (first_is ":" w1) then Some (inl (err_at "Expecting ':' delimiter" doc w1))
            else
              match scan_once f doc (skip_ws (tl w1)) with
              | None => None
              | Some (inl e) => Some (inl e)
              | Some (inr (v, r2)) =>
                  let acc' := dict_set acc key v in
                  let w2 := skip_ws r2 in
                  if first_is "}" w2 then Some (inr (JObj acc', tl w2))
                  else if first_is "," w2 then object_members f doc (skip_ws (tl w2)) acc'
                  else Some (inl (err_at "Expecting ',' delimiter" doc w2))
              end
        end
  end
with array_items (fuel : nat) (doc rest : pystr) (acc : list json) {struct fuel}
  : option (exn + (json * pystr)) :=
  match fuel with
  | 0 => None
  | S f =>
      match scan_once f doc rest with
      | None => None
      | Some (inl e) => Some (inl e)
      | Some (inr (v, r)) =>
          let w := skip_ws r in
          if first_is "]" w then Some (inr (JArr (acc ++ [v]), tl w))
          else if first_is "," w then array_items f doc (skip_ws (tl w)) (acc ++ [v])
          else Some (inl (err_at "Expecting ',' delimiter" doc w))
      end
  end.

(** [JSONDecoder.decode]: skip whitespace, one value, whitespace, and
    nothing after it ("Extra data"). *)
Definition loads_with (fuel : nat) (doc : pystr) : option (exn + json) :=
  match scan_once fuel doc (skip_ws doc) with
  | None => None
  | Some (inl e) => Some (inl e)
  | Some (inr (v, r)) =>
      let w := skip_ws r in
      Some (match w with [] => inr v | _ => inl (err_at "Extra data" doc w) end)
  end.

(** [json.loads(s)] on a [str]. *)
Definition loads (doc : pystr) : exn + json :=
  match loads_with (2 * length doc + 1) doc with
  | Some res => res
  | None => inl (ValueError (lit "maximum recursion depth exceeded"))
  end.

End Scanner.

#[export] Instance cpython_json_decoder `{JsonRuntime} : JsonDecoder := {| json_loads := loads |}.

(** A runtime for the examples: it prints a float as ["0."] and its bit
    pattern in decimal, and reads such a literal back; [float] of any
    other literal is some non-NaN pattern.  It satisfies every law the
    theorems below assume of CPython's floats. *)
Definition decimal_runtime : JsonRuntime := {|
  py_float := fun s => let z := (Z_of_digits (skipn 2 s) mod 2 ^ 64)%Z in if is_nan_bits z then 0%Z else z;
  py_float_repr := fun b => lit "0." ++ str_of_N (Z.to_N b);
  py_chr_wide := fun _ => lit "?" |}.

(** JSON text in a Rocq string, with ['] standing for a double quote. *)
Definition jlit (s : string) : pystr := map (fun c => if Ascii.eqb c "'" then DQ else c) (lit s).

(** ** Every scanner consumes input *)

Lemma skip_ws_length s : length (skip_ws s) <= length s.
Proof. induction s as [|c s IH]; simpl; [lia|]. destruct (is_ws c); simpl; lia. Qed.

Lemma tl_length_lt {A} (s : list A) : s <> [] -> length (tl s) < length s.
Proof. destruct s; simpl; [congruence | lia]. Qed.

Lemma first_is_cons c s : first_is c s = true -> s <> [].
Proof. destruct s; simpl; congruence. Qed.

Lemma strip_prefix_length p l r : strip_prefix p l = Some r -> length l = length p + length r.
Proof.
  revert l. induction p as [|c p IH]; intros [|d l] H; simpl in H |- *;
    try (injection H as <-; reflexivity); try discriminate.
  destruct (Ascii.eqb c d); [apply IH in H; lia | discriminate].
Qed.

Lemma span_decimal_split s : fst (span_decimal s) ++ snd (span_decimal s) = s.
Proof.
  induction s as [|c s IH]; simpl; [reflexivity|].
  destruct (is_decimal c); [destruct (span_decimal s); simpl in *; congruence | reflexivity].
Qed.

Lemma span_decimal_length s : length (snd (span_decimal s)) <= length s.
Proof. rewrite <- (span_decimal_split s) at 2. rewrite length_app. lia. Qed.

Ltac span_lengths :=
  repeat match goal with
         | E : span_decimal ?x = _ |- _ =>
             let L := fresh "L" in pose proof (span_decimal_length x) as L; rewrite E in L; simpl in L; clear E
         end.

Lemma match_int_length s ip r : match_int s = Some (ip, r) -> length r < length s.
Proof.
  unfold match_int. intros H. case_all H; try discriminate.
  all: injection H; intros; subst; span_lengths; simpl in *; lia.
Qed.

Lemma match_frac_length s fr r : match_frac s = (fr, r) -> length r <= length s.
Proof. unfold match_frac. intros H. case_all H; span_lengths; simpl in *; lia. Qed.

Lemma match_exp_length s ex r : match_exp s = (ex, r) -> length r <= length s.
Proof. unfold match_exp. intros H. case_all H; span_lengths; simpl in *; lia. Qed.

Lemma match_constant_length cs rest v r :
  Forall (fun wv => 0 < length (lit (fst wv))) cs ->
  match_constant cs rest = Some (v, r) -> length r < length rest.
Proof.
  induction 1 as [|[w v'] cs Hw Hcs IH]; simpl; [discriminate|].
  destruct (strip_prefix (lit w) rest) eqn:E; [|exact IH].
  intros H; injection H as _ <-. apply strip_prefix_length in E. simpl in Hw. lia.
Qed.

(** *** The number lexer splits its input, and a following delimiter
    does not change what it reads *)

Lemma match_int_split s ip r : match_int s = Some (ip, r) -> s = ip ++ r.
Proof.
  pose proof span_decimal_split as Hs. unfold match_int. intros H. case_all H; try discriminate.
  all: injection H; intros; subst;
    repeat match goal with E : span_decimal ?x = _ |- _ => specialize (Hs x); rewrite E in Hs; simpl in Hs end;
    subst; try reflexivity; rewrite <- ?app_assoc; reflexivity.
Qed.

Lemma match_frac_split s fr r : match_frac s = (fr, r) -> s = fr ++ r.
Proof.
  pose proof span_decimal_split as Hs. unfold match_frac. intros H. case_all H; try reflexivity.
  all: repeat match goal with E : span_decimal ?x = _ |- _ => specialize (Hs x); rewrite E in Hs; simpl in Hs end;
    subst; reflexivity.
Qed.

Lemma match_exp_split s ex r : match_exp s = (ex, r) -> s = ex ++ r.
Proof.
  pose proof span_decimal_split as Hs. unfold match_exp. intros H. case_all H; try reflexivity.
  all: repeat match goal with E : span_decimal ?x = _ |- _ => specialize (Hs x); rewrite E in Hs; simpl in Hs end;
    try discriminate; subst; simpl; rewrite <- ?app_assoc; try rewrite <- Hs; reflexivity.
Qed.

Lemma span_decimal_stop s a r rest :
  span_decimal s = (a, r) -> number_stop rest = true -> span_decimal (s ++ rest) = (a, r ++ rest).
Proof.
  revert a r. induction s as [|c s IH]; intros a r H Hr; simpl in H |- *.
  - injection H as <- <-. destruct rest as [|c rest]; [reflexivity|]. simpl in Hr |- *.
    destruct (is_decimal c); [discriminate|reflexivity].
  - destruct (is_decimal c); [|injection H as <- <-; reflexivity].
    destruct (span_decimal s) as [a' r'] eqn:E. injection H as <- <-. rewrite (IH a' r'); auto.
Qed.

Ltac span_stop :=
  repeat match goal with
         | E : span_decimal ?x = (?a, ?b), Hr : number_stop ?rest = true |- context [span_decimal (?x ++ ?rest)] =>
             rewrite (span_decimal_stop x a b rest E Hr)
         end.

Lemma match_int_stop s ip r rest :
  match_int s = Some (ip, r) -> number_stop rest = true -> match_int (s ++ rest) = Some (ip, r ++ rest).
Proof.
  unfold match_int. intros H Hr. destruct s as [|c s]; [discriminate|]. cbn [app].
  destruct (Ascii.eqb c "-") eqn:Ec.
  - destruct s as [|d s]; [discriminate|]. cbn [app].
    destruct (Ascii.eqb d "0"); [injection H; intros; subst; reflexivity|].
    destruct (in_range 49 57 d); [|discriminate].
    destruct (span_decimal s) eqn:E; injection H; intros; subst. span_stop. reflexivity.
  - destruct (Ascii.eqb c "0"); [injection H; intros; subst; reflexivity|].
    destruct (in_range 49 57 c); [|discriminate].
    destruct (span_decimal s) eqn:E; injection H; intros; subst. span_stop. reflexivity.
Qed.

Lemma number_stop_cons c r :
  number_stop (c :: r) = true ->
  is_decimal c = false /\ Ascii.eqb c "." = false /\ Ascii.eqb c "e" = false /\
  Ascii.eqb c "E" = false /\ Ascii.eqb c "+" = false /\ Ascii.eqb c "-" = false.
Proof. simpl. intros H. apply negb_true_iff in H. repeat rewrite orb_false_iff in H. tauto. Qed.

Lemma match_frac_stop s fr r rest :
  match_frac s = (fr, r) -> number_stop rest = true -> match_frac (s ++ rest) = (fr, r ++ rest).
Proof.
  unfold match_frac. intros H Hr.
  destruct s as [|c [|d s]]; cbn [app] in H |- *.
  - injection H as <- <-. destruct rest as [|c [|d rest]]; try reflexivity.
    apply number_stop_cons in Hr. destruct Hr as (_ & Hd & _). rewrite Hd. reflexivity.
  - injection H as <- <-. destruct rest as [|d rest]; [reflexivity|].
    apply number_stop_cons in Hr. destruct Hr as (Hd & _). rewrite Hd, andb_false_r. reflexivity.
  - destruct (Ascii.eqb c "." && is_decimal d); [|injection H as <- <-; reflexivity].
    destruct (span_decimal s) eqn:E. injection H as <- <-. span_stop. reflexivity.
Qed.

Lemma match_exp_stop s ex r rest :
  match_exp s = (ex, r) -> number_stop rest = true -> match_exp (s ++ rest) = (ex, r ++ rest).
Proof.
  unfold match_exp. intros H Hr. destruct s as [|e s]; cbn [app] in H |- *.
  - injection H as <- <-. destruct rest as [|c rest]; [reflexivity|].
    apply number_stop_cons in Hr. destruct Hr as (_ & _ & He & HE & _). rewrite He, HE. reflexivity.
  - destruct (Ascii.eqb e "e" || Ascii.eqb e "E"); [|injection H as <- <-; reflexivity].
    destruct s as [|c s]; cbn [app] in H |- *.
    + simpl in H. injection H as <- <-. destruct rest as [|c rest]; [reflexivity|].
      pose proof (number_stop_cons _ _ Hr) as (Hd & _ & _ & _ & Hp & Hm). rewrite Hp, Hm. simpl. rewrite Hd.
      reflexivity.
    + destruct (Ascii.eqb c "-" || Ascii.eqb c "+").
      * destruct (span_decimal s) as [[|d ds] r2] eqn:E; span_stop; injection H as <- <-; reflexivity.
      * change (c :: s ++ rest) with ((c :: s) ++ rest).
        destruct (span_decimal (c :: s)) as [[|d ds] r2] eqn:E; span_stop;
          injection H as <- <-; reflexivity.
Qed.

Lemma prepend_inr {A} x (res : exn + (pystr * A)) y r :
  prepend x res = inr (y, r) -> exists y', res = inr (y', r).
Proof. destruct res as [|[]]; simpl; [discriminate|]. intros H; inversion H; subst; eauto. Qed.

Section Consumption.
Context `{RT : JsonRuntime}.

Lemma scan_string_length doc start rest x r :
  scan_string doc start rest = inr (x, r) -> length r < length rest.
Proof.
  revert x r. induction rest as [rest IH] using list_length_ind.
  intros x r H. destruct rest as [|c r0]; simpl in H; [discriminate|].
  repeat case_hyp H; try discriminate;
    first [ injection H as _ <-; simpl; lia
          | apply prepend_inr in H as [y H]; eapply IH in H; simpl in *; lia ].
Qed.
Lemma scan_atom_length doc rest v r : scan_atom doc rest = inr (v, r) -> length r < length rest.
Proof.
  unfold scan_atom, scan_number. intros H.
  destruct (match_constant CONSTANTS rest) as [[v' r']|] eqn:E.
  - injection H as _ <-. eapply match_constant_length; [|exact E].
    repeat constructor; simpl; lia.
  - destruct (match_int rest) as [[ip r1]|] eqn:E1; [|discriminate].
    destruct (match_frac r1) as [fr r2] eqn:E2. destruct (match_exp r2) as [ex r3] eqn:E3.
    apply match_int_length in E1. apply match_frac_length in E2. apply match_exp_length in E3.
    destruct fr, ex; try (injection H; intros; subst; lia).
    destruct (int_from_string ip); [discriminate|]. injection H; intros; subst; lia.
Qed.

(** Collect the length facts of the scanners' results. *)
Ltac consume_facts IHs IHo IHa :=
  repeat match goal with
         | H : Some _ = Some _ |- _ => injection H; clear H; intros; subst
         | E : negb _ = false |- _ => apply negb_false_iff in E
         | E : scan_string _ _ _ = inr (_, _) |- _ => apply scan_string_length in E
         | E : scan_atom _ _ = inr (_, _) |- _ => apply scan_atom_length in E
         | E : first_is _ _ = true |- _ => apply first_is_cons, tl_length_lt in E
         | E : scan_once _ _ _ = Some (inr (_, _)) |- _ => apply IHs in E
         | E : object_members _ _ _ _ = Some (inr (_, _)) |- _ => apply IHo in E
         | E : array_items _ _ _ _ = Some (inr (_, _)) |- _ => apply IHa in E
         | _ : context [length (skip_ws ?x)] |- _ =>
             lazymatch goal with
             | _ : length (skip_ws x) <= length x |- _ => fail
             | _ => pose proof (skip_ws_length x)
             end
         | |- context [length (skip_ws ?x)] =>
             lazymatch goal with
             | _ : length (skip_ws x) <= length x |- _ => fail
             | _ => pose proof (skip_ws_length x)
             end
         end.

(** Every value the scanners return was read from at least one
    character. *)
Lemma scanners_consume f :
  (forall doc rest v r, scan_once f doc rest = Some (inr (v, r)) -> length r < length rest) /\
  (forall doc rest acc v r, object_members f doc rest acc = Some (inr (v, r)) -> length r < length rest) /\
  (forall doc rest acc v r, array_items f doc rest acc = Some (inr (v, r)) -> length r < length rest).
Proof.
  induction f as [|f [IHs [IHo IHa]]]; [repeat split; discriminate|].
  repeat split.
  - intros doc [|c r0] v r H; simpl in H; [discriminate|].
    repeat (case_hyp H; try discriminate); consume_facts IHs IHo IHa; simpl in *; lia.
  - intros doc rest acc v r H; simpl in H.
    repeat (case_hyp H; try discriminate); consume_facts IHs IHo IHa; simpl in *; lia.
  - intros doc rest acc v r H; simpl in H.
    repeat (case_hyp H; try discriminate); consume_facts IHs IHo IHa; simpl in *; lia.
Qed.
(** The fuel bound: [scan_once] needs more than twice the input's
    length, the member and item loops one more. *)
Lemma scanners_fuel f :
  (forall doc rest, 2 * length rest < f -> scan_once f doc rest <> None) /\
  (forall doc rest acc, 2 * length rest + 1 < f -> object_members f doc rest acc <> None) /\
  (forall doc rest acc, 2 * length rest + 1 < f -> array_items f doc rest acc <> None).
Proof.
  induction f as [|f [IHs [IHo IHa]]]; [repeat split; intros; lia|].
  destruct (scanners_consume f) as (Cs & Co & Ca).
  repeat split; [intros doc [|c r0] Hf H | intros doc rest acc Hf H | intros doc rest acc Hf H];
    simpl in H; try discriminate;
    repeat (case_hyp H; try discriminate); consume_facts Cs Co Ca;
    match goal with
    | E : scan_once f _ _ = None |- _ => eapply IHs; [|exact E]
    | E : object_members f _ _ _ = None |- _ => eapply IHo; [|exact E]
    | E : array_items f _ _ _ = None |- _ => eapply IHa; [|exact E]
    end; consume_facts Cs Co Ca; simpl in *; lia.
Qed.

(** More fuel gives the same answer. *)
Lemma scanners_fuel_mono f :
  (forall f' doc rest x, f <= f' -> scan_once f doc rest = Some x -> scan_once f' doc rest = Some x) /\
  (forall f' doc rest acc x, f <= f' -> object_members f doc rest acc = Some x ->
                             object_members f' doc rest acc = Some x) /\
  (forall f' doc rest acc x, f <= f' -> array_items f doc rest acc = Some x ->
                             array_items f' doc rest acc = Some x).
Proof.
  induction f as [|f [IHs [IHo IHa]]]; [repeat split; discriminate|].
  repeat split; intros [|f'] doc rest; try (intros; lia); intros * Hf H; simpl in H |- *;
    repeat (case_hyp H; try discriminate);
    repeat match goal with
           | E : scan_once f _ _ = Some _ |- _ => apply (IHs f') in E; [rewrite E | lia]
           | E : object_members f _ _ _ = Some _ |- _ => apply (IHo f') in E; [rewrite E | lia]
           | E : array_items f _ _ _ = Some _ |- _ => apply (IHa f') in E; [rewrite E | lia]
           end;
    repeat match goal with
           | E : ?b = _ |- context [if ?b then _ else _] => rewrite E
           | E : ?t = _ |- context [match ?t with _ => _ end] => rewrite E
           end; first [exact H | reflexivity].
Qed.
Lemma scan_once_mono f f' doc rest x :
  f <= f' -> scan_once f doc rest = Some x -> scan_once f' doc rest = Some x.
Proof. intros. eapply (proj1 (scanners_fuel_mono f)); eassumption. Qed.

Lemma object_members_mono f f' doc rest acc x :
  f <= f' -> object_members f doc rest acc = Some x -> object_members f' doc rest acc = Some x.
Proof. intros. eapply (proj1 (proj2 (scanners_fuel_mono f))); eassumption. Qed.

Lemma array_items_mono f f' doc rest acc x :
  f <= f' -> array_items f doc rest acc = Some x -> array_items f' doc rest acc = Some x.
Proof. intros. eapply (proj2 (proj2 (scanners_fuel_mono f))); eassumption. Qed.

End Consumption.

Section Fuel.
Context `{RT : JsonRuntime}.

(** Any budget of at least [2 * len(doc) + 1] gives the answer of
    [loads]. *)
Lemma loads_with_enough doc f : 2 * length doc + 1 <= f -> loads_with f doc = Some (loads doc).
Proof.
  intros Hf. unfold loads.
  assert (H : 2 * length (skip_ws doc) < 2 * length doc + 1) by (pose proof (skip_ws_length doc); lia).
  pose proof (proj1 (scanners_fuel _) doc (skip_ws doc) H) as Hs.
  unfold loads_with in *. destruct (scan_once (2 * length doc + 1) doc (skip_ws doc)) as [x|] eqn:E;
    [|contradiction].
  rewrite (scan_once_mono _ f _ _ _ Hf E). destruct x as [e|[v r]]; reflexivity.
Qed.

End Fuel.

(** ** Properties of [json.loads] *)

(** The errors [json.loads] raises carry CPython's messages and
    positions: an empty reply and a reply in prose fail at the first
    character with "Expecting value", a missing element is reported at
    its line and column, a missing colon at the key's end. *)
Example loads_error_messages :
  @loads decimal_runtime [] = inl (JSONDecodeError (lit "Expecting value: line 1 column 1 (char 0)")) /\
  @loads decimal_runtime (lit "Sure! Here is the menu as JSON:")
    = inl (JSONDecodeError (lit "Expecting value: line 1 column 1 (char 0)")) /\
  @loads decimal_runtime (lit "[1," ++ newline ++ lit "2," ++ newline ++ lit " x]")
    = inl (JSONDecodeError (lit "Expecting value: line 3 column 2 (char 8)")) /\
  @loads decimal_runtime (jlit "{'a' 1}")
    = inl (JSONDecodeError (lit "Expecting ':' delimiter: line 1 column 6 (char 5)")).
Proof. vm_compute. repeat split. Qed.

(** An object is read into a [dict]: a repeated key keeps its first
    place and takes its last value. *)
Example loads_duplicate_keys :
  @loads decimal_runtime (jlit "{'a': 1, 'b': 2, 'a': 3}") = inr (JObj [(lit "a", JInt 3); (lit "b", JInt 2)]).
Proof. vm_compute. reflexivity. Qed.
