(* ===== verification/JsonEncode.v ===== *)
(** * [json.dump(obj, fp, indent=2)] as CPython 3.11 runs it

    With an [indent], [json.dump] uses the pure-Python generator
    [_make_iterencode] of [json/encoder.py] and writes its chunks one
    after the other; [iterencode] is the text of all chunks.  Strings go
    through [encode_basestring_ascii] ([ensure_ascii=True]), integers
    through [int.__repr__] (a [ValueError] past 4300 digits), floats
    through [floatstr] ([allow_nan=True]).  The containers print one
    element per line, indented one level deeper, with [","] after every
    element but the last and [": "] after every key.

    The main theorem, [loads_dump_roundtrip], is that [json.loads] reads
    back every value [json.loads] can produce, given what CPython's
    floats satisfy ([float(repr(x)) == x], and [repr] prints a JSON
    number). *)

From Stdlib Require Import String Ascii List Lia Bool PeanoNat ZArith.
From S2P Require Import Prelude PyStr Effects PyJson JsonDecode.
Import ListNotations.

(** [Py_hexdigits]: lower-case. *)
Definition hex_digit (n : nat) : ascii := ascii_of_nat (if n <? 10 then 48 + n else 87 + n).

(** [S_CHAR(c)]: printed as itself. *)
Definition s_char (c : ascii) : bool := in_range 32 126 c && negb (Ascii.eqb c BSL) && negb (Ascii.eqb c DQ).

(** [ascii_escape_unichar] on a code point below U+0100. *)
Definition escape_char (c : ascii) : pystr :=
  if s_char c then [c]
  else BSL :: (if Ascii.eqb c BSL then [BSL]
               else if Ascii.eqb c DQ then [DQ]
               else if Ascii.eqb c "008" then ["b"%char]
               else if Ascii.eqb c "012" then ["f"%char]
               else if Ascii.eqb c "010" then ["n"%char]
               else if Ascii.eqb c "013" then ["r"%char]
               else if Ascii.eqb c "009" then ["t"%char]
               else ["u"; "0"; "0"; hex_digit (code c / 16); hex_digit (code c mod 16)]%char).

Definition encode_basestring_ascii (s : pystr) : pystr := DQ :: flat_map escape_char s ++ [DQ].

(** The values [floatstr] prints by name. *)
Definition special_float (b : Z) : bool := is_nan_bits b || (b =? INF_BITS)%Z || (b =? NEG_INF_BITS)%Z.

Definition INT_MAX_STR_DIGITS_ERROR : pystr :=
  lit "Exceeds the limit (4300 digits) for integer string conversion; use sys.set_int_max_str_digits() to increase the limit".

(** [int.__repr__]. *)
Definition intstr (z : Z) : exn + pystr :=
  if INT_MAX_STR_DIGITS <? length (str_of_N (Z.to_N (Z.abs z))) then inl (ValueError INT_MAX_STR_DIGITS_ERROR)
  else inr (str_of_Z z).

Definition indent_str (ind : pystr) (level : nat) : pystr := concat (repeat ind level).

(** What a number must look like to be read back whole: [NUMBER_RE]
    matches all of it, with a fraction or an exponent. *)
Definition float_literal (s : pystr) : bool :=
  match match_int s with
  | Some (_, r1) =>
      let '(fr, r2) := match_frac r1 in
      let '(ex, r3) := match_exp r2 in
      match r3, fr ++ ex with [], _ :: _ => true | _, _ => false end
  | None => false
  end.

(** ** The values [json.loads] produces

    Every object has each key once (it is a [dict]), every integer has
    at most 4300 digits (longer ones raise), and a float is a 64-bit
    pattern that is not a NaN other than [float('nan')]. *)


Fixpoint keys_distinct (ks : list pystr) : bool :=
  match ks with [] => true | k :: r => negb (existsb (pystr_eqb k) r) && keys_distinct r end.

Definition int_ok (z : Z) : bool := length (str_of_N (Z.to_N (Z.abs z))) <=? INT_MAX_STR_DIGITS.

Definition float_ok (b : Z) : bool :=
  (0 <=? b)%Z && (b <? 2 ^ 64)%Z && (negb (is_nan_bits b) || (b =? NAN_BITS)%Z).

Fixpoint json_wf (v : json) : bool :=
  match v with
  | JInt z => int_ok z
  | JFloat b => float_ok b
  | JArr xs => forallb json_wf xs
  | JObj kvs => keys_distinct (map fst kvs) && forallb (fun kv => json_wf (snd kv)) kvs
  | _ => true
  end.

Section Encoder.
Context `{RT : JsonRuntime}.

(** [floatstr] with [allow_nan=True]. *)
Definition floatstr (b : Z) : pystr :=
  if is_nan_bits b then lit "NaN"
  else if (b =? INF_BITS)%Z then lit "Infinity"
  else if (b =? NEG_INF_BITS)%Z then lit "-Infinity"
  else py_float_repr b.

(** [_iterencode], [_iterencode_list] and [_iterencode_dict] at
    [_current_indent_level = level], the chunks joined. *)
Fixpoint iterencode (ind : pystr) (level : nat) (v : json) {struct v} : exn + pystr :=
  let newline_indent := newline ++ indent_str ind (S level) in
  let close := newline ++ indent_str ind level in
  match v with
  | JNull => inr (lit "null")
  | JBool true => inr (lit "true")
  | JBool false => inr (lit "false")
  | JInt z => intstr z
  | JFloat b => inr (floatstr b)
  | JStr s => inr (encode_basestring_ascii s)
  | JArr [] => inr (lit "[]")
  | JArr xs =>
      match sum_map (iterencode ind (S level)) xs with
      | inl e => inl e
      | inr ts => inr (lit "[" ++ newline_indent ++ join (lit "," ++ newline_indent) ts ++ close ++ lit "]")
      end
  | JObj [] => inr (lit "{}")
  | JObj kvs =>
      let member kv :=
        let '(k, x) := kv in
        match iterencode ind (S level) x with
        | inl e => inl e
        | inr t => inr (encode_basestring_ascii k ++ lit ": " ++ t)
        end in
      match sum_map member kvs with
      | inl e => inl e
      | inr ts => inr (lit "{" ++ newline_indent ++ join (lit "," ++ newline_indent) ts ++ close ++ lit "}")
      end
  end.

(** The text [json.dump(obj, fp, indent=n)] writes. *)
Definition json_dump_text (indent : nat) (v : json) : exn + pystr :=
  iterencode (repeat " "%char indent) 0 v.

End Encoder.

(** What may follow a value in [iterencode]'s output: [","], a newline,
    or the end of the document. *)
Definition value_end (rest : pystr) : bool :=
  match rest with [] => true | c :: _ => Ascii.eqb c "," || Ascii.eqb c "010" end.

(** How every value's text starts: not with whitespace or a closing
    bracket. *)
Definition value_start (t : pystr) : bool :=
  match t with c :: _ => negb (is_ws c) && negb (Ascii.eqb c "]") && negb (Ascii.eqb c "}") | [] => false end.

Section ReadsBack.
Context `{RT : JsonRuntime}.

(** [t] is a text the scanner reads as [v], whatever delimiter follows. *)
Definition reads_back (v : json) (t : pystr) : Prop :=
  value_start t = true /\
  forall doc rest, value_end rest = true -> exists f, scan_once f doc (t ++ rest) = Some (inr (v, rest)).

End ReadsBack.

(** ** Strings read back *)

Lemma hex4_escape c :
  hex4 "0" "0" (hex_digit (code c / 16)) (hex_digit (code c mod 16)) = Some (Z.of_nat (code c)).
Proof.
  pose proof (all_chars_spec
    (fun c => match hex4 "0" "0" (hex_digit (code c / 16)) (hex_digit (code c mod 16)) with
              | Some u => (u =? Z.of_nat (code c))%Z | None => false end) ltac:(vm_compute; reflexivity) c) as H.
  cbv beta in H. destruct (hex4 _ _ _ _); [|discriminate]. apply Z.eqb_eq in H. congruence.
Qed.

Lemma code_lt_256 c : code c < 256.
Proof. unfold code. apply nat_ascii_bounded. Qed.

Section Strings.
Context `{RT : JsonRuntime}.

Lemma scan_escape_char doc start c tail :
  tail <> [] -> scan_string doc start (escape_char c ++ tail) = prepend [c] (scan_string doc start tail).
Proof.
  intros Ht. unfold escape_char. destruct (s_char c) eqn:Hs.
  - unfold s_char, in_range in Hs. bool_hyps. apply Nat.leb_le in H. cbn [app scan_string].
    rewrite H1, H0. destruct (code c <=? 31) eqn:E; [apply Nat.leb_le in E; lia | reflexivity].
  - cbn [app scan_string]. change (Ascii.eqb BSL DQ) with false. change (Ascii.eqb BSL BSL) with true.
    cbv iota beta.
    repeat (case_goal; [match goal with E : Ascii.eqb c _ = true |- _ => apply Ascii.eqb_eq in E end;
                        subst c; reflexivity|]).
    destruct tail as [|t tail']; [contradiction|]. cbn [app]. change (Ascii.eqb "u" "u") with true.
    cbv iota beta. rewrite hex4_escape. pose proof (code_lt_256 c).
    assert (Hh : is_high_surrogate (Z.of_nat (code c)) = false).
    { unfold is_high_surrogate. apply andb_false_intro1. apply Z.leb_gt. lia. }
    rewrite Hh. unfold py_chr. rewrite (proj2 (Z.leb_le _ _)) by lia.
    rewrite Nat2Z.id. unfold code. rewrite ascii_nat_embedding. reflexivity.
Qed.

(** [encode_basestring_ascii] is read back by [scanstring]. *)
Lemma scan_encoded_string doc start s rest :
  scan_string doc start (flat_map escape_char s ++ DQ :: rest) = inr (s, rest).
Proof.
  induction s as [|c s IH]; [reflexivity|]. cbn [flat_map]. rewrite <- app_assoc.
  rewrite scan_escape_char by (destruct (flat_map escape_char s); discriminate).
  rewrite IH. reflexivity.
Qed.

End Strings.

(** ** Numbers read back *)

Lemma is_decimal_not_sign c : is_decimal c = true -> Ascii.eqb c "-" = false.
Proof. intros H. destruct (Ascii.eqb_spec c "-"); [subst; discriminate | reflexivity]. Qed.

(** [str(n)] is ["0"] or a nonzero digit and more digits. *)
Lemma str_of_N_shape n :
  str_of_N n = ["0"%char] \/
  exists c ds, str_of_N n = c :: ds /\ in_range 49 57 c = true /\ Forall (fun c => is_decimal c = true) ds.
Proof.
  pose proof (str_of_N_decimal n) as Hd. pose proof (str_of_N_lead n) as Hl.
  pose proof (str_of_N_nonempty n) as Hne.
  destruct (str_of_N n) as [|c ds]; [contradiction|]. inversion Hd as [|? ? Hc Hds]; subst.
  destruct (Ascii.eqb_spec c "0") as [->|Hc0].
  - left. destruct ds as [|d ds]; [reflexivity|]. exfalso. exact (Hl d ds eq_refl).
  - right. exists c, ds. auto using is_decimal_nonzero.
Qed.

Lemma in_range_digit_not_sign c : in_range 49 57 c = true -> Ascii.eqb c "-" = false /\ Ascii.eqb c "0" = false.
Proof.
  intros H. split; [destruct (Ascii.eqb_spec c "-") | destruct (Ascii.eqb_spec c "0")];
    subst; try discriminate; reflexivity.
Qed.

Lemma match_int_str_of_Z z : match_int (str_of_Z z) = Some (str_of_Z z, []).
Proof.
  unfold str_of_Z. destruct (z <? 0)%Z;
    [destruct (str_of_N_shape (Z.to_N (- z))) as [E | (c & ds & E & Hc & Hds)]
    |destruct (str_of_N_shape (Z.to_N z)) as [E | (c & ds & E & Hc & Hds)]]; rewrite E; try reflexivity;
    destruct (in_range_digit_not_sign c Hc) as [H1 H2]; unfold match_int; cbn [app];
    rewrite ?H1; simpl; rewrite H2, Hc; rewrite <- (app_nil_r ds) at 1;
    rewrite span_decimal_app by (assumption || exact I); reflexivity.
Qed.

Lemma int_from_string_str_of_Z z : int_ok z = true -> int_from_string (str_of_Z z) = inr z.
Proof.
  unfold int_ok, int_from_string, str_of_Z. intros Hok. destruct (z <? 0)%Z eqn:Hz.
  - apply Z.ltb_lt in Hz. change (Ascii.eqb "-" "-") with true. cbv iota beta zeta.
    rewrite Z.abs_neq in Hok by lia. rewrite (proj2 (Nat.ltb_ge _ _)) by (apply Nat.leb_le; exact Hok).
    rewrite Z_of_digits_str_of_N, Z2N.id by lia. f_equal. lia.
  - apply Z.ltb_ge in Hz. rewrite Z.abs_eq in Hok by lia.
    pose proof (str_of_N_nonempty (Z.to_N z)) as Hne. pose proof (str_of_N_decimal (Z.to_N z)) as Hd.
    destruct (str_of_N (Z.to_N z)) as [|c ds] eqn:E; [contradiction|].
    inversion Hd as [|? ? Hc _]; subst. rewrite (is_decimal_not_sign c Hc). cbv iota beta zeta.
    rewrite (proj2 (Nat.ltb_ge _ _)) by (apply Nat.leb_le; exact Hok).
    rewrite <- E, Z_of_digits_str_of_N, Z2N.id by lia. reflexivity.
Qed.

Lemma match_frac_stop_nil rest : number_stop rest = true -> match_frac rest = ([], rest).
Proof. intros Hr. exact (match_frac_stop [] [] [] rest eq_refl Hr). Qed.

Lemma match_exp_stop_nil rest : number_stop rest = true -> match_exp rest = ([], rest).
Proof. intros Hr. exact (match_exp_stop [] [] [] rest eq_refl Hr). Qed.

Section Numbers.
Context `{RT : JsonRuntime}.

Lemma scan_number_int doc z rest :
  int_ok z = true -> number_stop rest = true -> scan_number doc (str_of_Z z ++ rest) = inr (JInt z, rest).
Proof.
  intros Hok Hr. unfold scan_number.
  rewrite (match_int_stop _ _ _ _ (match_int_str_of_Z z) Hr). cbn [app].
  rewrite match_frac_stop_nil, match_exp_stop_nil by exact Hr.
  rewrite int_from_string_str_of_Z by exact Hok. reflexivity.
Qed.

Lemma scan_number_float doc s rest :
  float_literal s = true -> number_stop rest = true -> scan_number doc (s ++ rest) = inr (JFloat (py_float s), rest).
Proof.
  unfold float_literal. intros H Hr.
  destruct (match_int s) as [[ip r1]|] eqn:E1; [|discriminate].
  destruct (match_frac r1) as [fr r2] eqn:E2. destruct (match_exp r2) as [ex r3] eqn:E3.
  destruct r3; [|discriminate]. destruct (fr ++ ex) as [|c l] eqn:E4; [discriminate|].
  unfold scan_number.
  rewrite (match_int_stop _ _ _ _ E1 Hr), (match_frac_stop _ _ _ _ E2 Hr), (match_exp_stop _ _ _ _ E3 Hr).
  apply match_int_split in E1. apply match_frac_split in E2. apply match_exp_split in E3.
  subst. rewrite app_nil_r in *. destruct fr, ex; try discriminate; reflexivity.
Qed.

End Numbers.

(** ** Whitespace and delimiters around values *)

Lemma value_end_stop rest : value_end rest = true -> number_stop rest = true.
Proof.
  destruct rest as [|c r]; [reflexivity|]. simpl. intros H.
  apply orb_true_iff in H as [H|H]; apply Ascii.eqb_eq in H; subst; reflexivity.
Qed.

Lemma skip_ws_value_start t r : value_start t = true -> skip_ws (t ++ r) = t ++ r.
Proof.
  destruct t as [|c t]; [discriminate|]. simpl. intros H.
  apply andb_prop in H as [H _]. apply andb_prop in H as [H _]. apply negb_true_iff in H. rewrite H.
  reflexivity.
Qed.

Lemma skip_ws_app_ws w t : forallb is_ws w = true -> skip_ws (w ++ t) = skip_ws t.
Proof. induction w as [|c w IH]; [reflexivity|]. simpl. intros H. bool_hyps. rewrite H. auto. Qed.

Lemma forallb_indent ind k : forallb is_ws ind = true -> forallb is_ws (indent_str ind k) = true.
Proof.
  intros H. unfold indent_str. induction k as [|k IH]; [reflexivity|]. simpl.
  rewrite forallb_app, H, IH. reflexivity.
Qed.

(** The line break and indentation before an element are skipped. *)
Lemma skip_ws_newline_indent ind k t :
  forallb is_ws ind = true -> skip_ws (newline ++ indent_str ind k ++ t) = skip_ws t.
Proof. intros H. rewrite app_assoc. apply skip_ws_app_ws. simpl. apply forallb_indent, H. Qed.

Lemma decimal_not_constant_head c :
  is_decimal c = true ->
  Ascii.eqb "n" c = false /\ Ascii.eqb "t" c = false /\ Ascii.eqb "f" c = false /\
  Ascii.eqb "N" c = false /\ Ascii.eqb "I" c = false /\ Ascii.eqb "-" c = false.
Proof.
  pose proof (all_chars_spec (fun c => negb (is_decimal c) ||
    negb (Ascii.eqb "n" c || Ascii.eqb "t" c || Ascii.eqb "f" c || Ascii.eqb "N" c || Ascii.eqb "I" c
          || Ascii.eqb "-" c)) ltac:(vm_compute; reflexivity) c) as H.
  intros Hc. cbv beta in H. rewrite Hc in H. simpl in H. apply negb_true_iff in H.
  repeat rewrite orb_false_iff in H. tauto.
Qed.

(** Evaluate the comparisons of two known characters. *)
Ltac eval_char_eqs :=
  repeat match goal with
         | |- context [Ascii.eqb ?a ?b] =>
             let v := eval vm_compute in (Ascii.eqb a b) in
             lazymatch v with
             | true => change (Ascii.eqb a b) with true
             | false => change (Ascii.eqb a b) with false
             end
         end; cbv iota beta.

Lemma digit_decimal c : in_range 49 57 c = true -> is_decimal c = true.
Proof. apply all_chars_impl. vm_compute. reflexivity. Qed.

(** A number's text is none of the named constants. *)
Lemma match_constant_number s ip r rest :
  match_int s = Some (ip, r) -> match_constant CONSTANTS (s ++ rest) = None.
Proof.
  unfold match_int. destruct s as [|c s]; [discriminate|]. intros H.
  destruct (Ascii.eqb_spec c "-") as [->|Hc].
  - destruct s as [|d s]; [discriminate|]. change (Ascii.eqb "-" "-") with true in H. cbv iota beta in H.
    assert (Hd : is_decimal d = true).
    { destruct (Ascii.eqb d "0") eqn:E; [apply Ascii.eqb_eq in E; subst; reflexivity|].
      destruct (in_range 49 57 d) eqn:E'; [apply digit_decimal, E' | discriminate]. }
    destruct (decimal_not_constant_head d Hd) as (_ & _ & _ & _ & HI & _).
    cbn [match_constant CONSTANTS lit list_ascii_of_string strip_prefix app]. eval_char_eqs.
    rewrite HI. reflexivity.
  - cbv iota beta in H.
    assert (Hd : is_decimal c = true).
    { destruct (Ascii.eqb c "0") eqn:E; [apply Ascii.eqb_eq in E; subst; reflexivity|].
      destruct (in_range 49 57 c) eqn:E'; [apply digit_decimal, E' | discriminate]. }
    destruct (decimal_not_constant_head c Hd) as (Hn & Ht & Hf & HN & HI & Hm).
    cbn [match_constant CONSTANTS lit list_ascii_of_string strip_prefix app].
    rewrite Hn, Ht, Hf, HN, HI, Hm. reflexivity.
Qed.

Lemma decimal_char_facts c :
  is_decimal c = true ->
  Ascii.eqb c DQ = false /\ Ascii.eqb c "{" = false /\ Ascii.eqb c "[" = false /\
  is_ws c = false /\ Ascii.eqb c "]" = false /\ Ascii.eqb c "}" = false.
Proof.
  pose proof (all_chars_spec (fun c => negb (is_decimal c) ||
    negb (Ascii.eqb c DQ || Ascii.eqb c "{" || Ascii.eqb c "[" || is_ws c || Ascii.eqb c "]" || Ascii.eqb c "}"))
    ltac:(vm_compute; reflexivity) c) as H.
  intros Hc. cbv beta in H. rewrite Hc in H. simpl in H. apply negb_true_iff in H.
  repeat rewrite orb_false_iff in H. tauto.
Qed.

(** A number's text starts with a digit or a minus sign. *)
Lemma number_first_char s ip r :
  match_int s = Some (ip, r) -> exists c s', s = c :: s' /\ (is_decimal c = true \/ c = "-"%char).
Proof.
  unfold match_int. destruct s as [|c s]; [discriminate|]. intros H. exists c, s. split; [reflexivity|].
  destruct (Ascii.eqb_spec c "-") as [->|Hc]; [right; reflexivity|left].
  destruct (Ascii.eqb c "0") eqn:E; [apply Ascii.eqb_eq in E; subst; reflexivity|].
  destruct (in_range 49 57 c) eqn:E'; [apply digit_decimal, E' | discriminate].
Qed.

Section Atoms.
Context `{RT : JsonRuntime}.

Lemma scan_once_number f doc s ip r rest :
  match_int s = Some (ip, r) -> scan_once (S f) doc (s ++ rest) = Some (scan_atom doc (s ++ rest)).
Proof.
  intros H. destruct (number_first_char s ip r H) as (c & s' & -> & [Hc | ->]).
  - destruct (decimal_char_facts c Hc) as (H1 & H2 & H3 & _). simpl. rewrite H1, H2, H3. reflexivity.
  - reflexivity.
Qed.

Lemma value_start_number s ip r : match_int s = Some (ip, r) -> value_start s = true.
Proof.
  intros H. destruct (number_first_char s ip r H) as (c & s' & -> & [Hc | ->]); [|reflexivity].
  destruct (decimal_char_facts c Hc) as (_ & _ & _ & H4 & H5 & H6). simpl. rewrite H4, H5, H6. reflexivity.
Qed.

Lemma reads_back_number s v :
  (exists ip r, match_int s = Some (ip, r)) ->
  (forall doc rest, number_stop rest = true -> scan_number doc (s ++ rest) = inr (v, rest)) ->
  reads_back v s.
Proof.
  intros (ip & r & H) Hs. split; [exact (value_start_number s ip r H)|].
  intros doc rest Hr. exists 1. rewrite (scan_once_number 0 doc s ip r rest H).
  unfold scan_atom. rewrite (match_constant_number s ip r rest H), Hs by (apply value_end_stop, Hr).
  reflexivity.
Qed.

Lemma reads_back_int z : int_ok z = true -> reads_back (JInt z) (str_of_Z z).
Proof.
  intros Hz. apply reads_back_number; [eauto using match_int_str_of_Z|].
  intros doc rest Hr. apply scan_number_int; assumption.
Qed.

Lemma reads_back_literal w v :
  In (w, v) [("null"%string, JNull); ("true"%string, JBool true); ("false"%string, JBool false);
             ("NaN"%string, JFloat NAN_BITS); ("Infinity"%string, JFloat INF_BITS);
             ("-Infinity"%string, JFloat NEG_INF_BITS)] ->
  reads_back v (lit w).
Proof.
  intros Hin. destruct Hin as [H|[H|[H|[H|[H|[H|[]]]]]]]; injection H as <- <-;
    (split; [reflexivity | intros doc rest _; exists 1; reflexivity]).
Qed.

End Atoms.

(** ** Arrays and objects read back *)

Lemma value_start_not_close t r :
  value_start t = true -> first_is "]" (t ++ r) = false /\ first_is "}" (t ++ r) = false.
Proof.
  destruct t as [|c t]; [discriminate|]. simpl. intros H.
  apply andb_prop in H as [H Hc]. apply andb_prop in H as [_ Hb]. apply negb_true_iff in Hb, Hc.
  rewrite Hb, Hc. split; reflexivity.
Qed.

(** After an element: a comma, then the next element. *)
Lemma comma_facts X :
  skip_ws (lit "," ++ X) = lit "," ++ X /\ first_is "]" (lit "," ++ X) = false /\
  first_is "}" (lit "," ++ X) = false /\ first_is "," (lit "," ++ X) = true /\ tl (lit "," ++ X) = X.
Proof. repeat split. Qed.

Lemma skip_ws_join_start sep t ts X :
  value_start t = true -> skip_ws (join sep (t :: ts) ++ X) = join sep (t :: ts) ++ X.
Proof.
  intros H. destruct (join_cons_app sep t ts) as [r E]. rewrite E, <- !app_assoc.
  apply skip_ws_value_start, H.
Qed.

Lemma first_is_join_start sep t ts X :
  value_start t = true ->
  first_is "]" (join sep (t :: ts) ++ X) = false /\ first_is "}" (join sep (t :: ts) ++ X) = false.
Proof.
  intros H. destruct (join_cons_app sep t ts) as [r E]. rewrite E, <- !app_assoc.
  apply value_start_not_close, H.
Qed.

(** After a key: the colon and a space. *)
Lemma colon_facts X :
  skip_ws (lit ": " ++ X) = lit ": " ++ X /\ first_is ":" (lit ": " ++ X) = true /\
  skip_ws (tl (lit ": " ++ X)) = skip_ws X.
Proof. repeat split. Qed.

Lemma encode_app k X : encode_basestring_ascii k ++ X = DQ :: flat_map escape_char k ++ DQ :: X.
Proof. unfold encode_basestring_ascii. simpl. rewrite <- app_assoc. reflexivity. Qed.

Lemma keys_distinct_app_notin l1 k l2 : keys_distinct (l1 ++ k :: l2) = true -> ~ In k l1.
Proof.
  induction l1 as [|a l1 IH]; [intros _ []|]. simpl. intros H. bool_hyps. intros [<-|Hin].
  - apply negb_true_iff in H. rewrite existsb_app in H. simpl in H. unfold pystr_eqb in H.
    destruct (list_eq_dec ascii_dec a a); [|congruence]. rewrite orb_true_r in H. discriminate.
  - exact (IH H0 Hin).
Qed.

Lemma dict_set_fresh acc k v : ~ In k (map fst acc) -> dict_set acc k v = acc ++ [(k, v)].
Proof.
  induction acc as [|[k' v'] acc IH]; [reflexivity|]. simpl. intros Hn.
  destruct (list_eq_dec ascii_dec k' k); [tauto|]. rewrite IH by tauto. reflexivity.
Qed.

Section Containers.
Context `{RT : JsonRuntime}.
Variable ind : pystr.
Hypothesis ind_ws : forallb is_ws ind = true.

Lemma array_items_read level doc xs ts acc rest :
  Forall2 reads_back xs ts -> xs <> [] ->
  exists f, array_items f doc (join (lit "," ++ newline ++ indent_str ind (S level)) ts
                                ++ newline ++ indent_str ind level ++ lit "]" ++ rest) acc
            = Some (inr (JArr (acc ++ xs), rest)).
Proof.
  intros H. revert acc. induction H as [|x t xs ts [Hs Hx] Hrest IH]; intros acc Hne; [contradiction|].
  destruct Hrest as [|x2 t2 xs2 ts2 H2 Hrest2].
  - cbn [join].
    destruct (Hx doc (newline ++ indent_str ind level ++ lit "]" ++ rest) eq_refl) as [f1 Hf1].
    exists (S f1). cbn [array_items]. rewrite Hf1. cbv zeta.
    rewrite skip_ws_newline_indent by exact ind_ws. reflexivity.
  - cbn [join]. rewrite <- !app_assoc.
    destruct (Hx doc (lit "," ++ newline ++ indent_str ind (S level) ++ join (lit "," ++ newline ++ indent_str ind (S level)) (t2 :: ts2) ++ newline ++ indent_str ind level ++ lit "]" ++ rest) eq_refl) as [f1 Hf1].
    destruct (IH (acc ++ [x]) ltac:(discriminate)) as [f2 Hf2].
    exists (S (Nat.max f1 f2)). cbn [array_items].
    rewrite (scan_once_mono f1 _ _ _ _ (Nat.le_max_l _ _) Hf1). cbv zeta.
    destruct (comma_facts (newline ++ indent_str ind (S level) ++ join (lit "," ++ newline ++ indent_str ind (S level)) (t2 :: ts2) ++ newline ++ indent_str ind level ++ lit "]" ++ rest)) as (C1 & C2 & _ & C4 & C5).
    rewrite C1, C2, C4, C5. cbv iota.
    rewrite skip_ws_newline_indent by exact ind_ws.
    rewrite skip_ws_join_start by exact (proj1 H2).
    rewrite (array_items_mono f2 _ _ _ _ _ (Nat.le_max_r _ _) Hf2), <- app_assoc. reflexivity.
Qed.

(** One member: the key is read back, then the colon, then the value. *)
Lemma object_members_member f doc k tv R acc x :
  value_start tv = true -> scan_once f doc (tv ++ R) = Some x ->
  object_members (S f) doc (encode_basestring_ascii k ++ lit ": " ++ tv ++ R) acc =
  match x with
  | inl e => Some (inl e)
  | inr (v, r2) =>
      let acc' := dict_set acc k v in
      let w2 := skip_ws r2 in
      if first_is "}" w2 then Some (inr (JObj acc', tl w2))
      else if first_is "," w2 then object_members f doc (skip_ws (tl w2)) acc'
      else Some (inl (err_at "Expecting ',' delimiter" doc w2))
  end.
Proof.
  intros Hs Hx. rewrite encode_app. cbn [object_members].
  change (negb (first_is DQ (DQ :: flat_map escape_char k ++ DQ :: lit ": " ++ tv ++ R))) with false.
  cbv iota. cbn [tl]. rewrite scan_encoded_string. cbv iota zeta.
  destruct (colon_facts (tv ++ R)) as (C1 & C2 & C3). rewrite C1, C2, C3. cbv iota.
  rewrite skip_ws_value_start by exact Hs. rewrite Hx. reflexivity.
Qed.

Lemma object_members_read level doc kvs ts acc rest :
  Forall2 (fun kv t => exists tv, t = encode_basestring_ascii (fst kv) ++ lit ": " ++ tv /\ reads_back (snd kv) tv)
    kvs ts ->
  kvs <> [] -> keys_distinct (map fst (acc ++ kvs)) = true ->
  exists f, object_members f doc (join (lit "," ++ newline ++ indent_str ind (S level)) ts
                                  ++ newline ++ indent_str ind level ++ lit "}" ++ rest) acc
            = Some (inr (JObj (acc ++ kvs), rest)).
Proof.
  intros H. revert acc. induction H as [|[k v] t kvs ts (tv & -> & Hs & Hv) Hrest IH]; intros acc Hne Hk;
    [contradiction|].
  cbn [fst snd] in *. rewrite map_app in Hk. cbn [map] in Hk.
  pose proof (keys_distinct_app_notin _ _ _ Hk) as Hnew.
  destruct Hrest as [|[k2 v2] t2 kvs2 ts2 (tv2 & -> & Hs2 & Hv2) Hrest2].
  - cbn [join]. rewrite <- !app_assoc.
    destruct (Hv doc (newline ++ indent_str ind level ++ lit "}" ++ rest) eq_refl) as [f1 Hf1].
    exists (S f1). rewrite (object_members_member _ _ _ _ _ _ _ Hs Hf1). cbv zeta.
    rewrite skip_ws_newline_indent, dict_set_fresh by assumption. reflexivity.
  - rewrite join_cons_cons, <- !app_assoc.
    set (R := newline ++ indent_str ind (S level) ++ join (lit "," ++ newline ++ indent_str ind (S level))
                ((encode_basestring_ascii k2 ++ lit ": " ++ tv2) :: ts2) ++
              newline ++ indent_str ind level ++ lit "}" ++ rest).
    destruct (Hv doc (lit "," ++ R) eq_refl) as [f1 Hf1].
    destruct (IH (acc ++ [(k, v)]) ltac:(discriminate)) as [f2 Hf2].
    { rewrite !map_app, <- app_assoc. exact Hk. }
    exists (S (Nat.max f1 f2)).
    rewrite (object_members_member _ _ _ _ _ _ _ Hs (scan_once_mono f1 _ _ _ _ (Nat.le_max_l _ _) Hf1)).
    cbv zeta. destruct (comma_facts R) as (C1 & _ & C3 & C4 & C5). rewrite C1, C3, C4, C5. cbv iota.
    unfold R. rewrite skip_ws_newline_indent by exact ind_ws.
    rewrite skip_ws_join_start by (rewrite encode_app; reflexivity).
    rewrite dict_set_fresh by exact Hnew.
    rewrite (object_members_mono f2 _ _ _ _ _ (Nat.le_max_r _ _) Hf2), <- app_assoc. reflexivity.
Qed.

End Containers.
Section RoundTrip.
Context `{RT : JsonRuntime}.
Variable ind : pystr.
Hypothesis ind_ws : forallb is_ws ind = true.
(** [repr] of a finite float is a JSON number with a fraction or an
    exponent, and [float] reads it back to the same bits. *)
Hypothesis repr_literal :
  forall b, float_ok b = true -> special_float b = false -> float_literal (py_float_repr b) = true.
Hypothesis repr_roundtrip :
  forall b, float_ok b = true -> special_float b = false -> py_float (py_float_repr b) = b.

Lemma reads_back_float b : float_ok b = true -> reads_back (JFloat b) (floatstr b).
Proof.
  intros Hb. unfold floatstr.
  destruct (is_nan_bits b) eqn:En.
  - unfold float_ok in Hb. rewrite En in Hb. bool_hyps. apply Z.eqb_eq in H0. subst b.
    apply (reads_back_literal "NaN"). simpl; tauto.
  - destruct (b =? INF_BITS)%Z eqn:Ei; [apply Z.eqb_eq in Ei; subst b; apply (reads_back_literal "Infinity"); simpl; tauto|].
    destruct (b =? NEG_INF_BITS)%Z eqn:Em;
      [apply Z.eqb_eq in Em; subst b; apply (reads_back_literal "-Infinity"); simpl; tauto|].
    assert (Hs : special_float b = false) by (unfold special_float; rewrite En, Ei, Em; reflexivity).
    pose proof (repr_literal b Hb Hs) as Hl. pose proof (repr_roundtrip b Hb Hs) as Hr.
    apply reads_back_number.
    + unfold float_literal in Hl. destruct (match_int (py_float_repr b)) as [[ip r]|]; [eauto | discriminate].
    + intros doc rest Hstop. rewrite scan_number_float, Hr by assumption. reflexivity.
Qed.

Lemma reads_back_string s : reads_back (JStr s) (encode_basestring_ascii s).
Proof.
  split; [reflexivity|]. intros doc rest _. exists 1. rewrite encode_app. cbn [scan_once].
  change (Ascii.eqb DQ DQ) with true. cbv iota. cbn [tl]. rewrite scan_encoded_string. reflexivity.
Qed.

(** Every well-formed value is printed, and its text is read back as
    the value. *)
Lemma iterencode_reads_back v :
  json_wf v = true -> forall level, exists t, iterencode ind level v = inr t /\ reads_back v t.
Proof.
  induction v as [| b | z | b | s | xs IH | kvs IH] using json_ind'; intros Hwf level.
  - eexists; split; [reflexivity | apply (reads_back_literal "null"); simpl; tauto].
  - destruct b; (eexists; split; [reflexivity|]);
      [apply (reads_back_literal "true") | apply (reads_back_literal "false")]; simpl; tauto.
  - exists (str_of_Z z). split; [|apply reads_back_int, Hwf].
    cbn [iterencode]. unfold intstr. unfold int_ok in Hwf.
    rewrite (proj2 (Nat.ltb_ge _ _)) by (apply Nat.leb_le, Hwf). reflexivity.
  - exists (floatstr b). split; [reflexivity | apply reads_back_float, Hwf].
  - exists (encode_basestring_ascii s). split; [reflexivity | apply reads_back_string].
  - destruct xs as [|x xs'].
    + exists (lit "[]"). split; [reflexivity|]. split; [reflexivity|]. intros doc rest _. exists 1. reflexivity.
    + assert (Hall : Forall (fun x => exists t, iterencode ind (S level) x = inr t /\ reads_back x t) (x :: xs')).
      { cbn [json_wf] in Hwf. rewrite forallb_forall in Hwf. rewrite Forall_forall in IH |- *.
        intros y Hy. exact (IH y Hy (Hwf y Hy) (S level)). }
      destruct (sum_map_Forall2 _ _ _ Hall) as (ts & Hts & H2).
      eexists. split; [cbn [iterencode]; rewrite Hts; reflexivity|].
      inversion H2 as [|? t ? ts' [Hs1 _] _]; subst.
      split; [reflexivity|]. intros doc rest Hr.
      destruct (array_items_read ind ind_ws level doc (x :: xs') (t :: ts') [] rest H2 ltac:(discriminate)) as [f Hf].
      exists (S f). rewrite <- !app_assoc, (lit_char_app "["). cbn [scan_once]. eval_char_eqs.
      rewrite skip_ws_newline_indent, skip_ws_join_start by assumption.
      rewrite (proj1 (first_is_join_start _ t ts' _ Hs1)). exact Hf.
  - destruct kvs as [|[k x] kvs'].
    + exists (lit "{}"). split; [reflexivity|]. split; [reflexivity|]. intros doc rest _. exists 1. reflexivity.
    + cbn [json_wf] in Hwf. apply andb_prop in Hwf as [Hk Hwf]. rewrite forallb_forall in Hwf.
      set (P := fun (kv : pystr * json) t =>
                  exists tv, t = encode_basestring_ascii (fst kv) ++ lit ": " ++ tv /\ reads_back (snd kv) tv).
      assert (Hobj : exists ts, iterencode ind level (JObj ((k, x) :: kvs')) =
                       inr (lit "{" ++ (newline ++ indent_str ind (S level)) ++
                            join (lit "," ++ newline ++ indent_str ind (S level)) ts ++
                            (newline ++ indent_str ind level) ++ lit "}") /\ Forall2 P ((k, x) :: kvs') ts).
      { cbn [iterencode]. cbv zeta.
        match goal with |- context [sum_map ?m] =>
          assert (Hall : Forall (fun kv => exists t, m kv = inr t /\ P kv t) ((k, x) :: kvs')) end.
        { rewrite Forall_forall in IH |- *. intros [k' y] Hy.
          destruct (IH _ Hy (Hwf _ Hy) (S level)) as (tv & Htv & Hb). cbn [snd] in Htv.
          eexists. split; [cbv beta iota; rewrite Htv; reflexivity | exists tv; auto]. }
        destruct (sum_map_Forall2 _ _ _ Hall) as (ts & Hts & H2). exists ts. rewrite Hts. auto. }
      destruct Hobj as (ts & Hts & H2). eexists. split; [exact Hts|].
      inversion H2 as [|? t ? ts' (tv & Et & Hs1 & _) _]; subst. cbn [fst snd] in *.
      split; [reflexivity|]. intros doc rest Hr.
      destruct (object_members_read ind ind_ws level doc ((k, x) :: kvs') _ [] rest H2 ltac:(discriminate) Hk)
        as [f Hf].
      assert (Hs0 : value_start (encode_basestring_ascii k ++ lit ": " ++ tv) = true)
        by (rewrite encode_app; reflexivity).
      exists (S f). rewrite <- !app_assoc, (lit_char_app "{"). cbn [scan_once]. eval_char_eqs.
      rewrite skip_ws_newline_indent, skip_ws_join_start by assumption.
      rewrite (proj2 (first_is_join_start _ _ ts' _ Hs0)). exact Hf.
Qed.

End RoundTrip.

Lemma repeat_space_ws n : forallb is_ws (repeat " "%char n) = true.
Proof. induction n; simpl; auto. Qed.

Section Dump.
Context `{RT : JsonRuntime}.
Hypothesis repr_literal :
  forall b, float_ok b = true -> special_float b = false -> float_literal (py_float_repr b) = true.
Hypothesis repr_roundtrip :
  forall b, float_ok b = true -> special_float b = false -> py_float (py_float_repr b) = b.

(** The text [json.dump] writes for a well-formed value is read back by
    [json.loads] as the same value. *)
Lemma dump_text_loads n v :
  json_wf v = true -> exists t, json_dump_text n v = inr t /\ loads t = inr v.
Proof.
  intros Hwf. unfold json_dump_text.
  destruct (iterencode_reads_back _ (repeat_space_ws n) repr_literal repr_roundtrip v Hwf 0)
    as (t & Ht & Hs & Hr).
  exists t. split; [exact Ht|].
  destruct (Hr t [] eq_refl) as [f Hf]. rewrite app_nil_r in Hf.
  pose proof (loads_with_enough t (Nat.max f (2 * length t + 1)) (Nat.le_max_r _ _)) as E.
  assert (Hw : skip_ws t = t).
  { rewrite <- (app_nil_r t) at 1. rewrite skip_ws_value_start by exact Hs. apply app_nil_r. }
  unfold loads_with in E. rewrite Hw, (scan_once_mono f _ _ _ _ (Nat.le_max_l _ _) Hf) in E.
  injection E as E. symmetry. exact E.
Qed.

End Dump.

(** ** What [json.loads] returns is well formed *)


Lemma keys_distinct_snoc l k : keys_distinct l = true -> ~ In k l -> keys_distinct (l ++ [k]) = true.
Proof.
  induction l as [|a l IH]; [reflexivity|]. simpl. intros H Hn. bool_hyps.
  rewrite IH by tauto. rewrite existsb_app. simpl. rewrite orb_false_r.
  destruct (pystr_eqb a k) eqn:E; [apply pystr_eqb_eq in E; tauto|]. rewrite orb_false_r.
  apply negb_true_iff in H. rewrite H. reflexivity.
Qed.

Lemma dict_set_keys acc k v :
  map fst (dict_set acc k v) = map fst acc \/ (map fst (dict_set acc k v) = map fst acc ++ [k] /\ ~ In k (map fst acc)).
Proof.
  induction acc as [|[k' v'] acc IH]; [right; split; [reflexivity | intros []]|]. simpl.
  destruct (list_eq_dec ascii_dec k' k) as [->|Hne]; [left; reflexivity|]. simpl.
  destruct IH as [-> | [-> Hn]]; [left; reflexivity | right; split; [reflexivity | intros [E|E]; [congruence | tauto]]].
Qed.

Lemma dict_set_wf acc k v :
  keys_distinct (map fst acc) = true -> forallb (fun kv => json_wf (snd kv)) acc = true -> json_wf v = true ->
  keys_distinct (map fst (dict_set acc k v)) = true /\ forallb (fun kv => json_wf (snd kv)) (dict_set acc k v) = true.
Proof.
  intros Hk Ha Hv. split.
  - destruct (dict_set_keys acc k v) as [-> | [-> Hn]]; [exact Hk | apply keys_distinct_snoc; assumption].
  - clear Hk. induction acc as [|[k' v'] acc IH]; simpl in *; [rewrite Hv; reflexivity|].
    bool_hyps. destruct (list_eq_dec ascii_dec k' k); simpl; rewrite ?Hv, ?H, ?IH; auto.
Qed.

Lemma span_decimal_fst s : Forall (fun c => is_decimal c = true) (fst (span_decimal s)).
Proof.
  induction s as [|c s IH]; simpl; [constructor|].
  destruct (is_decimal c) eqn:E; [|constructor]. destruct (span_decimal s) eqn:Es. simpl in *. auto.
Qed.

(** The integer part of a number: an optional minus sign and digits. *)
Lemma match_int_digits s ip r :
  match_int s = Some (ip, r) ->
  exists (neg : bool) ds, ip = (if neg then ["-"%char] else []) ++ ds /\ ds <> [] /\ Forall (fun c => is_decimal c = true) ds.
Proof.
  pose proof span_decimal_fst as Hs. unfold match_int. destruct s as [|c s]; [discriminate|]. intros H.
  destruct (Ascii.eqb_spec c "-") as [->|Hc].
  - destruct s as [|d s]; [discriminate|]. exists true. change (Ascii.eqb "-" "-") with true in H.
    cbv iota beta in H. destruct (Ascii.eqb_spec d "0") as [->|Hd].
    + injection H as <- _. exists ["0"%char]. repeat split; [discriminate | repeat constructor].
    + destruct (in_range 49 57 d) eqn:Er; [|discriminate]. specialize (Hs s).
      destruct (span_decimal s) as [a b]. injection H as <- _. exists (d :: a).
      repeat split; [discriminate | constructor; [apply digit_decimal, Er | exact Hs]].
  - exists false. cbv iota beta in H. destruct (Ascii.eqb_spec c "0") as [->|Hd].
    + injection H as <- _. exists ["0"%char]. repeat split; [discriminate | repeat constructor].
    + destruct (in_range 49 57 c) eqn:Er; [|discriminate]. specialize (Hs s).
      destruct (span_decimal s) as [a b]. injection H as <- _. exists (c :: a).
      repeat split; [discriminate | constructor; [apply digit_decimal, Er | exact Hs]].
Qed.

Lemma int_ok_digits ds :
  Forall (fun c => is_decimal c = true) ds -> ds <> [] -> length ds <= INT_MAX_STR_DIGITS ->
  int_ok (Z_of_digits ds) = true /\ int_ok (- Z_of_digits ds) = true.
Proof.
  intros Hd Hne Hl. pose proof (Z_of_digits_bound ds Hd) as Hb.
  assert (H : length (str_of_N (Z.to_N (Z_of_digits ds))) <= INT_MAX_STR_DIGITS).
  { etransitivity; [|exact Hl]. apply str_of_N_length; [destruct ds; [contradiction | simpl; lia]|].
    rewrite Z2N.id; lia. }
  unfold int_ok. rewrite Z.abs_opp, Z.abs_eq by lia. apply Nat.leb_le in H. auto.
Qed.

Lemma int_from_string_wf (neg : bool) ds z :
  Forall (fun c => is_decimal c = true) ds -> ds <> [] ->
  int_from_string ((if neg then ["-"%char] else []) ++ ds) = inr z -> int_ok z = true.
Proof.
  intros Hd Hne H. unfold int_from_string in H. destruct neg.
  - cbn [app] in H. change (Ascii.eqb "-" "-") with true in H. cbv iota beta zeta in H.
    destruct (INT_MAX_STR_DIGITS <? length ds) eqn:E; [discriminate|]. injection H as <-.
    apply Nat.ltb_ge in E. exact (proj2 (int_ok_digits ds Hd Hne E)).
  - destruct ds as [|c ds']; [contradiction|]. inversion Hd as [|? ? Hc _]; subst. cbn [app] in H.
    rewrite is_decimal_not_sign in H by exact Hc. cbv iota beta zeta in H.
    destruct (INT_MAX_STR_DIGITS <? length (c :: ds')) eqn:E; [discriminate|]. injection H as <-.
    apply Nat.ltb_ge in E. exact (proj1 (int_ok_digits _ Hd Hne E)).
Qed.

Lemma match_constant_wf rest v r : match_constant CONSTANTS rest = Some (v, r) -> json_wf v = true.
Proof.
  unfold CONSTANTS. cbn [match_constant]. intros H.
  repeat (destruct (strip_prefix _ rest); [injection H as <- _; reflexivity|]). discriminate.
Qed.

Section Decoded.
Context `{RT : JsonRuntime}.
(** [float(numstr)] of a literal is a 64-bit pattern and never a NaN. *)
Hypothesis py_float_ok : forall s, float_ok (py_float s) = true.

Lemma scan_atom_wf doc rest v r : scan_atom doc rest = inr (v, r) -> json_wf v = true.
Proof.
  unfold scan_atom. destruct (match_constant CONSTANTS rest) as [[v' r']|] eqn:E.
  - intros H. injection H as <- _. exact (match_constant_wf _ _ _ E).
  - unfold scan_number. destruct (match_int rest) as [[ip r1]|] eqn:E1; [|discriminate].
    destruct (match_frac r1) as [fr r2]. destruct (match_exp r2) as [ex r3].
    destruct fr, ex; try (intros H; injection H as <- _; apply py_float_ok).
    destruct (int_from_string ip) eqn:Ei; [discriminate|]. intros H. injection H as <- _.
    destruct (match_int_digits _ _ _ E1) as (neg & ds & -> & Hne & Hd).
    exact (int_from_string_wf neg ds _ Hd Hne Ei).
Qed.

Lemma scanners_wf f :
  (forall doc rest v r, scan_once f doc rest = Some (inr (v, r)) -> json_wf v = true) /\
  (forall doc rest acc v r, keys_distinct (map fst acc) = true -> forallb (fun kv => json_wf (snd kv)) acc = true ->
                            object_members f doc rest acc = Some (inr (v, r)) -> json_wf v = true) /\
  (forall doc rest acc v r, forallb json_wf acc = true ->
                            array_items f doc rest acc = Some (inr (v, r)) -> json_wf v = true).
Proof.
  induction f as [|f [IHs [IHo IHa]]]; [repeat split; discriminate|].
  repeat split.
  - intros doc [|c r0] v r H; simpl in H; [discriminate|].
    repeat (case_hyp H; try discriminate); try (injection H as <- _; reflexivity).
    + eapply IHo in H; [exact H | reflexivity | reflexivity].
    + eapply IHa in H; [exact H | reflexivity].
    + injection H as H. exact (scan_atom_wf _ _ _ _ H).
  - intros doc rest acc v r Hk Ha H; simpl in H.
    repeat (case_hyp H; try discriminate).
    all: destruct (dict_set_wf acc l j Hk Ha (IHs _ _ _ _ E3)) as [Hk' Ha'].
    + injection H as <- _. simpl. rewrite Hk', Ha'. reflexivity.
    + exact (IHo _ _ _ _ _ Hk' Ha' H).
  - intros doc rest acc v r Ha H; simpl in H.
    repeat (case_hyp H; try discriminate).
    all: assert (Ha' : forallb json_wf (acc ++ [j]) = true)
           by (rewrite forallb_app, Ha; simpl; rewrite (IHs _ _ _ _ E); reflexivity).
    + injection H as <- _. exact Ha'.
    + exact (IHa _ _ _ _ _ Ha' H).
Qed.

End Decoded.

(** ** The example runtime satisfies the float laws *)

Lemma decimal_repr_literal b : float_literal (@py_float_repr decimal_runtime b) = true.
Proof.
  cbn [py_float_repr decimal_runtime]. pose proof (str_of_N_decimal (Z.to_N b)) as Hd.
  pose proof (str_of_N_nonempty (Z.to_N b)) as Hne.
  destruct (str_of_N (Z.to_N b)) as [|c ds]; [contradiction|]. inversion Hd as [|? ? Hc Hds]; subst.
  unfold float_literal. cbn. rewrite Hc. rewrite <- (app_nil_r ds) at 1.
  rewrite span_decimal_app by (assumption || exact I). reflexivity.
Qed.

Lemma decimal_repr_roundtrip b :
  float_ok b = true -> special_float b = false -> @py_float decimal_runtime (@py_float_repr decimal_runtime b) = b.
Proof.
  unfold float_ok, special_float. intros Hok Hs.
  apply andb_prop in Hok as [Hok _]. apply andb_prop in Hok as [H0 H64].
  apply Z.leb_le in H0. apply Z.ltb_lt in H64.
  apply orb_false_iff in Hs as [Hs _]. apply orb_false_iff in Hs as [Hnan _].
  cbn [py_float py_float_repr decimal_runtime].
  change (skipn 2 (lit "0." ++ str_of_N (Z.to_N b))) with (str_of_N (Z.to_N b)).
  rewrite Z_of_digits_str_of_N, Z2N.id by lia.
  rewrite Z.mod_small by lia. rewrite Hnan. reflexivity.
Qed.

Lemma decimal_float_ok s : float_ok (@py_float decimal_runtime s) = true.
Proof.
  cbn [py_float decimal_runtime]. set (z := (Z_of_digits (skipn 2 s) mod 2 ^ 64)%Z).
  destruct (is_nan_bits z) eqn:E; [reflexivity|]. unfold float_ok. rewrite E.
  pose proof (Z.mod_pos_bound (Z_of_digits (skipn 2 s)) (2 ^ 64) ltac:(lia)).
  apply andb_true_intro; split; [apply andb_true_intro; split; [apply Z.leb_le | apply Z.ltb_lt]; unfold z; lia|].
  reflexivity.
Qed.

Section Persistence.
Context `{RT : JsonRuntime}.
Hypothesis repr_literal :
  forall b, float_ok b = true -> special_float b = false -> float_literal (py_float_repr b) = true.
Hypothesis repr_roundtrip :
  forall b, float_ok b = true -> special_float b = false -> py_float (py_float_repr b) = b.
Hypothesis py_float_ok : forall s, float_ok (py_float s) = true.

Lemma loads_result_wf doc v : loads doc = inr v -> json_wf v = true.
Proof.
  unfold loads. destruct (loads_with _ doc) as [res|] eqn:E; [|discriminate]. intros ->.
  unfold loads_with in E. destruct (scan_once _ doc (skip_ws doc)) as [[e|[v' r]]|] eqn:Es; try discriminate.
  injection E as E. destruct (skip_ws r); [|discriminate]. injection E as <-.
  exact (proj1 (scanners_wf py_float_ok _) _ _ _ _ Es).
Qed.

(** C7: what the service writes to the output file is read back by
    [json.loads] as the value it decoded from the model's reply: for
    every reply [doc] that [json.loads] accepts, [json.dump] with
    [indent=2] succeeds, and loading its text gives the same value
    (keys, order, numbers and strings unchanged). *)
Theorem loads_dump_roundtrip n doc v :
  loads doc = inr v -> exists t, json_dump_text n v = inr t /\ loads t = inr v.
Proof. intros H. apply dump_text_loads; auto. exact (loads_result_wf doc v H). Qed.

End Persistence.

Lemma loads_dump_roundtrip_witness :
  @loads decimal_runtime (jlit "{'a': [1, 2.5, null, 'x\ty']}")
    = inr (JObj [(lit "a", JArr [JInt 1; JFloat 5; JNull; JStr (lit "x" ++ ["009"%char] ++ lit "y")])]) /\
  exists t, @json_dump_text decimal_runtime 2 (JObj [(lit "a", JArr [JInt 1; JFloat 5; JNull;
                                                                     JStr (lit "x" ++ ["009"%char] ++ lit "y")])])
            = inr t /\
    @loads decimal_runtime t = inr (JObj [(lit "a", JArr [JInt 1; JFloat 5; JNull;
                                                          JStr (lit "x" ++ ["009"%char] ++ lit "y")])]).
Proof.
  split; [vm_compute; reflexivity|].
  apply (@loads_dump_roundtrip decimal_runtime (fun b _ _ => decimal_repr_literal b) decimal_repr_roundtrip
           decimal_float_ok 2 (jlit "{'a': [1, 2.5, null, 'x\ty']}")).
  vm_compute. reflexivity.
Defined.

(** [json.loads] is not a strict JSON parser: it accepts the
    non-standard constants [NaN], [Infinity] and [-Infinity] as floats,
    and [json.dump] (whose [allow_nan] is left at [True]) writes them back
    as the same bare words, so the saved file is not RFC 8259 JSON. *)
Example loads_accepts_nonstandard_constants :
  @loads decimal_runtime (lit "[NaN, -Infinity]") = inr (JArr [JFloat NAN_BITS; JFloat NEG_INF_BITS]) /\
  @json_dump_text decimal_runtime 2 (JArr [JFloat NAN_BITS; JFloat NEG_INF_BITS])
    = inr (lit "[" ++ ["010"%char] ++ lit "  NaN," ++ ["010"%char] ++ lit "  -Infinity" ++ ["010"%char] ++ lit "]").
Proof. split; vm_compute; reflexivity. Qed.
