(* ===== verification/JsonGrammar.v ===== *)
(** * Which texts [json.loads] accepts

    The specification asks for the model's reply to be parsed "strictly
    as JSON".  This file states the JSON grammar of RFC 8259 as inductive
    predicates on texts, with the two ways CPython's decoder departs from
    it written out: the names [NaN], [Infinity] and [-Infinity] are
    values ([jv_nonfinite]), and an integer without fraction or exponent
    has at most 4300 digits ([jnumber]).  [loads_accepts_json_text]
    shows that [json.loads] of [JsonDecode] succeeds on a text exactly
    when the text is in this grammar.

    The grammar follows the RFC's rules: [ws] is [wsp]; [number] is
    [jnumber] ([minus_part], [int_part], [frac_part], [exp_part]); the
    characters of a [string] are [str_body] (an unescaped character is
    any character above U+001F but the quote and the backslash, an
    escape is one of the eight short ones or [\u] with four hex digits);
    [value], [array] and [object] are [jvalue], with the elements of a
    non-empty array and the members of a non-empty object, up to the
    closing bracket, as [jelems] and [jmembers]. *)

From Stdlib Require Import String Ascii List Lia Bool PeanoNat ZArith.
From S2P Require Import Prelude PyStr Effects PyJson JsonDecode JsonEncode.
Import ListNotations.

(** ** The grammar *)

Definition wsp (w : pystr) : Prop := forallb is_ws w = true.

Definition digits1 (ds : pystr) : Prop := ds <> [] /\ Forall (fun c => is_decimal c = true) ds.

Inductive minus_part : pystr -> Prop :=
| mp_none : minus_part []
| mp_minus : minus_part ["-"%char].

(** [int = zero / ( digit1-9 *DIGIT )] *)
Inductive int_part : pystr -> Prop :=
| ip_zero : int_part ["0"%char]
| ip_digits c ds : in_range 49 57 c = true -> Forall (fun c => is_decimal c = true) ds -> int_part (c :: ds).

(** [frac = decimal-point 1*DIGIT] *)
Inductive frac_part : pystr -> Prop :=
| fr_none : frac_part []
| fr_some ds : digits1 ds -> frac_part ("."%char :: ds).

(** [exp = e [ minus / plus ] 1*DIGIT] *)
Inductive exp_part : pystr -> Prop :=
| ex_none : exp_part []
| ex_some e sg ds :
    In e ["e"; "E"]%char -> In sg [[]; ["+"]; ["-"]]%char -> digits1 ds -> exp_part (e :: sg ++ ds).

(** [number = [ minus ] int [ frac ] [ exp ]], an integer being limited to
    4300 digits. *)
Definition jnumber (t : pystr) : Prop :=
  exists m i f e, t = m ++ i ++ f ++ e /\ minus_part m /\ int_part i /\ frac_part f /\ exp_part e /\
    (f = [] -> e = [] -> length i <= INT_MAX_STR_DIGITS).

(** Characters a number's parts cannot start with. *)
Definition not_digit_head (r : pystr) : Prop := match r with c :: _ => is_decimal c = false | [] => True end.

(** [HEXDIG], either case. *)
Definition is_hex (c : ascii) : bool := in_range 48 57 c || in_range 97 102 c || in_range 65 70 c.

(** The characters between the quotes of a [string]. *)
Inductive str_body : pystr -> Prop :=
| sb_nil : str_body []
| sb_char c b : 31 < code c -> c <> DQ -> c <> BSL -> str_body b -> str_body (c :: b)
| sb_escape e b : In e [DQ; BSL; "/"; "b"; "f"; "n"; "r"; "t"]%char -> str_body b -> str_body (BSL :: e :: b)
| sb_unicode h1 h2 h3 h4 b :
    forallb is_hex [h1; h2; h3; h4] = true -> str_body b -> str_body (BSL :: "u"%char :: h1 :: h2 :: h3 :: h4 :: b).

Inductive jvalue : pystr -> Prop :=
| jv_name w : In w ["null"; "true"; "false"]%string -> jvalue (lit w)
| jv_nonfinite w : In w ["NaN"; "Infinity"; "-Infinity"]%string -> jvalue (lit w)
| jv_number t : jnumber t -> jvalue t
| jv_string b : str_body b -> jvalue (DQ :: b ++ [DQ])
| jv_array_empty w : wsp w -> jvalue ("[" :: w ++ ["]"])%char
| jv_array w t : wsp w -> jelems t -> jvalue ("[" :: w ++ t)%char
| jv_object_empty w : wsp w -> jvalue ("{" :: w ++ ["}"])%char
| jv_object w t : wsp w -> jmembers t -> jvalue ("{" :: w ++ t)%char
with jelems : pystr -> Prop :=
| je_last t w : jvalue t -> wsp w -> jelems (t ++ w ++ ["]"%char])
| je_cons t w1 w2 rest : jvalue t -> wsp w1 -> wsp w2 -> jelems rest -> jelems (t ++ w1 ++ "," :: w2 ++ rest)%char
with jmembers : pystr -> Prop :=
| jm_last b w1 w2 t w3 :
    str_body b -> wsp w1 -> wsp w2 -> jvalue t -> wsp w3 ->
    jmembers (DQ :: b ++ DQ :: w1 ++ ":" :: w2 ++ t ++ w3 ++ ["}"])%char
| jm_cons b w1 w2 t w3 w4 rest :
    str_body b -> wsp w1 -> wsp w2 -> jvalue t -> wsp w3 -> wsp w4 -> jmembers rest ->
    jmembers (DQ :: b ++ DQ :: w1 ++ ":" :: w2 ++ t ++ w3 ++ "," :: w4 ++ rest)%char.

(** [JSON-text = ws value ws] *)
Definition json_text (doc : pystr) : Prop :=
  exists w1 t w2, doc = w1 ++ t ++ w2 /\ wsp w1 /\ jvalue t /\ wsp w2.

Scheme jvalue_mut := Induction for jvalue Sort Prop
with jelems_mut := Induction for jelems Sort Prop
with jmembers_mut := Induction for jmembers Sort Prop.
Combined Scheme grammar_mut from jvalue_mut, jelems_mut, jmembers_mut.

(** ** What the scanners read is in the grammar *)

Lemma skip_ws_split s : exists w, wsp w /\ s = w ++ skip_ws s.
Proof.
  induction s as [|c s IH]; [exists []; split; reflexivity|]. simpl.
  destruct (is_ws c) eqn:E; [|exists []; split; reflexivity].
  destruct IH as [w [Hw Hs]]. exists (c :: w). split; [unfold wsp; simpl; rewrite E; exact Hw|].
  simpl. f_equal. exact Hs.
Qed.

Lemma wsp_nil : wsp [].
Proof. reflexivity. Qed.

Lemma eqb_false_neq a b : Ascii.eqb a b = false -> a <> b.
Proof. intros H ->. rewrite Ascii.eqb_refl in H. discriminate. Qed.

Lemma control_false c : (code c <=? 31) = false -> 31 < code c.
Proof. intros H. apply Nat.leb_gt, H. Qed.

Lemma simple_escape_in e ch : simple_escape e = Some ch -> In e [DQ; BSL; "/"; "b"; "f"; "n"; "r"; "t"]%char.
Proof.
  unfold simple_escape.
  repeat match goal with
         | |- context [Ascii.eqb e ?x] => destruct (Ascii.eqb_spec e x) as [->|_]; [intros _; simpl; tauto|]
         end.
  discriminate.
Qed.

Lemma hex_val_is_hex c x : hex_val c = Some x -> is_hex c = true.
Proof.
  unfold hex_val, is_hex. destruct (in_range 48 57 c); [reflexivity|].
  destruct (in_range 97 102 c); [reflexivity|]. destruct (in_range 65 70 c); [reflexivity | discriminate].
Qed.

Lemma hex4_hex a b c d u : hex4 a b c d = Some u -> forallb is_hex [a; b; c; d] = true.
Proof.
  unfold hex4. destruct (hex_val a) eqn:Ea, (hex_val b) eqn:Eb, (hex_val c) eqn:Ec, (hex_val d) eqn:Ed;
    try discriminate. intros _. simpl. erewrite !hex_val_is_hex by eassumption. reflexivity.
Qed.

Create HintDb jgrammar.
#[local] Hint Resolve eqb_false_neq control_false simple_escape_in hex4_hex wsp_nil : jgrammar.

(** The body of a string, read off a list ending at [tail]. *)
Ltac prefix_of L tail :=
  lazymatch L with
  | tail => constr:(@nil ascii)
  | ?x :: ?L' => let p := prefix_of L' tail in constr:(x :: p)
  end.

Ltac app_norm := repeat (progress (cbn [app]; rewrite <- ?app_assoc)); reflexivity.

Ltac str_body_tac :=
  repeat lazymatch goal with
         | |- str_body (BSL :: "u"%char :: _) => apply sb_unicode; [eauto with jgrammar|]
         | |- str_body (BSL :: _) => apply sb_escape; [eauto with jgrammar|]
         | |- str_body (_ :: _) => apply sb_char; [eauto with jgrammar..|]
         end.

Section Sound.
Context `{RT : JsonRuntime}.

Lemma scan_string_sound doc start rest s r :
  scan_string doc start rest = inr (s, r) -> exists b, rest = b ++ DQ :: r /\ str_body b.
Proof.
  revert s r. induction rest as [rest IH] using list_length_ind. intros s r H.
  destruct rest as [|c r0]; simpl in H; [discriminate|].
  repeat case_hyp H; try discriminate; bool_hyps;
    repeat match goal with E : Ascii.eqb _ _ = true |- _ => apply Ascii.eqb_eq in E; subst end;
    first
      [ injection H as <- <-; exists []; split; [reflexivity | constructor]
      | apply prepend_inr in H as [y H]; apply IH in H as (b' & Hr & Hb'); [|simpl; lia];
        rewrite Hr;
        match goal with
        | |- exists b, ?L = b ++ DQ :: ?r /\ _ => let p := prefix_of L (b' ++ DQ :: r) in exists (p ++ b')
        end;
        split; [reflexivity | simpl; str_body_tac; exact Hb'] ].
Qed.

Lemma match_int_shape s ip r :
  match_int s = Some (ip, r) -> exists m i, ip = m ++ i /\ minus_part m /\ int_part i.
Proof.
  pose proof span_decimal_fst as Hs. unfold match_int. destruct s as [|c s]; [discriminate|]. intros H.
  destruct (Ascii.eqb_spec c "-") as [->|Hc].
  - destruct s as [|d s]; [discriminate|]. change (Ascii.eqb "-" "-") with true in H. cbv iota beta in H.
    exists ["-"%char]. destruct (Ascii.eqb_spec d "0") as [->|Hd].
    + injection H as <- _. exists ["0"%char]. repeat split; constructor.
    + destruct (in_range 49 57 d) eqn:Er; [|discriminate]. specialize (Hs s).
      destruct (span_decimal s) as [a b]. injection H as <- _. exists (d :: a).
      repeat split; [constructor | constructor; assumption].
  - cbv iota beta in H. exists []. destruct (Ascii.eqb_spec c "0") as [->|Hd].
    + injection H as <- _. exists ["0"%char]. repeat split; constructor.
    + destruct (in_range 49 57 c) eqn:Er; [|discriminate]. specialize (Hs s).
      destruct (span_decimal s) as [a b]. injection H as <- _. exists (c :: a).
      repeat split; [constructor | constructor; assumption].
Qed.

Lemma match_frac_shape s fr r : match_frac s = (fr, r) -> frac_part fr.
Proof.
  pose proof span_decimal_fst as Hs. unfold match_frac. intros H.
  destruct s as [|c [|d s]]; try (injection H as <- _; constructor).
  destruct (Ascii.eqb c "." && is_decimal d) eqn:E; [|injection H as <- _; constructor].
  bool_hyps. apply Ascii.eqb_eq in H0. subst. specialize (Hs s).
  destruct (span_decimal s) as [a b]. injection H as <- _.
  constructor. split; [discriminate | constructor; assumption].
Qed.

Lemma match_exp_shape s ex r : match_exp s = (ex, r) -> exp_part ex.
Proof.
  pose proof span_decimal_fst as Hs. unfold match_exp. intros H.
  destruct s as [|e s]; [injection H as <- _; constructor|].
  destruct (Ascii.eqb e "e" || Ascii.eqb e "E") eqn:E; [|injection H as <- _; constructor].
  assert (He : In e ["e"; "E"]%char).
  { apply orb_true_iff in E as [E|E]; apply Ascii.eqb_eq in E; subst; simpl; tauto. }
  destruct (match s with
            | [] => ([], [])
            | c :: r' => if Ascii.eqb c "-" || Ascii.eqb c "+" then ([c], r') else ([], s)
            end) as [sg r1] eqn:Esg.
  assert (Hsg : In sg [[]; ["+"]; ["-"]]%char).
  { destruct s as [|c s']; [injection Esg as <- _; simpl; tauto|].
    destruct (Ascii.eqb c "-" || Ascii.eqb c "+") eqn:Ec; injection Esg as <- _; [|simpl; tauto].
    apply orb_true_iff in Ec as [Ec|Ec]; apply Ascii.eqb_eq in Ec; subst; simpl; tauto. }
  specialize (Hs r1). destruct (span_decimal r1) as [[|d ds] r2]; injection H as <- _; [constructor|].
  constructor; [exact He | exact Hsg | split; [discriminate | exact Hs]].
Qed.

Lemma int_part_not_minus i : int_part i -> exists c i', i = c :: i' /\ Ascii.eqb c "-" = false.
Proof.
  intros [|c ds Hc _]; eexists _, _; split; try reflexivity.
  destruct (in_range_digit_not_sign c Hc). assumption.
Qed.

Lemma int_from_string_length m i z :
  minus_part m -> int_part i -> int_from_string (m ++ i) = inr z -> length i <= INT_MAX_STR_DIGITS.
Proof.
  intros Hm Hi H. unfold int_from_string in H.
  assert (Hsplit : (match m ++ i with
                    | c :: r => if Ascii.eqb c "-" then (true, r) else (false, m ++ i)
                    | [] => (false, [])
                    end) = (match m with [] => false | _ => true end, i)).
  { destruct (int_part_not_minus i Hi) as (c & i' & -> & Hc).
    destruct Hm; simpl; [rewrite Hc | ]; reflexivity. }
  rewrite Hsplit in H. destruct (INT_MAX_STR_DIGITS <? length i) eqn:E; [discriminate|].
  apply Nat.ltb_ge in E. exact E.
Qed.

Lemma scan_number_sound doc rest v r :
  scan_number doc rest = inr (v, r) -> exists t, rest = t ++ r /\ jnumber t.
Proof.
  unfold scan_number. intros H.
  destruct (match_int rest) as [[ip r1]|] eqn:E1; [|discriminate].
  destruct (match_frac r1) as [fr r2] eqn:E2. destruct (match_exp r2) as [ex r3] eqn:E3.
  destruct (match_int_shape _ _ _ E1) as (m & i & -> & Hm & Hi).
  pose proof (match_frac_shape _ _ _ E2) as Hf. pose proof (match_exp_shape _ _ _ E3) as He.
  apply match_int_split in E1. apply match_frac_split in E2. apply match_exp_split in E3.
  assert (Hr : r3 = r /\ (fr = [] -> ex = [] -> length i <= INT_MAX_STR_DIGITS)).
  { destruct fr, ex; try (injection H as _ <-; split; [reflexivity | discriminate]).
    destruct (int_from_string (m ++ i)) eqn:Ez; [discriminate|]. injection H as _ <-.
    split; [reflexivity|]. intros _ _. exact (int_from_string_length _ _ _ Hm Hi Ez). }
  destruct Hr as [<- Hlen]. exists (m ++ i ++ fr ++ ex). split.
  - subst. rewrite <- !app_assoc. reflexivity.
  - exists m, i, fr, ex. repeat split; assumption.
Qed.

Lemma strip_prefix_some p l r : strip_prefix p l = Some r -> l = p ++ r.
Proof.
  revert l. induction p as [|c p IH]; intros [|d l] H; simpl in H; try discriminate; [injection H as <-; reflexivity..|].
  destruct (Ascii.eqb_spec c d) as [->|]; [|discriminate]. simpl. f_equal. apply IH, H.
Qed.

Lemma match_constant_sound rest v r :
  match_constant CONSTANTS rest = Some (v, r) -> exists t, rest = t ++ r /\ jvalue t.
Proof.
  unfold CONSTANTS. cbn [match_constant].
  repeat match goal with
         | |- context [strip_prefix (lit ?w) rest] =>
             let E := fresh "E" in
             destruct (strip_prefix (lit w) rest) eqn:E;
               [intros [= _ <-]; exists (lit w); split; [exact (strip_prefix_some _ _ _ E) |];
                first [apply jv_name; simpl; tauto | apply jv_nonfinite; simpl; tauto]|]
         end.
  discriminate.
Qed.

Lemma scan_atom_sound doc rest v r :
  scan_atom doc rest = inr (v, r) -> exists t, rest = t ++ r /\ jvalue t.
Proof.
  unfold scan_atom. destruct (match_constant CONSTANTS rest) as [[v' r']|] eqn:E.
  - intros [= _ <-]. exact (match_constant_sound _ _ _ E).
  - intros H. destruct (scan_number_sound _ _ _ _ H) as (t & -> & Ht). exists t. split; [reflexivity|].
    apply jv_number, Ht.
Qed.

Lemma scanners_sound f :
  (forall doc rest v r, scan_once f doc rest = Some (inr (v, r)) -> exists t, rest = t ++ r /\ jvalue t) /\
  (forall doc rest acc v r, object_members f doc rest acc = Some (inr (v, r)) -> exists t, rest = t ++ r /\ jmembers t) /\
  (forall doc rest acc v r, array_items f doc rest acc = Some (inr (v, r)) -> exists t, rest = t ++ r /\ jelems t).
Proof.
  induction f as [|f [IHs [IHo IHa]]]; [repeat split; discriminate|]. repeat split.
  - intros doc [|c r0] v r H; simpl in H; [discriminate|].
    destruct (Ascii.eqb_spec c DQ) as [->|_].
    { destruct (scan_string doc (DQ :: r0) r0) as [e|[s r1]] eqn:Es; [discriminate|]. injection H as _ <-.
      destruct (scan_string_sound _ _ _ _ _ Es) as (b & -> & Hb).
      exists (DQ :: b ++ [DQ]). split; [app_norm | apply jv_string, Hb]. }
    destruct (Ascii.eqb_spec c "{") as [->|_].
    { destruct (skip_ws_split r0) as (w & Hw & Hr0).
      destruct (first_is "}" (skip_ws r0)) eqn:Ef.
      - destruct (skip_ws r0) as [|d r1] eqn:Ew; [discriminate|]. simpl in Ef.
        apply Ascii.eqb_eq in Ef. subst d. injection H as _ <-. exists ("{" :: w ++ ["}"])%char. split; [rewrite Hr0; app_norm | apply jv_object_empty, Hw].
      - apply IHo in H as (t & Ht & Hm). exists ("{" :: w ++ t)%char.
        split; [rewrite Hr0, Ht; app_norm | apply jv_object; assumption]. }
    destruct (Ascii.eqb_spec c "[") as [->|_].
    { destruct (skip_ws_split r0) as (w & Hw & Hr0).
      destruct (first_is "]" (skip_ws r0)) eqn:Ef.
      - destruct (skip_ws r0) as [|d r1] eqn:Ew; [discriminate|]. simpl in Ef.
        apply Ascii.eqb_eq in Ef. subst d. injection H as _ <-. exists ("[" :: w ++ ["]"])%char. split; [rewrite Hr0; app_norm | apply jv_array_empty, Hw].
      - apply IHa in H as (t & Ht & He). exists ("[" :: w ++ t)%char.
        split; [rewrite Hr0, Ht; app_norm | apply jv_array; assumption]. }
    injection H as H. exact (scan_atom_sound _ _ _ _ H).
  - intros doc [|q rest1] acc v r H; simpl in H; [discriminate|].
    destruct (Ascii.eqb_spec q DQ) as [->|_]; [|discriminate]. cbn [negb tl] in H.
    destruct (scan_string doc (DQ :: rest1) rest1) as [e|[key r1]] eqn:Es; [discriminate|].
    destruct (scan_string_sound _ _ _ _ _ Es) as (b & -> & Hb).
    destruct (skip_ws_split r1) as (w1 & Hw1 & Hr1).
    destruct (skip_ws r1) as [|d1 r1'] eqn:Ew1; [discriminate|]. simpl in H.
    destruct (Ascii.eqb_spec d1 ":") as [->|_]; [|discriminate]. cbn [negb tl] in H.
    destruct (skip_ws_split r1') as (w2 & Hw2 & Hr1').
    destruct (scan_once f doc (skip_ws r1')) as [[e|[v1 r2]]|] eqn:Ev; try discriminate.
    destruct (IHs _ _ _ _ Ev) as (t & Ht & Hv). rewrite Ht in Hr1'.
    destruct (skip_ws_split r2) as (w3 & Hw3 & Hr2).
    destruct (skip_ws r2) as [|d2 r3] eqn:Ew2; [discriminate|]. simpl in H.
    destruct (Ascii.eqb_spec d2 "}") as [->|_].
    + injection H as _ <-. exists (DQ :: b ++ DQ :: w1 ++ ":" :: w2 ++ t ++ w3 ++ ["}"])%char.
      split; [rewrite Hr1, Hr1', Hr2; app_norm | apply jm_last; assumption].
    + destruct (Ascii.eqb_spec d2 ",") as [->|_]; [|discriminate]. cbn [tl] in H.
      destruct (skip_ws_split r3) as (w4 & Hw4 & Hr3).
      apply IHo in H as (t' & Ht' & Hm). rewrite Ht' in Hr3.
      exists (DQ :: b ++ DQ :: w1 ++ ":" :: w2 ++ t ++ w3 ++ "," :: w4 ++ t')%char.
      split; [rewrite Hr1, Hr1', Hr2, Hr3; app_norm | apply jm_cons; assumption].
  - intros doc rest acc v r H; simpl in H.
    destruct (scan_once f doc rest) as [[e|[v1 r1]]|] eqn:Ev; try discriminate.
    destruct (IHs _ _ _ _ Ev) as (t & -> & Hv).
    destruct (skip_ws_split r1) as (w1 & Hw1 & Hr1).
    destruct (skip_ws r1) as [|d r2] eqn:Ew; [discriminate|]. simpl in H.
    destruct (Ascii.eqb_spec d "]") as [->|_].
    + injection H as _ <-. exists (t ++ w1 ++ ["]"])%char. split; [rewrite Hr1; app_norm | apply je_last; assumption].
    + destruct (Ascii.eqb_spec d ",") as [->|_]; [|discriminate]. cbn [tl] in H.
      destruct (skip_ws_split r2) as (w2 & Hw2 & Hr2).
      apply IHa in H as (t' & Ht' & He). rewrite Ht' in Hr2.
      exists (t ++ w1 ++ "," :: w2 ++ t')%char. split; [rewrite Hr1, Hr2; app_norm | apply je_cons; assumption].
Qed.

End Sound.

(** ** The scanners read every text of the grammar *)

Lemma simple_escape_complete e : In e [DQ; BSL; "/"; "b"; "f"; "n"; "r"; "t"]%char -> exists ch, simple_escape e = Some ch.
Proof. intros H. repeat destruct H as [<-|H]; try contradiction; eexists; reflexivity. Qed.

Lemma hex_val_complete c : is_hex c = true -> exists x, hex_val c = Some x.
Proof.
  unfold is_hex, hex_val. destruct (in_range 48 57 c); [eauto|].
  destruct (in_range 97 102 c); [eauto|]. destruct (in_range 65 70 c); [eauto | discriminate].
Qed.

Lemma hex4_complete a b c d : forallb is_hex [a; b; c; d] = true -> exists u, hex4 a b c d = Some u.
Proof.
  simpl. rewrite andb_true_r. intros H. bool_hyps.
  destruct (hex_val_complete a) as [w Hw]; [assumption|]. destruct (hex_val_complete b) as [x Hx]; [assumption|].
  destruct (hex_val_complete c) as [y Hy]; [assumption|]. destruct (hex_val_complete d) as [z Hz]; [assumption|].
  unfold hex4. rewrite Hw, Hx, Hy, Hz. eauto.
Qed.

(** A body that does not open with a [\u] escape. *)
Lemma str_body_head b :
  str_body b ->
  (exists g1 g2 g3 g4 b', b = BSL :: "u"%char :: g1 :: g2 :: g3 :: g4 :: b' /\
                          forallb is_hex [g1; g2; g3; g4] = true /\ str_body b') \/
  (forall Y r, b ++ DQ :: r <> BSL :: "u"%char :: Y).
Proof.
  intros Hb. destruct Hb as [|c b Hc Hq Hs Hb|e b He Hb|g1 g2 g3 g4 b Hg Hb].
  - right. intros Y r [=].
  - right. intros Y r [= -> _]. exact (Hs eq_refl).
  - right. intros Y r [= ->]. repeat destruct He as [He|He]; try discriminate He; contradiction.
  - left. exists g1, g2, g3, g4, b. auto.
Qed.

Section Complete.
Context `{RT : JsonRuntime}.

Lemma scan_unicode doc start h1 h2 h3 h4 u X :
  hex4 h1 h2 h3 h4 = Some u -> is_high_surrogate u = false -> X <> [] ->
  scan_string doc start (BSL :: "u"%char :: h1 :: h2 :: h3 :: h4 :: X)
  = prepend (py_chr u) (scan_string doc start X).
Proof. intros Hu Hh HX. destruct X as [|x X]; [contradiction|]. simpl. rewrite Hu, Hh. reflexivity. Qed.

Lemma scan_high_alone doc start h1 h2 h3 h4 u X :
  hex4 h1 h2 h3 h4 = Some u -> X <> [] -> (forall Y, X <> BSL :: "u"%char :: Y) ->
  scan_string doc start (BSL :: "u"%char :: h1 :: h2 :: h3 :: h4 :: X)
  = prepend (py_chr u) (scan_string doc start X).
Proof.
  intros Hu HX Hn. destruct X as [|x0 X]; [contradiction|]. simpl. rewrite Hu.
  destruct (is_high_surrogate u); [|reflexivity].
  destruct X as [|x1 [|x2 [|x3 [|x4 [|x5 [|x6 X]]]]]]; try reflexivity.
  destruct (Ascii.eqb_spec x0 BSL) as [->|]; [|reflexivity].
  destruct (Ascii.eqb_spec x1 "u") as [->|]; [|reflexivity]. exfalso. eapply Hn. reflexivity.
Qed.

Lemma scan_pair doc start h1 h2 h3 h4 g1 g2 g3 g4 u u2 Y :
  hex4 h1 h2 h3 h4 = Some u -> is_high_surrogate u = true -> hex4 g1 g2 g3 g4 = Some u2 -> Y <> [] ->
  scan_string doc start (BSL :: "u"%char :: h1 :: h2 :: h3 :: h4 :: BSL :: "u"%char :: g1 :: g2 :: g3 :: g4 :: Y)
  = if is_low_surrogate u2
    then prepend (py_chr (join_surrogates u u2)) (scan_string doc start Y)
    else prepend (py_chr u) (scan_string doc start (BSL :: "u"%char :: g1 :: g2 :: g3 :: g4 :: Y)).
Proof. intros Hu Hh Hg HY. destruct Y as [|y Y]; [contradiction|]. simpl. rewrite Hu, Hh, Hg. reflexivity. Qed.

Lemma neq_eqb_false a b : a <> b -> Ascii.eqb a b = false.
Proof. intros H. destruct (Ascii.eqb_spec a b); [contradiction | reflexivity]. Qed.

Lemma scan_string_complete doc start b r :
  str_body b -> exists s, scan_string doc start (b ++ DQ :: r) = inr (s, r).
Proof.
  induction b as [b IH] using list_length_ind. intros Hb.
  destruct Hb as [|c b Hc Hq Hs Hb|e b He Hb|h1 h2 h3 h4 b Hh Hb].
  - exists []. reflexivity.
  - destruct (IH b ltac:(simpl; lia) Hb) as [s Hs']. exists (c :: s). simpl.
    rewrite (neq_eqb_false _ _ Hq), (neq_eqb_false _ _ Hs), (proj2 (Nat.leb_gt _ _) Hc), Hs'. reflexivity.
  - destruct (IH b ltac:(simpl; lia) Hb) as [s Hs']. 
    repeat destruct He as [<-|He]; try contradiction; eexists; simpl; rewrite Hs'; reflexivity.
  - destruct (hex4_complete _ _ _ _ Hh) as [u Hu].
    assert (HX : forall l, l ++ DQ :: r <> []) by (intros l; destruct l; discriminate).
    destruct (is_high_surrogate u) eqn:Hhi.
    + destruct (str_body_head b Hb) as [(g1 & g2 & g3 & g4 & b' & -> & Hg & Hb')|Hn].
      * destruct (hex4_complete _ _ _ _ Hg) as [u2 Hu2]. cbn [app].
        rewrite (scan_pair doc start _ _ _ _ _ _ _ _ u u2 _ Hu Hhi Hu2 (HX b')).
        destruct (is_low_surrogate u2).
        -- destruct (IH b' ltac:(simpl; lia) Hb') as [s Hs']. rewrite Hs'. eexists; reflexivity.
        -- destruct (IH (BSL :: "u" :: g1 :: g2 :: g3 :: g4 :: b')%char ltac:(simpl; lia) Hb) as [s Hs'].
           cbn [app] in Hs'. rewrite Hs'. eexists; reflexivity.
      * cbn [app]. rewrite (scan_high_alone doc start _ _ _ _ u _ Hu (HX b) (fun Y => Hn Y r)).
        destruct (IH b ltac:(simpl; lia) Hb) as [s Hs']. rewrite Hs'. eexists; reflexivity.
    + cbn [app]. rewrite (scan_unicode doc start _ _ _ _ u _ Hu Hhi (HX b)).
      destruct (IH b ltac:(simpl; lia) Hb) as [s Hs']. rewrite Hs'. eexists; reflexivity.
Qed.

End Complete.


Lemma exp_part_head e : exp_part e -> not_digit_head e.
Proof. intros [|E sg ds HE _ _]; [exact I|]. repeat destruct HE as [<-|HE]; try contradiction; reflexivity. Qed.

Lemma frac_exp_head f e : frac_part f -> exp_part e -> not_digit_head (f ++ e).
Proof. intros [|ds _] He; [exact (exp_part_head e He) | reflexivity]. Qed.

Lemma is_decimal_not_plus c : is_decimal c = true -> Ascii.eqb c "+" = false.
Proof. intros H. destruct (Ascii.eqb_spec c "+"); [subst; discriminate | reflexivity]. Qed.

Lemma span_decimal_all ds : Forall (fun c => is_decimal c = true) ds -> span_decimal ds = (ds, []).
Proof. intros H. rewrite <- (app_nil_r ds) at 1. apply span_decimal_app; [exact H | exact I]. Qed.

Lemma match_int_grammar m i rest :
  minus_part m -> int_part i -> not_digit_head rest -> match_int (m ++ i ++ rest) = Some (m ++ i, rest).
Proof.
  intros Hm [|c ds Hc Hds] Hr; [destruct Hm; reflexivity|].
  destruct (in_range_digit_not_sign c Hc) as [H1 H2].
  destruct Hm; unfold match_int; cbn -[in_range span_decimal]; rewrite ?H1; cbn -[in_range span_decimal];
    rewrite H2, Hc, span_decimal_app by assumption; reflexivity.
Qed.

Lemma match_frac_grammar f e : frac_part f -> exp_part e -> match_frac (f ++ e) = (f, e).
Proof.
  intros [|ds [Hne Hds]] He.
  - destruct He as [|E sg ds HE _ _]; [reflexivity|].
    repeat destruct HE as [<-|HE]; try contradiction; simpl; destruct (sg ++ ds); reflexivity.
  - destruct ds as [|d ds]; [contradiction|]. inversion Hds as [|? ? Hd Hds']; subst.
    simpl. rewrite Hd. cbv iota beta. rewrite span_decimal_app by (exact Hds' || exact (exp_part_head e He)).
    reflexivity.
Qed.

Lemma match_exp_grammar e : exp_part e -> match_exp e = (e, []).
Proof.
  intros [|E sg ds HE Hsg [Hne Hds]]; [reflexivity|].
  destruct ds as [|d ds]; [contradiction|]. inversion Hds as [|? ? Hd Hds']; subst.
  pose proof (span_decimal_all ds Hds') as Hsp.
  repeat destruct HE as [<-|HE]; try contradiction; repeat destruct Hsg as [<-|Hsg]; try contradiction;
    simpl; rewrite ?(is_decimal_not_sign d Hd), ?(is_decimal_not_plus d Hd); simpl; rewrite Hd, Hsp;
    reflexivity.
Qed.

Lemma int_from_string_grammar m i :
  minus_part m -> int_part i -> length i <= INT_MAX_STR_DIGITS -> exists z, int_from_string (m ++ i) = inr z.
Proof.
  intros Hm Hi Hl. unfold int_from_string.
  assert (Hh : match i with c :: _ => Ascii.eqb c "-" = false | [] => False end)
    by (destruct Hi as [|c ds Hc _]; [reflexivity | apply (in_range_digit_not_sign c Hc)]).
  destruct i as [|c i]; [contradiction|].
  destruct Hm; cbn -[INT_MAX_STR_DIGITS length Nat.ltb]; rewrite ?Hh; cbn -[INT_MAX_STR_DIGITS length Nat.ltb];
    rewrite (proj2 (Nat.ltb_ge _ _) Hl); eexists; reflexivity.
Qed.

Lemma jnumber_match_int t : jnumber t -> exists ip r1, match_int t = Some (ip, r1).
Proof.
  intros (m & i & f & e & -> & Hm & Hi & Hf & He & _).
  rewrite (match_int_grammar m i (f ++ e) Hm Hi (frac_exp_head f e Hf He)). eauto.
Qed.

Section Numbers.
Context `{RT : JsonRuntime}.

Lemma scan_number_grammar doc t r :
  jnumber t -> number_stop r = true -> exists v, scan_number doc (t ++ r) = inr (v, r).
Proof.
  intros (m & i & f & e & -> & Hm & Hi & Hf & He & Hl) Hr. unfold scan_number.
  rewrite (match_int_stop _ _ _ _ (match_int_grammar m i (f ++ e) Hm Hi (frac_exp_head f e Hf He)) Hr).
  rewrite (match_frac_stop _ _ _ _ (match_frac_grammar f e Hf He) Hr).
  rewrite (match_exp_stop _ _ _ _ (match_exp_grammar e He) Hr), app_nil_l.
  destruct Hf as [|ds]; [destruct He as [|E sg ds]|]; try (eexists; reflexivity).
  destruct (int_from_string_grammar m i Hm Hi (Hl eq_refl eq_refl)) as [z ->]. eexists; reflexivity.
Qed.

Lemma scan_once_jnumber f doc t r :
  jnumber t -> number_stop r = true -> exists v, scan_once (S f) doc (t ++ r) = Some (inr (v, r)).
Proof.
  intros Ht Hr. destruct (jnumber_match_int t Ht) as (ip & r1 & Hm).
  destruct (scan_number_grammar doc t r Ht Hr) as [v Hv]. exists v.
  rewrite (scan_once_number f doc t ip r1 r Hm). unfold scan_atom.
  rewrite (match_constant_number t ip r1 r Hm), Hv. reflexivity.
Qed.

(** [json.loads] of a numeral: what [int()] makes of it. *)
Lemma loads_numeral c ds :
  in_range 49 57 c = true -> Forall (fun d => is_decimal d = true) ds ->
  loads (c :: ds) = match int_from_string (c :: ds) with inl e => inl e | inr z => inr (JInt z) end.
Proof.
  intros Hc Hds.
  pose proof (match_int_grammar [] (c :: ds) [] mp_none (ip_digits c ds Hc Hds) I) as Hm.
  rewrite !app_nil_r, app_nil_l in Hm.
  pose proof (scan_once_number (2 * length (c :: ds)) (c :: ds) _ _ _ [] Hm) as Es.
  pose proof (match_constant_number _ _ _ [] Hm) as Ec. rewrite app_nil_r in Es, Ec.
  destruct (decimal_char_facts c (digit_decimal c Hc)) as (_ & _ & _ & Hw & _).
  unfold loads, loads_with. rewrite Nat.add_1_r.
  replace (skip_ws (c :: ds)) with (c :: ds) by (simpl; rewrite Hw; reflexivity).
  rewrite Es. unfold scan_atom. rewrite Ec. unfold scan_number. rewrite Hm. simpl.
  destruct (int_from_string (c :: ds)); reflexivity.
Qed.

Lemma scan_once_constant f doc w r :
  In w ["null"; "true"; "false"; "NaN"; "Infinity"; "-Infinity"]%string ->
  exists v, scan_once (S f) doc (lit w ++ r) = Some (inr (v, r)).
Proof. intros Hw. repeat destruct Hw as [<-|Hw]; try contradiction; eexists; reflexivity. Qed.

End Numbers.

(** *** Where values start and numbers stop *)

Lemma value_start_app t X : value_start t = true -> value_start (t ++ X) = true.
Proof. destruct t; [discriminate | exact (fun H => H)]. Qed.

Lemma ws_head_stop a X : is_ws a = true -> number_stop (a :: X) = true.
Proof.
  unfold is_ws. intros H. repeat (apply orb_true_iff in H as [H|H]);
    apply Ascii.eqb_eq in H; subst; reflexivity.
Qed.

Lemma wsp_stop w : wsp w -> number_stop w = true.
Proof. destruct w as [|a w]; [reflexivity|]. intros H. apply andb_prop in H as [H _]. apply ws_head_stop, H. Qed.

Lemma wsp_delim_stop w c X : wsp w -> In c [","; "]"; "}"]%char -> number_stop (w ++ c :: X) = true.
Proof.
  destruct w as [|a w]; intros Hw Hc.
  - repeat destruct Hc as [<-|Hc]; try contradiction; reflexivity.
  - apply andb_prop in Hw as [Hw _]. apply ws_head_stop, Hw.
Qed.

Lemma grammar_value_start :
  (forall t, jvalue t -> value_start t = true) /\ (forall t, jelems t -> value_start t = true) /\
  (forall t, jmembers t -> value_start t = true).
Proof.
  apply (grammar_mut (fun t _ => value_start t = true) (fun t _ => value_start t = true) (fun t _ => value_start t = true));
    intros; try reflexivity; try (apply value_start_app; assumption).
  - repeat destruct i as [<-|i]; try contradiction; reflexivity.
  - repeat destruct i as [<-|i]; try contradiction; reflexivity.
  - destruct (jnumber_match_int t j) as (ip & r1 & E). exact (value_start_number t ip r1 E).
Qed.

Lemma skip_ws_grammar w t X : wsp w -> value_start t = true -> skip_ws (w ++ t ++ X) = t ++ X.
Proof. intros Hw Ht. rewrite skip_ws_app_ws by exact Hw. apply skip_ws_value_start, Ht. Qed.

Lemma skip_ws_delim w c X : wsp w -> is_ws c = false -> skip_ws (w ++ c :: X) = c :: X.
Proof. intros Hw Hc. rewrite skip_ws_app_ws by exact Hw. simpl. rewrite Hc. reflexivity. Qed.

Ltac app_simpl := repeat (progress (cbn [app]; rewrite <- ?app_assoc)).

Section Scanners.
Context `{RT : JsonRuntime}.

Lemma scan_once_open_array f doc X :
  scan_once (S f) doc ("[" :: X)%char
  = let w := skip_ws X in if first_is "]" w then Some (inr (JArr [], tl w)) else array_items f doc w [].
Proof. reflexivity. Qed.

Lemma scan_once_open_object f doc X :
  scan_once (S f) doc ("{" :: X)%char
  = let w := skip_ws X in if first_is "}" w then Some (inr (JObj [], tl w)) else object_members f doc w [].
Proof. reflexivity. Qed.

Lemma scan_once_open_string f doc X :
  scan_once (S f) doc (DQ :: X)
  = Some (match scan_string doc (DQ :: X) X with inl e => inl e | inr (s, r') => inr (JStr s, r') end).
Proof. reflexivity. Qed.

End Scanners.

(** Read past the whitespace before a delimiter or a value. *)
Ltac ws_step :=
  first [ rewrite skip_ws_delim by (assumption || reflexivity)
        | rewrite skip_ws_grammar by (assumption || eauto) ].

Section Completeness.
Context `{RT : JsonRuntime}.

Lemma scanners_complete :
  (forall t, jvalue t -> forall doc r, number_stop r = true ->
     exists v f, scan_once f doc (t ++ r) = Some (inr (v, r))) /\
  (forall t, jelems t -> forall doc r acc, exists v f, array_items f doc (t ++ r) acc = Some (inr (v, r))) /\
  (forall t, jmembers t -> forall doc r acc, exists v f, object_members f doc (t ++ r) acc = Some (inr (v, r))).
Proof.
  destruct grammar_value_start as (Sv & Se & Sm).
  apply (grammar_mut
    (fun t _ => forall doc r, number_stop r = true -> exists v f, scan_once f doc (t ++ r) = Some (inr (v, r)))
    (fun t _ => forall doc r acc, exists v f, array_items f doc (t ++ r) acc = Some (inr (v, r)))
    (fun t _ => forall doc r acc, exists v f, object_members f doc (t ++ r) acc = Some (inr (v, r)))).
  - intros w Hw doc r _. destruct (scan_once_constant 0 doc w r) as [v Hv]; [simpl in *; tauto | eauto].
  - intros w Hw doc r _. destruct (scan_once_constant 0 doc w r) as [v Hv]; [simpl in *; tauto | eauto].
  - intros t Ht doc r Hr. destruct (scan_once_jnumber 0 doc t r Ht Hr) as [v Hv]. eauto.
  - intros b Hb doc r _. destruct (scan_string_complete doc (DQ :: b ++ DQ :: r) b r Hb) as [s Hs].
    exists (JStr s), 1. app_simpl. rewrite scan_once_open_string, Hs. reflexivity.
  - intros w Hw doc r _. exists (JArr []), 1. app_simpl. rewrite scan_once_open_array. cbv zeta.
    ws_step. reflexivity.
  - intros w t Hw Ht IH doc r _. destruct (IH doc r []) as (v & f & Hv). exists v, (S f).
    app_simpl. rewrite scan_once_open_array. cbv zeta. ws_step.
    rewrite (proj1 (value_start_not_close t r (Se t Ht))). exact Hv.
  - intros w Hw doc r _. exists (JObj []), 1. app_simpl. rewrite scan_once_open_object. cbv zeta.
    ws_step. reflexivity.
  - intros w t Hw Ht IH doc r _. destruct (IH doc r []) as (v & f & Hv). exists v, (S f).
    app_simpl. rewrite scan_once_open_object. cbv zeta. ws_step.
    rewrite (proj2 (value_start_not_close t r (Sm t Ht))). exact Hv.
  - intros t w Ht IHt Hw doc r acc.
    destruct (IHt doc (w ++ "]" :: r)%char) as (v & f & Hv); [apply wsp_delim_stop; simpl; tauto|].
    exists (JArr (acc ++ [v])), (S f). app_simpl. cbn [array_items]. rewrite Hv. cbv zeta. ws_step.
    reflexivity.
  - intros t w1 w2 rest Ht IHt Hw1 Hw2 Hrest IHrest doc r acc.
    destruct (IHt doc (w1 ++ "," :: w2 ++ rest ++ r)%char) as (v & f1 & Hv); [apply wsp_delim_stop; simpl; tauto|].
    destruct (IHrest doc r (acc ++ [v])) as (v' & f2 & Hv').
    exists v', (S (Nat.max f1 f2)). app_simpl. cbn [array_items].
    rewrite (scan_once_mono f1 _ _ _ _ (Nat.le_max_l _ _) Hv). cbv zeta. ws_step. simpl. ws_step.
    exact (array_items_mono f2 _ _ _ _ _ (Nat.le_max_r _ _) Hv').
  - intros b w1 w2 t w3 Hb Hw1 Hw2 Ht IHt Hw3 doc r acc.
    destruct (scan_string_complete doc (DQ :: b ++ DQ :: w1 ++ ":" :: w2 ++ t ++ w3 ++ "}" :: r)%char b
                (w1 ++ ":" :: w2 ++ t ++ w3 ++ "}" :: r)%char Hb) as [k Hk].
    destruct (IHt doc (w3 ++ "}" :: r)%char) as (v & f & Hv); [apply wsp_delim_stop; simpl; tauto|].
    exists (JObj (dict_set acc k v)), (S f). app_simpl. simpl. rewrite Hk. ws_step. simpl. ws_step.
    rewrite Hv. ws_step. reflexivity.
  - intros b w1 w2 t w3 w4 rest Hb Hw1 Hw2 Ht IHt Hw3 Hw4 Hrest IHrest doc r acc.
    destruct (scan_string_complete doc (DQ :: b ++ DQ :: w1 ++ ":" :: w2 ++ t ++ w3 ++ "," :: w4 ++ rest ++ r)%char
                b (w1 ++ ":" :: w2 ++ t ++ w3 ++ "," :: w4 ++ rest ++ r)%char Hb) as [k Hk].
    destruct (IHt doc (w3 ++ "," :: w4 ++ rest ++ r)%char) as (v & f1 & Hv); [apply wsp_delim_stop; simpl; tauto|].
    destruct (IHrest doc r (dict_set acc k v)) as (v' & f2 & Hv').
    exists v', (S (Nat.max f1 f2)). app_simpl. simpl. rewrite Hk. ws_step. simpl. ws_step.
    rewrite (scan_once_mono f1 _ _ _ _ (Nat.le_max_l _ _) Hv). ws_step. simpl. ws_step.
    exact (object_members_mono f2 _ _ _ _ _ (Nat.le_max_r _ _) Hv').
Qed.

End Completeness.

(** ** [json.loads] decides the grammar *)

(** C10: [json.loads] of [JsonDecode] returns a value exactly on the texts
    of the grammar of this file: RFC 8259's [JSON-text] with CPython's
    extensions [NaN], [Infinity] and [-Infinity], and with integers of at
    most 4300 digits.  Every text it accepts is of that shape, and every
    such text is accepted (the fuel never runs out, the scanners never
    fail), whatever the float runtime. *)
Theorem loads_accepts_json_text `{JsonRuntime} doc : (exists v, loads doc = inr v) <-> json_text doc.
Proof.
  split.
  - intros [v Hv]. pose proof (loads_with_enough doc _ (le_n _)) as E. rewrite Hv in E. unfold loads_with in E.
    destruct (scan_once _ doc (skip_ws doc)) as [[e|[v' r]]|] eqn:Es; try discriminate.
    cbv zeta in E. destruct (skip_ws r) eqn:Er; [|discriminate].
    destruct (proj1 (scanners_sound _) doc (skip_ws doc) v' r Es) as (t & Ht & Hjt).
    destruct (skip_ws_split doc) as (w1 & Hw1 & Hd). destruct (skip_ws_split r) as (w2 & Hw2 & Hr).
    rewrite Er, app_nil_r in Hr. exists w1, t, w2. repeat split; try assumption.
    transitivity (w1 ++ skip_ws doc); [exact Hd|]. rewrite Ht, Hr. reflexivity.
  - intros (w1 & t & w2 & -> & Hw1 & Ht & Hw2).
    destruct (proj1 scanners_complete t Ht (w1 ++ t ++ w2) w2 (wsp_stop w2 Hw2)) as (v & f & Hv).
    exists v. pose proof (loads_with_enough (w1 ++ t ++ w2) (Nat.max f (2 * length (w1 ++ t ++ w2) + 1))
                           (Nat.le_max_r _ _)) as E.
    unfold loads_with in E. rewrite (skip_ws_grammar w1 t w2 Hw1 (proj1 grammar_value_start t Ht)) in E.
    rewrite (scan_once_mono f _ _ _ _ (Nat.le_max_l _ _) Hv) in E. cbv zeta in E.
    rewrite <- (app_nil_r w2), skip_ws_app_ws in E by exact Hw2. rewrite app_nil_r in E.
    injection E as E. symmetry. exact E.
Qed.

(** ** Integers and the limit of [int()] *)

(** A numeral led by 1-9 is a number of the grammar exactly when it has
    at most 4300 digits: no sign, fraction or exponent can be read in
    it. *)
Lemma jnumber_digits c ds :
  in_range 49 57 c = true -> Forall (fun d => is_decimal d = true) ds ->
  (jnumber (c :: ds) <-> length ds < INT_MAX_STR_DIGITS).
Proof.
  intros Hc Hds. unfold jnumber. split.
  - intros (m & i & f & e & Ht & Hm & Hi & Hf & He & Hl).
    assert (Hall : Forall (fun d => is_decimal d = true) (m ++ i ++ f ++ e))
      by (rewrite <- Ht; constructor; [apply digit_decimal|]; assumption).
    apply Forall_app in Hall as [Hmd Hall]. apply Forall_app in Hall as [_ Hall].
    apply Forall_app in Hall as [Hfd Hed].
    destruct Hm; [|inversion Hmd as [|? ? Hx]; discriminate Hx].
    destruct Hf; [|inversion Hfd as [|? ? Hx]; discriminate Hx].
    destruct He as [|e0 sg ds' He0]; [|inversion Hed as [|? ? Hx]; destruct He0 as [<-|[<-|[]]]; discriminate Hx].
    rewrite !app_nil_r in Ht. cbn [app] in Ht. subst i. specialize (Hl eq_refl eq_refl). cbn [length] in Hl.
    unfold INT_MAX_STR_DIGITS in *. lia.
  - intros Hl. exists [], (c :: ds), [], []. rewrite !app_nil_r.
    split; [reflexivity|]. split; [constructor|]. split; [constructor; assumption|].
    split; [constructor|]. split; [constructor|]. intros _ _. cbn [length]. lia.
Qed.

(** C9: the bounds of the integers [json.loads] reads: a numeral of at
    most 4300 digits (no sign, fraction or exponent, first digit 1-9) is
    decoded as an [int] with exactly that many digits, between
    [10 ^ (n-1)] and [10 ^ n]; one more digit and [json.loads] raises the
    [ValueError] of [int()] that names the number of digits, and the
    limit is the one of the grammar's numbers ([jnumber]). *)
Theorem loads_integer_bounds `{JsonRuntime} c ds :
  in_range 49 57 c = true -> Forall (fun d => is_decimal d = true) ds ->
  (length ds < 4300 ->
     exists z, loads (c :: ds) = inr (JInt z) /\
               (10 ^ Z.of_nat (length ds) <= z < 10 ^ Z.of_nat (S (length ds)))%Z) /\
  (4300 <= length ds ->
     loads (c :: ds) = inl (ValueError (lit "Exceeds the limit (4300 digits) for integer string conversion: value has "
                                        ++ str_of_nat (S (length ds))
                                        ++ lit " digits; use sys.set_int_max_str_digits() to increase the limit"))) /\
  (jnumber (c :: ds) <-> length ds < 4300).
Proof.
  intros Hc Hds. rewrite <- and_assoc. split; [|exact (jnumber_digits c ds Hc Hds)].
  rewrite (loads_numeral c ds Hc Hds). unfold int_from_string.
  destruct (in_range_digit_not_sign c Hc) as [Hm H0]. rewrite Hm. cbv iota beta zeta.
  assert (Hall : Forall (fun d => is_decimal d = true) (c :: ds)) by (constructor; [apply digit_decimal|]; assumption).
  split; intros Hl.
  - rewrite (proj2 (Nat.ltb_ge _ _)) by (unfold INT_MAX_STR_DIGITS; cbn [length]; lia). eexists. split; [reflexivity|].
    pose proof (Z_of_digits_bound _ Hall) as Hb. pose proof (Z_of_digits_lead c ds Hall (eqb_false_neq _ _ H0)) as Hlow.
    cbn [length] in Hb. lia.
  - rewrite (proj2 (Nat.ltb_lt _ _)) by (unfold INT_MAX_STR_DIGITS; cbn [length]; lia). reflexivity.
Qed.

Lemma loads_integer_bounds_witness :
  in_range 49 57 "4"%char = true /\ Forall (fun d => is_decimal d = true) (lit "300") /\
  (length (lit "300") < 4300 ->
     exists z, @loads decimal_runtime ("4"%char :: lit "300") = inr (JInt z) /\
               (10 ^ Z.of_nat (length (lit "300")) <= z < 10 ^ Z.of_nat (S (length (lit "300"))))%Z) /\
  (4300 <= length (lit "300") ->
     @loads decimal_runtime ("4"%char :: lit "300")
     = inl (ValueError (lit "Exceeds the limit (4300 digits) for integer string conversion: value has "
                        ++ str_of_nat (S (length (lit "300")))
                        ++ lit " digits; use sys.set_int_max_str_digits() to increase the limit"))) /\
  (jnumber ("4"%char :: lit "300") <-> length (lit "300") < 4300).
Proof.
  assert (Hc : in_range 49 57 "4"%char = true) by reflexivity.
  assert (Hd : Forall (fun d => is_decimal d = true) (lit "300")) by (repeat constructor).
  split; [exact Hc|]. split; [exact Hd|]. exact (@loads_integer_bounds decimal_runtime _ _ Hc Hd).
Defined.
