(* ===== verification/Jsonify.v ===== *)
(** * [jsonify]: the text of a JSON response

    Every view answers with [jsonify(...)] (src/menu_api.py, lines 26,
    30, 49, 51, 53, 60, 65, 78, 80).  Flask's [DefaultJSONProvider]
    serialises with [json.dumps(obj, ensure_ascii=True, sort_keys=True)],
    adds [indent=2] when the application runs in debug mode, which
    [app.run(debug=True)] turns on, and appends a newline.  With an
    indent, [json.dumps] is the pure-Python [_make_iterencode] of
    [JsonEncode]; [sort_keys] makes [_iterencode_dict] iterate over
    [sorted(dct.items())].  Encoding a dict's items in sorted order at
    every level is encoding the value whose dicts have been sorted
    ([sort_json]); Python's [sorted] is the stable sort on [str]'s
    ordering (code point by code point, a proper prefix first), here an
    insertion sort ([sort_items]), which is the sorted permutation of the
    items (their keys are distinct in a [dict]). *)

From Stdlib Require Import String Ascii List Lia Bool PeanoNat ZArith Sorted Permutation.
From S2P Require Import Prelude PyStr Effects PyJson JsonDecode JsonEncode.
Import ListNotations.

(** ** Python's ordering of [str] *)

Fixpoint str_ltb (a b : pystr) : bool :=
  match a, b with
  | _, [] => false
  | [], _ :: _ => true
  | x :: a', y :: b' => (code x <? code y) || (Ascii.eqb x y && str_ltb a' b')
  end.

(** ** [sorted(dct.items())] *)

Fixpoint insert_item {A} (kv : pystr * A) (l : list (pystr * A)) : list (pystr * A) :=
  match l with
  | [] => [kv]
  | kv' :: l' => if str_ltb (fst kv') (fst kv) then kv' :: insert_item kv l' else kv :: l
  end.

Fixpoint sort_items {A} (l : list (pystr * A)) : list (pystr * A) :=
  match l with [] => [] | kv :: l' => insert_item kv (sort_items l') end.

(** The value [json.dumps] encodes with [sort_keys=True]: every dict's
    items in sorted order. *)
Fixpoint sort_json (v : json) : json :=
  match v with
  | JArr xs => JArr (map sort_json xs)
  | JObj kvs => JObj (sort_items (map (fun kv => (fst kv, sort_json (snd kv))) kvs))
  | _ => v
  end.

(** ** What the client can observe of the body *)

(** Keys in strictly increasing order of [str]'s [<]. *)
Fixpoint keys_increasing (ks : list pystr) : bool :=
  match ks with
  | k1 :: ((k2 :: _) as r) => str_ltb k1 k2 && keys_increasing r
  | _ => true
  end.

(** Every dict of the value lists its keys in sorted order. *)
Fixpoint keys_sorted (v : json) : bool :=
  match v with
  | JArr xs => forallb keys_sorted xs
  | JObj kvs => keys_increasing (map fst kvs) && forallb (fun kv => keys_sorted (snd kv)) kvs
  | _ => true
  end.

(** [reorders u v]: [u] is [v] with the items of its dicts, at every
    level, in another order. *)
#[warnings="-register-all"]
Inductive reorders : json -> json -> Prop :=
| ro_null : reorders JNull JNull
| ro_bool b : reorders (JBool b) (JBool b)
| ro_int z : reorders (JInt z) (JInt z)
| ro_float b : reorders (JFloat b) (JFloat b)
| ro_str s : reorders (JStr s) (JStr s)
| ro_arr xs ys : Forall2 reorders xs ys -> reorders (JArr xs) (JArr ys)
| ro_obj kvs zs kvs' :
    Permutation kvs zs -> Forall2 (fun a b => fst a = fst b /\ reorders (snd a) (snd b)) zs kvs' ->
    reorders (JObj kvs) (JObj kvs').

(** ** [str]'s ordering is total *)

Lemma str_ltb_total a b : a <> b -> str_ltb a b = true \/ str_ltb b a = true.
Proof.
  revert b. induction a as [|x a IH]; intros [|y b] Hne; cbn [str_ltb];
    [congruence | left; reflexivity | right; reflexivity |].
  destruct (Nat.lt_trichotomy (code x) (code y)) as [H|[H|H]].
  - left. apply Nat.ltb_lt in H. rewrite H. reflexivity.
  - assert (x = y) by (unfold code in H; rewrite <- (ascii_nat_embedding x), <- (ascii_nat_embedding y); congruence).
    subst. rewrite Ascii.eqb_refl, Nat.ltb_irrefl. cbn.
    apply IH. congruence.
  - right. apply Nat.ltb_lt in H. rewrite H. reflexivity.
Qed.

(** ** The sort *)

Section Sort.
Context {A : Type}.

Definition key_lt (x y : pystr * A) : Prop := str_ltb (fst x) (fst y) = true.

Lemma insert_item_perm kv (l : list (pystr * A)) : Permutation (insert_item kv l) (kv :: l).
Proof.
  induction l as [|kv' l IH]; cbn; [reflexivity|].
  destruct (str_ltb (fst kv') (fst kv)); [|reflexivity].
  rewrite IH. apply perm_swap.
Qed.

Lemma sort_items_perm (l : list (pystr * A)) : Permutation (sort_items l) l.
Proof.
  induction l as [|kv l IH]; cbn; [reflexivity|].
  rewrite insert_item_perm, IH. reflexivity.
Qed.

Lemma insert_item_sorted kv (l : list (pystr * A)) :
  Sorted key_lt l -> ~ In (fst kv) (map fst l) -> Sorted key_lt (insert_item kv l).
Proof.
  induction l as [|kv' l IH]; intros Hs Hn; cbn; [repeat constructor|].
  inversion Hs as [|? ? Hl Hh]; subst.
  destruct (str_ltb (fst kv') (fst kv)) eqn:E.
  - constructor; [apply IH; [exact Hl | intros Hi; apply Hn; right; exact Hi]|].
    destruct l as [|kv'' l]; cbn; [constructor; exact E|].
    inversion Hh; subst. destruct (str_ltb (fst kv'') (fst kv)); constructor; assumption.
  - constructor; [exact Hs|]. constructor. unfold key_lt.
    destruct (str_ltb_total (fst kv) (fst kv')) as [H|H]; [intros Heq; apply Hn; left; auto|exact H|congruence].
Qed.

Lemma keys_distinct_nodup (ks : list pystr) : keys_distinct ks = true <-> NoDup ks.
Proof.
  induction ks as [|k ks IH]; cbn; [split; [constructor|reflexivity]|].
  rewrite andb_true_iff, negb_true_iff, IH. split.
  - intros [H1 H2]. constructor; [|exact H2]. intros Hi.
    assert (existsb (pystr_eqb k) ks = true) by (apply existsb_exists; exists k; split; [exact Hi|apply pystr_eqb_eq; reflexivity]).
    congruence.
  - intros Hd. inversion Hd; subst. split; [|assumption].
    destruct (existsb (pystr_eqb k) ks) eqn:E; [|reflexivity].
    apply existsb_exists in E as (k' & Hi & Hk). apply pystr_eqb_eq in Hk. subst. contradiction.
Qed.

Lemma sort_items_sorted (l : list (pystr * A)) : keys_distinct (map fst l) = true -> Sorted key_lt (sort_items l).
Proof.
  rewrite keys_distinct_nodup. induction l as [|kv l IH]; intros Hd; cbn; [constructor|].
  inversion Hd; subst. apply insert_item_sorted; [apply IH; assumption|].
  intros Hi. apply H1. eapply Permutation_in; [|exact Hi]. apply Permutation_map, sort_items_perm.
Qed.

End Sort.

Lemma forallb_perm {A} (f : A -> bool) l l' : Permutation l l' -> forallb f l = forallb f l'.
Proof.
  induction 1; cbn; try congruence.
  rewrite !andb_assoc, (andb_comm (f y)). reflexivity.
Qed.

Lemma keys_distinct_perm {A} (l l' : list (pystr * A)) :
  Permutation l l' -> keys_distinct (map fst l) = keys_distinct (map fst l').
Proof.
  intros Hp. apply eq_true_iff_eq. rewrite !keys_distinct_nodup.
  split; apply Permutation_NoDup; [|symmetry]; apply Permutation_map, Hp.
Qed.

(** Sorting the dicts keeps a value well formed, and a value that is not
    well formed stays so. *)
Lemma json_wf_sort v : json_wf (sort_json v) = json_wf v.
Proof.
  induction v as [| b | z | b | s | xs IH | kvs IH] using json_ind'; try reflexivity.
  - cbn. induction IH as [|x xs Hx _ IHxs]; [reflexivity|]. cbn. rewrite Hx. f_equal. exact IHxs.
  - cbn [sort_json json_wf].
    rewrite (keys_distinct_perm _ _ (sort_items_perm _)), (forallb_perm _ _ _ (sort_items_perm _)).
    rewrite map_map. cbn. f_equal.
    induction IH as [|kv kvs Hkv _ IHkvs]; [reflexivity|]. cbn. rewrite Hkv. f_equal. exact IHkvs.
Qed.

Lemma keys_increasing_sorted {A} (l : list (pystr * A)) :
  Sorted key_lt l -> keys_increasing (map fst l) = true.
Proof.
  induction 1 as [|x l Hs IH Hr]; [reflexivity|]. destruct l as [|y l]; [reflexivity|].
  cbn [map keys_increasing]. inversion Hr; subst. apply andb_true_iff. split; assumption.
Qed.

(** Sorting the dicts sorts every dict of a well-formed value. *)
Lemma keys_sorted_sort v : json_wf v = true -> keys_sorted (sort_json v) = true.
Proof.
  induction v as [| b | z | b | s | xs IH | kvs IH] using json_ind'; try reflexivity; cbn [json_wf sort_json keys_sorted].
  - intros Hwf. induction IH as [|x xs Hx _ IHxs]; [reflexivity|].
    cbn [forallb map] in *. apply andb_true_iff in Hwf as [H1 H2]. rewrite Hx, IHxs by assumption. reflexivity.
  - intros Hwf. apply andb_true_iff in Hwf as [Hd Hv]. apply andb_true_iff. split.
    + apply keys_increasing_sorted, sort_items_sorted. rewrite map_map. exact Hd.
    + rewrite (forallb_perm _ _ _ (sort_items_perm _)). apply forallb_forall. intros kv Hin.
      apply in_map_iff in Hin as (kv0 & <- & Hin). rewrite Forall_forall in IH. apply IH; [exact Hin|].
      exact (proj1 (forallb_forall _ _) Hv kv0 Hin).
Qed.

(** Sorting the dicts only reorders their items. *)
Lemma reorders_sort v : reorders (sort_json v) v.
Proof.
  induction v as [| b | z | b | s | xs IH | kvs IH] using json_ind'; cbn [sort_json]; try constructor.
  - induction IH as [|x xs Hx _ IHxs]; constructor; assumption.
  - econstructor; [apply sort_items_perm|].
    induction IH as [|kv kvs Hkv _ IHkvs]; constructor; [split; [reflexivity|exact Hkv]|exact IHkvs].
Qed.

Section Jsonify.
Context `{RT : JsonRuntime}.

(** [jsonify(v)]'s body under [app.run(debug=True)]. *)
Definition jsonify_text (v : json) : exn + pystr :=
  match json_dump_text 2 (sort_json v) with
  | inl e => inl e
  | inr t => inr (t ++ newline)
  end.


Section RoundTrip.
Hypothesis repr_literal :
  forall b, float_ok b = true -> special_float b = false -> float_literal (py_float_repr b) = true.
Hypothesis repr_roundtrip :
  forall b, float_ok b = true -> special_float b = false -> py_float (py_float_repr b) = b.

(** [json.dump]'s text of a well-formed value, followed by a newline, is
    read back as the value. *)
Lemma dump_text_loads_nl v :
  json_wf v = true -> exists t, json_dump_text 2 v = inr t /\ loads (t ++ newline) = inr v.
Proof.
  intros Hwf. unfold json_dump_text.
  destruct (iterencode_reads_back _ (repeat_space_ws 2) repr_literal repr_roundtrip v Hwf 0)
    as (t & Ht & Hs & Hr).
  exists t. split; [exact Ht|].
  destruct (Hr (t ++ newline) newline eq_refl) as [f Hf].
  pose proof (loads_with_enough (t ++ newline) (Nat.max f (2 * length (t ++ newline) + 1)) (Nat.le_max_r _ _)) as E.
  unfold loads_with in E. rewrite skip_ws_value_start in E by exact Hs.
  rewrite (scan_once_mono f _ _ _ _ (Nat.le_max_l _ _) Hf) in E.
  injection E as E. symmetry. exact E.
Qed.

(** [jsonify] encodes every well-formed value, and its text is read
    back as the value with its dicts sorted. *)
Lemma jsonify_text_loads v :
  json_wf v = true -> exists t, jsonify_text v = inr t /\ loads t = inr (sort_json v).
Proof.
  intros Hwf. destruct (dump_text_loads_nl (sort_json v)) as (t & Ht & Hl); [rewrite json_wf_sort; exact Hwf|].
  exists (t ++ newline). unfold jsonify_text. rewrite Ht. auto.
Qed.

(** C25: the body [jsonify(v)] sends is read back by [json.loads] as
    [v] with only the order of its dicts' items changed, and in that
    value every dict lists its keys in sorted order: the client sees the
    keys of the menu in another order than the one of the model's reply
    and of the file [json.dump] writes (C8). *)
Theorem jsonify_body_sorted v :
  json_wf v = true ->
  exists body u, jsonify_text v = inr body /\ loads body = inr u /\ keys_sorted u = true /\ reorders u v.
Proof.
  intros Hwf. destruct (jsonify_text_loads v Hwf) as (t & Ht & Hl).
  exists t, (sort_json v). repeat split; [exact Ht|exact Hl|apply keys_sorted_sort, Hwf|apply reorders_sort].
Qed.

End RoundTrip.
End Jsonify.

Definition example_value : json := JObj [(lit "products", JArr []); (lit "menu_summary", JStr (lit "Beer menu"))].

Lemma jsonify_body_sorted_witness :
  json_wf example_value = true /\
  exists body u, @jsonify_text decimal_runtime example_value = inr body /\ @loads decimal_runtime body = inr u /\
    keys_sorted u = true /\ reorders u example_value.
Proof.
  split; [reflexivity|].
  exact (@jsonify_body_sorted decimal_runtime (fun b _ _ => decimal_repr_literal b) decimal_repr_roundtrip
           example_value eq_refl).
Defined.
