(* ===== verification/PyPath.v ===== *)
(** * [os.path.join] and [pathlib.PurePosixPath] (CPython 3.11)

    [os_path_join] is [posixpath.join] with two arguments.  A
    [PurePosixPath] is parsed as CPython's [_parse_parts] does: the root
    is ["//"] for exactly two leading slashes and ["/"] for one or three
    or more, and the relative part is split at ['/'] dropping empty and
    ["."] components; [path_str] is [str(path)] and [with_suffix] is
    [PurePath.with_suffix].  [posix_split], [posix_dirname] and
    [posix_normpath] are [posixpath.split], [dirname] and [normpath]. *)

From Stdlib Require Import String Ascii List Lia Bool PeanoNat.
From S2P Require Import Prelude PyStr Effects.
Import ListNotations.

Definition slash : ascii := "/"%char.

(** [posixpath.join(a, b)]. *)
Definition os_path_join (a b : pystr) : pystr :=
  if startswith b [slash] then b
  else match a with
       | [] => b
       | _ => if endswith a [slash] then a ++ b else a ++ [slash] ++ b
       end.

Record PurePosixPath : Type := { pp_root : pystr; pp_parts : list pystr }.

Fixpoint lstrip_slash (s : pystr) : pystr :=
  match s with
  | c :: r => if Ascii.eqb c slash then lstrip_slash r else s
  | [] => []
  end.

Definition is_dot (x : pystr) : bool :=
  match x with ["."%char] => true | _ => false end.

(** [PurePosixPath(s)]. *)
Definition parse_path (s : pystr) : PurePosixPath :=
  let rel := lstrip_slash s in
  let root := match s with
              | c :: _ => if Ascii.eqb c slash
                          then if length s - length rel =? 2 then [slash; slash] else [slash]
                          else []
              | [] => []
              end in
  {| pp_root := root;
     pp_parts := filter (fun x => truthy x && negb (is_dot x)) (split_on slash rel) |}.

(** [str(path)]. *)
Definition path_str (p : PurePosixPath) : pystr :=
  match pp_root p, pp_parts p with
  | [], [] => ["."%char]
  | r, ps => r ++ join [slash] ps
  end.

(** [path.name]. *)
Definition path_name (p : PurePosixPath) : pystr := last (pp_parts p) [].

(** Index of the last occurrence of [c], as [str.rfind]. *)
Fixpoint rfind_from (c : ascii) (s : pystr) (i : nat) (best : option nat) : option nat :=
  match s with
  | [] => best
  | d :: r => rfind_from c r (S i) (if Ascii.eqb c d then Some i else best)
  end.

(** [path.suffix] of a name: from its last dot, when that dot is neither
    the first nor the last character. *)
Definition name_suffix (name : pystr) : pystr :=
  match rfind_from "."%char name 0 None with
  | Some i => if (0 <? i) && (i <? length name - 1) then skipn i name else []
  | None => []
  end.

(** [PurePosixPath(s).with_suffix(suffix)] for a valid suffix such as
    [".json"]; a path with no name raises [ValueError]. *)
Definition with_suffix (s suffix : pystr) : exn + pystr :=
  let p := parse_path s in
  let name := path_name p in
  match name with
  | [] => inl (ValueError (lit "PosixPath('" ++ path_str p ++ lit "') has an empty name"))
  | _ =>
      let old := name_suffix name in
      let stem := firstn (length name - length old) name in
      inr (path_str {| pp_root := pp_root p;
                       pp_parts := removelast (pp_parts p) ++ [stem ++ suffix] |})
  end.

(** ** [posixpath.dirname] and [posixpath.normpath] *)

(** [posixpath.split(p)]: the head up to the last slash (trailing slashes
    removed unless the head is all slashes) and the tail after it. *)
Definition posix_split (p : pystr) : pystr * pystr :=
  let i := match rfind_from slash p 0 None with Some j => S j | None => 0 end in
  let head := firstn i p in
  (if truthy head && negb (forallb (Ascii.eqb slash) head) then rev (lstrip_slash (rev head)) else head,
   skipn i p).

(** [posixpath.dirname(p)], the head of the split. *)
Definition posix_dirname (p : pystr) : pystr := fst (posix_split p).

(** One component of the loop of [normpath]: the kept components, last
    first. *)
Definition normpath_step (initial : nat) (acc : list pystr) (comp : pystr) : list pystr :=
  if pystr_eqb comp [] || pystr_eqb comp (lit ".") then acc
  else if negb (pystr_eqb comp (lit "..")) || ((initial =? 0) && match acc with [] => true | _ => false end)
          || match acc with last :: _ => pystr_eqb last (lit "..") | [] => false end
       then comp :: acc
       else match acc with _ :: acc' => acc' | [] => [] end.

(** [posixpath.normpath(path)] (the pure-Python version of 3.11): one or
    two leading slashes kept, three or more read as one, empty and [.]
    components dropped, [..] cancelling the component before it. *)
Definition posix_normpath (path : pystr) : pystr :=
  match path with
  | [] => lit "."
  | _ =>
      let initial := if startswith path [slash]
                     then if startswith path [slash; slash] && negb (startswith path [slash; slash; slash]) then 2 else 1
                     else 0 in
      let kept := rev (fold_left (normpath_step initial) (split_on slash path) []) in
      let res := repeat slash initial ++ join [slash] kept in
      if truthy res then res else lit "."
  end.

(** ** Absolute paths *)

(** [posixpath.join] discards the folder when the second path is absolute. *)
Lemma os_path_join_absolute a b : startswith b [slash] = true -> os_path_join a b = b.
Proof. unfold os_path_join. intros ->. reflexivity. Qed.

(** [with_suffix] keeps an absolute path absolute. *)
Lemma with_suffix_absolute s suffix r :
  startswith s [slash] = true -> with_suffix s suffix = inr r -> startswith r [slash] = true.
Proof.
  unfold with_suffix, parse_path. destruct s as [|c s]; [discriminate|]. intros Hc.
  assert (Ec : Ascii.eqb c slash = true).
  { cbn [startswith] in Hc. rewrite andb_true_r, Ascii.eqb_sym in Hc. exact Hc. }
  cbv beta iota zeta. rewrite Ec.
  destruct (path_name _); [discriminate|]. intros [= <-]. unfold path_str. cbn [pp_root].
  destruct (_ =? 2); reflexivity.
Qed.

(** ** Suffixes *)

Lemma path_str_parts root ps : ps <> [] -> path_str {| pp_root := root; pp_parts := ps |} = root ++ join [slash] ps.
Proof. intros H. unfold path_str. cbn [pp_root pp_parts]. destruct root, ps; reflexivity || contradiction. Qed.

(** [with_suffix] gives a path ending with the suffix. *)
Lemma with_suffix_endswith s suffix r : with_suffix s suffix = inr r -> endswith r suffix = true.
Proof.
  unfold with_suffix. destruct (path_name _) as [|c0 nm]; [discriminate|]. intros [= <-].
  rewrite path_str_parts by (intros H; apply app_eq_nil in H as [_ H]; discriminate).
  match goal with |- context [join [slash] (?xs ++ [?y])] => destruct (join_snoc [slash] xs y) as [x ->] end.
  rewrite !List.app_assoc. apply endswith_app.
Qed.

(** [posixpath.join] keeps the ending of the second path. *)
Lemma os_path_join_endswith a b x : endswith b x = true -> endswith (os_path_join a b) x = true.
Proof.
  intros H. unfold os_path_join. destruct (startswith b [slash]); [exact H|].
  destruct a as [|c a]; [exact H|]. destruct (endswith (c :: a) [slash]); rewrite ?List.app_assoc; apply endswith_app_l, H.
Qed.

(** No path ends with both [.json] and [.pdf]. *)
Lemma endswith_json_pdf p : endswith p (lit ".json") = true -> endswith p (lit ".pdf") = false.
Proof.
  unfold endswith. cbn [lit list_ascii_of_string rev List.app].
  destruct (rev p) as [|c r]; [discriminate|]. cbn [startswith].
  destruct (Ascii.eqb "n" c) eqn:E; [|discriminate]. apply Ascii.eqb_eq in E. subst. reflexivity.
Qed.

(** ** The last slash *)

Lemma rfind_from_app c l1 : forall l2 i b,
  rfind_from c (l1 ++ l2) i b = rfind_from c l2 (i + length l1) (rfind_from c l1 i b).
Proof.
  induction l1 as [|d l1 IH]; intros l2 i b; simpl; [rewrite Nat.add_0_r; reflexivity|].
  rewrite IH. f_equal. lia.
Qed.

Lemma rfind_from_free c l : forall i b,
  forallb (fun x => negb (Ascii.eqb c x)) l = true -> rfind_from c l i b = b.
Proof.
  induction l as [|d l IH]; intros i b H; [reflexivity|]. simpl in H |- *.
  apply andb_prop in H as [Hd Hl]. apply negb_true_iff in Hd. rewrite Hd. apply IH, Hl.
Qed.

Lemma rfind_from_single c i b : rfind_from c [c] i b = Some i.
Proof. cbn. rewrite Ascii.eqb_refl. reflexivity. Qed.

(** The folder of [os.path.join(folder, name)] for a name with no slash,
    the folder not ending with one. *)
Lemma posix_dirname_join a n :
  truthy a = true -> endswith a [slash] = false -> forallb (fun x => negb (Ascii.eqb slash x)) n = true -> n <> [] ->
  posix_dirname (os_path_join a n) = a.
Proof.
  intros Ha Hend Hn Hne. unfold os_path_join.
  destruct n as [|c n]; [contradiction|]. cbn [startswith]. cbn [forallb] in Hn. apply andb_prop in Hn as [Hc Hn].
  apply negb_true_iff in Hc. rewrite Hc. cbn [andb].
  destruct a as [|x a]; [discriminate|]. rewrite Hend. unfold posix_dirname, posix_split. cbn [fst].
  rewrite app_assoc, rfind_from_app, rfind_from_free by (cbn [forallb]; rewrite Hc; exact Hn).
  rewrite rfind_from_app, rfind_from_single.
  assert (Hf : forall k, k = length ((x :: a) ++ [slash]) ->
                firstn k (((x :: a) ++ [slash]) ++ c :: n) = (x :: a) ++ [slash])
    by (intros k ->; rewrite firstn_app, firstn_all, Nat.sub_diag, firstn_O, app_nil_r; reflexivity).
  rewrite Hf by (rewrite length_app; simpl; lia).
  destruct (rev (x :: a)) as [|y r] eqn:E; [apply (f_equal (@length ascii)) in E; rewrite length_rev in E; discriminate|].
  assert (Hy : Ascii.eqb y slash = false).
  { unfold endswith in Hend. rewrite E in Hend. cbn [rev app startswith] in Hend.
    rewrite andb_true_r, Ascii.eqb_sym in Hend. exact Hend. }
  assert (Hall : forallb (Ascii.eqb slash) ((x :: a) ++ [slash]) = false).
  { rewrite <- (rev_involutive (x :: a)), E. cbn [rev]. rewrite !forallb_app. cbn [forallb].
    rewrite (Ascii.eqb_sym slash y), Hy. destruct (forallb _ (rev r)); reflexivity. }
  rewrite Hall. cbn [truthy app andb negb].
  change (x :: a ++ [slash]) with ((x :: a) ++ [slash]). rewrite rev_app_distr.
  change (rev [slash]) with [slash]. cbn [app lstrip_slash]. rewrite Ascii.eqb_refl.
  rewrite E. cbn [lstrip_slash]. rewrite Hy, <- E, rev_involutive. reflexivity.
Qed.

(** ** Trailing slashes *)

Lemma rstrip_slash_id p : endswith p [slash] = false -> rev (lstrip_slash (rev p)) = p.
Proof.
  unfold endswith. cbn [rev List.app]. intros H.
  destruct (rev p) as [|c r] eqn:E; cbn [lstrip_slash];
    [|cbn [startswith] in H; rewrite andb_true_r, Ascii.eqb_sym in H; rewrite H];
    rewrite <- E, rev_involutive; reflexivity.
Qed.

(** [os.path.join(a, n)] for a name [n] with no slash does not end with one. *)
Lemma join_no_trailing_slash a n :
  forallb (fun x => negb (Ascii.eqb slash x)) n = true -> n <> [] -> endswith (os_path_join a n) [slash] = false.
Proof.
  intros Hn Hne. destruct (rev n) as [|x r] eqn:E.
  { apply (f_equal (@length ascii)) in E. rewrite length_rev in E. destruct n; [contradiction | discriminate]. }
  assert (Hx : Ascii.eqb slash x = false).
  { assert (Hin : In x n) by (apply in_rev; rewrite E; left; reflexivity).
    rewrite forallb_forall in Hn. apply negb_true_iff, Hn, Hin. }
  assert (Hend : endswith (os_path_join a n) [x] = true).
  { apply os_path_join_endswith. unfold endswith. rewrite E. cbn. rewrite Ascii.eqb_refl. reflexivity. }
  revert Hend. unfold endswith. cbn [rev List.app]. destruct (rev (os_path_join a n)) as [|c s]; [discriminate|].
  cbn [startswith]. rewrite !andb_true_r. intros Hc. apply Ascii.eqb_eq in Hc. subst. exact Hx.
Qed.
