(* ===== verification/QueryLlm.v ===== *)
(** * The structurer ([src/query_llm.py])

    [format_prompt] is an f-string: a constant instruction block, the
    input text, and a constant tail.  The lines of the block are written
    with ['] where the source has a double quote (a Rocq string literal
    cannot hold one without doubling it); [dq_lines] puts the double
    quotes back and joins the lines with newlines.

    [query_model_to_json] sends the prompt to the model configured at
    import time and decodes the reply with [json.loads]; the model is the
    interface [GenerativeModel], and the call is the event [EvGenerate]. *)

From Stdlib Require Import String Ascii List Lia Bool PeanoNat QArith.
From S2P Require Import Prelude PyStr Effects PyJson.
Import ListNotations.
Open Scope pdfmenu_scope.

(** ** Configuration (lines 11-17) *)

Record GenerationConfig : Type := {
  response_mime_type : pystr;
  temperature : Q
}.

Record ModelSettings : Type := {
  model_name : pystr;
  generation_config : GenerationConfig
}.

Definition model : ModelSettings := {|
  model_name := lit "gemini-1.5-flash";
  generation_config := {| response_mime_type := lit "application/json"; temperature := 2 # 10 |}
|}.

(** [model.generate_content(prompt).text]: the reply text, or the
    exception of the call or of reading [.text]. *)
Class GenerativeModel : Type := {
  generate_content : ModelSettings -> pystr -> exn + pystr
}.

(** ** The prompt (lines 20-67) *)

Definition dquote : ascii := "034"%char.

Definition dq_lines (ls : list string) : pystr :=
  join newline (map (fun l => map (fun c => if Ascii.eqb c "'"%char then dquote else c) (lit l)) ls).

(** The text of the f-string from its first line to the [**TEXT**:]
    marker (source lines 23-64), with [{{] and [}}] read as braces. *)
Definition PROMPT_LINES : list string := [
    "    The following input text, given after the **TEXT** marker, is from a drinks menu. Extract and structure the following in JSON format:";
    "    - Short summary of the menu (is it a beer, a wine list, etc. | What are the key elements of the design?)";
    "    - Array of products, for each:";
    "        - Name";
    "        - Description (if available)";
    "        - Price (if available)";
    "        - Brand (if recognised)";
    "    - Breakdown of the branded percentage on the menu, for example Bacardi 40%, 10000 hours 20%, unbranded 40% (see brands list below).";
    "    ";
    "    Recognised brand List:";
    "        - Bacardi";
    "        - 10000 hours";
    "        - free reign";
    "        - state of brewing";
    "        - sierra nevada";
    "";
    "    If the text is nonsensical, ignore that portion of the text.";
    "";
    "    Here is an example of the structured output I am expecting:";
    "";
    "    {";
    "        'menu_summary': 'Beer menu with floral designs and a tropical theme',";
    "        'products': [";
    "            {";
    "                'name': 'Sierra Nevada Pale Ale',";
    "                'description': 'A crisp, refreshing pale ale.',";
    "                'price': '$13',";
    "                'brand': 'Sierra Nevada'";
    "            },";
    "            {";
    "                'name': 'State of Brewing Maguires Draught Stout',";
    "                'price': '$10'";
    "            }";
    "        ],";
    "        'brand_percentages': {";
    "            'Sierra Nevada': 20,";
    "            'State of Brewing': 40,";
    "            'unbranded': 40";
    "        }";
    "    }";
    "";
    "    **TEXT**:"
]%string.

(** The f-string opens with a newline and puts the input on its own
    line, indented by four spaces, after the marker line. *)
Definition PROMPT_HEAD : pystr := newline ++ dq_lines PROMPT_LINES ++ newline ++ lit "    ".

(** After the input: a newline and the indentation of the closing quotes. *)
Definition PROMPT_TAIL : pystr := newline ++ lit "    ".

Definition format_prompt (input_text : pystr) : pystr := PROMPT_HEAD ++ input_text ++ PROMPT_TAIL.

(** ** The query (lines 70-78) *)

Section Query.
Context `{G : GenerativeModel} `{D : JsonDecoder}.

(** [prompt = format_prompt(input_text)];
    [response = model.generate_content(prompt)];
    [output = json.loads(response.text)]. *)
Definition query_model_to_json (input_text : pystr) : M json :=
  let prompt := format_prompt input_text in
  text <- call (EvGenerate prompt) (generate_content model prompt) ;;
  lift (json_loads text).
End Query.

(** ** Reading the input back from a prompt *)

Definition strip_suffix (suf l : pystr) : option pystr :=
  option_map (@rev ascii) (strip_prefix (rev suf) (rev l)).

(** The text between the instruction block and the tail. *)
Definition prompt_input (prompt : pystr) : option pystr :=
  match strip_prefix PROMPT_HEAD prompt with
  | Some r => strip_suffix PROMPT_TAIL r
  | None => None
  end.

(** A model that answers every prompt with the same text. *)
Definition echo_model (reply : exn + pystr) : GenerativeModel := {| generate_content := fun _ _ => reply |}.

Lemma strip_suffix_app suf l : strip_suffix suf (l ++ suf) = Some l.
Proof. unfold strip_suffix. rewrite rev_app_distr, strip_prefix_app. simpl. rewrite rev_involutive. reflexivity. Qed.

(** The prompt delimits its input: the text given to [format_prompt]
    is recovered from the prompt by removing the constant instruction
    block and the constant tail, so distinct texts give distinct prompts
    and the block does not depend on the text. *)
Theorem format_prompt_roundtrip input_text : prompt_input (format_prompt input_text) = Some input_text.
Proof. unfold prompt_input, format_prompt. rewrite strip_prefix_app. apply strip_suffix_app. Qed.

Section QueryProps.
Context `{G : GenerativeModel} `{D : JsonDecoder}.

Lemma query_model_to_json_trace (P : event -> Prop) input_text :
  P (EvGenerate (format_prompt input_text)) -> trace_all P (query_model_to_json input_text).
Proof. intros H. unfold query_model_to_json. eauto with pdfmenu. Qed.

End QueryProps.

