(* ===== verification/MenuSchema.v ===== *)
(** * The menu document and the prompt's example of it

    The specification (section 3) describes the value the structurer
    should return, a MenuDocument: a [menu_summary] string, an ordered
    array of [products] (a required [name], an optional [description], an
    optional currency-prefixed [price], an optional [brand] from the
    recognised list), and [brand_percentages], a mapping from brand names
    (recognised ones, and the category ["unbranded"]) to non-negative
    numbers that should sum to 100.  [menu_document_wf] states that
    shape as a boolean predicate on the values [json.loads] returns; it
    is the specification's, not code of the repository.

    From the code come the recognised brands ([BRANDS], the list items of
    the prompt, lines 33-37 of [src/query_llm.py]) and the example output
    the prompt shows the model ([PROMPT_EXAMPLE], lines 43-62), both read
    off [PROMPT_LINES]. *)

From Stdlib Require Import String Ascii List Lia Bool PeanoNat ZArith.
From S2P Require Import Prelude PyStr Effects PyJson JsonDecode JsonEncode QueryLlm.
Import ListNotations.

(** ** What the code fixes *)

(** The items of the prompt's [Recognised brand List:], without the
    ["        - "] that introduces each. *)
Definition BRANDS : list pystr := map (fun l => skipn 10 (lit l)) (firstn 5 (skipn 10 PROMPT_LINES)).

(** The example of the prompt, from its opening to its closing brace. *)
Definition PROMPT_EXAMPLE : pystr := dq_lines (firstn 20 (skipn 20 PROMPT_LINES)).

(** ** The MenuDocument of the specification *)

Fixpoint obj_get (k : pystr) (kvs : list (pystr * json)) : option json :=
  match kvs with
  | [] => None
  | (k', v) :: r => if pystr_eqb k k' then Some v else obj_get k r
  end.

Definition keys_among (ks : list pystr) (kvs : list (pystr * json)) : bool :=
  forallb (fun kv => existsb (pystr_eqb (fst kv)) ks) kvs.

Definition lower_str (s : pystr) : pystr := map lower s.

(** A brand is recognised up to case: the prompt lists [sierra nevada],
    its example answers [Sierra Nevada]. *)
Definition recognised_brand (b : pystr) : bool :=
  existsb (fun x => pystr_eqb (lower_str x) (lower_str b)) BRANDS.

(** The currency signs of U+0000-U+00FF (category Sc): [$], [¢], [£],
    [¤], [¥]. *)
Definition is_currency (c : ascii) : bool := (code c =? 36) || in_range 162 165 c.

Definition currency_prefixed (p : pystr) : bool :=
  match p with c :: _ => is_currency c | [] => false end.

(** An optional string field: absent, or a string satisfying [P]. *)
Definition opt_str (P : pystr -> bool) (o : option json) : bool :=
  match o with None => true | Some (JStr s) => P s | Some _ => false end.

Definition req_str (o : option json) : bool :=
  match o with Some (JStr _) => true | _ => false end.

Definition product_wf (v : json) : bool :=
  match v with
  | JObj kvs =>
      keys_among [lit "name"; lit "description"; lit "price"; lit "brand"] kvs &&
      req_str (obj_get (lit "name") kvs) &&
      opt_str (fun _ => true) (obj_get (lit "description") kvs) &&
      opt_str currency_prefixed (obj_get (lit "price") kvs) &&
      opt_str recognised_brand (obj_get (lit "brand") kvs)
  | _ => false
  end.

(** A non-negative number: an [int] at least 0, or a float whose sign bit
    is clear, or [-0.0]; never a NaN. *)
Definition percentage_ok (v : json) : bool :=
  match v with
  | JInt z => (0 <=? z)%Z
  | JFloat b => negb (is_nan_bits b) && ((b <? 2 ^ 63) || (b =? 2 ^ 63))%Z
  | _ => false
  end.

Definition menu_document_wf (v : json) : bool :=
  match v with
  | JObj kvs =>
      keys_among [lit "menu_summary"; lit "products"; lit "brand_percentages"] kvs &&
      req_str (obj_get (lit "menu_summary") kvs) &&
      match obj_get (lit "products") kvs with Some (JArr ps) => forallb product_wf ps | _ => false end &&
      match obj_get (lit "brand_percentages") kvs with
      | Some (JObj bs) =>
          forallb (fun kv => (recognised_brand (fst kv) || pystr_eqb (fst kv) (lit "unbranded"))
                             && percentage_ok (snd kv)) bs
      | _ => false
      end
  | _ => false
  end.

(** The sum of the percentages, when all of them are integers. *)
Definition percent_total (v : json) : option Z :=
  match v with
  | JObj kvs =>
      match obj_get (lit "brand_percentages") kvs with
      | Some (JObj bs) =>
          fold_right (fun kv acc => match snd kv, acc with
                                    | JInt z, Some t => Some (z + t)%Z
                                    | _, _ => None
                                    end) (Some 0%Z) bs
      | _ => None
      end
  | _ => None
  end.

(** ** Properties *)

(** The example the prompt shows the model is part of the prompt
    sent for every input, is valid JSON for [json.loads] (whatever the
    float runtime), is a MenuDocument of the specification, and its
    integer brand percentages sum to 100. *)
Theorem prompt_example_conforms `{JsonRuntime} input_text :
  (exists pre post, format_prompt input_text = pre ++ PROMPT_EXAMPLE ++ post) /\
  exists v, loads PROMPT_EXAMPLE = inr v /\ menu_document_wf v = true /\ percent_total v = Some 100%Z.
Proof.
  split.
  - exists (newline ++ dq_lines (firstn 20 PROMPT_LINES) ++ newline),
      (newline ++ dq_lines (skipn 40 PROMPT_LINES) ++ newline ++ lit "    " ++ input_text ++ PROMPT_TAIL).
    unfold format_prompt, PROMPT_HEAD, PROMPT_EXAMPLE. rewrite <- !app_assoc. reflexivity.
  - eexists. split; [vm_compute; reflexivity | split; vm_compute; reflexivity].
Qed.
