(* ===== verification/MenuApi.v ===== *)
(** * The HTTP layer ([src/menu_api.py]) and the whole pipeline

    A request carries the uploaded files ([request.files], field name
    and client file name) and the query arguments ([request.args]); a
    response is a status code and the JSON body [jsonify] sends.  The
    file system is the interface [FileSystem]: [os.path.exists],
    [file.save], [open(path, 'w')] and the writes of [json.dump].

    Both handlers run the same [try] body, [process_and_save]: extract,
    query, derive the output name with [Path.with_suffix(".json")], open
    the output file under [OUTPUT_FOLDER], write [json.dump]'s text
    ([JsonEncode]), answer 200; any exception of that body becomes a 500
    whose message is [str(e)].  [json.dump] writes its chunks as it
    produces them; the model computes the whole text and then writes it,
    which differs only when encoding fails half-way, and encoding never
    fails on a value [json.loads] produced ([loads_dump_roundtrip]). *)

From Stdlib Require Import String Ascii List Lia Bool PeanoNat ZArith.
From S2P Require Import Prelude PyStr PriceWords Effects PdfToText PyJson JsonDecode JsonEncode PyPath QueryLlm MenuSchema.
Import ListNotations.
Open Scope pdfmenu_scope.

Definition UPLOAD_FOLDER : pystr := lit "./example_pdfs".
Definition OUTPUT_FOLDER : pystr := lit "./output_jsons".

Record request : Type := {
  files : list (pystr * pystr);   (** field name, client file name *)
  args : list (pystr * pystr)     (** query arguments *)
}.

Record response : Type := { status : nat; body : json }.

Class FileSystem : Type := {
  path_exists : pystr -> bool;                (** [os.path.exists] *)
  save_file : pystr -> exn + unit;            (** [file.save(path)] *)
  open_write : pystr -> exn + unit;           (** [open(path, 'w')] *)
  write_text : pystr -> pystr -> exn + unit   (** the writes to that file *)
}.

(** [MultiDict.get(key)]: the first value of the key. *)
Fixpoint lookup_first (key : pystr) (kvs : list (pystr * pystr)) : option pystr :=
  match kvs with
  | [] => None
  | (k, v) :: r => if list_eq_dec ascii_dec k key then Some v else lookup_first key r
  end.

(** [jsonify({"error": msg})]. *)
Definition error_body (msg : pystr) : json := JObj [(lit "error", JStr msg)].

Definition reply (code : nat) (b : json) : M response := ret {| status := code; body := b |}.

Section Handlers.
Context `{PL : PdfLibraries} `{GM : GenerativeModel} `{JD : JsonDecoder} `{FS : FileSystem}
  `{RT : JsonRuntime}.

(** The [try] body shared by both routes (lines 38-49 and 67-78). *)
Definition process_and_save (file_path filename : pystr) : M response :=
  extracted_text <- extract_text_hybrid file_path ;;
  menu_json <- query_model_to_json extracted_text ;;
  json_filename <- lift (with_suffix filename (lit ".json")) ;;
  let json_path := os_path_join OUTPUT_FOLDER json_filename in
  call (EvWrite json_path) (open_write json_path) ;;;
  text <- lift (json_dump_text 2 menu_json) ;;
  call (EvDump text) (write_text json_path text) ;;;
  reply 200 menu_json.

(** [except Exception as e: return jsonify({"error": str(e)}), 500]. *)
Definition run_guarded (file_path filename : pystr) : M response :=
  catch (process_and_save file_path filename) (fun e => reply 500 (error_body (exn_message e))).

(** [POST /upload-pdf]. *)
Definition upload_pdf (req : request) : M response :=
  match lookup_first (lit "pdf") (files req) with
  | None => reply 400 (error_body (lit "No PDF file part"))
  | Some fname =>
      match fname with
      | [] => reply 400 (error_body (lit "No selected file"))
      | _ =>
          if endswith fname (lit ".pdf") then
            let file_path := os_path_join UPLOAD_FOLDER fname in
            call (EvSave file_path) (save_file file_path) ;;;
            run_guarded file_path fname
          else reply 400 (error_body (lit "Invalid file type. Please upload a PDF."))
      end
  end.

(** [GET /process-pdf?pdf=...]. *)
Definition process_pdf (req : request) : M response :=
  match lookup_first (lit "pdf") (args req) with
  | None | Some [] => reply 400 (error_body (lit "No PDF filename provided"))
  | Some pdf_filename =>
      let file_path := os_path_join UPLOAD_FOLDER pdf_filename in
      found <- call (EvExists file_path) (inr (path_exists file_path)) ;;
      if found then run_guarded file_path pdf_filename
      else reply 404 (error_body (lit "File " ++ pdf_filename ++ lit " not found"))
  end.
End Handlers.

(** A world for the examples: the menu of the specification's end-to-end
    test, with a text layer, a model whose reply decodes to the example
    document, and a file system in which every file exists and every
    write succeeds. *)
Definition spec_example_json : json :=
  JObj [(lit "menu_summary", JStr (lit "Beer menu with floral design"));
        (lit "products",
         JArr [JObj [(lit "name", JStr (lit "Sierra Nevada Pale Ale"));
                     (lit "description", JStr (lit "A crisp pale ale."));
                     (lit "price", JStr (lit "$13"));
                     (lit "brand", JStr (lit "Sierra Nevada"))];
               JObj [(lit "name", JStr (lit "House Draught Stout"));
                     (lit "price", JStr (lit "$10"))]]);
        (lit "brand_percentages",
         JObj [(lit "Sierra Nevada", JInt 20%Z); (lit "unbranded", JInt 80%Z)])].

(** The reply of the specification's example, as the model sends it. *)
Definition example_reply : pystr := jlit "{
  'menu_summary': 'Beer menu with floral design',
  'products': [
    {'name': 'Sierra Nevada Pale Ale', 'description': 'A crisp pale ale.', 'price': '$13', 'brand': 'Sierra Nevada'},
    {'name': 'House Draught Stout', 'price': '$10'}
  ],
  'brand_percentages': {'Sierra Nevada': 20, 'unbranded': 80}
}".

Definition example_model : GenerativeModel := echo_model (inr example_reply).

(** CPython's [json.loads], with the example float runtime. *)
Definition example_decoder : JsonDecoder := @cpython_json_decoder decimal_runtime.

Definition permissive_fs : FileSystem := {|
  path_exists := fun _ => true; save_file := fun _ => inr tt; open_write := fun _ => inr tt; write_text := fun _ _ => inr tt |}.

(** A file system in which no file exists. *)
Definition missing_fs : FileSystem := {|
  path_exists := fun _ => false; save_file := fun _ => inr tt;
  open_write := fun _ => inr tt; write_text := fun _ _ => inr tt |}.

(** A file system whose disk is full when the upload is saved. *)
Definition full_disk_fs : FileSystem := {|
  path_exists := fun _ => false; save_file := fun _ => inl (OSError (lit "disk full"));
  open_write := fun _ => inr tt; write_text := fun _ _ => inr tt |}.

Definition process_request (name : pystr) : request := {| files := []; args := [(lit "pdf", name)] |}.
Definition upload_request (name : pystr) : request := {| files := [(lit "pdf", name)]; args := [] |}.

(** ** The handlers' properties *)

Section HandlerProps.
Context `{PL : PdfLibraries} `{GM : GenerativeModel} `{JD : JsonDecoder} `{FS : FileSystem}
  `{RT : JsonRuntime}.

(** The [except] clause turns every exception of the body into a 500. *)
Lemma run_guarded_eq fp name :
  run_guarded fp name
  = (fst (process_and_save fp name),
     inr (match snd (process_and_save fp name) with
          | inl e => {| status := 500; body := error_body (exn_message e) |}
          | inr r => r
          end)).
Proof.
  unfold run_guarded, catch. destruct (process_and_save fp name) as [t [e|r]]; simpl;
    [rewrite app_nil_r|]; reflexivity.
Qed.

Lemma process_pdf_found req name :
  lookup_first (lit "pdf") (args req) = Some name -> name <> [] ->
  process_pdf req
  = let fp := os_path_join UPLOAD_FOLDER name in
    if path_exists fp
    then (EvExists fp :: fst (run_guarded fp name), snd (run_guarded fp name))
    else ([EvExists fp], inr {| status := 404; body := error_body (lit "File " ++ name ++ lit " not found") |}).
Proof.
  intros Hl Hne. unfold process_pdf. rewrite Hl. destruct name as [|c name]; [contradiction|].
  rewrite bind_call. destruct (path_exists _); [|reflexivity].
  destruct (run_guarded _ _); reflexivity.
Qed.

(** [process_pdf] never lets an exception escape: every outcome,
    including a failure of extraction, of the model, of decoding or of
    writing the output, is an HTTP response. *)
Theorem process_pdf_total req : exists r, snd (process_pdf req) = inr r.
Proof.
  unfold process_pdf. destruct (lookup_first (lit "pdf") (args req)) as [[|c name]|]; simpl; eauto.
  destruct (path_exists _); simpl; eauto. rewrite run_guarded_eq. simpl. eauto.
Qed.

(** C30: the only exception that can escape [upload_pdf] is the one
    raised by [file.save], which the handler calls outside its [try]. *)
Theorem upload_pdf_escape req e :
  snd (upload_pdf req) = inl e -> exists fname, save_file (os_path_join UPLOAD_FOLDER fname) = inl e.
Proof.
  unfold upload_pdf. destruct (lookup_first (lit "pdf") (files req)) as [[|c name]|];
    cbv iota beta; try (cbn; discriminate).
  case_goal; [|cbn; discriminate].
  rewrite bind_call. destruct (save_file _) as [e'|[]] eqn:Hsave.
  - intros [= <-]. eauto.
  - rewrite run_guarded_eq. discriminate.
Qed.

(** [upload_pdf] makes no call at all unless the [pdf] part names a
    file ending in [.pdf], and then its first call saves that file under
    the upload folder: a rejected request has no side effect, and
    nothing is extracted before the upload is saved. *)
Theorem upload_pdf_saves_first req ev t :
  fst (upload_pdf req) = ev :: t ->
  exists fname, lookup_first (lit "pdf") (files req) = Some fname /\
    endswith fname (lit ".pdf") = true /\ ev = EvSave (os_path_join UPLOAD_FOLDER fname).
Proof.
  unfold upload_pdf. destruct (lookup_first (lit "pdf") (files req)) as [[|c name]|];
    cbv iota beta; try (cbn; discriminate).
  case_goal; [|cbn; discriminate].
  rewrite bind_call. destruct (save_file _) as [e'|[]].
  - intros [= <- _]. eauto.
  - destruct (run_guarded _ _). intros [= <- _]. eauto.
Qed.
Lemma process_and_save_ok fp name t s text v jn out :
  extract_text_hybrid fp = (t, inr s) ->
  generate_content model (format_prompt s) = inr text -> json_loads text = inr v ->
  with_suffix name (lit ".json") = inr jn ->
  open_write (os_path_join OUTPUT_FOLDER jn) = inr tt ->
  json_dump_text 2 v = inr out -> write_text (os_path_join OUTPUT_FOLDER jn) out = inr tt ->
  process_and_save fp name
  = (t ++ [EvGenerate (format_prompt s); EvWrite (os_path_join OUTPUT_FOLDER jn); EvDump out],
     inr {| status := 200; body := v |}).
Proof.
  intros He Hg Hj Hw Ho Hd Hwr. unfold process_and_save. rewrite He. cbn [bind].
  unfold query_model_to_json. rewrite bind_call, Hg. cbn [bind lift]. rewrite Hj, Hw.
  cbn [bind lift]. rewrite bind_call, Ho. cbn [bind lift]. rewrite Hd. cbn [bind lift].
  rewrite bind_call, Hwr. cbn. rewrite <- ?app_assoc. reflexivity.
Qed.

(** When the output file cannot be opened, the body stops there: the
    extraction and the model call have been made, nothing is written. *)
Lemma process_and_save_open_fail fp name t s text v jn e :
  extract_text_hybrid fp = (t, inr s) ->
  generate_content model (format_prompt s) = inr text -> json_loads text = inr v ->
  with_suffix name (lit ".json") = inr jn ->
  open_write (os_path_join OUTPUT_FOLDER jn) = inl e ->
  process_and_save fp name
  = (t ++ [EvGenerate (format_prompt s); EvWrite (os_path_join OUTPUT_FOLDER jn)], inl e).
Proof.
  intros He Hg Hj Hw Ho. unfold process_and_save. rewrite He. cbn [bind].
  unfold query_model_to_json. rewrite bind_call, Hg. cbn [bind lift]. rewrite Hj, Hw.
  cbn [bind lift]. rewrite bind_call, Ho. cbn. rewrite <- ?app_assoc, ?app_nil_r. reflexivity.
Qed.

(** C5: the whole pipeline behind [GET /process-pdf]: for a file that
    exists, when extraction yields [s], the model replies with a document
    [json.loads] decodes to [v] and the output file is written, the answer
    is [200] with [v] unchanged, after exactly these calls in this order:
    the existence check, the extraction's calls, one model call with
    [format_prompt s], the opening of [name] with suffix [.json] under
    the output folder, and the write of [json.dump]'s text of [v]. *)
Theorem process_pdf_success req name t s text v jn out :
  lookup_first (lit "pdf") (args req) = Some name -> name <> [] ->
  path_exists (os_path_join UPLOAD_FOLDER name) = true ->
  extract_text_hybrid (os_path_join UPLOAD_FOLDER name) = (t, inr s) ->
  generate_content model (format_prompt s) = inr text -> json_loads text = inr v ->
  with_suffix name (lit ".json") = inr jn ->
  open_write (os_path_join OUTPUT_FOLDER jn) = inr tt ->
  json_dump_text 2 v = inr out -> write_text (os_path_join OUTPUT_FOLDER jn) out = inr tt ->
  process_pdf req
  = (EvExists (os_path_join UPLOAD_FOLDER name)
       :: t ++ [EvGenerate (format_prompt s); EvWrite (os_path_join OUTPUT_FOLDER jn); EvDump out],
     inr {| status := 200; body := v |}).
Proof.
  intros Hl Hne Hx He Hg Hj Hw Ho Hd Hwr. rewrite (process_pdf_found _ _ Hl Hne). cbv zeta.
  rewrite Hx, run_guarded_eq, (process_and_save_ok _ _ _ _ _ _ _ _ He Hg Hj Hw Ho Hd Hwr). reflexivity.
Qed.

(** C29: when any stage of the pipeline raises, [process_pdf] answers
    [500] with the exception's message, after the calls made up to the
    failure and no further one. *)
Theorem process_pdf_failure req name t e :
  lookup_first (lit "pdf") (args req) = Some name -> name <> [] ->
  path_exists (os_path_join UPLOAD_FOLDER name) = true ->
  process_and_save (os_path_join UPLOAD_FOLDER name) name = (t, inl e) ->
  process_pdf req
  = (EvExists (os_path_join UPLOAD_FOLDER name) :: t,
     inr {| status := 500; body := error_body (exn_message e) |}).
Proof.
  intros Hl Hne Hx Hp. rewrite (process_pdf_found _ _ Hl Hne). cbv zeta.
  rewrite Hx, run_guarded_eq, Hp. reflexivity.
Qed.

(** A file name that does not exist under the upload folder gets
    [404] after the existence check alone. *)
Theorem process_pdf_not_found req name :
  lookup_first (lit "pdf") (args req) = Some name -> name <> [] ->
  path_exists (os_path_join UPLOAD_FOLDER name) = false ->
  process_pdf req
  = ([EvExists (os_path_join UPLOAD_FOLDER name)],
     inr {| status := 404; body := error_body (lit "File " ++ name ++ lit " not found") |}).
Proof. intros Hl Hne Hx. rewrite (process_pdf_found _ _ Hl Hne). cbv zeta. rewrite Hx. reflexivity. Qed.
(** The only write of the pipeline is the output file, named by
    [with_suffix] and placed with [os.path.join] under the output folder. *)
Lemma process_and_save_writes fp name :
  trace_all (fun ev => match ev with
                       | EvWrite p => exists jn, with_suffix name (lit ".json") = inr jn /\
                                                 p = os_path_join OUTPUT_FOLDER jn
                       | EvSave _ => False
                       | _ => True
                       end) (process_and_save fp name).
Proof.
  unfold process_and_save. apply trace_all_bind; [apply extract_text_hybrid_trace; auto|].
  intros s. apply trace_all_bind; [apply query_model_to_json_trace; exact I|].
  intros v. apply trace_all_bind_ok; [apply trace_all_lift|]. intros jn Hjn. simpl in Hjn.
  apply trace_all_bind; [apply trace_all_call; simpl; eauto|]. intros _.
  apply trace_all_bind; [apply trace_all_lift|]. intros text.
  apply trace_all_bind; [apply trace_all_call; exact I|]. intros _. apply trace_all_ret.
Qed.

(** C8: [process_pdf] does not confine the client's file name: for an
    absolute name the file checked and read is that absolute path,
    outside the upload folder, and the JSON is written next to it, to
    the absolute path with suffix [.json], outside the output folder. *)
Theorem process_pdf_absolute_path req name :
  lookup_first (lit "pdf") (args req) = Some name -> startswith name [slash] = true ->
  os_path_join UPLOAD_FOLDER name = name /\
  forall p, In (EvWrite p) (fst (process_pdf req)) ->
    exists jn, with_suffix name (lit ".json") = inr jn /\ p = jn /\ startswith p [slash] = true.
Proof.
  intros Hl Hs. pose proof (os_path_join_absolute UPLOAD_FOLDER name Hs) as Hup.
  split; [exact Hup|]. intros p Hin.
  assert (Hne : name <> []) by (destruct name; discriminate).
  rewrite (process_pdf_found _ _ Hl Hne) in Hin. cbv zeta in Hin.
  destruct (path_exists _); simpl in Hin; [|destruct Hin as [H|[]]; discriminate].
  destruct Hin as [H|Hin]; [discriminate|]. rewrite run_guarded_eq in Hin. simpl in Hin.
  pose proof (proj1 (Forall_forall _ _) (process_and_save_writes _ name) _ Hin) as (jn & Hjn & ->).
  pose proof (with_suffix_absolute _ _ _ Hs Hjn) as Habs.
  exists jn. rewrite (os_path_join_absolute _ _ Habs). auto.
Qed.
(** What a successful [try] body has done: decoded the reply to [v],
    written [json.dump]'s text of [v], and answered [200] with [v]. *)
Lemma process_and_save_result fp name r :
  snd (process_and_save fp name) = inr r ->
  exists text v out, json_loads text = inr v /\ json_dump_text 2 v = inr out /\
    In (EvDump out) (fst (process_and_save fp name)) /\ r = {| status := 200; body := v |}.
Proof.
  unfold process_and_save, query_model_to_json.
  destruct (extract_text_hybrid fp) as [t1 [e|s]]; cbn [bind]; [discriminate|].
  rewrite !bind_call. destruct (generate_content model (format_prompt s)) as [e|text]; cbn [bind lift snd];
    [discriminate|].
  destruct (json_loads text) as [e|v] eqn:Hj; cbn [bind lift snd]; [discriminate|].
  destruct (with_suffix name (lit ".json")) as [e|jn]; cbn [bind lift snd]; [discriminate|].
  rewrite bind_call. destruct (open_write _) as [e|[]]; cbn [bind lift snd]; [discriminate|].
  destruct (json_dump_text 2 v) as [e|out] eqn:Hd; cbn [bind lift snd]; [discriminate|].
  rewrite bind_call. destruct (write_text _ out) as [e|[]]; cbn [bind lift snd]; [discriminate|].
  intros [= <-]. exists text, v, out. repeat split; auto. cbn. rewrite !in_app_iff. simpl. tauto.
Qed.

(** A [200] from [process_pdf] comes from its [try] body. *)
Lemma process_pdf_200 req r :
  snd (process_pdf req) = inr r -> status r = 200 ->
  exists fp nm, snd (process_and_save fp nm) = inr r /\
    incl (fst (process_and_save fp nm)) (fst (process_pdf req)).
Proof.
  unfold process_pdf. destruct (lookup_first (lit "pdf") (args req)) as [[|c name]|];
    try (intros [= <-]; discriminate).
  rewrite bind_call. destruct (path_exists _); cbn [bind snd fst]; [|intros [= <-]; discriminate].
  rewrite run_guarded_eq. cbn [snd fst].
  destruct (snd (process_and_save _ _)) as [e|r'] eqn:E; [intros [= <-]; discriminate|].
  intros [= <-] _. do 2 eexists. split; [exact E|]. intros ev Hin. right. exact Hin.
Qed.

Lemma upload_pdf_found req name :
  lookup_first (lit "pdf") (files req) = Some name -> endswith name (lit ".pdf") = true ->
  upload_pdf req
  = let fp := os_path_join UPLOAD_FOLDER name in
    match save_file fp with
    | inl e => ([EvSave fp], inl e)
    | inr _ => (EvSave fp :: fst (run_guarded fp name), snd (run_guarded fp name))
    end.
Proof.
  intros Hl Hend. unfold upload_pdf. rewrite Hl. destruct name as [|c name]; [discriminate|].
  cbv iota beta zeta. rewrite Hend, bind_call.
  destruct (save_file _); [reflexivity|]. destruct (run_guarded _ _); reflexivity.
Qed.

(** The whole pipeline behind [POST /upload-pdf]: when the upload
    is saved under the upload folder, extraction yields [s], the model's
    reply decodes to [v] and the output file is written, the answer is
    [200] with [v] unchanged, after the save, the extraction's calls, one
    model call with [format_prompt s], the opening of the [.json] file
    under the output folder and the write of [json.dump]'s text of [v]. *)
Theorem upload_pdf_success req name t s text v jn out :
  lookup_first (lit "pdf") (files req) = Some name -> endswith name (lit ".pdf") = true ->
  save_file (os_path_join UPLOAD_FOLDER name) = inr tt ->
  extract_text_hybrid (os_path_join UPLOAD_FOLDER name) = (t, inr s) ->
  generate_content model (format_prompt s) = inr text -> json_loads text = inr v ->
  with_suffix name (lit ".json") = inr jn ->
  open_write (os_path_join OUTPUT_FOLDER jn) = inr tt ->
  json_dump_text 2 v = inr out -> write_text (os_path_join OUTPUT_FOLDER jn) out = inr tt ->
  upload_pdf req
  = (EvSave (os_path_join UPLOAD_FOLDER name)
       :: t ++ [EvGenerate (format_prompt s); EvWrite (os_path_join OUTPUT_FOLDER jn); EvDump out],
     inr {| status := 200; body := v |}).
Proof.
  intros Hl Hend Hs He Hg Hj Hw Ho Hd Hwr. rewrite (upload_pdf_found _ _ Hl Hend). cbv zeta.
  rewrite Hs, run_guarded_eq, (process_and_save_ok _ _ _ _ _ _ _ _ He Hg Hj Hw Ho Hd Hwr). reflexivity.
Qed.

(** A [200] from [upload_pdf] comes from its [try] body. *)
Lemma upload_pdf_200 req r :
  snd (upload_pdf req) = inr r -> status r = 200 ->
  exists fp nm, snd (process_and_save fp nm) = inr r /\
    incl (fst (process_and_save fp nm)) (fst (upload_pdf req)).
Proof.
  unfold upload_pdf. destruct (lookup_first (lit "pdf") (files req)) as [[|c name]|];
    cbv iota beta zeta; try (intros [= <-]; discriminate).
  destruct (endswith _ _); [|intros [= <-]; discriminate].
  rewrite bind_call. destruct (save_file _) as [e|[]]; cbn [bind snd fst]; [discriminate|].
  rewrite run_guarded_eq. cbn [snd fst].
  destruct (snd (process_and_save _ _)) as [e|r'] eqn:E; [intros [= <-]; discriminate|].
  intros [= <-] _. do 2 eexists. split; [exact E|]. intros ev Hin. right. exact Hin.
Qed.

End HandlerProps.

Section Persistence.
Context `{PL : PdfLibraries} `{GM : GenerativeModel} `{FS : FileSystem} `{RT : JsonRuntime}.
Hypothesis repr_literal :
  forall b, float_ok b = true -> special_float b = false -> float_literal (py_float_repr b) = true.
Hypothesis repr_roundtrip :
  forall b, float_ok b = true -> special_float b = false -> py_float (py_float_repr b) = b.
Hypothesis py_float_ok : forall s, float_ok (py_float s) = true.

(** The output file of a successful [try] body reloads to its answer. *)
Lemma process_and_save_reloads fp nm r :
  snd (@process_and_save _ _ cpython_json_decoder _ _ fp nm) = inr r ->
  exists out, In (EvDump out) (fst (@process_and_save _ _ cpython_json_decoder _ _ fp nm)) /\
              loads out = inr (body r).
Proof.
  intros Hs. destruct (process_and_save_result _ _ _ Hs) as (text & v & out & Hj & Hd & Hin & ->).
  exists out. split; [exact Hin|]. cbn [body].
  destruct (dump_text_loads repr_literal repr_roundtrip 2 v (loads_result_wf py_float_ok text v Hj))
    as (t & Ht & Hl).
  rewrite Hd in Ht. injection Ht as <-. exact Hl.
Qed.

(** C6: with CPython's [json.loads] as the decoder, whenever
    [GET /process-pdf] answers [200], the text it wrote to the output
    file is read back by [json.loads] as exactly the body it answered
    with: the saved file and the response agree. *)
Theorem process_pdf_output_reloads req r :
  snd (@process_pdf _ _ cpython_json_decoder _ _ req) = inr r -> status r = 200 ->
  exists out, In (EvDump out) (fst (@process_pdf _ _ cpython_json_decoder _ _ req)) /\ loads out = inr (body r).
Proof.
  intros Hr H200. destruct (process_pdf_200 _ _ Hr H200) as (fp & nm & Hs & Hincl).
  destruct (process_and_save_reloads _ _ _ Hs) as (out & Hin & Hl). exists out. auto.
Qed.

(** With CPython's [json.loads] as the decoder, whenever
    [POST /upload-pdf] answers [200], the text it wrote to the output
    file is read back by [json.loads] as exactly the body it answered
    with. *)
Theorem upload_pdf_output_reloads req r :
  snd (@upload_pdf _ _ cpython_json_decoder _ _ req) = inr r -> status r = 200 ->
  exists out, In (EvDump out) (fst (@upload_pdf _ _ cpython_json_decoder _ _ req)) /\ loads out = inr (body r).
Proof.
  intros Hr H200. destruct (upload_pdf_200 _ _ Hr H200) as (fp & nm & Hs & Hincl).
  destruct (process_and_save_reloads _ _ _ Hs) as (out & Hin & Hl). exists out. auto.
Qed.

(** Every answer of a handler carries a well-formed JSON value: an
    error dict with one string, or the value [json.loads] decoded. *)
Lemma error_body_wf msg : json_wf (error_body msg) = true.
Proof. reflexivity. Qed.

Lemma run_guarded_body_wf fp nm r :
  snd (@run_guarded _ _ cpython_json_decoder _ _ fp nm) = inr r -> json_wf (body r) = true.
Proof.
  rewrite run_guarded_eq. cbn [snd]. destruct (snd (process_and_save fp nm)) as [e|r'] eqn:E;
    intros [= <-]; [apply error_body_wf|].
  destruct (process_and_save_result _ _ _ E) as (text & v & out & Hj & _ & _ & ->).
  exact (loads_result_wf py_float_ok _ _ Hj).
Qed.

Lemma handlers_body_wf req r :
  (snd (@upload_pdf _ _ cpython_json_decoder _ _ req) = inr r \/
   snd (@process_pdf _ _ cpython_json_decoder _ _ req) = inr r) -> json_wf (body r) = true.
Proof.
  intros [H|H].
  - revert H. unfold upload_pdf. destruct (lookup_first (lit "pdf") (files req)) as [[|c name]|];
      cbv iota beta zeta; try (intros [= <-]; reflexivity).
    destruct (endswith _ _); [|intros [= <-]; reflexivity].
    rewrite bind_call. destruct (save_file _) as [e|[]]; cbn [bind snd]; [discriminate|].
    destruct (run_guarded _ _) as [t' r'] eqn:E. intros H.
    apply (run_guarded_body_wf (os_path_join UPLOAD_FOLDER (c :: name)) (c :: name) r).
    rewrite E. exact H.
  - revert H. unfold process_pdf. destruct (lookup_first (lit "pdf") (args req)) as [[|c name]|];
      try (intros [= <-]; reflexivity).
    rewrite bind_call. destruct (path_exists _); cbn [bind snd]; [|intros [= <-]; reflexivity].
    destruct (run_guarded _ _) as [t' r'] eqn:E. intros H.
    apply (run_guarded_body_wf (os_path_join UPLOAD_FOLDER (c :: name)) (c :: name) r).
    rewrite E. exact H.
Qed.

End Persistence.


Lemma upload_pdf_escape_witness :
  exists fname, save_file (FileSystem := full_disk_fs) (os_path_join UPLOAD_FOLDER fname)
                = inl (OSError (lit "disk full")).
Proof.
  apply (@upload_pdf_escape text_pdf example_model example_decoder full_disk_fs decimal_runtime
           {| files := [(lit "pdf", lit "menu.pdf")]; args := [] |}).
  reflexivity.
Defined.

Lemma upload_pdf_saves_first_witness :
  exists fname, lookup_first (lit "pdf") [(lit "pdf", lit "menu.pdf")] = Some fname /\
    endswith fname (lit ".pdf") = true /\
    EvSave (os_path_join UPLOAD_FOLDER (lit "menu.pdf")) = EvSave (os_path_join UPLOAD_FOLDER fname).
Proof.
  eapply (@upload_pdf_saves_first text_pdf example_model example_decoder permissive_fs decimal_runtime
            {| files := [(lit "pdf", lit "menu.pdf")]; args := [] |}).
  reflexivity.
Defined.

(** The end-to-end test of the specification: a menu whose text layer
    reads "Sierra Nevada Pale Ale S13" and a model stubbed with the
    example reply of the specification give, through CPython's
    [json.loads], the example document with status 200. *)
Lemma process_pdf_success_witness :
  exists out, @json_dump_text decimal_runtime 2 spec_example_json = inr out /\
  @process_pdf text_pdf example_model example_decoder permissive_fs decimal_runtime
    (process_request (lit "menu.pdf"))
  = (EvExists (os_path_join UPLOAD_FOLDER (lit "menu.pdf"))
       :: [EvOpen (os_path_join UPLOAD_FOLDER (lit "menu.pdf")); EvExtract 1; EvExtract 2; EvClose; EvClose]
       ++ [EvGenerate (format_prompt (serialize_pages [(1, lit "Sierra Nevada Pale Ale S13")]));
           EvWrite (os_path_join OUTPUT_FOLDER (lit "menu.json")); EvDump out],
     inr {| status := 200; body := spec_example_json |}).
Proof.
  eexists. split; [reflexivity|].
  apply (@process_pdf_success text_pdf example_model example_decoder permissive_fs decimal_runtime
           _ (lit "menu.pdf") _ _ example_reply); first [reflexivity | discriminate].
Defined.

Lemma process_pdf_failure_witness :
  @process_pdf text_pdf (echo_model (inl (ModelError (lit "quota exceeded")))) example_decoder
    permissive_fs decimal_runtime (process_request (lit "menu.pdf"))
  = (EvExists (os_path_join UPLOAD_FOLDER (lit "menu.pdf"))
       :: [EvOpen (os_path_join UPLOAD_FOLDER (lit "menu.pdf")); EvExtract 1; EvExtract 2; EvClose; EvClose;
           EvGenerate (format_prompt (serialize_pages [(1, lit "Sierra Nevada Pale Ale S13")]))],
     inr {| status := 500; body := error_body (lit "quota exceeded") |}).
Proof.
  apply (@process_pdf_failure text_pdf (echo_model (inl (ModelError (lit "quota exceeded"))))
           example_decoder permissive_fs decimal_runtime _ (lit "menu.pdf") _ (ModelError (lit "quota exceeded")));
    first [reflexivity | discriminate].
Defined.

Lemma process_pdf_not_found_witness :
  @process_pdf text_pdf example_model example_decoder missing_fs decimal_runtime
    (process_request (lit "missing.pdf"))
  = ([EvExists (os_path_join UPLOAD_FOLDER (lit "missing.pdf"))],
     inr {| status := 404; body := error_body (lit "File missing.pdf not found") |}).
Proof.
  apply (@process_pdf_not_found text_pdf example_model example_decoder missing_fs decimal_runtime);
    first [reflexivity | discriminate].
Defined.

Lemma process_pdf_absolute_path_witness :
  os_path_join UPLOAD_FOLDER (lit "/tmp/menu.pdf") = lit "/tmp/menu.pdf" /\
  forall p, In (EvWrite p) (fst (@process_pdf text_pdf example_model example_decoder permissive_fs decimal_runtime
                                    (process_request (lit "/tmp/menu.pdf")))) ->
    exists jn, with_suffix (lit "/tmp/menu.pdf") (lit ".json") = inr jn /\ p = jn /\
               startswith p [slash] = true.
Proof.
  apply (@process_pdf_absolute_path text_pdf example_model example_decoder permissive_fs decimal_runtime);
    reflexivity.
Defined.

(** The file opened for writing for [?pdf=/tmp/menu.pdf] is
    [/tmp/menu.json]. *)
Example process_pdf_absolute_write :
  nth_error (fst (@process_pdf text_pdf example_model example_decoder permissive_fs decimal_runtime
                    (process_request (lit "/tmp/menu.pdf")))) 7
  = Some (EvWrite (lit "/tmp/menu.json")).
Proof. vm_compute. reflexivity. Qed.

Lemma process_pdf_output_reloads_witness :
  snd (@process_pdf text_pdf example_model example_decoder permissive_fs decimal_runtime
         (process_request (lit "menu.pdf"))) = inr {| status := 200; body := spec_example_json |} /\
  exists out, In (EvDump out) (fst (@process_pdf text_pdf example_model example_decoder permissive_fs
                                      decimal_runtime (process_request (lit "menu.pdf")))) /\
              @loads decimal_runtime out = inr spec_example_json.
Proof.
  split; [vm_compute; reflexivity|].
  apply (@process_pdf_output_reloads text_pdf example_model permissive_fs decimal_runtime
           (fun b _ _ => decimal_repr_literal b) decimal_repr_roundtrip decimal_float_ok
           (process_request (lit "menu.pdf")) {| status := 200; body := spec_example_json |});
    [vm_compute; reflexivity | reflexivity].
Defined.

(** A model that answers in prose instead of JSON makes
    [GET /process-pdf] answer [500] with the decoder's bare message,
    which names neither the structuring stage nor the model: the client
    cannot tell a malformed model reply from an extraction failure. *)
Example process_pdf_prose_reply :
  snd (@process_pdf text_pdf (echo_model (inr (lit "Sure! Here is the menu as JSON:"))) example_decoder
         permissive_fs decimal_runtime (process_request (lit "menu.pdf")))
  = inr {| status := 500; body := error_body (lit "Expecting value: line 1 column 1 (char 0)") |}.
Proof. vm_compute. reflexivity. Qed.

Lemma upload_pdf_success_witness :
  exists out, @json_dump_text decimal_runtime 2 spec_example_json = inr out /\
  @upload_pdf text_pdf example_model example_decoder permissive_fs decimal_runtime
    (upload_request (lit "menu.pdf"))
  = (EvSave (os_path_join UPLOAD_FOLDER (lit "menu.pdf"))
       :: [EvOpen (os_path_join UPLOAD_FOLDER (lit "menu.pdf")); EvExtract 1; EvExtract 2; EvClose; EvClose]
       ++ [EvGenerate (format_prompt (serialize_pages [(1, lit "Sierra Nevada Pale Ale S13")]));
           EvWrite (os_path_join OUTPUT_FOLDER (lit "menu.json")); EvDump out],
     inr {| status := 200; body := spec_example_json |}).
Proof.
  eexists. split; [reflexivity|].
  apply (@upload_pdf_success text_pdf example_model example_decoder permissive_fs decimal_runtime
           _ (lit "menu.pdf") _ _ example_reply); reflexivity.
Defined.

Lemma upload_pdf_output_reloads_witness :
  snd (@upload_pdf text_pdf example_model example_decoder permissive_fs decimal_runtime
         (upload_request (lit "menu.pdf"))) = inr {| status := 200; body := spec_example_json |} /\
  exists out, In (EvDump out) (fst (@upload_pdf text_pdf example_model example_decoder permissive_fs
                                      decimal_runtime (upload_request (lit "menu.pdf")))) /\
              @loads decimal_runtime out = inr spec_example_json.
Proof.
  split; [vm_compute; reflexivity|].
  apply (@upload_pdf_output_reloads text_pdf example_model permissive_fs decimal_runtime
           (fun b _ _ => decimal_repr_literal b) decimal_repr_roundtrip decimal_float_ok
           (upload_request (lit "menu.pdf")) {| status := 200; body := spec_example_json |});
    [vm_compute; reflexivity | reflexivity].
Defined.

(** The service checks nothing beyond JSON: a model reply that
    decodes to a value which is not a MenuDocument (here the array
    [[1, 2]]) is answered with [200] like any other, while the
    specification's own example is a MenuDocument. *)
Example process_pdf_no_schema_check :
  menu_document_wf spec_example_json = true /\
  menu_document_wf (JArr [JInt 1; JInt 2]) = false /\
  snd (@process_pdf text_pdf (echo_model (inr (lit "[1, 2]"))) example_decoder
         permissive_fs decimal_runtime (process_request (lit "menu.pdf")))
  = inr {| status := 200; body := JArr [JInt 1; JInt 2] |}.
Proof. vm_compute. repeat split. Qed.
