(* ===== verification/Server.v ===== *)
(** * The service over a sequence of requests

    [MenuApi] runs one request against a [FileSystem] whose answers are
    fixed.  Here the file system is a disk, a list of files (path and
    content) that each request changes, and the service is a step
    function [serve] from a disk and a request to the next disk and the
    answer; [reachable] is the set of disks a run of requests can leave,
    starting from a disk with no [.json] file.

    The world also holds the directories, as normalised paths: a path is
    a directory when its [posixpath.normpath] is one of them, or is [.],
    [/] or ends in [..] ([is_dir]).  The import of [menu_api] makes the
    two folders with [os.makedirs(..., exist_ok=True)] ([import_menu_api],
    [makedirs], [mkdir]); [app_main] is the module run as a script: the
    import, then [app.run] serving the requests in turn ([serve_all]).
    [os.path.exists] is true of a directory or a stored file.  A
    request's calls change the disk as its trace says: [file.save(p)]
    stores the upload at [p] and [open(p, 'w')] truncates [p], each only
    when [open] finds [p]'s parent directory and [p] is not one
    ([open_error] gives the [OSError] otherwise, [ENOENT], [ENOTDIR] or
    [EISDIR]), and [json.dump]'s text is appended to the file opened last
    ([apply_event]).  The calls of a request read the disk before
    writing it ([os.path.exists] is the first call of [process_pdf]), so
    the disk at the start of the request answers them exactly.  Files
    are compared by their spelling: two spellings of one file ([a/../b]
    and [b]) are two files of the model.  The bytes of an upload are not
    in the request model; [upload_bytes] stands for them.  The PDF
    libraries and the model do not read the disk (they are the
    interfaces of
    [PdfToText] and [QueryLlm]). *)

From Stdlib Require Import String Ascii List Lia Bool PeanoNat ZArith.
From S2P Require Import Prelude PyStr Effects PdfToText PyJson JsonDecode JsonEncode PyPath QueryLlm MenuApi.
Import ListNotations.
Open Scope pdfmenu_scope.

(** ** The disk *)

Definition files_t : Type := list (pystr * pystr).

Fixpoint get_file (d : files_t) (p : pystr) : option pystr :=
  match d with
  | [] => None
  | (q, c) :: r => if pystr_eqb p q then Some c else get_file r p
  end.

Fixpoint put_file (d : files_t) (p c : pystr) : files_t :=
  match d with
  | [] => [(p, c)]
  | (q, c') :: r => if pystr_eqb p q then (q, c) :: r else (q, c') :: put_file r p c
  end.

Record world : Type := { disk : files_t; dirs : list pystr; writing : option pystr }.

(** ** Directories

    Directories are compared after [posixpath.normpath]: the current
    directory, the root and the ancestors of the current directory (the
    leading [..] components [normpath] keeps) always exist; the others
    are those of [dirs].  A [..] is thus resolved on the text, where the
    kernel resolves it on the tree: [a/..] is the current directory here
    even when [a] is missing or a file.  A trailing slash is kept as the
    kernel reads it: the last component must then be a directory
    ([names_file]), [mkdir] still finds a file there taken ([entry_at]),
    and [open] for writing fails with [EISDIR].  On paths without [..]
    the model agrees with Linux: [open(p, 'w')], [os.makedirs] and
    [os.path.isdir] were compared on random trees and paths. *)

Definition same_path (p q : pystr) : bool := pystr_eqb (posix_normpath p) (posix_normpath q).

Definition is_dir (w : world) (p : pystr) : bool :=
  let n := posix_normpath p in
  forallb (Ascii.eqb slash) n || pystr_eqb (last (split_on slash n) []) (lit "..") || pystr_eqb n (lit ".")
  || existsb (same_path p) (dirs w).

(** A path can name a file only when its last component is a name: a
    trailing slash, [.] or [..] asks for a directory. *)
Definition names_file (p : pystr) : bool :=
  let c := last (split_on slash p) [] in
  truthy c && negb (pystr_eqb c (lit ".")) && negb (pystr_eqb c (lit "..")).

Definition file_at (w : world) (p : pystr) : bool :=
  names_file p && existsb (fun f => same_path p (fst f)) (disk w).

(** [os.path.exists(p)]. *)
Definition exists_at (w : world) (p : pystr) : bool := is_dir w p || file_at w p.

(** An entry of any kind at the last component, whatever slashes follow
    it: what [mkdir] finds taken. *)
Definition entry_at (w : world) (p : pystr) : bool :=
  is_dir w p || existsb (fun f => same_path p (fst f)) (disk w).

(** The directories a path goes through, from the first: ["a/b"] gives
    ["a"] and ["a/b"], ["/a"] gives ["/a"]. *)
Fixpoint prefixes_from (cur : pystr) (comps : list pystr) : list pystr :=
  match comps with
  | [] => []
  | c :: r =>
      if truthy c then
        let nxt := (if truthy cur && negb (endswith cur [slash]) then cur ++ [slash] else cur) ++ c in
        nxt :: prefixes_from nxt r
      else prefixes_from (cur ++ [slash]) r
  end.

(** The lookup of the directories in order: [None] when all exist,
    [Some true] when one is a file ([ENOTDIR]), [Some false] when one is
    missing ([ENOENT]). *)
Fixpoint walk (w : world) (qs : list pystr) : option bool :=
  match qs with
  | [] => None
  | q :: r => if is_dir w q then walk w r else Some (file_at w q)
  end.

(** The directory the kernel looks the last component up in: the
    dirname once the trailing slashes are dropped. *)
Definition parent_dirs (p : pystr) : list pystr :=
  prefixes_from [] (split_on slash (posix_normpath (posix_dirname (rev (lstrip_slash (rev p)))))).

Definition parent_walk (w : world) (p : pystr) : option bool := walk w (parent_dirs p).

(** The [OSError] of [open(p, 'w')] and [open(p, 'wb')] (which
    [file.save] calls), as [str(e)] shows it: a path ending in a slash
    cannot be created ([O_CREAT] gives [EISDIR]). *)
Definition open_error (w : world) (p : pystr) : option exn :=
  match parent_walk w p with
  | Some true => Some (OSError (lit "[Errno 20] Not a directory: " ++ py_repr_str p))
  | Some false => Some (OSError (lit "[Errno 2] No such file or directory: " ++ py_repr_str p))
  | None =>
      if is_dir w p || endswith p [slash] then Some (OSError (lit "[Errno 21] Is a directory: " ++ py_repr_str p))
      else None
  end.

(** [os.mkdir(name)]. *)
Definition mkdir (w : world) (name : pystr) : exn + world :=
  match parent_walk w name with
  | Some true => inl (OSError (lit "[Errno 20] Not a directory: " ++ py_repr_str name))
  | Some false => inl (OSError (lit "[Errno 2] No such file or directory: " ++ py_repr_str name))
  | None =>
      if entry_at w name then inl (OSError (lit "[Errno 17] File exists: " ++ py_repr_str name))
      else inr {| disk := disk w; dirs := posix_normpath name :: dirs w; writing := writing w |}
  end.

(** [FileExistsError] is the [OSError] of [errno] 17. *)
Definition is_file_exists (e : exn) : bool :=
  match e with OSError m => startswith m (lit "[Errno 17]") | _ => false end.

(** [os.makedirs(name, exist_ok=True)]: the missing parents first (their
    [FileExistsError] ignored), nothing more for a name ending in [/.],
    then [mkdir], whose error is ignored when the name is a directory.
    The fuel is the length of the name: each recursive call is on a
    shorter head. *)
Fixpoint makedirs (fuel : nat) (w : world) (name : pystr) : exn + world :=
  match fuel with
  | 0 => inr w
  | S f =>
      let '(head, tail) := let '(h, t) := posix_split name in if truthy t then (h, t) else posix_split h in
      let parents :=
        if truthy head && truthy tail && negb (exists_at w head) then
          match makedirs f w head with
          | inl e => if is_file_exists e then inr (w, pystr_eqb tail (lit ".")) else inl e
          | inr w1 => inr (w1, pystr_eqb tail (lit "."))
          end
        else inr (w, false) in
      match parents with
      | inl e => inl e
      | inr (w1, true) => inr w1
      | inr (w1, false) =>
          match mkdir w1 name with
          | inr w2 => inr w2
          | inl e => if is_dir w1 name then inr w1 else inl e
          end
      end
  end.

Definition os_makedirs (w : world) (name : pystr) : exn + world := makedirs (S (length name)) w name.

(** The import of [menu_api] (lines 12-20): both folders made; the
    [UPLOAD_FOLDER] of [app.config] is the constant [upload_pdf] reads. *)
Definition import_menu_api (w : world) : exn + world :=
  match os_makedirs w UPLOAD_FOLDER with
  | inl e => inl e
  | inr w1 => os_makedirs w1 OUTPUT_FOLDER
  end.

(** The file system a request sees. *)
Definition disk_fs (w : world) : FileSystem := {|
  path_exists p := exists_at w p;
  save_file p := match open_error w p with Some e => inl e | None => inr tt end;
  open_write p := match open_error w p with Some e => inl e | None => inr tt end;
  write_text _ _ := inr tt
|}.

Inductive route : Type :=
| Upload (req : request)      (** [POST /upload-pdf] *)
| Process (req : request).    (** [GET /process-pdf] *)

(** The uploads the service can save once started: a name ending in
    [.pdf] must have no slash and must not name a directory of the upload
    folder, or [file.save] raises outside the handler's [try]. *)
Definition upload_ok (w : world) (rt : route) : bool :=
  match rt with
  | Upload q =>
      match lookup_first (lit "pdf") (files q) with
      | Some n => negb (endswith n (lit ".pdf"))
                  || (forallb (fun x => negb (Ascii.eqb slash x)) n && negb (is_dir w (os_path_join UPLOAD_FOLDER n)))
      | None => true
      end
  | Process _ => true
  end.

Section Server.
Context `{PL : PdfLibraries} `{GM : GenerativeModel} `{RT : JsonRuntime}.
Variable upload_bytes : pystr.
(** What CPython's floats guarantee ([JsonEncode]). *)
Hypothesis repr_literal :
  forall b, float_ok b = true -> special_float b = false -> float_literal (py_float_repr b) = true.
Hypothesis repr_roundtrip :
  forall b, float_ok b = true -> special_float b = false -> py_float (py_float_repr b) = b.
Hypothesis py_float_ok : forall s, float_ok (py_float s) = true.

(** What a call does to the disk: a save or an open that fails changes
    nothing. *)
Definition apply_event (w : world) (ev : event) : world :=
  match ev with
  | EvSave p =>
      match open_error w p with
      | None => {| disk := put_file (disk w) p upload_bytes; dirs := dirs w; writing := writing w |}
      | Some _ => w
      end
  | EvWrite p =>
      match open_error w p with
      | None => {| disk := put_file (disk w) p []; dirs := dirs w; writing := Some p |}
      | Some _ => w
      end
  | EvDump t =>
      match writing w with
      | Some p => {| disk := put_file (disk w) p (match get_file (disk w) p with
                                                   | Some c => c | None => [] end ++ t);
                     dirs := dirs w; writing := Some p |}
      | None => w
      end
  | _ => w
  end.

Definition handle (w : world) (rt : route) : M response :=
  match rt with
  | Upload q => @upload_pdf PL GM cpython_json_decoder (disk_fs w) RT q
  | Process q => @process_pdf PL GM cpython_json_decoder (disk_fs w) RT q
  end.

(** One request: its calls applied to the disk in order; the output file
    is closed when the request ends. *)
Definition serve (w : world) (rt : route) : world * (exn + response) :=
  let '(t, r) := handle w rt in
  ({| disk := disk (fold_left apply_event t w); dirs := dirs w; writing := None |}, r).

(** [app.run()]: the requests answered in order; an exception that
    escapes a view is Flask's [500] page. *)
Fixpoint serve_all (w : world) (rts : list route) : world * list (exn + response) :=
  match rts with
  | [] => (w, [])
  | rt :: r => let '(w1, a) := serve w rt in let '(w2, ans) := serve_all w1 r in (w2, a :: ans)
  end.

(** [python menu_api.py]: the import, then [app.run(debug=True)]. *)
Definition app_main (w : world) (rts : list route) : exn + (world * list (exn + response)) :=
  match import_menu_api w with
  | inl e => inl e
  | inr w0 => inr (serve_all w0 rts)
  end.

(** [app.run(debug=True)] under Werkzeug's reloader: the process started
    by [python menu_api.py] has run the module's body, and [app.run]
    starts a child process that runs the module again (with
    [WERKZEUG_RUN_MAIN] set) and serves the requests. *)
Definition app_main_reloader (w : world) (rts : list route) : exn + (world * list (exn + response)) :=
  match import_menu_api w with
  | inl e => inl e
  | inr w1 => app_main w1 rts
  end.

(** The disks a run of requests leaves, from one without [.json] files. *)
Inductive reachable : world -> Prop :=
| reach_init d ds :
    forallb (fun f => negb (endswith (fst f) (lit ".json"))) d = true ->
    reachable {| disk := d; dirs := ds; writing := None |}
| reach_step w rt : reachable w -> reachable (fst (serve w rt)).

(** Every [.json] file on the disk holds a document [json.loads] reads. *)
Definition json_files_load (w : world) : Prop :=
  forall p c, get_file (disk w) p = Some c -> endswith p (lit ".json") = true -> exists v, loads c = inr v.

(** Every [.json] file on the disk is the text [json.dump(v, f, indent=2)]
    writes for a well-formed value [v], and [json.loads] reads [v] back. *)
Definition json_files_typed (w : world) : Prop :=
  forall p c, get_file (disk w) p = Some c -> endswith p (lit ".json") = true ->
    exists v, json_wf v = true /\ json_dump_text 2 v = inr c /\ loads c = inr v.

(** A call that writes no [.json] file on a disk with the directories of
    [w]: an open that fails is one. *)
Definition inert (w : world) (ev : event) : Prop :=
  match ev with
  | EvWrite p => open_error w p <> None
  | EvDump _ => False
  | EvSave p => endswith p (lit ".pdf") = true
  | _ => True
  end.

(** What a request does on the disk of [w]: calls that write no [.json]
    file, then either nothing more and an answer other than 200, or the
    opening of a [.json] file and the write of a text [json.loads] reads
    back as the body of the 200 answer. *)
Definition disk_outcome (w : world) (c : M response) : Prop :=
  exists pre, Forall (inert w) pre /\
    ((fst c = pre /\ forall r, snd c = inr r -> status r <> 200) \/
     exists p out v, fst c = pre ++ [EvWrite p; EvDump out] /\ open_error w p = None /\
                     endswith p (lit ".json") = true /\
                     loads out = inr v /\ snd c = inr {| status := 200; body := v |} /\
                     json_wf v = true /\ json_dump_text 2 v = inr out).

(** ** The disk's operations *)

Lemma get_put d p c q : get_file (put_file d p c) q = if pystr_eqb q p then Some c else get_file d q.
Proof.
  induction d as [|[q' c'] d IH]; simpl; [reflexivity|].
  destruct (pystr_eqb p q') eqn:E1; simpl.
  - apply pystr_eqb_eq in E1. subst. destruct (pystr_eqb q q'); reflexivity.
  - rewrite IH. destruct (pystr_eqb q q') eqn:E2; [|reflexivity].
    destruct (pystr_eqb q p) eqn:E3; [|reflexivity].
    apply pystr_eqb_eq in E2, E3. subst. rewrite (proj2 (pystr_eqb_eq _ _) eq_refl) in E1. discriminate.
Qed.

Lemma get_put_same d p c : get_file (put_file d p c) p = Some c.
Proof. rewrite get_put. destruct (pystr_eqb p p) eqn:E; [reflexivity|]. now rewrite (proj2 (pystr_eqb_eq p p)) in E. Qed.

Lemma get_put_other d p c q : q <> p -> get_file (put_file d p c) q = get_file d q.
Proof. intros H. rewrite get_put. destruct (pystr_eqb q p) eqn:E; [apply pystr_eqb_eq in E; contradiction | reflexivity]. Qed.

(** ** Directories do not change during a request *)

Lemma is_dir_dirs w1 w2 p : dirs w1 = dirs w2 -> is_dir w1 p = is_dir w2 p.
Proof. intros H. unfold is_dir. rewrite H. reflexivity. Qed.

Lemma walk_dirs w1 w2 qs : dirs w1 = dirs w2 -> walk w1 qs = None -> walk w2 qs = None.
Proof.
  intros H. induction qs as [|q qs IH]; [auto|]. simpl. rewrite (is_dir_dirs w1 w2 q H).
  destruct (is_dir w2 q); [exact IH | discriminate].
Qed.

(** Whether an open succeeds depends on the directories only. *)
Lemma open_ok_dirs w1 w2 p : dirs w1 = dirs w2 -> open_error w1 p = None -> open_error w2 p = None.
Proof.
  intros H. unfold open_error, parent_walk. destruct (walk w1 _) as [b|] eqn:E; [destruct b; discriminate|].
  rewrite (walk_dirs w1 w2 _ H E), (is_dir_dirs w1 w2 p H). auto.
Qed.

Lemma apply_dirs w ev : dirs (apply_event w ev) = dirs w.
Proof.
  destruct ev; simpl; try reflexivity;
    try match goal with |- context [open_error w ?p] => destruct (open_error w p); reflexivity end.
  destruct (writing w); reflexivity.
Qed.

Lemma fold_dirs t : forall w, dirs (fold_left apply_event t w) = dirs w.
Proof. induction t as [|ev t IH]; intros w; [reflexivity|]. simpl. rewrite IH. apply apply_dirs. Qed.

(** ** What calls do to the files *)

(** A call that writes no [.json] file leaves every [.json] file as it is. *)
Lemma apply_inert w w' ev q :
  dirs w' = dirs w -> inert w ev -> endswith q (lit ".json") = true ->
  get_file (disk (apply_event w' ev)) q = get_file (disk w') q.
Proof.
  intros Hd Hev Hq. destruct ev; cbn [inert] in Hev; try contradiction; try reflexivity; simpl;
    match goal with |- context [open_error w' ?p] => destruct (open_error w' p) eqn:E end; try reflexivity.
  - apply get_put_other. intros ->. rewrite (endswith_json_pdf _ Hq) in Hev. discriminate.
  - exfalso. apply Hev. exact (open_ok_dirs w' w _ Hd E).
Qed.

Lemma fold_inert w t : Forall (inert w) t -> forall w' q, dirs w' = dirs w -> endswith q (lit ".json") = true ->
  get_file (disk (fold_left apply_event t w')) q = get_file (disk w') q.
Proof.
  induction 1 as [|ev t Hev Ht IH]; intros w' q Hd Hq; [reflexivity|].
  simpl. rewrite IH by (rewrite ?apply_dirs; assumption). apply (apply_inert w); assumption.
Qed.

(** Opening a file and writing [json.dump]'s text leaves that text as its
    content. *)
Lemma fold_write_dump w p out q :
  open_error w p = None ->
  get_file (disk (fold_left apply_event [EvWrite p; EvDump out] w)) q
  = if pystr_eqb q p then Some out else get_file (disk w) q.
Proof. intros Ho. simpl. rewrite Ho. simpl. rewrite get_put_same, !get_put. destruct (pystr_eqb q p); reflexivity. Qed.

(** Files are never removed. *)
Lemma apply_keeps w ev q : get_file (disk w) q <> None -> get_file (disk (apply_event w ev)) q <> None.
Proof.
  intros H. destruct ev; simpl; try exact H;
    try match goal with |- context [open_error w ?p] =>
          destruct (open_error w p); [exact H | simpl; rewrite get_put; destruct (pystr_eqb q p); [discriminate | exact H]] end.
  destruct (writing w); [|exact H]. simpl. rewrite get_put. destruct (pystr_eqb q _); [discriminate | exact H].
Qed.

Lemma fold_keeps t : forall w q, get_file (disk w) q <> None -> get_file (disk (fold_left apply_event t w)) q <> None.
Proof. induction t as [|ev t IH]; intros w q H; [exact H|]. simpl. apply IH, apply_keeps, H. Qed.

(** ** Runs of the service *)

(** On the disk the [try] body either fails before opening the output
    file or when opening it, or ends by opening a [.json] file and
    writing into it a text that [json.loads] reads back as the value it
    answers with. *)
Lemma process_and_save_disk w fp nm c :
  c = @process_and_save PL GM cpython_json_decoder (disk_fs w) RT fp nm ->
  exists pre, Forall (inert w) pre /\
    ((fst c = pre /\ exists e, snd c = inl e) \/
     exists p out v, fst c = pre ++ [EvWrite p; EvDump out] /\ open_error w p = None /\
                     endswith p (lit ".json") = true /\
                     loads out = inr v /\ snd c = inr {| status := 200; body := v |} /\
                     json_wf v = true /\ json_dump_text 2 v = inr out).
Proof.
  intros ->. unfold process_and_save, query_model_to_json.
  pose proof (extract_text_hybrid_trace (inert w) fp I I (fun _ => I) I (fun _ => I)) as Hx.
  unfold trace_all in Hx. destruct (extract_text_hybrid fp) as [t1 [e|s]]; cbn [bind fst snd] in *.
  { exists t1. split; [exact Hx | left; eauto]. }
  assert (Hg : Forall (inert w) (t1 ++ [EvGenerate (format_prompt s)])) by (apply Forall_app; split; [exact Hx | repeat constructor]).
  destruct (generate_content model (format_prompt s)) as [e|text];
    [exists (t1 ++ [EvGenerate (format_prompt s)]); cbn [bind lift call fst snd]; rewrite ?app_nil_r; eauto|].
  cbn [bind lift call fst snd]. destruct (json_loads text) as [e2|v] eqn:Hj;
    [exists (t1 ++ [EvGenerate (format_prompt s)]); cbn [bind lift call fst snd]; rewrite ?app_nil_r; eauto|].
  cbn [bind lift call fst snd]. destruct (with_suffix nm (lit ".json")) as [e3|jn] eqn:Hw;
    [exists (t1 ++ [EvGenerate (format_prompt s)]); cbn [bind lift call fst snd]; rewrite ?app_nil_r; eauto|].
  pose proof (loads_result_wf py_float_ok text v Hj) as Hwf.
  destruct (dump_text_loads repr_literal repr_roundtrip 2 v Hwf) as (out & Hd & Hl).
  cbn [bind lift call fst snd open_write write_text disk_fs].
  destruct (open_error w (os_path_join OUTPUT_FOLDER jn)) as [e4|] eqn:Eo.
  - exists ((t1 ++ [EvGenerate (format_prompt s)]) ++ [EvWrite (os_path_join OUTPUT_FOLDER jn)]).
    split; [apply Forall_app; split; [exact Hg | constructor; [cbn [inert]; rewrite Eo; discriminate | constructor]]|].
    left. cbn [bind lift call fst snd]. rewrite <- !app_assoc. eauto.
  - exists (t1 ++ [EvGenerate (format_prompt s)]). split; [exact Hg|]. right.
    exists (os_path_join OUTPUT_FOLDER jn), out, v.
    rewrite Hd. cbn [bind lift call fst snd]. rewrite <- !app_assoc. repeat split; auto.
    apply os_path_join_endswith, (with_suffix_endswith _ _ _ Hw).
Qed.

Lemma disk_outcome_cons w ev c : inert w ev -> disk_outcome w c -> disk_outcome w (ev :: fst c, snd c).
Proof.
  intros Hev (pre & Hpre & [[Ht Hr] | (p & out & v & Ht & Ho & Hp & Hl & Hr & Hwf & Hdump)]); exists (ev :: pre);
    split; auto; [left | right; exists p, out, v]; cbn [fst snd]; rewrite Ht; repeat split; auto.
Qed.

Lemma disk_outcome_answer w t code b :
  Forall (inert w) t -> code <> 200 -> disk_outcome w (t, inr {| status := code; body := b |}).
Proof. intros Ht Hc. exists t. split; [exact Ht|]. left. split; [reflexivity|]. intros r [= <-]. exact Hc. Qed.

Lemma run_guarded_disk w fp nm : disk_outcome w (@run_guarded PL GM cpython_json_decoder (disk_fs w) RT fp nm).
Proof.
  rewrite run_guarded_eq.
  destruct (process_and_save_disk w fp nm _ eq_refl)
    as (pre & Hpre & [[Ht [e He]] | (p & out & v & Ht & Ho & Hp & Hl & Hr & Hwf & Hdump)]);
    exists pre; split; auto; cbn [fst snd]; [left | right; exists p, out, v]; rewrite ?He, ?Hr;
    [split; [exact Ht | intros r [= <-]; discriminate] | repeat split; auto].
Qed.

Lemma endswith_pdf_nonempty n : endswith n (lit ".pdf") = true -> n <> [].
Proof. intros H ->. discriminate. Qed.

Lemma handle_disk w rt : disk_outcome w (handle w rt).
Proof.
  destruct rt as [q|q]; cbn [handle].
  - destruct (lookup_first (lit "pdf") (files q)) as [name|] eqn:Hl.
    2:{ unfold upload_pdf. rewrite Hl. apply disk_outcome_answer; [repeat constructor | discriminate]. }
    destruct (endswith name (lit ".pdf")) eqn:Hend.
    + rewrite (upload_pdf_found _ _ Hl Hend). cbv zeta. cbn [save_file disk_fs].
      destruct (open_error w _).
      * exists [EvSave (os_path_join UPLOAD_FOLDER name)]. split; [constructor; [apply os_path_join_endswith, Hend | constructor]|].
        left. split; [reflexivity | discriminate].
      * apply disk_outcome_cons; [apply os_path_join_endswith, Hend | apply run_guarded_disk].
    + unfold upload_pdf. rewrite Hl. destruct name as [|c name]; [apply disk_outcome_answer; [repeat constructor | discriminate]|].
      cbv iota beta zeta. rewrite Hend. apply disk_outcome_answer; [repeat constructor | discriminate].
  - destruct (lookup_first (lit "pdf") (args q)) as [[|c name]|] eqn:Hl;
      try (unfold process_pdf; rewrite Hl; apply disk_outcome_answer; [repeat constructor | discriminate]).
    rewrite (process_pdf_found q (c :: name) Hl) by discriminate. cbv zeta.
    destruct (path_exists _); [|apply disk_outcome_answer; [repeat constructor | discriminate]].
    apply (disk_outcome_cons _ _ (run_guarded _ _)); [exact I | apply run_guarded_disk].
Qed.

Lemma serve_fold w rt : disk (fst (serve w rt)) = disk (fold_left apply_event (fst (handle w rt)) w).
Proof. unfold serve. destruct (handle w rt). reflexivity. Qed.

Lemma serve_answer w rt : snd (serve w rt) = snd (handle w rt).
Proof. unfold serve. destruct (handle w rt). reflexivity. Qed.

Lemma serve_dirs w rt : dirs (fst (serve w rt)) = dirs w.
Proof. unfold serve. destruct (handle w rt). reflexivity. Qed.

Lemma get_file_in d p c : get_file d p = Some c -> In (p, c) d.
Proof.
  induction d as [|[q c'] d IH]; simpl; [discriminate|].
  destruct (pystr_eqb p q) eqn:E; [apply pystr_eqb_eq in E; intros [= <-]; subst; auto | auto].
Qed.

Lemma same_path_refl p : same_path p p = true.
Proof. apply pystr_eqb_eq. reflexivity. Qed.

(** A name ending in [.pdf] names a file. *)
Lemma names_file_pdf p : endswith p (lit ".pdf") = true -> names_file p = true.
Proof.
  intros H. destruct (endswith_split _ _ H) as [q ->]. unfold names_file.
  destruct (split_on_app_free slash q (lit ".pdf")) as (xs & z & ->).
  { cbn. intros Hin. repeat (destruct Hin as [Hin|Hin]; [discriminate|]). exact Hin. }
  rewrite last_last, !pystr_eqb_len by (rewrite length_app; cbn; lia). destruct z; reflexivity.
Qed.

(** A stored file exists for [os.path.exists], when its path names a file. *)
Lemma get_file_exists w p : names_file p = true -> get_file (disk w) p <> None -> exists_at w p = true.
Proof.
  unfold exists_at, file_at. intros Hn H. rewrite Hn. cbn [andb]. apply orb_true_intro. right. destruct w as [d ds wr]. cbn [disk] in *.
  induction d as [|[q c] d IH]; [contradiction|]. cbn [existsb fst get_file] in *.
  destruct (pystr_eqb p q) eqn:E; [apply pystr_eqb_eq in E; subst; rewrite same_path_refl; reflexivity|].
  rewrite IH by exact H. apply orb_true_r.
Qed.

(** After a request a [.json] file is as it was, or holds the text
    [json.dump] wrote for a well-formed value [json.loads] reads back. *)
Lemma serve_json_file w rt q :
  endswith q (lit ".json") = true ->
  get_file (disk (fst (serve w rt))) q = get_file (disk w) q \/
  exists out v, get_file (disk (fst (serve w rt))) q = Some out /\ loads out = inr v /\
                json_wf v = true /\ json_dump_text 2 v = inr out.
Proof.
  intros Hq. rewrite serve_fold.
  destruct (handle_disk w rt) as (pre & Hpre & [[-> _] | (p & out & v & -> & Ho & Hp & Hl & _ & Hwf & Hdump)]).
  - left. exact (fold_inert w _ Hpre w q eq_refl Hq).
  - rewrite fold_left_app, fold_write_dump by (apply (open_ok_dirs w); [symmetry; apply fold_dirs | exact Ho]).
    destruct (pystr_eqb q p); [right; exists out, v; auto | left; exact (fold_inert w _ Hpre w q eq_refl Hq)].
Qed.

(** A request keeps every [.json] file loadable. *)
Lemma serve_preserves w rt : json_files_load w -> json_files_load (fst (serve w rt)).
Proof.
  intros Hw q c Hc Hq. destruct (serve_json_file w rt q Hq) as [E | (out & v & E & Hl & _)]; rewrite E in Hc.
  - exact (Hw _ _ Hc Hq).
  - injection Hc as <-. eauto.
Qed.

(** The first disk of a run has no [.json] file. *)
Lemma reach_init_no_json d p c :
  forallb (fun f => negb (endswith (fst f) (lit ".json"))) d = true ->
  get_file d p = Some c -> endswith p (lit ".json") = true -> False.
Proof.
  intros Hd Hc Hp. apply get_file_in in Hc. rewrite forallb_forall in Hd.
  specialize (Hd _ Hc). cbn [fst] in Hd. rewrite Hp in Hd. discriminate.
Qed.

(** A request keeps every [.json] file the dump of a well-formed value. *)
Lemma serve_preserves_typed w rt : json_files_typed w -> json_files_typed (fst (serve w rt)).
Proof.
  intros Hw q c Hc Hq. destruct (serve_json_file w rt q Hq) as [E | (out & v & E & Hl & Hwf & Hd)]; rewrite E in Hc.
  - exact (Hw _ _ Hc Hq).
  - injection Hc as <-. eauto.
Qed.

(** On every disk a run of requests leaves, starting from one with
    no [.json] file, every [.json] file holds a document that
    [json.loads] reads: the service never leaves a truncated or
    malformed output file behind, and an upload (a [.pdf] name) never
    overwrites one. *)
Theorem reachable_json_files_load w : reachable w -> json_files_load w.
Proof.
  induction 1 as [d ds Hd | w rt _ IH]; [|exact (serve_preserves w rt IH)].
  intros p c Hc Hp. destruct (reach_init_no_json d p c Hd Hc Hp).
Qed.

(** C12: the files a run leaves are well typed: on every disk a run of
    requests leaves, starting from one with no [.json] file, every
    [.json] file holds exactly the text [json.dump(v, f, indent=2)]
    writes for a well-formed value [v] (integers within the 4300-digit
    limit, floats as 64-bit patterns, distinct keys), and [json.loads]
    reads [v] back from it: no file is a concatenation of two dumps or
    the rest of an earlier one. *)
Theorem reachable_json_files_typed w : reachable w -> json_files_typed w.
Proof.
  induction 1 as [d ds Hd | w rt _ IH]; [|exact (serve_preserves_typed w rt IH)].
  intros p c Hc Hp. destruct (reach_init_no_json d p c Hd Hc Hp).
Qed.

(** After a request answered [200], the disk holds a [.json] file
    whose content [json.loads] reads as the body of the answer. *)
Theorem serve_200_saved w rt w' r :
  serve w rt = (w', inr r) -> status r = 200 ->
  exists p t, endswith p (lit ".json") = true /\ get_file (disk w') p = Some t /\ loads t = inr (body r).
Proof.
  intros Hs H200. pose proof (serve_fold w rt) as Hd. pose proof (serve_answer w rt) as Ha.
  rewrite Hs in Hd, Ha. cbn [fst snd] in Hd, Ha.
  destruct (handle_disk w rt) as (pre & Hpre & [[_ Hr] | (p & out & v & Ht & Ho & Hp & Hl & Hr & Hwf & Hdump)]).
  - exfalso. exact (Hr r (eq_sym Ha) H200).
  - rewrite Hr in Ha. injection Ha as ->. exists p, out. split; [exact Hp|]. split; [|exact Hl].
    rewrite Hd, Ht, fold_left_app, fold_write_dump by (apply (open_ok_dirs w); [symmetry; apply fold_dirs | exact Ho]).
    now rewrite (proj2 (pystr_eqb_eq p p) eq_refl).
Qed.

(** C13: a request answered with anything but [200] leaves every [.json]
    file of the disk as it was: the output file is opened only after the
    model's reply has been decoded, so a failed run never truncates an
    earlier result. *)
Theorem serve_failure_keeps_outputs w rt w' r :
  serve w rt = (w', inr r) -> status r <> 200 ->
  forall p, endswith p (lit ".json") = true -> get_file (disk w') p = get_file (disk w) p.
Proof.
  intros Hs Hne p Hp. pose proof (serve_fold w rt) as Hd. pose proof (serve_answer w rt) as Ha.
  rewrite Hs in Hd, Ha. cbn [fst snd] in Hd, Ha. rewrite Hd.
  destruct (handle_disk w rt) as (pre & Hpre & [[-> _] | (q & out & v & _ & _ & _ & _ & Hr & _)]).
  - exact (fold_inert w _ Hpre w p eq_refl Hp).
  - rewrite Hr in Ha. injection Ha as ->. destruct (Hne eq_refl).
Qed.

(** Once [POST /upload-pdf] has stored a file [n] ending in [.pdf],
    [GET /process-pdf?pdf=n] finds it. *)
Lemma upload_then_process_serve w n :
  endswith n (lit ".pdf") = true -> open_error w (os_path_join UPLOAD_FOLDER n) = None ->
  exists r, snd (serve (fst (serve w (Upload (upload_request n)))) (Process (process_request n))) = inr r /\
            (status r = 200 \/ status r = 500).
Proof.
  intros Hn Ho.
  assert (Hex : get_file (disk (fst (serve w (Upload (upload_request n))))) (os_path_join UPLOAD_FOLDER n) <> None).
  { rewrite serve_fold. cbn [handle]. rewrite (upload_pdf_found (upload_request n) n eq_refl Hn).
    cbv zeta. cbn [save_file disk_fs]. rewrite Ho. cbn [fst fold_left]. apply fold_keeps. cbn [apply_event].
    rewrite Ho. cbn [disk]. rewrite get_put_same. discriminate. }
  rewrite serve_answer. cbn [handle].
  rewrite (process_pdf_found (process_request n) n eq_refl (endswith_pdf_nonempty _ Hn)). cbv zeta.
  cbn [path_exists disk_fs].
  rewrite (get_file_exists _ _ (names_file_pdf _ (os_path_join_endswith _ _ _ Hn)) Hex). cbn [snd]. rewrite run_guarded_eq. cbn [snd].
  destruct (process_and_save_disk (fst (serve w (Upload (upload_request n)))) (os_path_join UPLOAD_FOLDER n) n _ eq_refl)
    as (pre & _ & [[_ [e ->]] | (p & out & v & _ & _ & _ & _ & -> & _)]); eexists; split; eauto.
Qed.

(** C18: the output file is opened under [OUTPUT_FOLDER] at the path the
    client's name gives, and no folder is made for it: when [open] fails
    there (a name [sub/menu.pdf] whose [./output_jsons/sub] does not
    exist), [GET /process-pdf] has already run the extraction and the
    model call, writes nothing, and answers [500] with the [OSError]. *)
Theorem process_pdf_output_open_error w name t s text v jn e :
  name <> [] -> exists_at w (os_path_join UPLOAD_FOLDER name) = true ->
  extract_text_hybrid (os_path_join UPLOAD_FOLDER name) = (t, inr s) ->
  generate_content model (format_prompt s) = inr text -> loads text = inr v ->
  with_suffix name (lit ".json") = inr jn -> open_error w (os_path_join OUTPUT_FOLDER jn) = Some e ->
  handle w (Process (process_request name))
  = (EvExists (os_path_join UPLOAD_FOLDER name)
       :: t ++ [EvGenerate (format_prompt s); EvWrite (os_path_join OUTPUT_FOLDER jn)],
     inr {| status := 500; body := error_body (exn_message e) |}).
Proof.
  intros Hne Hx He Hg Hj Hw Ho. cbn [handle].
  rewrite (process_pdf_found (process_request name) name eq_refl Hne). cbv zeta.
  cbn [path_exists disk_fs]. rewrite Hx, run_guarded_eq.
  rewrite (@process_and_save_open_fail PL GM cpython_json_decoder (disk_fs w) RT _ _ t s text v jn e He Hg Hj Hw) by (cbn [open_write disk_fs]; rewrite Ho; reflexivity).
  reflexivity.
Qed.

(** ** The import *)

Lemma is_dir_normpath w p q : posix_normpath p = posix_normpath q -> is_dir w p = is_dir w q.
Proof. intros H. unfold is_dir, same_path. rewrite H. reflexivity. Qed.

Lemma is_dir_add w d q :
  is_dir w q = true -> is_dir {| disk := disk w; dirs := d :: dirs w; writing := writing w |} q = true.
Proof.
  unfold is_dir. cbn [dirs existsb]. intros H. apply orb_true_iff in H as [H|H]; rewrite H; [reflexivity|].
  rewrite !orb_true_r. reflexivity.
Qed.

Lemma makedirs_folder w name :
  name = UPLOAD_FOLDER \/ name = OUTPUT_FOLDER ->
  os_makedirs w name
  = if exists_at w name
    then if is_dir w name then inr w else inl (OSError (lit "[Errno 17] File exists: " ++ py_repr_str name))
    else inr {| disk := disk w; dirs := posix_normpath name :: dirs w; writing := writing w |}.
Proof.
  intros Hn.
  assert (E : os_makedirs w name
              = match (if exists_at w name then inl (OSError (lit "[Errno 17] File exists: " ++ py_repr_str name))
                       else inr {| disk := disk w; dirs := posix_normpath name :: dirs w; writing := writing w |}) with
                | inr w2 => inr w2
                | inl e => if is_dir w name then inr w else inl e
                end) by (destruct Hn as [-> | ->]; reflexivity).
  rewrite E. destruct (exists_at w name); reflexivity.
Qed.

(** [os.makedirs] of a folder no file stands in: afterwards it is a
    directory, and nothing else changes but the directories. *)
Lemma makedirs_folder_ok w name :
  name = UPLOAD_FOLDER \/ name = OUTPUT_FOLDER -> file_at w name = false ->
  exists w', os_makedirs w name = inr w' /\ disk w' = disk w /\ writing w' = writing w /\
             is_dir w' name = true /\ (forall q, is_dir w q = true -> is_dir w' q = true).
Proof.
  intros Hn Hf. rewrite (makedirs_folder w name Hn). unfold exists_at. rewrite Hf, orb_false_r.
  destruct (is_dir w name) eqn:Hd.
  - exists w. auto.
  - eexists. split; [reflexivity|]. split; [reflexivity|]. split; [reflexivity|].
    split; [destruct Hn as [-> | ->]; reflexivity | intros q; apply is_dir_add].
Qed.

Lemma import_ok w0 w :
  import_menu_api w0 = inr w ->
  disk w = disk w0 /\ writing w = writing w0 /\ is_dir w UPLOAD_FOLDER = true /\ is_dir w OUTPUT_FOLDER = true.
Proof.
  unfold import_menu_api. rewrite (makedirs_folder w0 UPLOAD_FOLDER (or_introl eq_refl)).
  assert (Hout : forall w1, disk w1 = disk w0 -> writing w1 = writing w0 -> is_dir w1 UPLOAD_FOLDER = true ->
                   os_makedirs w1 OUTPUT_FOLDER = inr w ->
                   disk w = disk w0 /\ writing w = writing w0 /\ is_dir w UPLOAD_FOLDER = true /\ is_dir w OUTPUT_FOLDER = true).
  { intros w1 Hd Hw Hu. rewrite (makedirs_folder w1 OUTPUT_FOLDER (or_intror eq_refl)).
    destruct (exists_at w1 OUTPUT_FOLDER); [destruct (is_dir w1 OUTPUT_FOLDER) eqn:Ho|]; intros H; try discriminate;
      injection H as <-; cbn [disk writing]; repeat split; auto using is_dir_add; reflexivity. }
  destruct (exists_at w0 UPLOAD_FOLDER); [destruct (is_dir w0 UPLOAD_FOLDER) eqn:Hu|]; intros H; try discriminate.
  - exact (Hout w0 eq_refl eq_refl Hu H).
  - refine (Hout _ _ _ _ H); reflexivity.
Qed.

(** After the import an upload of a name with no slash can be opened,
    unless a directory has that name. *)
Lemma open_upload_ok w n :
  is_dir w UPLOAD_FOLDER = true -> forallb (fun x => negb (Ascii.eqb slash x)) n = true -> n <> [] ->
  is_dir w (os_path_join UPLOAD_FOLDER n) = false -> open_error w (os_path_join UPLOAD_FOLDER n) = None.
Proof.
  intros Hu Hn Hne Hd. pose proof (join_no_trailing_slash UPLOAD_FOLDER n Hn Hne) as Hs.
  unfold open_error, parent_walk, parent_dirs. rewrite rstrip_slash_id by exact Hs.
  rewrite posix_dirname_join by (reflexivity || assumption).
  change (prefixes_from [] (split_on slash (posix_normpath UPLOAD_FOLDER))) with [lit "example_pdfs"].
  cbn [walk]. rewrite (is_dir_normpath w (lit "example_pdfs") UPLOAD_FOLDER eq_refl), Hu, Hd, Hs. reflexivity.
Qed.

(** A second import finds both folders and changes nothing. *)
Lemma import_idempotent w0 w : import_menu_api w0 = inr w -> import_menu_api w = inr w.
Proof.
  intros H. destruct (import_ok w0 w H) as (_ & _ & Hu & Ho). unfold import_menu_api.
  rewrite (makedirs_folder w UPLOAD_FOLDER (or_introl eq_refl)). unfold exists_at at 1. rewrite Hu. cbn [orb].
  rewrite (makedirs_folder w OUTPUT_FOLDER (or_intror eq_refl)). unfold exists_at. rewrite Ho. reflexivity.
Qed.

(** C16: the reloader of [debug=True] runs the import twice, and the
    second run is harmless: [os.makedirs(..., exist_ok=True)] finds the
    folders the first made, so the service started under the reloader
    behaves exactly as one started once, on every disk and every run of
    requests, the import's errors included. *)
Theorem app_main_reloader_eq w rts : app_main_reloader w rts = app_main w rts.
Proof.
  unfold app_main_reloader, app_main. destruct (import_menu_api w) as [e|w1] eqn:H; [reflexivity|].
  rewrite (import_idempotent w w1 H). reflexivity.
Qed.

(** C15: starting the service ([python menu_api.py]): when no file
    stands where the folders go, the import makes both folders
    (whatever already exists) without touching the files, and
    [app.run] then answers the requests on that disk; when a file
    already stands at [./output_jsons], the import raises
    [FileExistsError] and no request is served. *)
Theorem app_main_startup w rts :
  (file_at w UPLOAD_FOLDER = false -> file_at w OUTPUT_FOLDER = false ->
     exists w0, app_main w rts = inr (serve_all w0 rts) /\ disk w0 = disk w /\
                is_dir w0 UPLOAD_FOLDER = true /\ is_dir w0 OUTPUT_FOLDER = true) /\
  (is_dir w UPLOAD_FOLDER = true -> file_at w OUTPUT_FOLDER = true -> is_dir w OUTPUT_FOLDER = false ->
     app_main w rts = inl (OSError (lit "[Errno 17] File exists: './output_jsons'"))).
Proof.
  split.
  - intros Hu Ho. unfold app_main, import_menu_api.
    destruct (makedirs_folder_ok w UPLOAD_FOLDER (or_introl eq_refl) Hu) as (w1 & -> & Hd1 & _ & Hu1 & _).
    assert (Ho1 : file_at w1 OUTPUT_FOLDER = false) by (unfold file_at; rewrite Hd1; exact Ho).
    destruct (makedirs_folder_ok w1 OUTPUT_FOLDER (or_intror eq_refl) Ho1) as (w2 & -> & Hd2 & _ & Ho2 & Hmono).
    exists w2. split; [reflexivity|]. split; [congruence|]. auto.
  - intros Hu Hf Hd. unfold app_main, import_menu_api.
    rewrite (makedirs_folder w UPLOAD_FOLDER (or_introl eq_refl)). unfold exists_at at 1. rewrite Hu. cbn [orb].
    rewrite (makedirs_folder w OUTPUT_FOLDER (or_intror eq_refl)). unfold exists_at. rewrite Hf, Hd, orb_true_r.
    reflexivity.
Qed.

(** C14: after the service has started, an upload is found by the next
    request: for a name [n] ending in [.pdf] with no slash (and no
    directory of that name in the upload folder), [POST /upload-pdf]
    then [GET /process-pdf?pdf=n] never gets [404] (nor [400]), only
    [200] or the [500] of a failing stage.  The folders the import makes
    are what lets the upload be saved. *)
Theorem upload_then_process w0 w n :
  import_menu_api w0 = inr w -> endswith n (lit ".pdf") = true ->
  forallb (fun x => negb (Ascii.eqb slash x)) n = true -> is_dir w (os_path_join UPLOAD_FOLDER n) = false ->
  exists w' a r, app_main w0 [Upload (upload_request n); Process (process_request n)] = inr (w', [a; inr r]) /\
                 (status r = 200 \/ status r = 500).
Proof.
  intros Hi Hn Hs Hd. destruct (import_ok w0 w Hi) as (_ & _ & Hu & _).
  pose proof (open_upload_ok w n Hu Hs (endswith_pdf_nonempty n Hn) Hd) as Ho.
  destruct (upload_then_process_serve w n Hn Ho) as (r & Hr & Hst).
  unfold app_main. rewrite Hi. cbn [serve_all].
  destruct (serve w (Upload (upload_request n))) as [w1 a] eqn:E1. cbn [fst] in Hr.
  destruct (serve w1 (Process (process_request n))) as [w2 b] eqn:E2. cbn [snd] in Hr. subst b.
  exists w2, a, r. auto.
Qed.

(** ** Every request is answered *)

Lemma upload_ok_dirs w1 w2 rt : dirs w1 = dirs w2 -> upload_ok w1 rt = upload_ok w2 rt.
Proof.
  intros H. destruct rt as [q|q]; cbn [upload_ok]; [|reflexivity].
  destruct (lookup_first _ _); [rewrite (is_dir_dirs w1 w2 _ H)|]; reflexivity.
Qed.

Lemma handle_answers w rt :
  is_dir w UPLOAD_FOLDER = true -> upload_ok w rt = true -> exists r, snd (handle w rt) = inr r.
Proof.
  intros Hu. destruct rt as [q|q]; cbn [handle upload_ok].
  - destruct (lookup_first (lit "pdf") (files q)) as [n|] eqn:Hl; [|unfold upload_pdf; rewrite Hl; cbn; eauto].
    destruct (endswith n (lit ".pdf")) eqn:Hend; cbn [negb orb].
    + intros H. apply andb_prop in H as [Hs Hd]. apply negb_true_iff in Hd.
      rewrite (upload_pdf_found _ _ Hl Hend). cbv zeta. cbn [save_file disk_fs].
      rewrite (open_upload_ok w n Hu Hs (endswith_pdf_nonempty n Hend) Hd). cbn [snd].
      rewrite run_guarded_eq. cbn [snd]. eauto.
    + intros _. unfold upload_pdf. rewrite Hl. destruct n as [|c n]; cbv iota beta; [cbn; eauto|].
      rewrite Hend. cbn. eauto.
  - intros _. unfold process_pdf. destruct (lookup_first (lit "pdf") (args q)) as [[|c name]|]; simpl; eauto.
    destruct (exists_at w _); simpl; eauto. rewrite run_guarded_eq. simpl. eauto.
Qed.

Lemma serve_all_answers rts : forall w,
  is_dir w UPLOAD_FOLDER = true -> (forall rt, In rt rts -> upload_ok w rt = true) ->
  length (snd (serve_all w rts)) = length rts /\ Forall (fun a => exists r, a = inr r) (snd (serve_all w rts)).
Proof.
  induction rts as [|rt rts IH]; intros w Hu Hok; [split; [reflexivity | constructor]|].
  cbn [serve_all]. destruct (serve w rt) as [w1 a] eqn:E.
  assert (Hd : dirs w1 = dirs w) by (rewrite <- (serve_dirs w rt), E; reflexivity).
  assert (Ha : a = snd (handle w rt)) by (rewrite <- serve_answer, E; reflexivity).
  destruct (IH w1) as [Hl Hf];
    [rewrite (is_dir_dirs w1 w _ Hd); exact Hu | intros q Hq; rewrite (upload_ok_dirs w1 w q Hd); apply Hok; right; exact Hq|].
  destruct (serve_all w1 rts) as [w2 ans]. cbn [snd length] in *. split; [congruence|].
  constructor; [|exact Hf]. subst a. apply handle_answers; [exact Hu | apply Hok; left; reflexivity].
Qed.

(** C17: once the service has started, [app.run] answers every request
    with an HTTP response, one per request in order, as long as each
    upload of a [.pdf] names a file with no slash and no directory of the
    upload folder: no exception escapes a view, whatever the PDFs, the
    model and the disk hold. *)
Theorem app_main_answers w0 w rts :
  import_menu_api w0 = inr w -> forallb (upload_ok w) rts = true ->
  exists w' ans, app_main w0 rts = inr (w', ans) /\ length ans = length rts /\
                 Forall (fun a => exists r, a = inr r) ans.
Proof.
  intros Hi Hok. destruct (import_ok w0 w Hi) as (_ & _ & Hu & _).
  rewrite forallb_forall in Hok. destruct (serve_all_answers rts w Hu Hok) as [Hl Hf].
  unfold app_main. rewrite Hi. destruct (serve_all w rts) as [w' ans]. exists w', ans. auto.
Qed.

End Server.

(** ** Runs on the example world *)

Definition empty_world : world := {| disk := []; dirs := []; writing := None |}.

(** The world the import leaves on an empty disk. *)
Definition start_world : world := {| disk := []; dirs := [lit "output_jsons"; lit "example_pdfs"]; writing := None |}.

Lemma app_main_startup_witness :
  file_at empty_world UPLOAD_FOLDER = false /\ file_at empty_world OUTPUT_FOLDER = false /\
  exists w0, @app_main text_pdf example_model decimal_runtime [] empty_world [] = inr (@serve_all text_pdf example_model decimal_runtime [] w0 []) /\
             disk w0 = disk empty_world /\ is_dir w0 UPLOAD_FOLDER = true /\ is_dir w0 OUTPUT_FOLDER = true.
Proof.
  split; [reflexivity|]. split; [reflexivity|].
  exact (proj1 (@app_main_startup text_pdf example_model decimal_runtime [] empty_world []) eq_refl eq_refl).
Defined.

Lemma reachable_json_files_load_witness :
  @json_files_load decimal_runtime (fst (@serve text_pdf example_model decimal_runtime [] start_world
                          (Upload (upload_request (lit "menu.pdf"))))).
Proof.
  apply (@reachable_json_files_load text_pdf example_model decimal_runtime []
           (fun b _ _ => decimal_repr_literal b) decimal_repr_roundtrip decimal_float_ok).
  apply reach_step. apply reach_init. reflexivity.
Defined.

Lemma reachable_json_files_typed_witness :
  @json_files_typed decimal_runtime (fst (@serve text_pdf example_model decimal_runtime [] start_world
                          (Upload (upload_request (lit "menu.pdf"))))).
Proof.
  apply (@reachable_json_files_typed text_pdf example_model decimal_runtime []
           (fun b _ _ => decimal_repr_literal b) decimal_repr_roundtrip decimal_float_ok).
  apply reach_step. apply reach_init. reflexivity.
Defined.

Lemma serve_200_saved_witness :
  exists w' r, @serve text_pdf example_model decimal_runtime [] start_world (Upload (upload_request (lit "menu.pdf")))
               = (w', inr r) /\ status r = 200 /\
    exists p t, endswith p (lit ".json") = true /\ get_file (disk w') p = Some t /\ @loads decimal_runtime t = inr (body r).
Proof.
  eexists _, _. split; [vm_compute; reflexivity|]. split; [reflexivity|].
  apply (@serve_200_saved text_pdf example_model decimal_runtime []
           (fun b _ _ => decimal_repr_literal b) decimal_repr_roundtrip decimal_float_ok start_world
           (Upload (upload_request (lit "menu.pdf"))));
    [vm_compute; reflexivity | reflexivity].
Defined.

Lemma serve_failure_keeps_outputs_witness :
  exists w' r, @serve text_pdf example_model decimal_runtime [] start_world (Process (process_request (lit "menu.pdf")))
               = (w', inr r) /\ status r <> 200 /\
    get_file (disk w') (lit "./output_jsons/menu.json") = get_file (disk start_world) (lit "./output_jsons/menu.json").
Proof.
  eexists _, _. split; [vm_compute; reflexivity|]. split; [discriminate|].
  eapply (@serve_failure_keeps_outputs text_pdf example_model decimal_runtime []
           (fun b _ _ => decimal_repr_literal b) decimal_repr_roundtrip decimal_float_ok start_world
           (Process (process_request (lit "menu.pdf"))));
    [vm_compute; reflexivity | discriminate | reflexivity].
Defined.

Lemma upload_then_process_witness :
  import_menu_api empty_world = inr start_world /\ endswith (lit "menu.pdf") (lit ".pdf") = true /\
  forallb (fun x => negb (Ascii.eqb slash x)) (lit "menu.pdf") = true /\
  is_dir start_world (os_path_join UPLOAD_FOLDER (lit "menu.pdf")) = false /\
  exists w' a r, @app_main text_pdf example_model decimal_runtime [] empty_world
                   [Upload (upload_request (lit "menu.pdf")); Process (process_request (lit "menu.pdf"))]
                 = inr (w', [a; inr r]) /\ (status r = 200 \/ status r = 500).
Proof.
  assert (Hi : import_menu_api empty_world = inr start_world) by (vm_compute; reflexivity).
  split; [exact Hi|]. split; [reflexivity|]. split; [reflexivity|]. split; [vm_compute; reflexivity|].
  apply (@upload_then_process text_pdf example_model decimal_runtime []
           (fun b _ _ => decimal_repr_literal b) decimal_repr_roundtrip decimal_float_ok empty_world start_world);
    [exact Hi | reflexivity | reflexivity | vm_compute; reflexivity].
Defined.

(** A PDF in a subfolder of the upload folder, with no such subfolder
    under the output folder. *)
Definition sub_world : world :=
  {| disk := [(lit "./example_pdfs/sub/menu.pdf", [])];
     dirs := [lit "example_pdfs/sub"; lit "output_jsons"; lit "example_pdfs"]; writing := None |}.

Lemma process_pdf_output_open_error_witness :
  open_error sub_world (os_path_join OUTPUT_FOLDER (lit "sub/menu.json"))
  = Some (OSError (lit "[Errno 2] No such file or directory: './output_jsons/sub/menu.json'")) /\
  exists t s, @handle text_pdf example_model decimal_runtime sub_world (Process (process_request (lit "sub/menu.pdf")))
    = (EvExists (os_path_join UPLOAD_FOLDER (lit "sub/menu.pdf"))
         :: t ++ [EvGenerate (format_prompt s); EvWrite (os_path_join OUTPUT_FOLDER (lit "sub/menu.json"))],
       inr {| status := 500;
              body := error_body (exn_message (OSError (lit "[Errno 2] No such file or directory: './output_jsons/sub/menu.json'"))) |}).
Proof.
  assert (Ho : open_error sub_world (os_path_join OUTPUT_FOLDER (lit "sub/menu.json"))
               = Some (OSError (lit "[Errno 2] No such file or directory: './output_jsons/sub/menu.json'")))
    by (vm_compute; reflexivity).
  split; [exact Ho|]. eexists _, _.
  eapply (@process_pdf_output_open_error text_pdf example_model decimal_runtime sub_world (lit "sub/menu.pdf"));
    [discriminate | vm_compute; reflexivity | vm_compute; reflexivity | vm_compute; reflexivity
    | vm_compute; reflexivity | vm_compute; reflexivity | exact Ho].
Defined.

Lemma app_main_answers_witness :
  import_menu_api empty_world = inr start_world /\
  forallb (upload_ok start_world)
    [Upload (upload_request (lit "menu.pdf")); Process (process_request (lit "menu.pdf"));
     Upload (upload_request (lit "notes.txt")); Process (process_request (lit "missing.pdf"))] = true /\
  exists w' ans, @app_main text_pdf example_model decimal_runtime [] empty_world
                   [Upload (upload_request (lit "menu.pdf")); Process (process_request (lit "menu.pdf"));
                    Upload (upload_request (lit "notes.txt")); Process (process_request (lit "missing.pdf"))]
                 = inr (w', ans) /\ length ans = 4 /\ Forall (fun a => exists r, a = inr r) ans.
Proof.
  assert (Hi : import_menu_api empty_world = inr start_world) by (vm_compute; reflexivity).
  assert (Hok : forallb (upload_ok start_world)
    [Upload (upload_request (lit "menu.pdf")); Process (process_request (lit "menu.pdf"));
     Upload (upload_request (lit "notes.txt")); Process (process_request (lit "missing.pdf"))] = true)
    by (vm_compute; reflexivity).
  split; [exact Hi|]. split; [exact Hok|].
  exact (@app_main_answers text_pdf example_model decimal_runtime [] empty_world start_world _ Hi Hok).
Defined.
