(* ===== verification/Routing.v ===== *)
(** * Flask's routing of the two views ([src/menu_api.py], lines 9, 23, 56)

    [app = Flask(__name__)] makes an application with an empty url map
    (no static route: there is no [static] folder beside the module);
    each [@app.route(rule, methods=[...])] adds a rule.  Flask adds
    [OPTIONS] to the methods of a rule that does not list it and answers
    it itself; Werkzeug's [Rule] adds [HEAD] to a rule that lists [GET].
    A request is matched on its path and method: no rule with that path
    is [404], rules with that path but none with that method are [405]
    with an [Allow] header of their methods.  A [HEAD] request runs the
    view as a [GET] would, and Werkzeug sends the answer without its
    body.

    [serve_http] is one HTTP request on the disk of [Server]: the view
    it reaches is [serve] there, and the HTTP answer is built from the
    view's outcome; [serve_http_all] is [app.run] over a sequence of HTTP
    requests.  A path with two slashes in a row, which Werkzeug redirects
    to its merged form ([merge_slashes]), is outside the model: it is
    answered as any path no rule names. *)

From Stdlib Require Import String Ascii List Lia Bool PeanoNat ZArith.
From S2P Require Import Prelude PyStr Effects PdfToText PyJson JsonDecode JsonEncode Jsonify PyPath QueryLlm MenuApi Server.
Import ListNotations.
Open Scope pdfmenu_scope.

(** ** The url map *)

Inductive view : Type := UploadView | ProcessView.

Record url_rule : Type := {
  rule_path : pystr;
  rule_methods : list pystr;
  auto_options : bool;           (** [provide_automatic_options] *)
  endpoint : view
}.

Definition mem (m : pystr) (ms : list pystr) : bool := existsb (pystr_eqb m) ms.

(** [Flask.add_url_rule] adds [OPTIONS] when the view does not list it;
    [Rule.__init__] then adds [HEAD] when [GET] is there. *)
Definition rule_method_set (ms : list pystr) : list pystr :=
  let ms1 := if mem (lit "OPTIONS") ms then ms else ms ++ [lit "OPTIONS"] in
  if mem (lit "GET") ms1 && negb (mem (lit "HEAD") ms1) then ms1 ++ [lit "HEAD"] else ms1.

(** [@app.route(path, methods=ms)] on the view [v]. *)
Definition app_route (path : pystr) (ms : list pystr) (v : view) : url_rule := {|
  rule_path := path;
  rule_methods := rule_method_set ms;
  auto_options := negb (mem (lit "OPTIONS") ms);
  endpoint := v
|}.

(** [app = Flask(__name__)] and the two decorators. *)
Definition url_map : list url_rule := [
  app_route (lit "/upload-pdf") [lit "POST"] UploadView;
  app_route (lit "/process-pdf") [lit "GET"] ProcessView
].

(** ** Matching and dispatch *)

Inductive dispatch : Type :=
| Matched (r : url_rule)                     (** the rule of the path and method *)
| MethodNotAllowed (allowed : list pystr)    (** [405], the [Allow] header *)
| NotFound.                                  (** [404] *)

(** Werkzeug's matcher on the rules of a path: the first rule of that
    path whose methods hold the request's; the methods of the others
    are collected for the [405]. *)
Fixpoint match_rules (meth path : pystr) (rs : list url_rule) (have : list pystr) : dispatch :=
  match rs with
  | [] => match have with [] => NotFound | _ => MethodNotAllowed have end
  | r :: rs' =>
      if pystr_eqb (rule_path r) path then
        if mem meth (rule_methods r) then Matched r
        else match_rules meth path rs' (have ++ rule_methods r)
      else match_rules meth path rs' have
  end.

Definition url_match (meth path : pystr) : dispatch := match_rules meth path url_map [].

(** The methods the rules of a path allow ([MapAdapter.allowed_methods]). *)
Definition allowed_methods (path : pystr) : list pystr :=
  flat_map (fun r => if pystr_eqb (rule_path r) path then rule_methods r else []) url_map.

(** An HTTP request: method, path, and what the view reads. *)
Record http_request : Type := { method : pystr; path : pystr; payload : request }.

(** What the client receives: the view's JSON, an HTML error page, or
    nothing (a [HEAD] answer, an automatic [OPTIONS] answer). *)
Inductive http_body : Type := JsonBody (j : json) | HtmlPage | NoBody.

Record http_response : Type := { code : nat; allow : list pystr; content : http_body }.

Definition route_of (v : view) (q : request) : route :=
  match v with UploadView => Upload q | ProcessView => Process q end.

(** The view's outcome as sent: an exception that escapes the view is
    Flask's [500] page; [HEAD] drops the body. *)
Definition to_http (meth : pystr) (r : exn + response) : http_response :=
  let is_head := pystr_eqb meth (lit "HEAD") in
  match r with
  | inl _ => {| code := 500; allow := []; content := if is_head then NoBody else HtmlPage |}
  | inr resp => {| code := status resp; allow := [];
                   content := if is_head then NoBody else JsonBody (body resp) |}
  end.


(** The route a request reaches: none for a routing error or an
    automatic [OPTIONS] answer. *)
Definition http_route (hr : http_request) : option route :=
  match url_match (method hr) (path hr) with
  | Matched r => if auto_options r && pystr_eqb (method hr) (lit "OPTIONS") then None
                 else Some (route_of (endpoint r) (payload hr))
  | _ => None
  end.

Definition routed (hrs : list http_request) : list route :=
  flat_map (fun hr => match http_route hr with Some rt => [rt] | None => [] end) hrs.

(** What Flask answers by itself to a request that reaches no view. *)
Definition routing_answer (hr : http_request) : http_response :=
  match url_match (method hr) (path hr) with
  | NotFound => {| code := 404; allow := []; content := HtmlPage |}
  | MethodNotAllowed ms => {| code := 405; allow := ms; content := HtmlPage |}
  | Matched _ => {| code := 200; allow := allowed_methods (path hr); content := NoBody |}
  end.

(** The answers of a run of HTTP requests from the answers of the views
    it reaches, in order. *)
Fixpoint merge_answers (hrs : list http_request) (ans : list (exn + response)) : list http_response :=
  match hrs with
  | [] => []
  | hr :: r =>
      match http_route hr with
      | Some _ => match ans with
                  | a :: ans' => to_http (method hr) a :: merge_answers r ans'
                  | [] => []
                  end
      | None => routing_answer hr :: merge_answers r ans
      end
  end.

Section Routing.
Context `{PL : PdfLibraries} `{GM : GenerativeModel} `{RT : JsonRuntime}.
Variable upload_bytes : pystr.
(** What [Server] assumes of the float runtime (CPython's guarantees). *)
Hypothesis repr_literal :
  forall b, float_ok b = true -> special_float b = false -> float_literal (py_float_repr b) = true.
Hypothesis repr_roundtrip :
  forall b, float_ok b = true -> special_float b = false -> py_float (py_float_repr b) = b.
Hypothesis py_float_ok : forall s, float_ok (py_float s) = true.

(** [Flask.full_dispatch_request]: the routing error, the automatic
    [OPTIONS] answer, or the view. *)
Definition serve_http (w : world) (hr : http_request) : world * http_response :=
  match url_match (method hr) (path hr) with
  | NotFound => (w, {| code := 404; allow := []; content := HtmlPage |})
  | MethodNotAllowed ms => (w, {| code := 405; allow := ms; content := HtmlPage |})
  | Matched r =>
      if auto_options r && pystr_eqb (method hr) (lit "OPTIONS") then
        (w, {| code := 200; allow := allowed_methods (path hr); content := NoBody |})
      else
        let '(w', a) := serve upload_bytes w (route_of (endpoint r) (payload hr)) in
        (w', to_http (method hr) a)
  end.

(** [app.run()] over a sequence of HTTP requests. *)
Fixpoint serve_http_all (w : world) (hrs : list http_request) : world * list http_response :=
  match hrs with
  | [] => (w, [])
  | hr :: r => let '(w1, a) := serve_http w hr in let '(w2, ans) := serve_http_all w1 r in (w2, a :: ans)
  end.


(** ** The route table *)

Lemma upload_rule_methods : rule_methods (app_route (lit "/upload-pdf") [lit "POST"] UploadView) = [lit "POST"; lit "OPTIONS"].
Proof. reflexivity. Qed.

Lemma process_rule_methods : rule_methods (app_route (lit "/process-pdf") [lit "GET"] ProcessView) = [lit "GET"; lit "OPTIONS"; lit "HEAD"].
Proof. reflexivity. Qed.

Lemma mem_cons m a ms : mem m (a :: ms) = pystr_eqb m a || mem m ms.
Proof. reflexivity. Qed.

Lemma mem_nil m : mem m [] = false.
Proof. reflexivity. Qed.

(** The matcher on the two rules, path by path. *)
Lemma url_match_cases m p :
  url_match m p =
    if pystr_eqb (lit "/upload-pdf") p then
      if mem m [lit "POST"; lit "OPTIONS"] then Matched (app_route (lit "/upload-pdf") [lit "POST"] UploadView)
      else MethodNotAllowed [lit "POST"; lit "OPTIONS"]
    else if pystr_eqb (lit "/process-pdf") p then
      if mem m [lit "GET"; lit "OPTIONS"; lit "HEAD"] then Matched (app_route (lit "/process-pdf") [lit "GET"] ProcessView)
      else MethodNotAllowed [lit "GET"; lit "OPTIONS"; lit "HEAD"]
    else NotFound.
Proof.
  unfold url_match, url_map. cbn [match_rules].
  change (rule_path (app_route ?p _ _)) with p.
  rewrite upload_rule_methods, process_rule_methods.
  destruct (pystr_eqb (lit "/upload-pdf") p) eqn:E1.
  - apply pystr_eqb_eq in E1. subst p. destruct (mem m _); [reflexivity|].
    change (pystr_eqb (lit "/process-pdf") (lit "/upload-pdf")) with false. reflexivity.
  - destruct (pystr_eqb (lit "/process-pdf") p); [|reflexivity].
    destruct (mem m _); reflexivity.
Qed.

Lemma pystr_eqb_sym a b : pystr_eqb a b = pystr_eqb b a.
Proof.
  destruct (pystr_eqb a b) eqn:E; symmetry.
  - apply pystr_eqb_eq in E. subst. apply pystr_eqb_eq. reflexivity.
  - destruct (pystr_eqb b a) eqn:E'; [|reflexivity].
    apply pystr_eqb_eq in E'. subst. rewrite (proj2 (pystr_eqb_eq a a) eq_refl) in E. discriminate.
Qed.

Lemma pystr_eqb_false a b : pystr_eqb a b = false -> a <> b.
Proof. intros E ->. rewrite (proj2 (pystr_eqb_eq b b) eq_refl) in E. discriminate. Qed.

(** Case analysis on the string comparisons of a goal: closed ones are
    computed, the others split into an equation and a disequation. *)
Ltac pystr_cases :=
  repeat match goal with
  | |- context [pystr_eqb ?a ?b] =>
      first [ change (pystr_eqb a b) with false | change (pystr_eqb a b) with true
            | let E := fresh "E" in destruct (pystr_eqb a b) eqn:E;
              [apply pystr_eqb_eq in E; try subst | apply pystr_eqb_false in E] ]
  end.

(** C21: the route table of the two decorators: a request reaches a view
    exactly when it is [POST /upload-pdf], which reaches [upload_pdf],
    or [GET] or [HEAD /process-pdf], which reach [process_pdf]; every
    other method on those paths and every other path is answered by
    Flask without running a view. *)
Theorem route_table hr rt :
  http_route hr = Some rt <->
  (method hr = lit "POST" /\ path hr = lit "/upload-pdf" /\ rt = Upload (payload hr)) \/
  ((method hr = lit "GET" \/ method hr = lit "HEAD") /\ path hr = lit "/process-pdf" /\ rt = Process (payload hr)).
Proof.
  destruct hr as [m p q]. unfold http_route. cbn [method path payload]. rewrite url_match_cases.
  rewrite !mem_cons, mem_nil.
  change (auto_options (app_route _ [lit "POST"] _)) with true.
  change (auto_options (app_route _ [lit "GET"] _)) with true.
  change (endpoint (app_route _ _ ?v)) with v. cbn [route_of].
  pystr_cases; cbn [andb orb negb]; split; intros H; try discriminate; try (injection H as <-);
    intuition (try congruence; try discriminate; try (subst; reflexivity)).
Qed.

(** ** HTTP runs and the runs of [Server] *)

(** One HTTP request: the view it reaches, or Flask's own answer. *)
Lemma serve_http_eq w hr :
  serve_http w hr = match http_route hr with
                    | Some rt => (fst (serve upload_bytes w rt), to_http (method hr) (snd (serve upload_bytes w rt)))
                    | None => (w, routing_answer hr)
                    end.
Proof.
  unfold serve_http, http_route, routing_answer. destruct (url_match (method hr) (path hr)); try reflexivity.
  destruct (auto_options r && _); [reflexivity|]. destruct (serve upload_bytes w _); reflexivity.
Qed.

Lemma serve_all_cons w rt rts : fst (serve_all upload_bytes w (rt :: rts)) = fst (serve_all upload_bytes (fst (serve upload_bytes w rt)) rts).
Proof. cbn. destruct (serve upload_bytes w rt) as [w1 a]. cbn. destruct (serve_all upload_bytes w1 rts). reflexivity. Qed.

Lemma serve_http_all_cons w hr hrs : fst (serve_http_all w (hr :: hrs)) = fst (serve_http_all (fst (serve_http w hr)) hrs).
Proof. cbn. destruct (serve_http w hr) as [w1 a]. cbn. destruct (serve_http_all w1 hrs). reflexivity. Qed.

(** The disk a run of HTTP requests leaves. *)
Lemma serve_http_all_world w hrs : fst (serve_http_all w hrs) = fst (serve_all upload_bytes w (routed hrs)).
Proof.
  revert w. induction hrs as [|hr hrs IH]; intros w; [reflexivity|].
  rewrite serve_http_all_cons, IH, serve_http_eq. cbn [routed flat_map].
  destruct (http_route hr) as [rt|]; cbn [app fst]; [|reflexivity]. rewrite serve_all_cons. reflexivity.
Qed.

(** C22: [methods=['GET']] lets [HEAD] in: a [HEAD /process-pdf] runs
    [process_pdf] as the [GET] does, extraction, model call and output
    file included, and leaves the same disk and status, but the client
    receives no body. *)
Theorem head_process_pdf w q :
  serve_http w {| method := lit "HEAD"; path := lit "/process-pdf"; payload := q |}
  = let '(w', r) := serve_http w {| method := lit "GET"; path := lit "/process-pdf"; payload := q |} in
    (w', {| code := code r; allow := []; content := NoBody |}).
Proof.
  unfold serve_http. rewrite !url_match_cases. cbn -[serve].
  destruct (serve upload_bytes w (Process q)) as [w' [e|r]]; reflexivity.
Qed.

Lemma serve_all_preserves rts : forall w, json_files_load w -> json_files_load (fst (serve_all upload_bytes w rts)).
Proof.
  induction rts as [|rt rts IH]; intros w Hw; [exact Hw|].
  rewrite serve_all_cons. apply IH. apply serve_preserves; assumption.
Qed.

(** Every [.json] file a run of HTTP requests leaves is read by
    [json.loads], when the disk it started from had only such files. *)
Corollary serve_http_all_json_files_load w hrs :
  json_files_load w -> json_files_load (fst (serve_http_all w hrs)).
Proof. intros Hw. rewrite serve_http_all_world. apply serve_all_preserves. exact Hw. Qed.

(** The answer of a view carries a well-formed value. *)
Lemma serve_body_wf w rt r : snd (serve upload_bytes w rt) = inr r -> json_wf (body r) = true.
Proof.
  rewrite serve_answer. intros H. apply (handlers_body_wf py_float_ok (FS := disk_fs w)) with (req := match rt with Upload q | Process q => q end).
  destruct rt; cbn in H; [left|right]; exact H.
Qed.

(** C26: every JSON body the service sends is a well-formed value
    ([json_wf]: a dict with distinct keys, integers within 4300 digits):
    [jsonify] never fails on it, and the client's [json.loads] reads the
    text back as the value with its dicts sorted by key. *)
Theorem http_json_bodies_readable w hr j :
  content (snd (serve_http w hr)) = JsonBody j ->
  json_wf j = true /\ exists t, jsonify_text j = inr t /\ loads t = inr (sort_json j).
Proof.
  rewrite serve_http_eq. destruct (http_route hr) as [rt|].
  - cbn [snd]. unfold to_http. destruct (snd (serve upload_bytes w rt)) as [e|r] eqn:E.
    + destruct (pystr_eqb _ _); discriminate.
    + destruct (pystr_eqb _ _); [discriminate|]. cbn [content]. intros [= <-].
      pose proof (serve_body_wf w rt r E) as Hwf. split; [exact Hwf|].
      apply jsonify_text_loads; assumption.
  - unfold routing_answer. cbn [snd]. destruct (url_match _ _); discriminate.
Qed.

End Routing.

(** ** Witnesses *)

Definition missing_pdf_request : http_request :=
  {| method := lit "GET"; path := lit "/process-pdf"; payload := process_request (lit "x.pdf") |}.

Lemma http_json_bodies_readable_witness :
  content (snd (@serve_http text_pdf example_model decimal_runtime [] start_world missing_pdf_request))
    = JsonBody (error_body (lit "File x.pdf not found")) /\
  json_wf (error_body (lit "File x.pdf not found")) = true /\
  exists t, @jsonify_text decimal_runtime (error_body (lit "File x.pdf not found")) = inr t /\
    @loads decimal_runtime t = inr (sort_json (error_body (lit "File x.pdf not found"))).
Proof.
  assert (H : content (snd (@serve_http text_pdf example_model decimal_runtime [] start_world missing_pdf_request))
              = JsonBody (error_body (lit "File x.pdf not found"))) by (vm_compute; reflexivity).
  split; [exact H|].
  exact (@http_json_bodies_readable text_pdf example_model decimal_runtime []
           (fun b _ _ => decimal_repr_literal b) decimal_repr_roundtrip decimal_float_ok
           start_world missing_pdf_request _ H).
Defined.
