(* ===== verification/Process.v ===== *)
(** * The process: [os.environ], the model's configuration, the drivers

    Importing [query_llm] runs its module body: line 8 stores the key
    literal in [os.environ["GEMINI_API_KEY"]] ([os.putenv] underneath),
    line 9 reads it back and hands it to [genai.configure], which keeps
    it in the library's client configuration; every later
    [model.generate_content] is sent with that key.  [os.environ] is a
    finite map (stdpp's [gmap]); the genai library is the class
    [GenaiService], whose calls take the configured key, and
    [configured_model] is the [GenerativeModel] of [QueryLlm] it gives:
    the call, then [response.text].

    The key literal of line 8 is the section variable [key_literal]: the
    development does not reproduce it.

    [query_llm_main] is the script [python query_llm.py] (lines 80-83):
    the module body, one call with a constant prompt, and [print] of the
    response object ([str(response)], which is not [response.text]).
    [menu_api_main] is [python menu_api.py]: the imports of lines 6-7 run
    the bodies of [pdf_to_text] (definitions only) and [query_llm], then
    the body of [menu_api] ([import_menu_api]) and [app.run] over a
    sequence of HTTP requests ([Routing]), every request served with the
    model the import configured. *)

From Stdlib Require Import String Ascii List Bool.
From S2P Require Import Prelude PyStr Effects PdfToText PyJson JsonDecode QueryLlm MenuApi Server Routing.
From stdpp Require Import gmap strings.
Import ListNotations.
Open Scope pdfmenu_scope.

(** ** The environment *)

Record process : Type := {
  environ : gmap pystr pystr;     (** [os.environ] *)
  api_key : option pystr          (** the key [genai.configure] keeps *)
}.

Definition GEMINI_API_KEY : pystr := lit "GEMINI_API_KEY".

(** [os.environ[k] = v]: [os.putenv] refuses a NUL byte in either and a
    name that is empty or holds [=], before the map is changed. *)
Definition environ_setitem (env : gmap pystr pystr) (k v : pystr) : exn + gmap pystr pystr :=
  if existsb (Ascii.eqb "000"%char) (k ++ v) then inl (ValueError (lit "embedded null byte"))
  else if negb (truthy k) || existsb (Ascii.eqb "="%char) k then inl (ValueError (lit "illegal environment variable name"))
  else inr (<[k := v]> env).

(** [os.environ[k]]. *)
Definition environ_getitem (env : gmap pystr pystr) (k : pystr) : exn + pystr :=
  match env !! k with
  | Some v => inr v
  | None => inl (KeyError (py_repr_str k))
  end.

(** ** The generative-model library *)

(** [model.generate_content(prompt)] with the configured key, the
    response's [.text] (which raises when the reply has no text part),
    and [str(response)]. *)
Class GenaiService : Type := {
  gen_response : Type;
  service_generate : option pystr -> ModelSettings -> pystr -> exn + gen_response;
  response_text : gen_response -> exn + pystr;
  response_str : gen_response -> pystr
}.

(** The model of [QueryLlm] once [genai.configure(api_key=key)] has run:
    [model.generate_content(prompt).text]. *)
Definition configured_model `{GS : GenaiService} (key : option pystr) : GenerativeModel := {|
  generate_content s prompt :=
    match service_generate key s prompt with
    | inl e => inl e
    | inr r => response_text r
    end
|}.

(** ** Module bodies and drivers *)

Section Setup.
Variable key_literal : pystr.

(** Lines 8-9 of [query_llm.py]. *)
Definition query_llm_setup (p : process) : exn + process :=
  match environ_setitem (environ p) GEMINI_API_KEY key_literal with
  | inl e => inl e
  | inr env =>
      match environ_getitem env GEMINI_API_KEY with
      | inl e => inl e
      | inr k => inr {| environ := env; api_key := Some k |}
      end
  end.

Definition HELLO_PROMPT : pystr := lit "Return a hello world JSON please".

(** [python query_llm.py]: the module body, then lines 80-83. *)
Definition query_llm_main `{GS : GenaiService} (p : process) : M unit :=
  p1 <- lift (query_llm_setup p) ;;
  test_response <- call (EvGenerate HELLO_PROMPT) (service_generate (api_key p1) model HELLO_PROMPT) ;;
  call (EvPrint (response_str test_response)) (inr tt).

(** The imports of [menu_api.py]: lines 6-7 run the module bodies of
    [pdf_to_text] (no effect) and [query_llm], then lines 12-20 run. *)
Definition import_menu_api_process (p : process) (w : world) : exn + (process * world) :=
  match query_llm_setup p with
  | inl e => inl e
  | inr p1 =>
      match import_menu_api w with
      | inl e => inl e
      | inr w1 => inr (p1, w1)
      end
  end.

(** [python menu_api.py]: the imports, then [app.run] over HTTP requests,
    each view calling the model the import configured. *)
Definition menu_api_main `{PL : PdfLibraries} `{GS : GenaiService} `{RT : JsonRuntime}
    (upload_bytes : pystr) (p : process) (w : world) (hrs : list http_request)
    : exn + (process * (world * list http_response)) :=
  match import_menu_api_process p w with
  | inl e => inl e
  | inr (p1, w1) => inr (p1, @serve_http_all PL (configured_model (api_key p1)) RT upload_bytes w1 hrs)
  end.

(** The key literal holds no NUL byte. *)
Definition key_ok : bool := negb (existsb (Ascii.eqb "000"%char) key_literal).

(** Lines 8-9 always succeed on a key with no NUL byte: the map gains
    the key under [GEMINI_API_KEY], replacing what was there, and the
    lookup finds it. *)
Lemma query_llm_setup_ok p :
  key_ok = true ->
  query_llm_setup p = inr {| environ := <[GEMINI_API_KEY := key_literal]> (environ p); api_key := Some key_literal |}.
Proof.
  unfold key_ok, query_llm_setup, environ_setitem, environ_getitem. intros Hk.
  rewrite existsb_app. apply negb_true_iff in Hk. rewrite Hk.
  change (existsb (Ascii.eqb "000"%char) GEMINI_API_KEY) with false.
  change (negb (truthy GEMINI_API_KEY) || existsb (Ascii.eqb "="%char) GEMINI_API_KEY) with false.
  cbn [orb]. by rewrite lookup_insert_eq.
Qed.

Lemma import_menu_api_process_ok p w :
  key_ok = true ->
  import_menu_api_process p w
  = match import_menu_api w with
    | inl e => inl e
    | inr w1 => inr ({| environ := <[GEMINI_API_KEY := key_literal]> (environ p); api_key := Some key_literal |}, w1)
    end.
Proof. intros Hk. unfold import_menu_api_process. rewrite query_llm_setup_ok by exact Hk. reflexivity. Qed.

(** C24: whatever [os.environ] held when [python menu_api.py] starts (a
    [GEMINI_API_KEY] the user exported included), the import of
    [query_llm] overwrites it with the literal of line 8, leaves the
    other variables as they were, and every request [app.run] then
    serves calls the model with that literal key: the service is the
    HTTP server of [Routing] over the model configured with the key of
    the source, on the disk the import of [menu_api] leaves. *)
Theorem menu_api_main_hardcoded_key `{PL : PdfLibraries} `{GS : GenaiService} `{RT : JsonRuntime}
    upload_bytes p w hrs :
  key_ok = true ->
  menu_api_main upload_bytes p w hrs
  = match import_menu_api w with
    | inl e => inl e
    | inr w1 => inr ({| environ := <[GEMINI_API_KEY := key_literal]> (environ p); api_key := Some key_literal |},
                     @serve_http_all PL (configured_model (Some key_literal)) RT upload_bytes w1 hrs)
    end.
Proof.
  intros Hk. unfold menu_api_main. rewrite import_menu_api_process_ok by exact Hk.
  destruct (import_menu_api w); reflexivity.
Qed.

End Setup.

(** ** Witnesses *)

(** A service that answers every call with the same reply, whose
    [str(response)] wraps the text. *)
Definition echo_service (reply : exn + pystr) : GenaiService := {|
  gen_response := pystr;
  service_generate _ _ _ := reply;
  response_text r := inr r;
  response_str r := lit "response: " ++ r
|}.

Definition test_key : pystr := lit "test-key".

(** The user exported a key of their own. *)
Definition user_process : process := {| environ := {[GEMINI_API_KEY := lit "user-key"]}; api_key := None |}.

Lemma menu_api_main_hardcoded_key_witness :
  key_ok test_key = true /\
  exists p1 r, @menu_api_main test_key text_pdf (echo_service (inr (lit "{}"))) decimal_runtime [] user_process empty_world []
                = inr (p1, r) /\
               api_key p1 = Some test_key /\ environ p1 !! GEMINI_API_KEY = Some test_key.
Proof.
  split; [reflexivity|]. do 2 eexists. split.
  - rewrite (@menu_api_main_hardcoded_key test_key text_pdf (echo_service (inr (lit "{}"))) decimal_runtime
               [] user_process empty_world [] eq_refl).
    reflexivity.
  - split; [reflexivity|]. apply lookup_insert_eq.
Defined.

