(* ===== verification/Threads.v ===== *)
(** * Concurrent requests

    [app.run(debug=True)] starts Werkzeug's development server, which
    (since Flask 1.0, [threaded=True]) answers each request in a thread
    of its own.  [Server] answers the requests one after the other; here
    each request is a thread holding the calls of its trace, how many it
    has made, and the file it has opened for writing, and a schedule
    says which thread makes its next call.

    A thread's open file is the descriptor of [open(p, 'w')]: [O_TRUNC]
    empties the file when it is opened, and a write lands at the
    descriptor's own offset, replacing the bytes there ([overwrite]), as
    [write(2)] does without [O_APPEND].  [json.dump]'s text reaches the
    file when the buffered stream is flushed at the end of the [with]
    block; the model writes it in one call ([EvDump]).

    The traces are those of the requests on the disk they arrive at
    ([handle]): what a request reads ([os.path.exists], [open]'s checks)
    is that disk.  This is exact for a batch of requests none of which
    looks at a path another one saves or writes ([requests_isolated]),
    which the safety theorem assumes; an upload of [x.pdf] arriving
    with a [GET /process-pdf] of [x.pdf] is not such a batch. *)

From Stdlib Require Import String Ascii List Lia Bool PeanoNat ZArith.
From S2P Require Import Prelude PyStr Effects PdfToText PyJson JsonDecode JsonEncode PyPath QueryLlm MenuApi Server.
Import ListNotations.
Open Scope pdfmenu_scope.

(** ** Threads *)

(** A request's thread: the calls of its trace, how many it has made,
    and the file it has open for writing with the descriptor's offset. *)
Record thread : Type := Thread { trace : list event; pc : nat; fd : option (pystr * nat) }.

Record cstate : Type := CState { cworld : world; threads : list thread }.

(** [write(fd, t)] at offset [off]: the bytes from [off] on replaced by
    [t], the file extended as needed (a hole reads as zero bytes). *)
Definition overwrite (c : pystr) (off : nat) (t : pystr) : pystr :=
  firstn off c ++ repeat "000"%char (off - length c) ++ t ++ skipn (off + length t) c.

Definition content (w : world) (p : pystr) : pystr :=
  match get_file (disk w) p with Some c => c | None => [] end.

Definition with_disk (w : world) (d : files_t) : world := {| disk := d; dirs := dirs w; writing := writing w |}.

Section Threads.
Context `{PL : PdfLibraries} `{GM : GenerativeModel} `{RT : JsonRuntime}.
Variable upload_bytes : pystr.
(** What [Server] assumes of the float runtime (CPython's guarantees). *)
Hypothesis repr_literal :
  forall b, float_ok b = true -> special_float b = false -> float_literal (py_float_repr b) = true.
Hypothesis repr_roundtrip :
  forall b, float_ok b = true -> special_float b = false -> py_float (py_float_repr b) = b.
Hypothesis py_float_ok : forall s, float_ok (py_float s) = true.

(** One call of a thread: [file.save] and [open(p, 'w')] as in
    [apply_event], and the write of [json.dump]'s text at the offset of
    the thread's own descriptor. *)
Definition thread_event (w : world) (h : option (pystr * nat)) (ev : event) : world * option (pystr * nat) :=
  match ev with
  | EvSave p =>
      match open_error w p with
      | None => (with_disk w (put_file (disk w) p upload_bytes), h)
      | Some _ => (w, h)
      end
  | EvWrite p =>
      match open_error w p with
      | None => (with_disk w (put_file (disk w) p []), Some (p, 0))
      | Some _ => (w, h)
      end
  | EvDump t =>
      match h with
      | Some (p, off) => (with_disk w (put_file (disk w) p (overwrite (content w p) off t)), Some (p, off + length t))
      | None => (w, h)
      end
  | _ => (w, h)
  end.

(** The calls [evs] made in turn by one thread. *)
Definition thread_run (st : world * option (pystr * nat)) (evs : list event) : world * option (pystr * nat) :=
  fold_left (fun st ev => thread_event (fst st) (snd st) ev) evs st.

(** Thread [i] makes its next call; a finished thread, or an index out
    of range, changes nothing. *)
Definition step_thread (s : cstate) (i : nat) : cstate :=
  match nth_error (threads s) i with
  | Some th =>
      match nth_error (trace th) (pc th) with
      | Some ev =>
          let '(w', h') := thread_event (cworld s) (fd th) ev in
          {| cworld := w'; threads := set_nth i (Thread (trace th) (S (pc th)) h') (threads s) |}
      | None => s
      end
  | None => s
  end.

(** A run: the threads chosen in the order of the schedule. *)
Fixpoint run_schedule (sched : list nat) (s : cstate) : cstate :=
  match sched with
  | [] => s
  | i :: r => run_schedule r (step_thread s i)
  end.

(** The requests arriving together on [w], each in a thread. *)
Definition spawn (w : world) (rts : list route) : cstate :=
  {| cworld := w; threads := map (fun rt => Thread (fst (handle w rt)) 0 None) rts |}.




(** The footprint of a trace on the disk: the paths it looks at
    ([os.path.exists], [pdfplumber.open], [convert_from_path], and the
    directories [open] walks to the file it creates) and the paths it
    changes ([file.save], [open(p, 'w')]). *)
Definition read_paths (tr : list event) : list pystr :=
  flat_map (fun ev => match ev with
                      | EvExists p | EvOpen p | EvConvert p _ => [p]
                      | EvSave p | EvWrite p => parent_dirs p
                      | _ => [] end) tr.

Definition changed_paths (tr : list event) : list pystr :=
  flat_map (fun ev => match ev with EvSave p | EvWrite p => [p] | _ => [] end) tr.

Definition disjoint_paths (a b : list pystr) : bool :=
  forallb (fun p => negb (existsb (same_path p) b)) a.

(** No trace looks at a path another one changes. *)
Definition reads_isolated (trs : list (list event)) : bool :=
  forallb (fun i => forallb (fun j => (i =? j) || disjoint_paths (changed_paths (nth i trs [])) (read_paths (nth j trs [])))
                            (seq 0 (length trs)))
          (seq 0 (length trs)).

(** Requests served together of which none reads what another one saves
    or writes: each one makes the calls it makes on the disk they all
    arrive at, the traces [spawn] gives its threads. *)
Definition requests_isolated (w : world) (rts : list route) : bool :=
  reads_isolated (map (fun rt => fst (handle w rt)) rts).








(** ** The writes *)

Lemma overwrite_start c t : overwrite c 0 t = t ++ skipn (length t) c.
Proof. reflexivity. Qed.

Lemma walk_same w1 w2 qs : disk w1 = disk w2 -> dirs w1 = dirs w2 -> walk w1 qs = walk w2 qs.
Proof.
  intros Hd Hs. induction qs as [|q qs IH]; cbn [walk]; [reflexivity|].
  unfold is_dir, file_at. rewrite Hd, Hs, IH. reflexivity.
Qed.

(** [open] looks at the files and directories only. *)
Lemma open_error_same w1 w2 p : disk w1 = disk w2 -> dirs w1 = dirs w2 -> open_error w1 p = open_error w2 p.
Proof.
  intros Hd Hs. unfold open_error, parent_walk. rewrite (walk_same w1 w2 _ Hd Hs).
  unfold is_dir. rewrite Hs. reflexivity.
Qed.

(** ** One thread alone *)

Lemma run_schedule_app (s1 s2 : list nat) s : run_schedule (s1 ++ s2) s = run_schedule s2 (run_schedule s1 s).
Proof. revert s. induction s1 as [|i s1 IH]; intros s; [reflexivity|]. apply IH. Qed.

(** Thread [i] making [k] calls in a row. *)
Lemma run_thread_alone i k : forall s th,
  nth_error (threads s) i = Some th -> pc th + k <= length (trace th) ->
  run_schedule (repeat i k) s
  = let st := thread_run (cworld s, fd th) (firstn k (skipn (pc th) (trace th))) in
    {| cworld := fst st; threads := set_nth i (Thread (trace th) (pc th + k) (snd st)) (threads s) |}.
Proof.
  induction k as [|k IH]; intros s th Hi Hk.
  - destruct s as [w ths]. cbn in *. rewrite Nat.add_0_r. f_equal.
    revert i Hi. induction ths as [|t ths IHt]; intros [|i] Hi; cbn in *; try discriminate;
      [injection Hi as ->; destruct th; reflexivity | f_equal; apply IHt, Hi].
  - destruct (nth_error (trace th) (pc th)) as [ev|] eqn:Hev;
      [|apply nth_error_None in Hev; lia].
    cbn [repeat run_schedule]. unfold step_thread. rewrite Hi, Hev.
    destruct (thread_event (cworld s) (fd th) ev) as [w' h'] eqn:Ht.
    assert (Hlt : i < length (threads s)) by (apply nth_error_some_lt in Hi; exact Hi).
    rewrite IH with (th := Thread (trace th) (S (pc th)) h');
      [| cbn [threads]; rewrite nth_error_set_nth, Nat.eqb_refl;
         destruct (Nat.ltb_spec i (length (threads s))); [reflexivity | lia] | cbn; lia].
    cbn [threads cworld trace pc fd]. rewrite set_nth_twice, (skipn_nth_cons _ _ _ Hev).
    cbn [firstn]. unfold thread_run. cbn [fold_left fst snd]. rewrite Ht.
    do 3 f_equal. lia.
Qed.

(** ** A thread alone does what [serve] does *)

Lemma open_fail_dirs w1 w2 p : dirs w1 = dirs w2 -> open_error w1 p <> None -> open_error w2 p <> None.
Proof. intros H H1 H2. apply H1, (open_ok_dirs w2 w1 p (eq_sym H) H2). Qed.

(** A call that writes no [.json] file (before the output is opened)
    does the same in both models. *)
Lemma sim_inert w ws wc ev :
  inert w ev -> dirs ws = dirs w -> disk ws = disk wc -> dirs wc = dirs w -> writing ws = None ->
  disk (apply_event upload_bytes ws ev) = disk (fst (thread_event wc None ev)) /\
  dirs (apply_event upload_bytes ws ev) = dirs w /\ dirs (fst (thread_event wc None ev)) = dirs w /\
  writing (apply_event upload_bytes ws ev) = None /\ snd (thread_event wc None ev) = None.
Proof.
  intros Hi Hs Hd Hc Hw. destruct ev; cbn [apply_event thread_event fst snd inert] in *; try (repeat split; auto; fail).
  - rewrite (open_error_same ws wc _ Hd (eq_trans Hs (eq_sym Hc))).
    destruct (open_error wc _); cbn; repeat split; auto. rewrite Hd. reflexivity.
  - pose proof (open_fail_dirs w ws _ (eq_sym Hs) Hi) as H1. pose proof (open_fail_dirs w wc _ (eq_sym Hc) Hi) as H2.
    destruct (open_error ws _); [|contradiction]. destruct (open_error wc _); [|contradiction]. auto.
  - contradiction.
Qed.

Lemma sim_inert_run w pre : Forall (inert w) pre -> forall ws wc,
  dirs ws = dirs w -> disk ws = disk wc -> dirs wc = dirs w -> writing ws = None ->
  disk (fold_left (apply_event upload_bytes) pre ws) = disk (fst (thread_run (wc, None) pre)) /\
  dirs (fold_left (apply_event upload_bytes) pre ws) = dirs w /\ dirs (fst (thread_run (wc, None) pre)) = dirs w /\
  writing (fold_left (apply_event upload_bytes) pre ws) = None /\ snd (thread_run (wc, None) pre) = None.
Proof.
  unfold thread_run. induction 1 as [|ev pre Hev Hpre IH]; intros ws wc Hs Hd Hc Hw; [cbn; auto|].
  cbn [fold_left fst snd]. destruct (sim_inert w ws wc ev Hev Hs Hd Hc Hw) as (H1 & H2 & H3 & H4 & H5).
  destruct (thread_event wc None ev) as [wc' h'] eqn:E. cbn [fst snd] in *. subst h'. apply IH; auto.
Qed.

(** ** Two requests writing one output file *)

(** The calls of a request that writes its output: calls that write no
    [.json] file, then the open and the dump. *)
Lemma write_trace_shape w rt pre p t :
  fst (handle w rt) = pre ++ [EvWrite p; EvDump t] ->
  Forall (inert w) pre /\ open_error w p = None /\ endswith p (lit ".json") = true.
Proof.
  intros H. destruct (handle_disk repr_literal repr_roundtrip py_float_ok w rt)
    as (pre' & Hpre & [[Ht _] | (p' & out & v & Ht & Ho & He & _)]); rewrite H in Ht.
  - rewrite <- Ht in Hpre. apply Forall_app in Hpre as [_ Hl]. apply Forall_inv_tail, Forall_inv in Hl. contradiction.
  - apply app_two_inj in Ht as (-> & [= ->] & [= ->]). auto.
Qed.


(** One step of a schedule, thread [i] making the call [H] names. *)
Ltac thread_step H :=
  match goal with
  | |- context [run_schedule (?i :: ?r) ?s] =>
      change (run_schedule (i :: r) s) with (run_schedule r (step_thread s i));
      let o := eval hnf in (nth_error (threads s) i) in
      unfold step_thread at 1; change (nth_error (threads s) i) with o; cbn beta iota;
      cbn [trace pc]; rewrite H; cbn [thread_event fst snd cworld fd trace pc threads set_nth]
  end.

Lemma nth_error_two (l : list event) x y :
  nth_error (l ++ [x; y]) (length l) = Some x /\ nth_error (l ++ [x; y]) (S (length l)) = Some y.
Proof.
  rewrite !nth_error_app2 by lia. rewrite Nat.sub_diag. replace (S (length l) - length l) with 1 by lia. auto.
Qed.

(** Both threads open [p], then both write: the second text lands over
    the first, whose tail stays. *)
Lemma open_open_write_write W pre1 pre2 p t1 t2 :
  open_error W p = None ->
  get_file (disk (cworld (run_schedule [0; 1; 0; 1]
    (CState W [Thread (pre1 ++ [EvWrite p; EvDump t1]) (length pre1) None;
               Thread (pre2 ++ [EvWrite p; EvDump t2]) (length pre2) None])))) p
  = Some (t2 ++ skipn (length t2) t1).
Proof.
  intros Ho. destruct (nth_error_two pre1 (EvWrite p) (EvDump t1)) as [Ha Hb].
  destruct (nth_error_two pre2 (EvWrite p) (EvDump t2)) as [Hc Hd].
  assert (Ho' : forall d, open_error (with_disk W d) p = None) by (intros d; exact (open_ok_dirs W (with_disk W d) p eq_refl Ho)).
  thread_step Ha. rewrite Ho. cbn [fst snd]. thread_step Hc. rewrite Ho'. cbn [fst snd].
  thread_step Hb. thread_step Hd. cbn [run_schedule cworld disk with_disk]. unfold content. cbn [disk with_disk].
  rewrite !get_put_same. cbn [length Nat.add]. rewrite !overwrite_start, skipn_nil, app_nil_r. reflexivity.
Qed.

(** The calls before the open leave a thread with no file open and the
    directories as they were. *)
Lemma pre_phase w pre wc : Forall (inert w) pre -> dirs wc = dirs w ->
  dirs (fst (thread_run (wc, None) pre)) = dirs w /\ snd (thread_run (wc, None) pre) = None.
Proof.
  intros Hp Hc. destruct (sim_inert_run w pre Hp {| disk := disk wc; dirs := dirs wc; writing := None |} wc Hc eq_refl Hc eq_refl)
    as (_ & _ & H3 & _ & H5). auto.
Qed.

(** C19: two requests whose outputs go to one file [p] (as
    [pdf=menu.pdf] and [pdf=menu] do, both [./output_jsons/menu.json]),
    served by two threads: when both have opened [p] before either has
    written, the file ends up holding the second text written over the
    first, the first's tail left after it ([json.loads] rejects it when
    the second text is the shorter). *)
Theorem interleaved_writes w rt1 rt2 pre1 pre2 p t1 t2 :
  fst (handle w rt1) = pre1 ++ [EvWrite p; EvDump t1] ->
  fst (handle w rt2) = pre2 ++ [EvWrite p; EvDump t2] ->
  get_file (disk (cworld (run_schedule (repeat 0 (length pre1) ++ repeat 1 (length pre2) ++ [0; 1; 0; 1])
                                       (spawn w [rt1; rt2])))) p
  = Some (t2 ++ skipn (length t2) t1).
Proof.
  intros H1 H2. destruct (write_trace_shape w rt1 _ _ _ H1) as (Hp1 & Ho & _).
  destruct (write_trace_shape w rt2 _ _ _ H2) as (Hp2 & _ & _).
  rewrite !run_schedule_app.
  rewrite (run_thread_alone 0 (length pre1) (spawn w [rt1; rt2]) (Thread (fst (handle w rt1)) 0 None) eq_refl)
    by (cbn [trace pc]; rewrite H1, length_app; cbn; lia).
  cbn [trace pc fd cworld threads spawn map set_nth]. rewrite H1, skipn_O, firstn_app, firstn_all, Nat.sub_diag, firstn_O, app_nil_r.
  destruct (pre_phase w pre1 w Hp1 eq_refl) as [Hd1 Hh1]. rewrite Hh1.
  match goal with
  | |- context [run_schedule (repeat 1 _) ?s] =>
      rewrite (run_thread_alone 1 (length pre2) s (Thread (fst (handle w rt2)) 0 None) eq_refl)
        by (cbn [trace pc]; rewrite H2, length_app; cbn; lia)
  end.
  cbn [trace pc fd cworld threads set_nth Nat.add]. rewrite H2, skipn_O, firstn_app, firstn_all, Nat.sub_diag, firstn_O, app_nil_r.
  destruct (pre_phase w pre2 _ Hp2 Hd1) as [Hd2 Hh2]. rewrite Hh2.
  apply open_open_write_write. exact (open_ok_dirs w _ p (eq_sym Hd2) Ho).
Qed.

(** ** Distinct outputs: every interleaving is safe *)
















End Threads.

(** ** Two threads on the example menus *)

(** PDF libraries whose documents have one page, whose text is the
    document's path. *)
Definition path_pdf : PdfLibraries := {|
  pdf_page := pystr; pdf_image := pystr; pdf_doc := pystr;
  plumber_open := fun p => inr p; pdf_pages := fun p => inr [p]; extract_text := fun pg => inr pg;
  convert_from_path := fun _ _ => inr []; image_to_string := fun i => inr i |}.

(** A model whose reply quotes the text it was given as the summary. *)
Definition quoting_model : GenerativeModel := {|
  generate_content := fun _ prompt =>
    match prompt_input prompt with
    | Some t => inr (jlit "{'menu_summary': '" ++ t ++ jlit "'}")
    | None => inr (jlit "{}")
    end |}.

(** Two documents whose outputs share [./output_jsons/menu.json]. *)
Definition two_menus_world : world :=
  {| disk := [(lit "./example_pdfs/menu.pdf", []); (lit "./example_pdfs/menu", [])];
     dirs := [lit "output_jsons"; lit "example_pdfs"]; writing := None |}.

Definition menu_trace (n : pystr) : list event :=
  fst (@handle path_pdf quoting_model decimal_runtime two_menus_world (Process (process_request n))).

Definition race_pre (n : pystr) : list event := removelast (removelast (menu_trace n)).

Definition race_text (n : pystr) : pystr :=
  match last (menu_trace n) EvClose with EvDump t => t | _ => [] end.

Lemma interleaved_writes_witness :
  menu_trace (lit "menu.pdf")
  = race_pre (lit "menu.pdf") ++ [EvWrite (lit "./output_jsons/menu.json"); EvDump (race_text (lit "menu.pdf"))] /\
  menu_trace (lit "menu")
  = race_pre (lit "menu") ++ [EvWrite (lit "./output_jsons/menu.json"); EvDump (race_text (lit "menu"))] /\
  get_file (disk (cworld (run_schedule []
      (repeat 0 (length (race_pre (lit "menu.pdf"))) ++ repeat 1 (length (race_pre (lit "menu"))) ++ [0; 1; 0; 1])
      (spawn (PL:=path_pdf) (GM:=quoting_model) (RT:=decimal_runtime) two_menus_world
             [Process (process_request (lit "menu.pdf")); Process (process_request (lit "menu"))]))))
    (lit "./output_jsons/menu.json")
  = Some (race_text (lit "menu") ++ skipn (length (race_text (lit "menu"))) (race_text (lit "menu.pdf"))) /\
  @loads decimal_runtime (race_text (lit "menu") ++ skipn (length (race_text (lit "menu"))) (race_text (lit "menu.pdf")))
  = inl (JSONDecodeError (lit "Extra data: line 3 column 2 (char 51)")).
Proof.
  assert (H1 : menu_trace (lit "menu.pdf")
               = race_pre (lit "menu.pdf") ++ [EvWrite (lit "./output_jsons/menu.json"); EvDump (race_text (lit "menu.pdf"))])
    by (vm_compute; reflexivity).
  assert (H2 : menu_trace (lit "menu")
               = race_pre (lit "menu") ++ [EvWrite (lit "./output_jsons/menu.json"); EvDump (race_text (lit "menu"))])
    by (vm_compute; reflexivity).
  split; [exact H1|]. split; [exact H2|]. split; [|vm_compute; reflexivity].
  exact (interleaved_writes (PL:=path_pdf) (GM:=quoting_model) (RT:=decimal_runtime) []
           (fun b _ _ => decimal_repr_literal b) decimal_repr_roundtrip decimal_float_ok two_menus_world _ _ _ _ _ _ _ H1 H2).
Defined.

(** Two documents with outputs of their own. *)
Definition distinct_world : world :=
  {| disk := [(lit "./example_pdfs/a.pdf", []); (lit "./example_pdfs/b.pdf", [])];
     dirs := [lit "output_jsons"; lit "example_pdfs"]; writing := None |}.




(** An upload of [a.pdf] arriving with a [GET /process-pdf] of [a.pdf]
    is not isolated: the process request looks at the file the upload
    saves, so its calls depend on the interleaving. *)
Example upload_process_not_isolated :
  requests_isolated (PL:=path_pdf) (GM:=quoting_model) (RT:=decimal_runtime) distinct_world
    [Upload (upload_request (lit "a.pdf")); Process (process_request (lit "a.pdf"))] = false.
Proof. vm_compute. reflexivity. Qed.
