(* ===== verification/QueryString.v ===== *)
(** * Query strings: [request.args] of [process_pdf] ([src/menu_api.py], line 58)

    [request.args.get('pdf')] reads the query string of the request the
    way Werkzeug builds [request.args]: CPython's
    [urllib.parse.parse_qsl(query_string.decode(),
    keep_blank_values=True, errors="werkzeug.url_quote")] in a
    [MultiDict], whose [get] is the first value of the name
    ([MenuApi.lookup_first]).  [parse_qsl] splits on [&], drops empty
    fields, splits each field at its first [=] (a field with none has
    the value [""]), turns [+] into a space and [unquote]s both halves.
    [unquote] keeps the characters above U+007F as they are and
    percent-decodes each run of ASCII characters to bytes
    ([unquote_to_bytes]: a [%] not followed by two hex digits stays),
    then decodes those bytes as UTF-8; Werkzeug's error handler writes a
    byte that is not part of a valid sequence back as [%XX].

    Strings of the development are Latin-1 ([pystr]): decoding a valid
    sequence of a code point above U+00FF gives [None], the one place
    where the model stops short of the code.  The raw query string is
    ASCII (a client percent-encodes the rest); [bytes.decode()] is then
    the identity.

    [quote_plus] and [urlencode] are the client's side (CPython's
    [urllib.parse]), used to state that every name reaches the view. *)

From Stdlib Require Import String Ascii List Lia Bool PeanoNat.
From S2P Require Import Prelude PyStr Effects PdfToText PyJson JsonDecode QueryLlm MenuApi Server Routing.
(** [PyStr.code] over the [code] field of [Routing.http_response]. *)
Import PyStr ListNotations.
Open Scope pdfmenu_scope.

(** ** Bytes and hex digits *)

Definition is_ascii (c : ascii) : bool := code c <? 128.

(** A key of [_hextobyte]: one of [0123456789ABCDEFabcdef]. *)
Definition hexval (c : ascii) : option nat :=
  if in_range 48 57 c then Some (code c - 48)
  else if in_range 65 70 c then Some (code c - 55)
  else if in_range 97 102 c then Some (code c - 87)
  else None.

(** [item[:2]] looked up in [_hextobyte]. *)
Definition hex_pair (item : pystr) : option (ascii * pystr) :=
  match item with
  | h :: l :: r =>
      match hexval h, hexval l with
      | Some a, Some b => Some (ascii_of_nat (16 * a + b), r)
      | _, _ => None
      end
  | _ => None
  end.

(** [unquote_to_bytes(string)]: the first piece of [string.split(b'%')]
    as it is, each later piece with its leading escape decoded, or
    behind a literal [%] when it has none. *)
Definition unquote_to_bytes (s : pystr) : list ascii :=
  match split_on "%"%char s with
  | [] => []
  | b0 :: bits =>
      b0 ++ flat_map (fun item => match hex_pair item with
                                  | Some (b, r) => b :: r
                                  | None => "%"%char :: item
                                  end) bits
  end.

(** [quote(bytes, safe="")] of one byte, as the error handler writes it:
    [%] and two upper-case hex digits. *)
Definition hex_upper (n : nat) : ascii := ascii_of_nat (if n <? 10 then 48 + n else 55 + n).

Definition pct (b : ascii) : pystr := ["%"%char; hex_upper (code b / 16); hex_upper (code b mod 16)].

(** ** UTF-8 decoding with [errors="werkzeug.url_quote"] *)

Definition between (lo hi : nat) (b : ascii) : bool := in_range lo hi b.

(** The shape of a sequence led by [b]: its continuation bytes, and the
    range of the first one (UTF-8's well-formed table); [None] for a
    byte that starts no sequence. *)
Definition seq_shape (b : ascii) : option (nat * nat * nat) :=
  if between 194 223 b then Some (1, 128, 191)
  else if code b =? 224 then Some (2, 160, 191)
  else if between 225 236 b || between 238 239 b then Some (2, 128, 191)
  else if code b =? 237 then Some (2, 128, 159)
  else if code b =? 240 then Some (3, 144, 191)
  else if between 241 243 b then Some (3, 128, 191)
  else if code b =? 244 then Some (3, 128, 143)
  else None.

(** How many of the [n] continuation bytes expected are there, the first
    in [lo..hi], the others in [0x80..0xBF]. *)
Fixpoint cont_prefix (n lo hi : nat) (r : list ascii) : nat :=
  match n, r with
  | 0, _ | _, [] => 0
  | S n', c :: r' => if between lo hi c then S (cont_prefix n' 128 191 r') else 0
  end.

(** [bytes.decode("utf-8", "werkzeug.url_quote")]: ASCII bytes are
    characters; a well-formed two-byte sequence led by [0xC2] or [0xC3]
    is a character of U+0080..U+00FF; any other well-formed sequence is
    a code point above U+00FF ([None]); the lead byte of an ill-formed
    sequence and the continuation bytes it had (CPython's maximal
    subpart) are written back as [%XX] and decoding resumes after them.
    The fuel is the number of bytes: each round consumes one at least. *)
Fixpoint utf8_decode_fuel (fuel : nat) (bs : list ascii) : option pystr :=
  match fuel, bs with
  | _, [] => Some []
  | 0, _ :: _ => None
  | S f, b :: r =>
      if is_ascii b then option_map (cons b) (utf8_decode_fuel f r)
      else match seq_shape b with
           | None => option_map (app (pct b)) (utf8_decode_fuel f r)
           | Some (n, lo, hi) =>
               let k := cont_prefix n lo hi r in
               if k =? n then
                 match r with
                 | c :: r' => if between 194 195 b
                              then option_map (cons (ascii_of_nat ((code b - 192) * 64 + (code c - 128))))
                                     (utf8_decode_fuel f r')
                              else None
                 | [] => None
                 end
               else option_map (app (flat_map pct (b :: firstn k r))) (utf8_decode_fuel f (skipn k r))
           end
  end.

Definition utf8_decode (bs : list ascii) : option pystr := utf8_decode_fuel (length bs) bs.

(** ** [unquote] and [parse_qsl] *)

(** The run of ASCII characters [run] (kept reversed) percent-decoded. *)
Definition unquote_run (run : pystr) : option pystr := utf8_decode (unquote_to_bytes run).

(** [bits = _asciire.split(string)]: the characters above U+007F are
    kept, each maximal run of ASCII characters between them is
    decoded; [run] is the run read so far, reversed. *)
Fixpoint unquote_runs (run : pystr) (s : pystr) : option pystr :=
  match s with
  | [] => unquote_run (rev run)
  | c :: r =>
      if is_ascii c then unquote_runs (c :: run) r
      else match unquote_run (rev run), unquote_runs [] r with
           | Some d, Some t => Some (d ++ c :: t)
           | _, _ => None
           end
  end.

(** [unquote(string, errors="werkzeug.url_quote")]: a string with no
    [%] is returned as it is. *)
Definition unquote (s : pystr) : option pystr :=
  if negb (existsb (Ascii.eqb "%"%char) s) then Some s else unquote_runs [] s.

(** [name_value.split('=', 1)]: [None] when there is no [=]. *)
Fixpoint split_once (sep : ascii) (s : pystr) : option (pystr * pystr) :=
  match s with
  | [] => None
  | c :: r =>
      if Ascii.eqb c sep then Some ([], r)
      else option_map (fun nv => (c :: fst nv, snd nv)) (split_once sep r)
  end.

(** [.replace('+', ' ')]. *)
Definition replace_plus (s : pystr) : pystr :=
  map (fun c => if Ascii.eqb c "+"%char then " "%char else c) s.

(** One field: with [keep_blank_values=True] a field with no [=] has the
    value [""]. *)
Definition qsl_field (name_value : pystr) : pystr * pystr :=
  match split_once "="%char name_value with
  | Some nv => nv
  | None => (name_value, [])
  end.

(** The loop of [parse_qsl] over [qs.split('&')]: an empty field is
    skipped ([not strict_parsing]), every other one appended. *)
Fixpoint qsl_fields (query_args : list pystr) : option (list (pystr * pystr)) :=
  match query_args with
  | [] => Some []
  | name_value :: rest =>
      if negb (truthy name_value) then qsl_fields rest
      else
        let '(n, v) := qsl_field name_value in
        match unquote (replace_plus n), unquote (replace_plus v), qsl_fields rest with
        | Some name, Some value, Some r => Some ((name, value) :: r)
        | _, _, _ => None
        end
  end.

(** [parse_qsl(qs, keep_blank_values=True)]: [qs.split('&') if qs else []]. *)
Definition parse_qsl (qs : pystr) : option (list (pystr * pystr)) :=
  qsl_fields (if truthy qs then split_on "&"%char qs else []).

(** [request.args] of a request whose raw query string is [qs]:
    [bytes.decode()] is the identity on an ASCII query string. *)
Definition request_args (qs : pystr) : option (list (pystr * pystr)) :=
  if forallb is_ascii qs then parse_qsl qs else None.

(** ** The client: [urllib.parse.quote_plus] and [urlencode] *)

(** [_ALWAYS_SAFE]: ASCII letters and digits and [_.-~]. *)
Definition always_safe (c : ascii) : bool :=
  in_range 65 90 c || in_range 97 122 c || in_range 48 57 c ||
  existsb (Ascii.eqb c) (lit "_.-~").

(** [str.encode('utf-8')] of a Latin-1 character. *)
Definition utf8_encode (c : ascii) : list ascii :=
  if is_ascii c then [c] else [ascii_of_nat (192 + code c / 64); ascii_of_nat (128 + code c mod 64)].

Definition quote_byte (b : ascii) : pystr :=
  if always_safe b then [b] else if Ascii.eqb b " "%char then ["+"%char] else pct b.

(** [quote_plus(s, safe='')]. *)
Definition quote_plus (s : pystr) : pystr := flat_map quote_byte (flat_map utf8_encode s).

(** The field [urlencode] writes for one pair: [k=v], both quoted. *)
Definition encoded_field (kv : pystr * pystr) : pystr := quote_plus (fst kv) ++ "="%char :: quote_plus (snd kv).

(** [urlencode(pairs)]: the fields joined with [&]. *)
Definition urlencode (kvs : list (pystr * pystr)) : pystr := join (lit "&") (map encoded_field kvs).

(** ** Requests off the wire *)

(** What the WSGI server hands to Flask: the method, the path, the raw
    query string and the uploaded files. *)
Record wsgi_request : Type := {
  wsgi_method : pystr;
  wsgi_path : pystr;
  query_string : pystr;
  wsgi_files : list (pystr * pystr)
}.

(** The [request] the views see: [request.args] parsed from the query
    string ([None] only where the decoding leaves the model). *)
Definition flask_request (wr : wsgi_request) : option http_request :=
  match request_args (query_string wr) with
  | Some a => Some {| method := wsgi_method wr; path := wsgi_path wr;
                      payload := {| files := wsgi_files wr; args := a |} |}
  | None => None
  end.

Section Wire.
Context `{PL : PdfLibraries} `{GM : GenerativeModel} `{RT : JsonRuntime}.
Variable upload_bytes : pystr.

(** [app.run()] over requests as they arrive on the socket. *)
Fixpoint serve_wsgi_all (w : world) (wrs : list wsgi_request) : option (world * list http_response) :=
  match wrs with
  | [] => Some (w, [])
  | wr :: r =>
      match flask_request wr with
      | None => None
      | Some hr =>
          let '(w1, a) := serve_http upload_bytes w hr in
          option_map (fun res => (fst res, a :: snd res)) (serve_wsgi_all w1 r)
      end
  end.
End Wire.

(** The request a client sends for an [http_request] of the model: its
    arguments [urlencode]d into the query string. *)
Definition to_wsgi (hr : http_request) : wsgi_request :=
  {| wsgi_method := method hr; wsgi_path := path hr;
     query_string := urlencode (args (payload hr)); wsgi_files := files (payload hr) |}.

(** ** Decoding what the client encodes *)

#[local] Arguments ascii_of_nat : simpl never.

(** Any fuel at least the number of bytes gives the same decoding. *)
Lemma utf8_decode_fuel_enough f : forall bs g,
  length bs <= f -> length bs <= g -> utf8_decode_fuel f bs = utf8_decode_fuel g bs.
Proof.
  induction f as [|f IH]; intros [|b r] [|g] Hf Hg; cbn [length] in *; try lia; try reflexivity.
  cbn [utf8_decode_fuel].
  assert (Hsk : forall k, length (skipn k r) <= f /\ length (skipn k r) <= g)
    by (intros k; rewrite length_skipn; lia).
  destruct (is_ascii b); [rewrite (IH r g) by lia; reflexivity|].
  destruct (seq_shape b) as [[[n lo] hi]|]; [|rewrite (IH r g) by lia; reflexivity].
  destruct (_ =? n); [|rewrite (IH _ g) by apply Hsk; reflexivity].
  destruct r as [|c r']; [reflexivity|]. cbn [length] in *.
  destruct (between 194 195 b); [rewrite (IH r' g) by lia|]; reflexivity.
Qed.

Lemma in_range_true lo hi c : lo <= code c <= hi -> in_range lo hi c = true.
Proof. intros H. unfold in_range. apply andb_true_iff. split; apply Nat.leb_le; lia. Qed.

Lemma in_range_false lo hi c : code c < lo \/ hi < code c -> in_range lo hi c = false.
Proof.
  intros H. unfold in_range. apply andb_false_iff.
  destruct H; [left|right]; apply Nat.leb_gt; lia.
Qed.

(** The two bytes [str.encode('utf-8')] gives a character of
    U+0080..U+00FF: a lead [0xC2]/[0xC3] and a continuation byte. *)
Lemma utf8_encode_high c :
  is_ascii c = false ->
  exists b1 b2, utf8_encode c = [b1; b2] /\ 194 <= code b1 <= 195 /\ 128 <= code b2 <= 191 /\
  (code b1 - 192) * 64 + (code b2 - 128) = code c.
Proof.
  unfold utf8_encode, is_ascii. intros Ha. rewrite Ha. apply Nat.ltb_ge in Ha.
  exists (ascii_of_nat (192 + code c / 64)), (ascii_of_nat (128 + code c mod 64)). split; [reflexivity|].
  unfold code in *. pose proof (nat_ascii_bounded c) as Hc. set (n := nat_of_ascii c) in *.
  pose proof (Nat.div_mod_eq n 64). pose proof (Nat.mod_upper_bound n 64 ltac:(lia)).
  assert (2 <= n / 64 <= 3).
  { split; [apply Nat.div_le_lower_bound|apply Nat.lt_succ_r, Nat.Div0.div_lt_upper_bound]; lia. }
  rewrite !nat_ascii_embedding by lia. repeat split; lia.
Qed.

(** One Latin-1 character encoded and decoded. *)
Lemma utf8_decode_fuel_encode c bs f :
  length (utf8_encode c ++ bs) <= f ->
  utf8_decode_fuel f (utf8_encode c ++ bs) = option_map (cons c) (utf8_decode bs).
Proof.
  unfold utf8_decode. destruct (is_ascii c) eqn:Ha.
  - unfold utf8_encode. rewrite Ha. destruct f as [|f]; cbn [app length]; intros Hf; [lia|].
    cbn [utf8_decode_fuel]. rewrite Ha, (utf8_decode_fuel_enough f bs (length bs)) by lia. reflexivity.
  - destruct (utf8_encode_high c Ha) as (b1 & b2 & -> & H1 & H2 & H3).
    destruct f as [|f]; cbn [app length]; intros Hf; [lia|]. cbn [utf8_decode_fuel].
    assert (Hb1 : is_ascii b1 = false) by (apply Nat.ltb_ge; lia).
    unfold seq_shape, between. rewrite Hb1, (in_range_true 194 223 b1) by lia.
    change (cont_prefix 1 128 191 (b2 :: bs)) with (if in_range 128 191 b2 then 1 else 0).
    rewrite (in_range_true 128 191 b2), (in_range_true 194 195 b1) by lia.
    cbn [Nat.eqb]. rewrite H3, ascii_nat_embedding, (utf8_decode_fuel_enough f bs (length bs)) by lia.
    reflexivity.
Qed.

Lemma utf8_decode_encode s : utf8_decode (flat_map utf8_encode s) = Some s.
Proof.
  induction s as [|c s IH]; [reflexivity|]. unfold utf8_decode at 1. cbn [flat_map].
  rewrite utf8_decode_fuel_encode by lia. rewrite IH. reflexivity.
Qed.

Lemma split_on_not_nil sep s : split_on sep s <> [].
Proof. destruct s as [|c r]; cbn [split_on]; [discriminate|]. destruct (Ascii.eqb c sep), (split_on sep r); discriminate. Qed.

(** A character that is not [%] is copied by [unquote_to_bytes]. *)
Lemma unquote_to_bytes_cons c s :
  c <> "%"%char -> unquote_to_bytes (c :: s) = c :: unquote_to_bytes s.
Proof.
  intros Hc. unfold unquote_to_bytes. cbn [split_on].
  replace (Ascii.eqb c "%") with false by (symmetry; apply Ascii.eqb_neq, Hc).
  pose proof (split_on_not_nil "%"%char s). destruct (split_on "%"%char s); [contradiction|reflexivity].
Qed.

Lemma hexval_hex_upper n : n < 16 -> hexval (hex_upper n) = Some n.
Proof.
  intros Hn. unfold hexval, hex_upper.
  destruct (n <? 10) eqn:E; [apply Nat.ltb_lt in E|apply Nat.ltb_ge in E];
    unfold code; rewrite nat_ascii_embedding by lia.
  - rewrite in_range_true by (unfold code; rewrite nat_ascii_embedding; lia). f_equal. lia.
  - rewrite in_range_false, in_range_true by (unfold code; rewrite nat_ascii_embedding; lia). f_equal. lia.
Qed.

Lemma hex_upper_safe n : n < 16 -> always_safe (hex_upper n) = true.
Proof.
  intros Hn. unfold always_safe, hex_upper.
  destruct (n <? 10) eqn:E; [apply Nat.ltb_lt in E|apply Nat.ltb_ge in E].
  - rewrite (in_range_true 48 57) by (unfold code; rewrite nat_ascii_embedding; lia). now rewrite orb_true_r.
  - rewrite (in_range_true 65 90) by (unfold code; rewrite nat_ascii_embedding; lia). reflexivity.
Qed.

Lemma safe_not_special c : always_safe c = true -> c <> "+"%char /\ c <> "%"%char /\ c <> "&"%char /\ c <> "="%char.
Proof. intros H. repeat split; intros ->; discriminate H. Qed.

Lemma hex_upper_not_pct n : n < 16 -> hex_upper n <> "%"%char.
Proof. intros Hn. apply (safe_not_special _ (hex_upper_safe n Hn)). Qed.

(** [%XX] as [quote] writes it is read back as the byte. *)
Lemma unquote_to_bytes_pct b s : unquote_to_bytes (pct b ++ s) = b :: unquote_to_bytes s.
Proof.
  pose proof (nat_ascii_bounded b) as Hb.
  assert (Hh : code b / 16 < 16) by (apply Nat.Div0.div_lt_upper_bound; unfold code; lia).
  assert (Hl : code b mod 16 < 16) by (apply Nat.mod_upper_bound; lia).
  unfold pct, unquote_to_bytes. cbn [app split_on].
  change (Ascii.eqb "%" "%") with true.
  rewrite (proj2 (Ascii.eqb_neq _ _) (hex_upper_not_pct _ Hh)), (proj2 (Ascii.eqb_neq _ _) (hex_upper_not_pct _ Hl)).
  pose proof (split_on_not_nil "%"%char s). destruct (split_on "%"%char s) as [|p ps]; [contradiction|].
  cbn [app flat_map hex_pair]. rewrite !hexval_hex_upper by assumption.
  cbn [app]. f_equal. rewrite <- (Nat.div_mod_eq (code b) 16). apply ascii_nat_embedding.
Qed.

Lemma pct_chars b : Forall (fun c => always_safe c = true \/ c = "%"%char) (pct b).
Proof.
  pose proof (nat_ascii_bounded b) as Hb.
  assert (Hh : code b / 16 < 16) by (apply Nat.Div0.div_lt_upper_bound; unfold code; lia).
  assert (Hl : code b mod 16 < 16) by (apply Nat.mod_upper_bound; lia).
  unfold pct. repeat apply Forall_cons; auto using hex_upper_safe.
Qed.

(** The characters [quote_plus] writes: safe ones, [+] and [%]. *)
Definition quoted_char (c : ascii) : Prop := always_safe c = true \/ c = "+"%char \/ c = "%"%char.

Lemma quote_plus_chars s : Forall quoted_char (quote_plus s).
Proof.
  unfold quote_plus. apply Forall_flat_map. apply Forall_forall. intros b _. unfold quote_byte, quoted_char.
  destruct (always_safe b) eqn:E; [repeat apply Forall_cons; auto|].
  destruct (Ascii.eqb b " ") ; [repeat apply Forall_cons; auto|].
  eapply Forall_impl; [|apply pct_chars]. intros c [H|H]; auto.
Qed.

Lemma safe_ascii c : always_safe c = true -> is_ascii c = true.
Proof. destruct c as [[] [] [] [] [] [] [] []]; vm_compute; congruence. Qed.

Lemma quoted_char_ascii c : quoted_char c -> is_ascii c = true /\ c <> "&"%char /\ c <> "="%char.
Proof.
  intros [H|[->| ->]]; [|split; [reflexivity|split; discriminate]..].
  pose proof (safe_not_special c H) as (_ & _ & H3 & H4). auto using safe_ascii.
Qed.

Lemma replace_plus_app a b : replace_plus (a ++ b) = replace_plus a ++ replace_plus b.
Proof. apply map_app. Qed.

Lemma replace_plus_safe c : always_safe c = true -> replace_plus [c] = [c].
Proof.
  intros H. unfold replace_plus. cbn [map].
  rewrite (proj2 (Ascii.eqb_neq _ _) (proj1 (safe_not_special c H))). reflexivity.
Qed.

Lemma replace_plus_pct b : replace_plus (pct b) = pct b.
Proof.
  pose proof (pct_chars b) as H. unfold replace_plus. rewrite <- (map_id (pct b)) at 2.
  apply map_ext_in. intros c Hc. apply (proj1 (Forall_forall _ _) H) in Hc as [Hc| ->]; [|reflexivity].
  rewrite (proj2 (Ascii.eqb_neq _ _) (proj1 (safe_not_special c Hc))). reflexivity.
Qed.

(** The server side of one quoted byte, [+] read as a space. *)
Lemma unquote_to_bytes_quote bs : unquote_to_bytes (replace_plus (flat_map quote_byte bs)) = bs.
Proof.
  induction bs as [|b bs IH]; [reflexivity|]. cbn [flat_map]. rewrite replace_plus_app.
  unfold quote_byte at 1. destruct (always_safe b) eqn:Hs; [|destruct (Ascii.eqb b " ") eqn:Hsp].
  - rewrite replace_plus_safe by exact Hs. cbn [app].
    rewrite unquote_to_bytes_cons by apply (safe_not_special b Hs). f_equal. exact IH.
  - apply Ascii.eqb_eq in Hsp. subst b. cbn. rewrite unquote_to_bytes_cons by discriminate. f_equal. exact IH.
  - rewrite replace_plus_pct, unquote_to_bytes_pct. f_equal. exact IH.
Qed.

Lemma utf8_encode_ascii t : forallb is_ascii t = true -> flat_map utf8_encode t = t.
Proof.
  induction t as [|c t IH]; cbn [forallb flat_map]; [reflexivity|]. intros H.
  apply andb_true_iff in H as [Hc Ht]. rewrite IH by exact Ht. unfold utf8_encode. rewrite Hc. reflexivity.
Qed.

Lemma utf8_decode_ascii t : forallb is_ascii t = true -> utf8_decode t = Some t.
Proof. intros H. pose proof (utf8_decode_encode t) as E. rewrite (utf8_encode_ascii t H) in E. exact E. Qed.

Lemma unquote_runs_ascii t : forall run,
  forallb is_ascii t = true -> unquote_runs run t = unquote_run (rev run ++ t).
Proof.
  induction t as [|c t IH]; intros run H; cbn [unquote_runs]; [rewrite app_nil_r; reflexivity|].
  cbn [forallb] in H. apply andb_true_iff in H as [Hc Ht]. rewrite Hc, IH by exact Ht.
  cbn [rev]. rewrite <- app_assoc. reflexivity.
Qed.

(** On an ASCII string [unquote] is the decoding of its bytes: the
    shortcut for a string with no [%] gives the same. *)
Lemma unquote_ascii t : forallb is_ascii t = true -> unquote t = utf8_decode (unquote_to_bytes t).
Proof.
  intros H. unfold unquote. destruct (existsb (Ascii.eqb "%") t) eqn:E; cbn [negb].
  - rewrite unquote_runs_ascii by exact H. reflexivity.
  - assert (Hn : ~ In "%"%char t).
    { intros Hin. assert (existsb (Ascii.eqb "%") t = true) by (apply existsb_exists; exists "%"%char; auto using Ascii.eqb_refl).
      congruence. }
    unfold unquote_to_bytes. rewrite split_on_no_sep by exact Hn. rewrite app_nil_r.
    symmetry. apply utf8_decode_ascii, H.
Qed.

(** What [quote_plus] writes, [+] read as a space, is unquoted back. *)
Lemma unquote_quote_plus s : unquote (replace_plus (quote_plus s)) = Some s.
Proof.
  rewrite unquote_ascii.
  - unfold quote_plus. rewrite unquote_to_bytes_quote. apply utf8_decode_encode.
  - apply forallb_forall. intros c Hc. unfold replace_plus in Hc. apply in_map_iff in Hc as (c0 & <- & Hc0).
    apply (proj1 (Forall_forall _ _) (quote_plus_chars s)) in Hc0.
    destruct (Ascii.eqb c0 "+"); [reflexivity|apply (quoted_char_ascii c0 Hc0)].
Qed.

Lemma split_once_app sep a b : ~ In sep a -> split_once sep (a ++ sep :: b) = Some (a, b).
Proof.
  induction a as [|c a IH]; intros Hn; cbn [app split_once].
  - rewrite Ascii.eqb_refl. reflexivity.
  - rewrite (proj2 (Ascii.eqb_neq _ _)) by (intros ->; apply Hn; left; reflexivity).
    rewrite IH by (intros H; apply Hn; right; exact H). reflexivity.
Qed.

Lemma in_join c sep xs : In c (join sep xs) -> In c sep \/ exists x, In x xs /\ In c x.
Proof.
  induction xs as [|x r IH]; [intros []|]. destruct r as [|y ys].
  - intros H. right. exists x. split; [left; reflexivity|exact H].
  - rewrite join_cons_cons. intros H. apply in_app_or in H as [H|H]; [right; exists x; split; [left; reflexivity|exact H]|].
    apply in_app_or in H as [H|H]; [left; exact H|].
    destruct (IH H) as [H'|(z & Hz & Hcz)]; [left; exact H'|right; exists z; split; [right; exact Hz|exact Hcz]].
Qed.

Lemma encoded_field_chars kv c : In c (encoded_field kv) -> is_ascii c = true /\ c <> "&"%char.
Proof.
  unfold encoded_field. intros H. apply in_app_or in H as [H|[<-|H]]; [| split; [reflexivity|discriminate] |];
    apply (proj1 (Forall_forall _ _) (quote_plus_chars _)), quoted_char_ascii in H; tauto.
Qed.

Lemma qsl_fields_encoded kvs : qsl_fields (map encoded_field kvs) = Some kvs.
Proof.
  induction kvs as [|[k v] kvs IH]; [reflexivity|]. cbn [map qsl_fields]. rewrite IH.
  replace (truthy (encoded_field (k, v))) with true by (unfold encoded_field; cbn [fst snd]; destruct (quote_plus k); reflexivity).
  unfold qsl_field, encoded_field. cbn [fst snd]. rewrite split_once_app.
  - cbn [negb]. rewrite !unquote_quote_plus. reflexivity.
  - intros H. apply (proj1 (Forall_forall _ _) (quote_plus_chars k)), quoted_char_ascii in H. tauto.
Qed.

(** [request.args] reads back every query a client builds with
    [urlencode]: whatever names and values (any Latin-1 text, with [&],
    [=], [%], [+], spaces, slashes or dots in it), [parse_qsl] of the
    quoted query gives the pairs in order, so [request.args.get('pdf')]
    at line 58 can be any string the client chooses. *)
Theorem request_args_urlencode kvs : request_args (urlencode kvs) = Some kvs.
Proof.
  assert (Hf : Forall (fun x => ~ In "&"%char x) (map encoded_field kvs)).
  { apply Forall_forall. intros x Hx Hin. apply in_map_iff in Hx as (kv & <- & _).
    apply encoded_field_chars in Hin. tauto. }
  unfold request_args. replace (forallb is_ascii (urlencode kvs)) with true.
  - destruct kvs as [|kv r]; [reflexivity|]. unfold parse_qsl, urlencode.
    change (lit "&") with ["&"%char].
    replace (truthy _) with true by (cbn [map]; destruct r; cbn [join]; unfold encoded_field;
                                      destruct (quote_plus (fst kv)); reflexivity).
    rewrite split_on_join by (discriminate || exact Hf). apply qsl_fields_encoded.
  - symmetry. apply forallb_forall. intros c Hc. apply in_join in Hc as [[<-|[]]|(x & Hx & Hcx)]; [reflexivity|].
    apply in_map_iff in Hx as (kv & <- & _). apply encoded_field_chars in Hcx. tauto.
Qed.

Lemma flask_request_to_wsgi hr : flask_request (to_wsgi hr) = Some hr.
Proof.
  unfold flask_request, to_wsgi. cbn [query_string wsgi_method wsgi_path wsgi_files].
  rewrite request_args_urlencode. destruct hr as [m p [fs a]]. reflexivity.
Qed.

Section WireProps.
Context `{PL : PdfLibraries} `{GM : GenerativeModel} `{RT : JsonRuntime}.
Variable upload_bytes : pystr.

(** C23: the HTTP model is what arrives on the wire: for every run of
    requests of [Routing], the requests a client sends for them (the
    arguments [urlencode]d into the query string, whatever their text)
    are parsed by Werkzeug into exactly those requests, and [app.run]
    over them leaves the disk and gives the answers of [serve_http_all].
    So every [pdf] argument, an absolute path or one with [..] among
    them, reaches [process_pdf] as the client wrote it. *)
Theorem serve_wsgi_all_refines w hrs :
  serve_wsgi_all upload_bytes w (map to_wsgi hrs) = Some (serve_http_all upload_bytes w hrs).
Proof.
  revert w. induction hrs as [|hr hrs IH]; intros w; [reflexivity|].
  cbn [map serve_wsgi_all serve_http_all]. rewrite flask_request_to_wsgi.
  destruct (serve_http upload_bytes w hr) as [w1 a]. rewrite IH.
  destruct (serve_http_all upload_bytes w1 hrs). reflexivity.
Qed.
End WireProps.

(** The client's [..%2F] is decoded before [os.path.join]: the first
    [pdf] wins. *)
Example request_args_traversal :
  request_args (lit "pdf=..%2Fsecret%2Bmenu.pdf&pdf=x") = Some [(lit "pdf", lit "../secret+menu.pdf"); (lit "pdf", lit "x")].
Proof. vm_compute. reflexivity. Qed.

(** Escapes that are not hex and bytes that are not UTF-8 stay in the
    name as text; a field with no [=] has an empty value. *)
Example request_args_bad_escapes :
  request_args (lit "pdf=%zz+%C3&pdf") = Some [(lit "pdf", lit "%zz %C3"); (lit "pdf", [])].
Proof. vm_compute. reflexivity. Qed.
